(** * esxsnmp persistence tier: a shallow embedding of [persist.py]

    The development follows [src/python/esxsnmp/persist.py]: the memcached
    backed persist queue, the multi worker queue, the persist handler (the
    router), the TSDB persister and the history table persisters.

    Python objects are modelled as the code uses them: a dict is a finite
    map ([gmap]), an object is the finite map of its attributes, a method
    that mutates [self] or an argument returns the new state, and a method
    that can raise returns an [outcome].  External collaborators (the
    memcached server, pickle, the TSDB library, the relational store) are
    modelled by the operations the code calls on them. *)

From stdpp Require Import gmap strings list fin_maps pretty.
From Stdlib Require Import ZArith Lia Ascii Floats.

Local Open Scope Z_scope.

(** ** Part I: the embedding *)

(** *** Python runtime: exceptions, outcomes, logging *)

Inductive exn : Type :=
  | TypeError
  | KeyError
  | ValueError
  | AttributeError
  | UnboundLocalError
  | OverflowError
  | UnpicklingError
  | NoResultFound
  | MultipleResultsFound
  | TSDBError
  | TSDBVarDoesNotExistError
  | TSDBAggregateDoesNotExistError
  | InvalidMetaData.

Inductive outcome (A : Type) : Type :=
  | Return (a : A)
  | Raise (e : exn).
Arguments Return {A} a.
Arguments Raise {A} e.

(** A log record: the method of the logger that was called and its message. *)
Inductive loglevel : Type := LDebug | LInfo | LWarning | LError.

Record logrec : Type := LogRec { level : loglevel; message : string }.

(** A computation over a state [S]: the state is returned also when the
    computation raises, since the writes made before the exception stay. *)
Definition py (S A : Type) : Type := S → outcome A * S.

Definition py_ret {S A : Type} (a : A) : py S A := λ s, (Return a, s).

Definition py_raise {S A : Type} (e : exn) : py S A := λ s, (Raise e, s).

Definition py_bind {S A B : Type} (c : py S A) (k : A → py S B) : py S B :=
  λ s, match c s with
       | (Return a, s') => k a s'
       | (Raise e, s') => (Raise e, s')
       end.

Notation "'do' x <- c ; k" := (py_bind c (λ x, k))
  (at level 10, x name, c at level 100, k at level 200).
Notation "'do_' c ; k" := (py_bind c (λ _, k))
  (at level 10, c at level 100, k at level 200).

(** [for x in l: body x], stopping at the first exception. *)
Fixpoint py_for {S A : Type} (l : list A) (body : A → py S unit) : py S unit :=
  match l with
  | [] => py_ret tt
  | x :: l' => do_ body x; py_for l' body
  end.

(** *** The memcached server, as the client is used *)

(** python-memcache keeps the type of what was stored: an int comes back as
    an int, a str as a str. *)
Inductive mcval : Type :=
  | MCInt (n : Z)
  | MCStr (s : string).

Global Instance mcval_eq_dec : EqDecision mcval.
Proof. solve_decision. Defined.

(** The state the queue code works on: the server's key space and the
    records written to the logger. *)
Record world : Type := World {
  mc : gmap string mcval;
  logs : list logrec;
}.

Definition log_to (l : loglevel) (msg : string) : py world unit :=
  λ w, (Return tt, World (mc w) (logs w ++ [LogRec l msg])).

(** [mc.get(key)]: [None] when the key is absent. *)
Definition mc_get (key : string) : py world (option mcval) :=
  λ w, (Return (mc w !! key), w).

Definition mc_set (key : string) (v : mcval) : py world unit :=
  λ w, (Return tt, World (<[key := v]> (mc w)) (logs w)).

Definition mc_delete (key : string) : py world unit :=
  λ w, (Return tt, World (delete key (mc w)) (logs w)).

(** [mc.incr(key)]: the server adds one to a 64-bit unsigned counter, which
    wraps around, and answers the new value; the client answers [None] when
    the key is absent or does not hold a counter. *)
Definition mc_incr (key : string) : py world (option Z) :=
  λ w, match mc w !! key with
       | Some (MCInt n) =>
           let n' := (n + 1) mod 2 ^ 64 in
           (Return (Some n'), World (<[key := MCInt n']> (mc w)) (logs w))
       | _ => (Return None, w)
       end.

(** Python's truth value of what [mc.get] answered. *)
Definition truthy (v : option mcval) : bool :=
  match v with
  | None => false
  | Some (MCInt n) => negb (n =? 0)%Z
  | Some (MCStr s) => negb (String.eqb s "")
  end.

(** *** PersistQueue

    [serialize] and [deserialize] are [pickle.dumps] and [pickle.loads];
    [pickle_loads] answers [None] where [pickle.loads] raises.  [py_str] is
    [str(val)], used in log messages. *)
Class Pickle (V : Type) : Type := {
  pickle_dumps : V → string;
  pickle_loads : string → option V;
  py_str : V → string;
}.

Section persist_queue.
Context {V : Type} `{Pickle V}.

Definition serialize (val : V) : string := pickle_dumps val.

Definition deserialize (val : mcval) : py world V :=
  match val with
  | MCStr s =>
      match pickle_loads s with
      | Some v => py_ret v
      | None => py_raise UnpicklingError
      end
  | MCInt _ => py_raise TypeError
  end.

(** *** MemcachedPersistQueue *)

Definition PREFIX : string := "_mcpq_".

(** ['%s_%s_last_added' % (self.PREFIX, self.qname)] *)
Definition last_added (qname : string) : string :=
  PREFIX +:+ "_" +:+ qname +:+ "_last_added".

Definition last_read (qname : string) : string :=
  PREFIX +:+ "_" +:+ qname +:+ "_last_read".

(** ['%s_%s_%d' % (self.PREFIX, self.qname, qid)]; [%d] of [None] is a
    [TypeError]. *)
Definition slot_key (qname : string) (qid : Z) : string :=
  PREFIX +:+ "_" +:+ qname +:+ "_" +:+ pretty qid.

Definition slot (qname : string) (qid : option Z) : py world string :=
  match qid with
  | Some n => py_ret (slot_key qname n)
  | None => py_raise TypeError
  end.

(** [MemcachedPersistQueue.__init__] *)
Definition MemcachedPersistQueue_init (qname : string) : py world unit :=
  do la <- mc_get (last_added qname);
  do_ (if truthy la then py_ret tt else mc_set (last_added qname) (MCInt 0));
  do lr <- mc_get (last_read qname);
  if truthy lr then py_ret tt else mc_set (last_read qname) (MCInt 0).

(** [MemcachedPersistQueue.put] *)
Definition put (qname : string) (val : V) : py world unit :=
  let ser := serialize val in
  if negb (String.eqb ser "") then
    do qid <- mc_incr (last_added qname);
    do k <- slot qname qid;
    mc_set k (MCStr ser)
  else
    log_to LError ("failed to serialize: " +:+ py_str val).

(** [a - b] on what [mc.get] answered: only two ints subtract. *)
Definition py_sub (a b : option mcval) : py world Z :=
  match a, b with
  | Some (MCInt x), Some (MCInt y) => py_ret (x - y)
  | _, _ => py_raise TypeError
  end.

(** [MemcachedPersistQueue.__len__] *)
Definition MemcachedPersistQueue_len (qname : string) : py world Z :=
  do a <- mc_get (last_added qname);
  do b <- mc_get (last_read qname);
  do n <- py_sub a b;
  py_ret (if (n <? 0)%Z then 0 else n).

(** [sys.maxsize] of a 64-bit interpreter. *)
Definition sys_maxsize : Z := 2 ^ 63 - 1.

(** [len(self)]: the builtin refuses a length above [sys.maxsize]. *)
Definition len (qname : string) : py world Z :=
  do n <- MemcachedPersistQueue_len qname;
  if (sys_maxsize <? n)%Z then py_raise OverflowError else py_ret n.

(** [MemcachedPersistQueue.get]; the answer [None] is Python's [None]. *)
Definition get (qname : string) : py world (option V) :=
  do n <- len qname;
  if (n <=? 0)%Z then py_ret None
  else
    do qid <- mc_incr (last_read qname);
    do k <- slot qname qid;
    do val <- mc_get k;
    do_ mc_delete k;
    if truthy val then
      match val with
      | Some v => do r <- deserialize v; py_ret (Some r)
      | None => py_ret None
      end
    else
      do_ log_to LError "failed to deserialize: got None";
      py_ret None.

(** [MemcachedPersistQueue.reset] *)
Definition reset (qname : string) : py world unit :=
  do_ mc_set (last_added qname) (MCInt 0);
  mc_set (last_read qname) (MCInt 0).

(** [for v in vs: q.put(v)] *)
Definition put_all (qname : string) (vs : list V) : py world unit :=
  py_for vs (put qname).

(** [[q.get() for _ in range(n)]] *)
Fixpoint get_n (qname : string) (n : nat) : py world (list (option V)) :=
  match n with
  | O => py_ret []
  | S n' =>
      do r <- get qname;
      do rs <- get_n qname n';
      py_ret (r :: rs)
  end.
End persist_queue.

(** Characters a [%d] rendering can start with. *)
Definition numeric_head (s : string) : bool :=
  match s with
  | EmptyString => true
  | String c _ =>
      bool_decide (c ∈ ["0"; "1"; "2"; "3"; "4"; "5"; "6"; "7"; "8"; "9"; "-"]%char)
  end.

(** The queue [qname] holds the values [vs], oldest first, after [c] reads:
    the abstraction the counters and slots of the server implement. *)
Definition queue_holds {V : Type} `{Pickle V}
    (qname : string) (c : Z) (vs : list V) (w : world) : Prop :=
  mc w !! last_read qname = Some (MCInt c) ∧
  mc w !! last_added qname = Some (MCInt (c + Z.of_nat (length vs))) ∧
  ∀ (i : nat) (v : V), vs !! i = Some v →
    mc w !! slot_key qname (c + 1 + Z.of_nat i) = Some (MCStr (serialize v)).

(** A stand-in for pickle on strings, for the examples: a one character tag
    and the text. *)
Definition example_dumps (s : string) : string := String "S"%char s.

Definition example_loads (s : string) : option string :=
  match s with
  | String "S"%char r => Some r
  | _ => None
  end.

Definition example_pickle : Pickle string :=
  {| pickle_dumps := example_dumps; pickle_loads := example_loads; py_str := id |}.

(** The server with nothing stored and nothing logged. *)
Definition empty_world : world := World ∅ [].

(** The world after [get] took sequence number [qid] of queue [qname]: the
    read counter stands at [qid] and the slot is deleted. *)
Definition consumed (qname : string) (qid : Z) (w : world) : world :=
  World (delete (slot_key qname qid) (<[last_read qname := MCInt qid]> (mc w)))
        (logs w).

Definition logged (l : loglevel) (msg : string) (w : world) : world :=
  World (mc w) (logs w ++ [LogRec l msg]).

(** A queue with one pending slot that holds bytes pickle cannot load. *)
Definition undecodable_world : world :=
  World (<[slot_key "q" 1 := MCStr "garbage"]>
         (<[last_added "q" := MCInt 1]> (<[last_read "q" := MCInt 0]> ∅))) [].

(** *** Python values *)

(** What SNMP polls and table columns hold: [None], an int or a str. *)
Inductive value : Type :=
  | VNone
  | VInt (n : Z)
  | VStr (s : string).

Global Instance value_eq_dec : EqDecision value.
Proof. solve_decision. Defined.

(** *** PollResult *)

(** The fields [__init__] sets; [D] is the type of the opaque [data]. *)
Record PollResult (D : Type) : Type := mkPollResult {
  oidset_name : string;
  device_name : string;
  oid_name : string;
  timestamp : Z;
  data : D;
  metadata : gmap string value;
}.
Arguments mkPollResult {D}.
Arguments oidset_name {D}.
Arguments device_name {D}.
Arguments oid_name {D}.
Arguments timestamp {D}.
Arguments data {D}.
Arguments metadata {D}.

(** [str.lower()] of a byte string. *)
Definition lower_char (c : ascii) : ascii :=
  let n := nat_of_ascii c in
  if ((65 <=? n)%nat && (n <=? 90)%nat)%bool then ascii_of_nat (n + 32) else c.

Fixpoint lower (s : string) : string :=
  match s with
  | EmptyString => EmptyString
  | String c s' => String (lower_char c) (lower s')
  end.

(** *** MultiWorkerQueue *)

(** The attributes of a [MultiWorkerQueue].  [qtype] is always
    [MemcachedPersistQueue], whose instances are given by their [qname]:
    [queues] maps the name of each sibling to its queue object. *)
Record MultiWorkerQueue : Type := mkMultiWorkerQueue {
  qprefix : string;
  num_workers : Z;
  cur_worker : Z;
  queues : gmap string string;
  worker_map : gmap string Z;
}.

(** ["%s_%d" % (qprefix, i)] *)
Definition worker_name (qprefix : string) (i : Z) : string :=
  qprefix +:+ "_" +:+ pretty i.

(** Run a computation on the server next to an object's attributes. *)
Definition on_world {O A : Type} (c : py world A) : py (O * world) A :=
  λ s, let '(r, w') := c s.2 in (r, (s.1, w')).

Definition get_self {O : Type} : py (O * world) O :=
  λ s, (Return s.1, s).

Definition set_self {O : Type} (o : O) : py (O * world) unit :=
  λ s, (Return tt, (o, s.2)).

(** [MultiWorkerQueue.__init__]: builds the siblings [qprefix_1 ..
    qprefix_num_workers], each constructed on the server. *)
Definition MultiWorkerQueue_init (qprefix : string) (num_workers : Z)
    : py world MultiWorkerQueue :=
  let names := worker_name qprefix <$> seqZ 1 num_workers in
  do_ py_for names MemcachedPersistQueue_init;
  py_ret {| qprefix := qprefix;
            num_workers := num_workers;
            cur_worker := 1;
            queues := list_to_map ((λ n, (n, n)) <$> names);
            worker_map := ∅ |}.

Section multi_worker_queue.
Context {D : Type} `{Pickle (PollResult D)}.

(** [":".join((result.oidset_name, result.device_name))] *)
Definition shard_key (result : PollResult D) : string :=
  oidset_name result +:+ ":" +:+ device_name result.

(** [MultiWorkerQueue.get_worker] *)
Definition get_worker (result : PollResult D)
    : py (MultiWorkerQueue * world) string :=
  do self <- get_self;
  let k := shard_key result in
  do w <-
    match worker_map self !! k with
    | Some w => py_ret w
    | None =>
        let w := cur_worker self in
        let cur := cur_worker self + 1 in
        do_ on_world (log_to LDebug
              ("worker assigned: " +:+ k +:+ " " +:+ pretty w));
        do_ set_self {| qprefix := qprefix self;
                        num_workers := num_workers self;
                        cur_worker :=
                          if (num_workers self <? cur)%Z then 1 else cur;
                        queues := queues self;
                        worker_map := <[k := w]> (worker_map self) |};
        py_ret w
    end;
  py_ret (worker_name (qprefix self) w).

(** [MultiWorkerQueue.put] *)
Definition MultiWorkerQueue_put (result : PollResult D)
    : py (MultiWorkerQueue * world) unit :=
  do workerqname <- get_worker result;
  do self <- get_self;
  match queues self !! workerqname with
  | Some workerq => on_world (put workerq result)
  | None => py_raise KeyError
  end.

(** [for r in rs: names.append(q.get_worker(r))] *)
Fixpoint get_workers (rs : list (PollResult D))
    : py (MultiWorkerQueue * world) (list string) :=
  match rs with
  | [] => py_ret []
  | r :: rs' =>
      do n <- get_worker r;
      do ns <- get_workers rs';
      py_ret (n :: ns)
  end.
End multi_worker_queue.

(** The states a [MultiWorkerQueue] built with [qprefix] and [num_workers]
    goes through: construction, then calls of [get_worker] and [put] in any
    order, while the server is also used by others. *)
Inductive mwq_reachable {D : Type} `{Pickle (PollResult D)}
    (p : string) (n : Z) : MultiWorkerQueue * world → Prop :=
  | reach_init (w w' : world) (m : MultiWorkerQueue) :
      MultiWorkerQueue_init p n w = (Return m, w') →
      mwq_reachable p n (m, w')
  | reach_get_worker (s s' : MultiWorkerQueue * world)
        (r : PollResult D) (o : outcome string) :
      mwq_reachable p n s →
      get_worker r s = (o, s') →
      mwq_reachable p n s'
  | reach_put (s s' : MultiWorkerQueue * world)
        (r : PollResult D) (o : outcome unit) :
      mwq_reachable p n s →
      MultiWorkerQueue_put r s = (o, s') →
      mwq_reachable p n s'
  | reach_server (m : MultiWorkerQueue) (w w' : world) :
      mwq_reachable p n (m, w) →
      mwq_reachable p n (m, w').

(** The range invariant of a [MultiWorkerQueue] with [n] workers. *)
Definition mwq_inv (p : string) (n : Z) (m : MultiWorkerQueue) : Prop :=
  qprefix m = p ∧ num_workers m = n ∧
  1 ≤ cur_worker m ≤ n ∧
  (∀ k o, worker_map m !! k = Some o → 1 ≤ o ≤ n) ∧
  (∀ i, 1 ≤ i ≤ n → queues m !! worker_name p i = Some (worker_name p i)).

(** [PollResult.__str__]: ['%s.%s %d' % (device_name, oidset_name, timestamp)] *)
Definition PollResult_str {D : Type} (r : PollResult D) : string :=
  device_name r +:+ "." +:+ oidset_name r +:+ " " +:+ pretty (timestamp r).

(** A stand-in for pickle on poll results, for the examples: it dumps the
    text of [__str__] behind a tag and loads what it dumped of the results
    in [known]. *)
Definition example_result_pickle {D : Type} (known : list (PollResult D))
    : Pickle (PollResult D) :=
  {| pickle_dumps := λ r, "R" +:+ PollResult_str r;
     pickle_loads := λ s,
       snd <$> list_find (λ r, "R" +:+ PollResult_str r = s) known;
     py_str := PollResult_str |}.

(** *** HistoryTablePersister *)

(** A mapped object (a row of a history table) and a dict of the new data
    are both finite maps from attribute names to values. *)
Abbreviation row := (gmap string value).

(** The attributes of a history persister that [update_db] works on, and
    the database session: the rows of [old_data] already iterated, as the
    loop left them ([visited]), the rows handed to [db_session.add]
    ([added]) and the number of [db_session.commit] calls. *)
Record HistoryTablePersister : Type := mkHistoryTablePersister {
  key : string;
  old_data : list row;
  new_data : gmap string row;
  blank_row : row;
  device_id : value;
  visited : list row;
  added : list row;
  commits : nat;
  log : list logrec;
}.

Definition set_new_data (nd : gmap string row) (s : HistoryTablePersister)
    : HistoryTablePersister :=
  mkHistoryTablePersister (key s) (old_data s) nd (blank_row s) (device_id s)
    (visited s) (added s) (commits s) (log s).

Definition push_visited (r : row) (s : HistoryTablePersister)
    : HistoryTablePersister :=
  mkHistoryTablePersister (key s) (old_data s) (new_data s) (blank_row s)
    (device_id s) (visited s ++ [r]) (added s) (commits s) (log s).

Definition push_added (r : row) (s : HistoryTablePersister)
    : HistoryTablePersister :=
  mkHistoryTablePersister (key s) (old_data s) (new_data s) (blank_row s)
    (device_id s) (visited s) (added s ++ [r]) (commits s) (log s).

Definition push_log (l : list logrec) (s : HistoryTablePersister)
    : HistoryTablePersister :=
  mkHistoryTablePersister (key s) (old_data s) (new_data s) (blank_row s)
    (device_id s) (visited s) (added s) (commits s) (log s ++ l).

Definition push_commit (s : HistoryTablePersister) : HistoryTablePersister :=
  mkHistoryTablePersister (key s) (old_data s) (new_data s) (blank_row s)
    (device_id s) (visited s) (added s) (S (commits s)) (log s).

Definition modify {S : Type} (f : S → S) : py S unit :=
  λ s, (Return tt, f s).

Definition get_state {S : Type} : py S S := λ s, (Return s, s).

(** [for x in l: acc = body acc x] *)
Fixpoint py_foldl {S A B : Type} (body : B → A → py S B) (acc : B)
    (l : list A) : py S B :=
  match l with
  | [] => py_ret acc
  | x :: l' => do acc' <- body acc x; py_foldl body acc' l'
  end.

Section history_table.
(** [str(old)] of a mapped object, used in a log message. *)
Context (row_str : row → string).

(** [old.end_time = 'NOW'] *)
Definition close_row (old : row) : row := <["end_time" := VStr "NOW"]> old.

(** [_new_row_from_obj], the same in the three subclasses up to the mapped
    class: a fresh instance, [deviceid], [begin_time] and [end_time], then
    [setattr] of every item of the dict. *)
Definition _new_row_from_obj (s : HistoryTablePersister) (obj : row) : row :=
  foldl (λ r av, <[av.1 := av.2]> r)
    (<["end_time" := VStr "Infinity"]>
       (<["begin_time" := VStr "NOW"]>
          (<["deviceid" := device_id s]> (blank_row s))))
    (map_to_list obj).

(** ["Field " + attr + " is not contained in the object: %s" % str(old)],
    logged as an error. *)
Definition missing_field (old : row) (attr : string) : logrec :=
  LogRec LError ("Field " +:+ attr +:+
                 " is not contained in the object: " +:+ row_str old).

(** The loop over [attrs]: the flag [changed] and the records logged.  An
    attribute the old object does not have is logged and skipped; the first
    differing attribute ends the loop. *)
Fixpoint attrs_changed (old new : row) (attrs : list string)
    : bool * list logrec :=
  match attrs with
  | [] => (false, [])
  | attr :: rest =>
      match old !! attr with
      | None =>
          let '(changed, l) := attrs_changed old new rest in
          (changed, missing_field old attr :: l)
      | Some ov =>
          if bool_decide (Some ov ≠ new !! attr) then (true, [])
          else attrs_changed old new rest
      end
  end.

(** [key in self.new_data], for the value of the key attribute: the keys of
    the dict are strs. *)
Definition find_new (nd : gmap string row) (kv : value)
    : option (string * row) :=
  match kv with
  | VStr k => pair k <$> nd !! k
  | _ => None
  end.

(** The body of [for old in self.old_data], on the counters
    [(changes, deletes)]. *)
Definition update_db_old (cd : Z * Z) (old : row)
    : py HistoryTablePersister (Z * Z) :=
  do self <- get_state;
  match old !! key self with
  | None => py_raise AttributeError
  | Some kv =>
      match find_new (new_data self) kv with
      | Some (k, new) =>
          (* attrs = new.keys(); attrs.remove(self.key) *)
          match new !! key self with
          | None => py_raise ValueError
          | Some _ =>
              let attrs :=
                filter (λ a, a ≠ key self) (map_to_list new).*1 in
              let '(changed, l) := attrs_changed old new attrs in
              do_ modify (push_log l);
              do cd' <-
                (if changed then
                   do_ modify (push_visited (close_row old));
                   do_ modify (push_added (_new_row_from_obj self new));
                   py_ret (cd.1 + 1, cd.2)
                 else
                   do_ modify (push_visited old);
                   py_ret cd);
              do_ modify (set_new_data (delete k (new_data self)));
              py_ret cd'
          end
      | None =>
          do_ modify (push_visited (close_row old));
          py_ret (cd.1, cd.2 + 1)
      end
  end.

(** The body of [for new in self.new_data], on the counter [adds]. *)
Definition update_db_new (adds : Z) (new : string)
    : py HistoryTablePersister Z :=
  do self <- get_state;
  match new_data self !! new with
  | None => py_raise KeyError
  | Some obj =>
      do_ modify (push_added (_new_row_from_obj self obj));
      py_ret (adds + 1)
  end.

(** [HistoryTablePersister.update_db]: answers [(adds, changes, deletes)]. *)
Definition update_db : py HistoryTablePersister (Z * Z * Z) :=
  do self <- get_state;
  do cd <- py_foldl update_db_old (0, 0) (old_data self);
  do self' <- get_state;
  do adds <- py_foldl update_db_new 0 (map_to_list (new_data self')).*1;
  do_ modify push_commit;
  py_ret (adds, cd.1, cd.2).
End history_table.

(** A row is live when its [end_time] is still ['Infinity']: what the query
    [end_time > 'NOW'] selects. *)
Definition live (r : row) : Prop := r !! "end_time" = Some (VStr "Infinity").

Global Instance live_dec (r : row) : Decision (live r).
Proof. unfold live. apply _. Defined.

(** The live rows a run of [update_db] leaves behind. *)
Definition live_rows (s : HistoryTablePersister) : list row :=
  filter live (visited s ++ added s).

(** A persister about to run [update_db]: [store] has set [old_data],
    [new_data] and [key]; nothing is visited, added or logged yet. *)
Definition start_run (key : string) (blank : row) (dev : value)
    (old_data : list row) (new_data : gmap string row)
    : HistoryTablePersister :=
  mkHistoryTablePersister key old_data new_data blank dev [] [] 0 [].

(** A snapshot as [_build_objs] makes it: the dict stored under [k] carries
    [k] as its key attribute, and no attribute named [end_time]. *)
Definition snapshot_wf (key : string) (nd : gmap string row) : Prop :=
  ∀ k new, nd !! k = Some new →
    new !! key = Some (VStr k) ∧ new !! "end_time" = None.

(** The rows the query yields: mapped objects with the key attribute, all
    of them live. *)
Definition old_data_wf (key : string) (old_data : list row) : Prop :=
  Forall (λ old, is_Some (old !! key) ∧ live old) old_data.

(** The old object and the new dict agree on every attribute of the dict,
    other than the key, that the object has. *)
Definition agrees (key : string) (old new : row) : Prop :=
  ∀ attr, attr ≠ key → is_Some (new !! attr) →
    old !! attr = None ∨ old !! attr = new !! attr.

(** A live row that the snapshot [nd] describes. *)
Definition settled (key : string) (nd : gmap string row) (r : row) : Prop :=
  ∃ k new, r !! key = Some (VStr k) ∧ nd !! k = Some new ∧ agrees key r new.

(** The invariant of a run of [update_db] against the snapshot [nd]: [P]
    holds of the keys of the snapshot still to be handled and [L] are the
    live rows so far.  Every live row is described by the snapshot under a
    key that is handled, no two live rows share a key, and every key of the
    snapshot is still to be handled or has its live row. *)
Definition run_inv (key : string) (nd : gmap string row)
    (P : string → Prop) (L : list row) : Prop :=
  Forall (λ r, live r ∧ ∃ k new, r !! key = Some (VStr k) ∧
                 nd !! k = Some new ∧ ¬ P k ∧ agrees key r new) L ∧
  NoDup ((λ r : row, r !! key) <$> L) ∧
  (∀ k, is_Some (nd !! k) →
        P k ∨ ∃ r, r ∈ L ∧ r !! key = Some (VStr k)).

(** What becomes of an old row in a run of [update_db]. *)
Inductive verdict : Type := Untouched | Changed | Deleted.

Global Instance verdict_eq_dec : EqDecision verdict.
Proof. solve_decision. Defined.

(** [agrees], decided attribute by attribute of the new dict. *)
Definition agreesb (key : string) (old new : row) : bool :=
  bool_decide (map_Forall (λ attr nv,
    attr = key ∨ old !! attr = None ∨ old !! attr = Some nv) new).

(** The verdict on one old row against the entries still in the new data,
    and the entries left: the row is deleted when its key has no entry,
    changed when the entry has a differing attribute, untouched otherwise;
    a matched entry is taken out. *)
Definition verdict_of (key : string) (nd : gmap string row) (old : row)
    : verdict * gmap string row :=
  match old !! key with
  | Some (VStr k) =>
      match nd !! k with
      | Some new =>
          (if agreesb key old new then Untouched else Changed, delete k nd)
      | None => (Deleted, nd)
      end
  | _ => (Deleted, nd)
  end.

Fixpoint verdicts (key : string) (nd : gmap string row) (olds : list row)
    : list verdict * gmap string row :=
  match olds with
  | [] => ([], nd)
  | old :: olds' =>
      let '(v, nd') := verdict_of key nd old in
      let '(vs, rest) := verdicts key nd' olds' in
      (v :: vs, rest)
  end.

Definition count_verdict (v : verdict) (vs : list verdict) : Z :=
  Z.of_nat (length (filter (λ x, x = v) vs)).

(** The row as the first loop leaves it under a verdict. *)
Definition apply_verdict (old : row) (v : verdict) : row :=
  match v with
  | Untouched => old
  | _ => <["end_time" := VStr "NOW"]> old
  end.

(** What [update_db] needs to run through: every old object has the key
    attribute and every dict of the new data has the key item. *)
Definition keyed (key : string) (old_data : list row)
    (nd : gmap string row) : Prop :=
  Forall (λ old, is_Some (old !! key)) old_data ∧
  ∀ k new, nd !! k = Some new → is_Some (new !! key).

(** Scenario S2 of the specification: the device has the live interface
    [Gi0/1]; the new snapshot omits it and has [Gi0/2]. *)
Definition s2_old_data : list row :=
  [ {[ "ifdescr" := VStr "Gi0/1"; "ifindex" := VInt 1;
       "ifspeed" := VInt 1000; "deviceid" := VInt 7;
       "begin_time" := VStr "2010-01-01"; "end_time" := VStr "Infinity" ]} ].

Definition s2_new_data : gmap string row :=
  {[ "Gi0/2" := {[ "ifdescr" := VStr "Gi0/2"; "ifindex" := VInt 2;
                   "ifspeed" := VInt 1000 ]} ]}.

(** A fresh [IfRef()]: the columns, all [None]. *)
Definition s2_blank : row :=
  {[ "id" := VNone; "deviceid" := VNone; "begin_time" := VNone;
     "end_time" := VNone; "ifdescr" := VNone; "ifindex" := VNone;
     "ifspeed" := VNone ]}.

Definition example_row_str (r : row) : string :=
  match r !! "ifdescr" with
  | Some (VStr d) => "<IfRef " +:+ d +:+ ">"
  | _ => "<IfRef>"
  end.

(** An old row and a snapshot entry for it that also carries [ipAddr],
    which the mapped object does not have. *)
Definition unknown_attr_old : row :=
  {[ "ifdescr" := VStr "Gi0/1"; "ifindex" := VInt 1; "ifspeed" := VInt 1000;
     "deviceid" := VInt 7; "begin_time" := VStr "2010-01-01";
     "end_time" := VStr "Infinity" ]}.

Definition unknown_attr_new : row :=
  {[ "ifdescr" := VStr "Gi0/1"; "ifindex" := VInt 1; "ifspeed" := VInt 1000;
     "ipAddr" := VStr "10.0.0.1" ]}.

(** *** MemcachedPersistHandler *)

(** The two options of the configuration the handler reads:
    [persist_queues] maps a queue name to its persister class name and
    worker count, [persist_map] a lower-case oidset name to queue names. *)
Record Config : Type := mkConfig {
  persist_queues : gmap string (string * Z);
  persist_map : gmap string (list string);
}.

(** A queue object of the handler: a [MemcachedPersistQueue], given by its
    [qname], or a [MultiWorkerQueue]. *)
Inductive queue_obj : Type :=
  | SingleQueue (qname : string)
  | MultiQueue (m : MultiWorkerQueue).

Record MemcachedPersistHandler : Type := mkMemcachedPersistHandler {
  handler_queues : gmap string queue_obj;
  handler_config : Config;
}.

(** The body of the loop of [MemcachedPersistHandler.__init__]. *)
Definition MemcachedPersistHandler_init_queue (config : Config)
    (qs : gmap string queue_obj) (qname : string)
    : py world (gmap string queue_obj) :=
  match persist_queues config !! qname with
  | None => py_raise KeyError
  | Some (_, num_workers) =>
      if (1 <? num_workers)%Z then
        do m <- MultiWorkerQueue_init qname num_workers;
        py_ret (<[qname := MultiQueue m]> qs)
      else
        do_ MemcachedPersistQueue_init qname;
        py_ret (<[qname := SingleQueue qname]> qs)
  end.

(** [MemcachedPersistHandler.__init__] *)
Definition MemcachedPersistHandler_init (config : Config)
    : py world MemcachedPersistHandler :=
  do qs <- py_foldl (MemcachedPersistHandler_init_queue config) ∅
             (map_to_list (persist_queues config)).*1;
  py_ret (mkMemcachedPersistHandler qs config).

Section persist_handler.
Context {D : Type} `{Pickle (PollResult D)}.

(** [q.put(result)] on the queue object that [self.queues] holds under
    [qname]; a [MultiWorkerQueue] is updated in place. *)
Definition queue_obj_put (qname : string) (result : PollResult D)
    : py (MemcachedPersistHandler * world) unit :=
  λ s,
    match handler_queues s.1 !! qname with
    | Some (SingleQueue n) => on_world (put n result) s
    | Some (MultiQueue m) =>
        let '(r, (m', w')) := MultiWorkerQueue_put result (m, s.2) in
        (r, (mkMemcachedPersistHandler
               (<[qname := MultiQueue m']> (handler_queues s.1))
               (handler_config s.1), w'))
    | None => (Raise KeyError, s)
    end.

(** The body of [for qname in qnames]; [q] is the local variable, unbound
    ([None]) before the first successful lookup, and names the queue object
    by the key it is stored under. *)
Definition MemcachedPersistHandler_put_queue (result : PollResult D)
    (q : option string) (qname : string)
    : py (MemcachedPersistHandler * world) (option string) :=
  do self <- get_self;
  do q' <-
    match handler_queues self !! qname with
    | Some _ => py_ret (Some qname)
    | None =>
        do_ on_world (log_to LError ("unknown queue: " +:+ qname));
        py_ret q
    end;
  match q' with
  | None => py_raise UnboundLocalError
  | Some n => do_ queue_obj_put n result; py_ret q'
  end.

(** [MemcachedPersistHandler.put] *)
Definition MemcachedPersistHandler_put (result : PollResult D)
    : py (MemcachedPersistHandler * world) unit :=
  do self <- get_self;
  match persist_map (handler_config self) !! lower (oidset_name result) with
  | None =>
      on_world (log_to LError ("unknown oidset: " +:+ oidset_name result))
  | Some qnames =>
      do_ py_foldl (MemcachedPersistHandler_put_queue result) None qnames;
      py_ret tt
  end.
End persist_handler.

(** The configuration of the examples: a single-worker history queue and a
    three-worker TSDB queue. *)
Definition example_config : Config :=
  {| persist_queues :=
       {[ "ifref" := ("IfRefPollPersister", 1);
          "tsdb" := ("TSDBPollPersister", 3) ]};
     persist_map :=
       {[ "fastpoll" := ["tsdb"]; "ifrefpoll" := ["ifref"; "tsdb"] ]} |}.

Definition example_result : PollResult unit :=
  mkPollResult "FastPoll" "router1" "ifHCInOctets" 1288000000 tt ∅.

Definition unrouted_result : PollResult unit :=
  mkPollResult "NoSuchSet" "router1" "ifHCInOctets" 1288000000 tt ∅.

Definition ifref_result : PollResult unit :=
  mkPollResult "IfRefPoll" "router1" "ifDescr" 1288000000 tt ∅.

(** The handler constructed for [example_config] on an empty server. *)
Definition example_start : MemcachedPersistHandler * world :=
  match MemcachedPersistHandler_init example_config empty_world with
  | (Return h, w) => (h, w)
  | (Raise _, w) => (mkMemcachedPersistHandler ∅ example_config, w)
  end.

(** A configuration whose [persist_map] names a queue that
    [persist_queues] does not have, before one that it has; and the
    handler constructed for it on an empty server. *)
Definition misrouted_config : Config :=
  {| persist_queues := persist_queues example_config;
     persist_map := {[ "ifrefpoll" := ["nosuch"; "ifref"] ]} |}.

Definition misrouted_start : MemcachedPersistHandler * world :=
  match MemcachedPersistHandler_init misrouted_config empty_world with
  | (Return h, w) => (h, w)
  | (Raise _, w) => (mkMemcachedPersistHandler ∅ misrouted_config, w)
  end.

(** *** Python builtins on strings *)

(** [try: c except ...: handler]: [handler e] is the body of the clause that
    catches [e], if one does; what the body raises is not caught. *)
Definition py_catch {S A : Type} (c : py S A) (handler : exn → option (py S A))
    : py S A :=
  λ s, match c s with
       | (Return a, s') => (Return a, s')
       | (Raise e, s') =>
           match handler e with
           | Some h => h s'
           | None => (Raise e, s')
           end
       end.

(** An outcome that does not depend on the state. *)
Definition py_lift {S A : Type} (o : outcome A) : py S A := λ s, (o, s).

(** [d[k]] on a dict: [KeyError] when the key is absent. *)
Definition py_getitem {S A : Type} (d : gmap string A) (k : string) : py S A :=
  match d !! k with
  | Some v => py_ret v
  | None => py_raise KeyError
  end.

(** [s.split(sep)] for a separator of one character. *)
Fixpoint split (sep : ascii) (s : string) : list string :=
  match s with
  | EmptyString => [EmptyString]
  | String c s' =>
      if decide (c = sep) then EmptyString :: split sep s'
      else match split sep s' with
           | h :: t => String c h :: t
           | [] => [String c EmptyString]
           end
  end.

(** [s.split(sep, 1)]: at most one split, at the first separator. *)
Fixpoint split1 (sep : ascii) (s : string) : list string :=
  match s with
  | EmptyString => [EmptyString]
  | String c s' =>
      if decide (c = sep) then [EmptyString; s']
      else match split1 sep s' with
           | h :: t => String c h :: t
           | [] => [String c EmptyString]
           end
  end.

(** [s.replace(c, '')] for one character. *)
Fixpoint remove_char (c : ascii) (s : string) : string :=
  match s with
  | EmptyString => EmptyString
  | String x s' =>
      if decide (x = c) then remove_char c s' else String x (remove_char c s')
  end.

(** [s.startswith(p)] *)
Fixpoint startswith (p s : string) : bool :=
  match p, s with
  | EmptyString, _ => true
  | String a p', String b s' => bool_decide (a = b) && startswith p' s'
  | String _ _, EmptyString => false
  end.

Definition is_space (c : ascii) : bool :=
  bool_decide (c ∈ [" "; "009"; "010"; "011"; "012"; "013"]%char).

Fixpoint lstrip (s : string) : string :=
  match s with
  | String c s' => if is_space c then lstrip s' else s
  | EmptyString => EmptyString
  end.

Definition strip (s : string) : string :=
  String.rev (lstrip (String.rev (lstrip s))).

Definition digit_of (c : ascii) : option Z :=
  let n := Z.of_nat (nat_of_ascii c) in
  if ((48 <=? n) && (n <=? 57))%Z then Some (n - 48) else None.

Fixpoint digits_value (acc : Z) (s : string) : option Z :=
  match s with
  | EmptyString => Some acc
  | String c s' =>
      match digit_of c with
      | Some d => digits_value (10 * acc + d) s'
      | None => None
      end
  end.

(** [int(s)] of a str: surrounding white space, a sign, decimal digits;
    [None] where Python raises [ValueError]. *)
Definition int_of_str (s : string) : option Z :=
  match strip s with
  | EmptyString => None
  | String "-"%char (String c r) => Z.opp <$> digits_value 0 (String c r)
  | String "+"%char (String c r) => digits_value 0 (String c r)
  | String c r => digits_value 0 (String c r)
  end.

(** [int(val)] *)
Definition py_int {S : Type} (val : value) : py S Z :=
  match val with
  | VInt n => py_ret n
  | VStr s =>
      match int_of_str s with
      | Some n => py_ret n
      | None => py_raise ValueError
      end
  | VNone => py_raise TypeError
  end.

Definition last_char_is (c : ascii) (s : string) : bool :=
  match String.rev s with
  | String x _ => bool_decide (x = c)
  | EmptyString => false
  end.

(** [os.path.join(a, b)] of [posixpath] *)
Definition path_join (a b : string) : string :=
  if startswith "/" b then b
  else if bool_decide (a = "") || last_char_is "/" a then a +:+ b
  else a +:+ "/" +:+ b.

(** *** TSDBPollPersister *)

(** The value of a TSDB row: what the poll gave, or the float of the
    [SparkySet] scaling. *)
Inductive sample : Type :=
  | SVal (v : value)
  | SFloat (f : float).

(** [var_type(timestamp, flags, val)]: a row of the type named [row_type]. *)
Record TSDBRow : Type := mkTSDBRow {
  row_type : string;
  row_timestamp : Z;
  row_flags : value;
  row_value : sample;
}.

(** The TSDB library, by the calls the persister makes.  A variable object
    is given by its path.  [tsdb_update_aggregate] answers the messages of
    the [max_rate_callback] invocations it made. *)
Class TSDB (T : Type) : Type := {
  tsdb_get_var : string → py T unit;
  tsdb_add_var : string → string → Z → string → py T unit;
  tsdb_add_aggregate : string → string → string → list string → py T unit;
  tsdb_insert : string → TSDBRow → py T unit;
  tsdb_update_aggregate :
    string → string → option string → Z → Z → py T (list string);
  tsdb_flush : string → py T unit;
}.

(** The rows of [esxsnmp.sql.OIDSet] and [OID] that the persister reads. *)
Record OIDSet : Type := mkOIDSet {
  OIDSet_name : string;
  OIDSet_frequency : Z;
}.

Record OID : Type := mkOID {
  OID_name : string;
  OID_aggregate : bool;
}.

(** The attributes of a [TSDBPollPersister], the rows it inserted, in
    order, and the records it logged. *)
Record TSDBPollPersister (T : Type) : Type := mkTSDBPollPersister {
  tsdb : T;
  oidsets : gmap string OIDSet;
  poller_args : gmap string (gmap string string);
  oids : gmap string OID;
  oid_type_map : gmap string string;
  inserted : list (string * TSDBRow);
  tsdb_log : list logrec;
}.
Arguments mkTSDBPollPersister {T}.
Arguments tsdb {T}.
Arguments oidsets {T}.
Arguments poller_args {T}.
Arguments oids {T}.
Arguments oid_type_map {T}.
Arguments inserted {T}.
Arguments tsdb_log {T}.

(** Whether [except TSDBError] catches the exception. *)
Definition is_TSDBError (e : exn) : bool :=
  match e with
  | TSDBError | TSDBVarDoesNotExistError | TSDBAggregateDoesNotExistError
  | InvalidMetaData => true
  | _ => false
  end.

(** The class name of an exception, standing for [str(e)] in messages. *)
Definition exn_str (e : exn) : string :=
  match e with
  | TypeError => "TypeError"
  | KeyError => "KeyError"
  | ValueError => "ValueError"
  | AttributeError => "AttributeError"
  | UnboundLocalError => "UnboundLocalError"
  | OverflowError => "OverflowError"
  | UnpicklingError => "UnpicklingError"
  | NoResultFound => "NoResultFound"
  | MultipleResultsFound => "MultipleResultsFound"
  | TSDBError => "TSDBError"
  | TSDBVarDoesNotExistError => "TSDBVarDoesNotExistError"
  | TSDBAggregateDoesNotExistError => "TSDBAggregateDoesNotExistError"
  | InvalidMetaData => "InvalidMetaData"
  end.

(** [float(n)] of an int: the nearest binary64 value, ties to even. *)
Definition float_of_Z (n : Z) : float :=
  SF2Prim (binary_normalize prec emax n 0 false).

Section tsdb_persister.
Context {T : Type} `{TSDB T}.
(** [float(s)] of a str; [None] where Python raises [ValueError]. *)
Context (float_of_str : string → option float).
(** [eval(text)]: the object the text evaluates to, given by a name, or
    the exception that [eval] raises. *)
Context (py_eval : string → outcome string).

Definition on_tsdb {A : Type} (c : py T A) : py (TSDBPollPersister T) A :=
  λ s, let '(r, t') := c (tsdb s) in
       (r, mkTSDBPollPersister t' (oidsets s) (poller_args s) (oids s)
             (oid_type_map s) (inserted s) (tsdb_log s)).

Definition tsdb_log_to (l : loglevel) (msg : string)
    : py (TSDBPollPersister T) unit :=
  λ s, (Return tt,
        mkTSDBPollPersister (tsdb s) (oidsets s) (poller_args s) (oids s)
          (oid_type_map s) (inserted s) (tsdb_log s ++ [LogRec l msg])).

Definition push_inserted (var : string) (r : TSDBRow)
    : py (TSDBPollPersister T) unit :=
  λ s, (Return tt,
        mkTSDBPollPersister (tsdb s) (oidsets s) (poller_args s) (oids s)
          (oid_type_map s) (inserted s ++ [(var, r)]) (tsdb_log s)).

(** [float(val)] *)
Definition py_float (val : value) : outcome float :=
  match val with
  | VInt n =>
      if PrimFloat.is_infinity (float_of_Z n) then Raise OverflowError
      else Return (float_of_Z n)
  | VStr s =>
      match float_of_str s with
      | Some f => Return f
      | None => Raise ValueError
      end
  | VNone => Raise TypeError
  end.

(** [TSDBPollPersister._create_agg] *)
Definition _create_agg (tsdb_var : string) (oidset : OIDSet) (period : Z)
    : py (TSDBPollPersister T) unit :=
  do self <- get_state;
  do args <- py_getitem (poller_args self) (OIDSet_name oidset);
  do text <- py_getitem args "chunk_mapper";
  do chunk_mapper <- py_lift (py_eval text);
  let aggs := if (period =? OIDSet_frequency oidset)%Z
              then ["average"; "delta"]
              else ["average"; "delta"; "min"; "max"] in
  py_catch
    (on_tsdb (tsdb_add_aggregate tsdb_var (pretty period) chunk_mapper aggs))
    (λ e, Some (tsdb_log_to LError
                  ("Couldn't create aggregate " +:+ exn_str e))).

(** [TSDBPollPersister._create_aggs] *)
Definition _create_aggs (tsdb_var : string) (oidset : OIDSet)
    : py (TSDBPollPersister T) unit :=
  do_ _create_agg tsdb_var oidset (OIDSet_frequency oidset);
  do self <- get_state;
  do args <- py_getitem (poller_args self) (OIDSet_name oidset);
  match args !! "aggregates" with
  | Some aggregates =>
      py_for (split "," aggregates)
        (λ agg, do period <- py_int (VStr agg);
                _create_agg tsdb_var oidset period)
  | None => py_ret tt
  end.

(** [TSDBPollPersister._create_var]: answers the new variable. *)
Definition _create_var (var_type : string) (var : string) (oidset : OIDSet)
    (oid : OID) : py (TSDBPollPersister T) string :=
  do_ tsdb_log_to LDebug ("creating TSDBVar: " +:+ var);
  do self <- get_state;
  do args <- py_getitem (poller_args self) (OIDSet_name oidset);
  do text <- py_getitem args "chunk_mapper";
  do chunk_mapper <- py_lift (py_eval text);
  do_ on_tsdb (tsdb_add_var var var_type (OIDSet_frequency oidset)
                 chunk_mapper);
  do_ (if OID_aggregate oid then _create_aggs var oidset else py_ret tt);
  do_ on_tsdb (tsdb_flush var);
  py_ret var.

(** [TSDBPollPersister._repair_var_metadata] *)
Definition _repair_var_metadata (var : string)
    : py (TSDBPollPersister T) unit :=
  tsdb_log_to LError ("var needs repair, skipping: " +:+ var).

(** [update_agg] of [_aggregate]; each [max_rate_callback] invocation logs
    at debug level. *)
Definition update_agg (tsdb_var : string) (oidset : OIDSet)
    (uptime : option string) (min_last_update : Z)
    : py (TSDBPollPersister T) unit :=
  do bad <- on_tsdb (tsdb_update_aggregate tsdb_var
                       (pretty (OIDSet_frequency oidset)) uptime
                       min_last_update 110000000000);
  py_for bad (tsdb_log_to LDebug).

(** [TSDBPollPersister._aggregate] *)
Definition _aggregate (tsdb_var var_name : string) (timestamp : Z)
    (uptime_name : string) (oidset : OIDSet)
    : py (TSDBPollPersister T) unit :=
  do uptime <-
    py_catch (do_ on_tsdb (tsdb_get_var uptime_name);
              py_ret (Some uptime_name))
      (λ e, match e with
            | TSDBVarDoesNotExistError => Some (py_ret None)
            | _ => None
            end);
  let min_last_update := timestamp - OIDSet_frequency oidset * 40 in
  py_catch (update_agg tsdb_var oidset uptime min_last_update)
    (λ e, match e with
          | TSDBAggregateDoesNotExistError =>
              Some (do_ tsdb_log_to LError
                          ("creating missing aggregate for " +:+ var_name);
                    do_ _create_agg tsdb_var oidset (OIDSet_frequency oidset);
                    do_ on_tsdb (tsdb_flush tsdb_var);
                    update_agg tsdb_var oidset uptime min_last_update)
          | InvalidMetaData =>
              Some (tsdb_log_to LError ("bad metadata for " +:+ var_name))
          | _ => None
          end).

(** The value that goes into the row: [float(val) * 100] under the set
    name [SparkySet], [val] as it is otherwise. *)
Definition store_value (set_name : string) (val : value)
    : py (TSDBPollPersister T) sample :=
  if String.eqb set_name "SparkySet" then
    do f <- py_lift (py_float val);
    py_ret (SFloat (f * float_of_Z 100)%float)
  else py_ret (SVal val).

(** The body of [for var, val in result.data]. *)
Definition store_pair (result : PollResult (list (string * value)))
    (set_name basename : string) (oidset : OIDSet) (oid : OID)
    (flags : value) (var_type : string) (vv : string * value)
    : py (TSDBPollPersister T) unit :=
  do val <- store_value set_name vv.2;
  let var_name := path_join basename vv.1 in
  do tsdb_var <-
    py_catch (do_ on_tsdb (tsdb_get_var var_name); py_ret (Some var_name))
      (λ e, match e with
            | TSDBVarDoesNotExistError =>
                Some (do v <- _create_var var_type var_name oidset oid;
                      py_ret (Some v))
            | InvalidMetaData =>
                Some (do_ _repair_var_metadata var_name; py_ret None)
            | _ => None
            end);
  match tsdb_var with
  | None => py_ret tt
  | Some tsdb_var =>
      let r := mkTSDBRow var_type (timestamp result) flags val in
      do_ on_tsdb (tsdb_insert tsdb_var r);
      do_ push_inserted tsdb_var r;
      if OID_aggregate oid then
        py_catch
          (_aggregate tsdb_var var_name (timestamp result)
             (path_join basename "sysUpTime") oidset)
          (λ e, if is_TSDBError e
                then Some (tsdb_log_to LError
                             ("Error aggregating: " +:+ device_name result
                              +:+ " " +:+ oidset_name result +:+ ": "
                              +:+ exn_str e))
                else None)
      else py_ret tt
  end.

(** [TSDBPollPersister.store]; the message of the last debug record leaves
    out the elapsed time. *)
Definition TSDBPollPersister_store
    (result : PollResult (list (string * value)))
    : py (TSDBPollPersister T) unit :=
  do self <- get_state;
  do oidset <- py_getitem (oidsets self) (oidset_name result);
  do args <- py_getitem (poller_args self) (OIDSet_name oidset);
  let set_name := default (OIDSet_name oidset) (args !! "set_name") in
  let basename := path_join (device_name result) set_name in
  do oid <- py_getitem (oids self) (oid_name result);
  do flags <- py_getitem (metadata result) "tsdb_flags";
  do var_type <- py_getitem (oid_type_map self) (OID_name oid);
  do_ py_for (data result)
        (store_pair result set_name basename oidset oid flags var_type);
  tsdb_log_to LDebug
    ("stored " +:+ pretty (Z.of_nat (length (data result))) +:+ " vars: "
     +:+ PollResult_str result).
End tsdb_persister.

(** The computation leaves the rows inserted so far as they are. *)
Definition keeps_inserted {T A : Type} (c : py (TSDBPollPersister T) A)
    : Prop :=
  ∀ s o s', c s = (o, s') → inserted s' = inserted s.

(** A TSDB that holds every variable asked for and accepts every call, for
    the examples. *)
Definition example_tsdb : TSDB unit :=
  {| tsdb_get_var := λ _, py_ret tt;
     tsdb_add_var := λ _ _ _ _, py_ret tt;
     tsdb_add_aggregate := λ _ _ _ _, py_ret tt;
     tsdb_insert := λ _ _, py_ret tt;
     tsdb_update_aggregate := λ _ _ _ _ _, py_ret [];
     tsdb_flush := λ _, py_ret tt |}.

(** A TSDBPollPersister that knows the oidsets [FastPoll] and [Sparky], the
    second stored under the set name [SparkySet]. *)
Definition example_tsdb_persister : TSDBPollPersister unit :=
  {| tsdb := tt;
     oidsets := {[ "FastPoll" := mkOIDSet "FastPoll" 30;
                   "Sparky" := mkOIDSet "Sparky" 60 ]};
     poller_args :=
       {[ "FastPoll" := {[ "chunk_mapper" := "tsdb.YYYYMMDDChunkMapper" ]};
          "Sparky" := {[ "chunk_mapper" := "tsdb.YYYYMMDDChunkMapper";
                         "set_name" := "SparkySet" ]} ]};
     oids := {[ "ifInOctets" := mkOID "ifInOctets" true;
                "sparkyLoad" := mkOID "sparkyLoad" false ]};
     oid_type_map := {[ "ifInOctets" := "Counter32";
                        "sparkyLoad" := "Gauge32" ]};
     inserted := [];
     tsdb_log := [] |}.

(** Scenario S1 of the specification, and a [SparkySet] result. *)
Definition s1_result : PollResult (list (string * value)) :=
  mkPollResult "FastPoll" "router1" "ifInOctets" 1288000000
    [("ifInOctets.1", VInt 100)] {[ "tsdb_flags" := VInt 1 ]}.

Definition sparky_result : PollResult (list (string * value)) :=
  mkPollResult "Sparky" "router1" "sparkyLoad" 1288000000
    [("load.1", VInt 7); ("load.2", VStr "0.07")] {[ "tsdb_flags" := VInt 1 ]}.

(** [float] of the strs of the examples. *)
Definition example_float_of_str (s : string) : option float :=
  if String.eqb s "0.07" then Some 0x1.1eb851eb851ecp-4%float else None.

(** [eval] of the examples: every text names an object. *)
Definition example_eval (text : string) : outcome string := Return text.

(** What a row inserted for the pair [vv] looks like. *)
Definition inserted_for (float_of_str : string → option float)
    (r : PollResult (list (string * value)))
    (set_name : string) (vv : string * value) (rec : string * TSDBRow)
    : Prop :=
  rec.1 = path_join (path_join (device_name r) set_name) vv.1 ∧
  row_timestamp rec.2 = timestamp r ∧
  Some (row_flags rec.2) = metadata r !! "tsdb_flags" ∧
  if decide (set_name = "SparkySet")
  then ∃ f, py_float float_of_str vv.2 = Return f ∧
            row_value rec.2 = SFloat (f * float_of_Z 100)%float
  else row_value rec.2 = SVal vv.2.

(** *** The history persisters: [store] and [_build_objs] *)

(** The [data] of a result for a history persister: a dict from OID names
    to lists of [(name, value)] pairs. *)
Abbreviation poll_dict := (gmap string (list (string * value))).

(** The state a history persister's [store] works on: the attributes and
    session of [update_db]; the object that [result] refers to, whose
    [data] dict [self.data] (or [self.lsp_data]) refers to as well; the
    rows of the [device] table and of the persister's history table. *)
Record HistoryStore : Type := mkHistoryStore {
  persister : HistoryTablePersister;
  the_result : PollResult poll_dict;
  devices : list row;
  history : list row;
}.

(** The dict that [result.data] and [self.data] refer to. *)
Definition the_data (s : HistoryStore) : poll_dict := data (the_result s).

(** A result object with the dict of its [data] changed to [d]. *)
Definition result_with (r : PollResult poll_dict) (d : poll_dict)
    : PollResult poll_dict :=
  mkPollResult (oidset_name r) (device_name r) (oid_name r) (timestamp r) d
    (metadata r).

Definition set_persister (p : HistoryTablePersister) (s : HistoryStore)
    : HistoryStore :=
  mkHistoryStore p (the_result s) (devices s) (history s).

(** [store] is given [result]: the state holds its object from then on. *)
Definition set_the_result (r : PollResult poll_dict) (s : HistoryStore)
    : HistoryStore :=
  mkHistoryStore (persister s) r (devices s) (history s).

(** A write to the dict changes the [data] of the object. *)
Definition set_the_data (d : poll_dict) (s : HistoryStore) : HistoryStore :=
  mkHistoryStore (persister s) (result_with (the_result s) d) (devices s)
    (history s).

Definition set_history (h : list row) (s : HistoryStore) : HistoryStore :=
  mkHistoryStore (persister s) (the_result s) (devices s) h.

Definition on_persister {A : Type} (c : py HistoryTablePersister A)
    : py HistoryStore A :=
  λ s, let '(r, p') := c (persister s) in (r, set_persister p' s).

(** [self.data[oid]] *)
Definition data_getitem (oid : string)
    : py HistoryStore (list (string * value)) :=
  do s <- get_state; py_getitem (the_data s) oid.

(** [self.data[oid] = l] *)
Definition data_setitem (oid : string) (l : list (string * value))
    : py HistoryStore unit :=
  do s <- get_state; modify (set_the_data (<[oid := l]> (the_data s))).

(** [self.data[oid].append(x)] *)
Definition data_append (oid : string) (x : string * value)
    : py HistoryStore unit :=
  do l <- data_getitem oid; data_setitem oid (l ++ [x]).

(** [a, b = l]: exactly two items. *)
Definition unpack2 {S A : Type} (l : list A) : py S (A * A) :=
  match l with
  | [a; b] => py_ret (a, b)
  | _ => py_raise ValueError
  end.

(** The query for the device:
    [query(Device).filter(name == ...).filter(end_time > 'NOW').one()] *)
Definition query_device (name : string) : py HistoryStore row :=
  do s <- get_state;
  match filter (λ d : row, d !! "name" = Some (VStr name) ∧ live d)
               (devices s) with
  | [d] => py_ret d
  | [] => py_raise NoResultFound
  | _ => py_raise MultipleResultsFound
  end.

(** [getattr(obj, attr)] *)
Definition py_getattr {S : Type} (obj : row) (attr : string) : py S value :=
  match obj !! attr with
  | Some v => py_ret v
  | None => py_raise AttributeError
  end.

(** The rows the query of [store] selects: those of the device, live. *)
Definition selected (device_id : value) (r : row) : Prop :=
  r !! "deviceid" = Some device_id ∧ live r.

Global Instance selected_dec (device_id : value) (r : row)
    : Decision (selected device_id r).
Proof. unfold selected. apply _. Defined.

(** The part of [store] the three classes share: the device, the old
    rows, [update_db] on what [_build_objs] made, and the debug record
    (without the elapsed time).  [commit] writes the session to the table;
    [extra_commit] is the second [commit] of [IfRefPollPersister]. *)
Definition history_store (row_str : row → string) (blank : row)
    (key : string) (extra_commit : bool)
    (result : PollResult poll_dict)
    (build_objs : py HistoryStore (gmap string row))
    : py HistoryStore unit :=
  do device <- query_device (device_name result);
  do device_id <- py_getattr device "id";
  do s <- get_state;
  let old_data := filter (selected device_id) (history s) in
  do new_data <- build_objs;
  let nvar := size new_data in
  do s <- get_state;
  do_ modify (set_persister
                (mkHistoryTablePersister key old_data new_data blank device_id
                   [] [] (commits (persister s)) (log (persister s))));
  do counts <- on_persister (update_db row_str);
  do s <- get_state;
  do_ modify (set_history
                (filter (λ r, ¬ selected device_id r) (history s)
                 ++ visited (persister s) ++ added (persister s)));
  do_ (if extra_commit then on_persister (modify push_commit) else py_ret tt);
  on_persister
    (modify (push_log
       [LogRec LDebug
          ("processed " +:+ pretty (Z.of_nat nvar) +:+ " vars ["
           +:+ pretty counts.1.1 +:+ "/" +:+ pretty counts.1.2 +:+ "/"
           +:+ pretty counts.2 +:+ "]: " +:+ PollResult_str result)])).

(** **** IfRefPollPersister *)

Definition int_oids : list string :=
  ["ifSpeed"; "ifHighSpeed"; "ifMtu"; "ifType"; "ifOperStatus";
   "ifAdminStatus"].

(** ["%02x" % ord(c)] *)
Definition hex_digit (n : nat) : ascii :=
  match n with
  | 0 => "0" | 1 => "1" | 2 => "2" | 3 => "3" | 4 => "4" | 5 => "5"
  | 6 => "6" | 7 => "7" | 8 => "8" | 9 => "9" | 10 => "a" | 11 => "b"
  | 12 => "c" | 13 => "d" | 14 => "e" | _ => "f"
  end%char%nat.

Definition hex2 (c : ascii) : string :=
  let n := nat_of_ascii c in
  String (hex_digit (n / 16)) (String (hex_digit (n mod 16)) EmptyString).

(** [sep.join(l)] *)
Fixpoint join (sep : string) (l : list string) : string :=
  match l with
  | [] => EmptyString
  | [x] => x
  | x :: l' => x +:+ sep +:+ join sep l'
  end.

Fixpoint string_chars (s : string) : list ascii :=
  match s with
  | EmptyString => []
  | String c s' => c :: string_chars s'
  end.

(** [IfRefPollPersister._resolve_ifdescr]: the description as it is.  The
    description becomes a key of the new data, whose keys are strs here:
    for a value that is not a str the embedding raises [TypeError]. *)
Definition IfRef_resolve_ifdescr (ifdescr : value) (ifindex : Z)
    : py HistoryStore string :=
  match ifdescr with
  | VStr s => py_ret s
  | _ => py_raise TypeError
  end.

(** The double quote character, by its code. *)
Definition dquote : ascii := ascii_of_nat 34.

(** [ALUIfRefPollPersister._resolve_ifdescr] *)
Definition ALU_resolve_ifdescr (ifdescr : value) (ifindex : Z)
    : py HistoryStore string :=
  match ifdescr with
  | VStr s =>
      let parts := split "," s in
      do_ (if (2 <? Z.of_nat (length parts))%Z then
             do d <- get_state;
             do_ (match the_data d !! "ifAlias" with
                  | None => data_setitem "ifAlias" []
                  | Some _ => py_ret tt
                  end);
             let ifalias := remove_char dquote (default "" (parts !! 2%nat)) in
             data_append "ifAlias"
               ("ifAlias." +:+ pretty ifindex, VStr ifalias)
           else py_ret tt);
      py_ret (default "" (parts !! 0%nat))
  | _ => py_raise AttributeError
  end.

(** The locals of [_build_objs]: [ifref_objs] and [ifIndex_map]. *)
Definition build_locals : Type := gmap string row * gmap Z string.

(** The body of [for name, val in self.data['ifDescr']]. *)
Definition build_ifdescr (resolve : value → Z → py HistoryStore string)
    (loc : build_locals) (nv : string * value)
    : py HistoryStore build_locals :=
  do fi <- unpack2 (split "." nv.1);
  do ifIndex <- py_int (VStr fi.2);
  do ifDescr <- resolve nv.2 ifIndex;
  py_ret (<[ifDescr := {[ "ifdescr" := VStr ifDescr;
                          "ifindex" := VInt ifIndex ]}]> loc.1,
          <[ifIndex := ifDescr]> loc.2).

(** The inner loop over [self.data['ipAdEntAddr']]: the address text of
    the entry whose index is [ipAddr], or [ipAddr] itself. *)
Fixpoint find_addr (ipAddr : string) (addrs : list (string * value))
    : py HistoryStore value :=
  match addrs with
  | [] => py_ret (VStr ipAddr)
  | (a, b) :: rest =>
      do fi <- unpack2 (split1 "." a);
      if String.eqb fi.2 ipAddr then py_ret b else find_addr ipAddr rest
  end.

(** [ifref_objs[ifIndex_map[i]][attr] = val] *)
Definition set_obj_attr (loc : build_locals) (i : value) (attr : string)
    (val : value) : py HistoryStore build_locals :=
  match i with
  | VInt n =>
      do descr <- match loc.2 !! n with
                  | Some d => py_ret d
                  | None => py_raise KeyError
                  end;
      do obj <- py_getitem loc.1 descr;
      py_ret (<[descr := <[attr := val]> obj]> loc.1, loc.2)
  | _ => py_raise KeyError
  end.

(** The body of [for name, val in self.data['ipAdEntIfIndex']]. *)
Definition build_ipaddr (loc : build_locals) (nv : string * value)
    : py HistoryStore build_locals :=
  do fi <- unpack2 (split1 "." nv.1);
  do addrs <- data_getitem "ipAdEntAddr";
  do ipAddr <- find_addr fi.2 addrs;
  set_obj_attr loc nv.2 "ipAddr" ipAddr.

(** [l.remove(x)]: the first occurrence; [ValueError] when there is none. *)
Fixpoint list_remove_first (x : string) (l : list string)
    : option (list string) :=
  match l with
  | [] => None
  | y :: l' =>
      if decide (y = x) then Some l'
      else cons y <$> list_remove_first x l'
  end.

Definition py_remove {S : Type} (x : string) (l : list string)
    : py S (list string) :=
  match list_remove_first x l with
  | Some l' => py_ret l'
  | None => py_raise ValueError
  end.

(** The coercions of the last loop on [val]. *)
Definition coerce_val (oid : string) (val : value) : py HistoryStore value :=
  do val <- (if bool_decide (oid ∈ int_oids)
             then do n <- py_int val; py_ret (VInt n)
             else py_ret val);
  if String.eqb oid "ifPhysAddress" then
    match val with
    | VStr EmptyString => py_ret VNone
    | VStr s => py_ret (VStr (join ":" (hex2 <$> string_chars s)))
    | _ => py_raise TypeError
    end
  else py_ret val.

(** The body of [for name, val in self.data[oid]]. *)
Definition build_oid (oid : string) (loc : build_locals) (nv : string * value)
    : py HistoryStore build_locals :=
  do val <- coerce_val oid nv.2;
  do fi <- unpack2 (split "." nv.1);
  do ifIndex <- py_int (VStr fi.2);
  set_obj_attr loc (VInt ifIndex) (lower oid) val.

(** [IfRefPollPersister._build_objs], over the [_resolve_ifdescr] of the
    class. *)
Definition IfRef_build_objs (resolve : value → Z → py HistoryStore string)
    : py HistoryStore (gmap string row) :=
  do descrs <- data_getitem "ifDescr";
  do loc <- py_foldl (build_ifdescr resolve) (∅, ∅) descrs;
  do idxs <- data_getitem "ipAdEntIfIndex";
  do loc <- py_foldl build_ipaddr loc idxs;
  do s <- get_state;
  do remaining <- py_remove "ifDescr" (map_to_list (the_data s)).*1;
  do remaining <- py_remove "ipAdEntIfIndex" remaining;
  do remaining <- py_remove "ipAdEntAddr" remaining;
  do loc <- py_foldl (λ loc oid,
                        do entries <- data_getitem oid;
                        py_foldl (build_oid oid) loc entries)
              loc remaining;
  py_ret loc.1.

(** [IfRefPollPersister.store]: [self.data = result.data] makes the dict
    of the result object the dict [_build_objs] works on. *)
Definition IfRef_store (row_str : row → string) (blank : row)
    (resolve : value → Z → py HistoryStore string)
    (result : PollResult poll_dict) : py HistoryStore unit :=
  do_ modify (set_the_result result);
  history_store row_str blank "ifdescr" true result
    (IfRef_build_objs resolve).

(** [{'a.1': v, ...}] of the first Infinera loop: index to circuit id. *)
Definition inf_alias (acc : gmap string value) (kv : string * value)
    : py HistoryStore (gmap string value) :=
  do fi <- unpack2 (split1 "." kv.1);
  py_ret (<[fi.2 := kv.2]> acc).

(** The body of [for k, v in result.data['ifDescr']] of the Infinera
    [store], on the local [keep]. *)
Definition inf_ifdescr (ifalias : gmap string value)
    (keep : list (string * value)) (kv : string * value)
    : py HistoryStore (list (string * value)) :=
  match kv.2 with
  | VStr v =>
      if startswith "GIGECLIENTCTP" v then
        do fd <- unpack2 (split1 "=" v);
        do fi <- unpack2 (split1 "." kv.1);
        do_ data_append "ifAlias"
              ("ifAlias." +:+ fi.2, default (VStr "") (ifalias !! fi.2));
        do_ data_append "ifSpeed" ("ifSpeed." +:+ fi.2, VInt 0);
        do_ data_append "ifHighSpeed" ("ifHighSpeed." +:+ fi.2, VInt 0);
        py_ret (keep ++ [(kv.1, VStr fd.2)])
      else py_ret keep
  | _ => py_raise AttributeError
  end.

(** [InfIfRefPollPersister.store]: it works on [result.data] itself. *)
Definition InfIfRef_store (row_str : row → string) (blank : row)
    (result : PollResult poll_dict) : py HistoryStore unit :=
  do_ modify (set_the_result result);
  do_ data_setitem "ifAlias" [];
  do_ data_setitem "ifSpeed" [];
  do_ data_setitem "ifHighSpeed" [];
  do_ data_setitem "ipAdEntIfIndex" [];
  do ids <- data_getitem "gigeClientCtpPmRealCktId";
  do ifalias <- py_foldl inf_alias ∅ ids;
  do descrs <- data_getitem "ifDescr";
  do keep <- py_foldl (inf_ifdescr ifalias) [] descrs;
  do_ data_setitem "ifDescr" keep;
  do s <- get_state;
  do_ modify (set_the_data (delete "gigeClientCtpPmRealCktId" (the_data s)));
  do s <- get_state;
  IfRef_store row_str blank IfRef_resolve_ifdescr (the_result s).

(** **** ALUSAPRefPersister and LSPOpStatusPersister *)

Definition sap_int_oids : list string :=
  ["sapIngressQosPolicyId"; "sapEgressQosPolicyId"].

(** [LSPOpStatusPersister.oid_name_map] *)
Definition oid_name_map : gmap string string :=
  {[ "mplsLspInfoState" := "state";
     "mplsLspInfoFrom" := "srcaddr";
     "mplsLspInfoTo" := "dstaddr" ]}.

(** [objs[name][attr] = val], after [if not name in objs: objs[name] =
    dict(name=name)]. *)
Definition set_named_attr (objs : gmap string row) (name attr : string)
    (val : value) : gmap string row :=
  let o := default {[ "name" := VStr name ]} (objs !! name) in
  <[name := <[attr := val]> o]> objs.

Section sap_lsp.
(** [esxsnmp.util.decode_alu_port], which is not among the sources: the
    text for a port number, or an exception. *)
Context (decode_alu_port : string → outcome string).

(** The body of [for k, val in entries] of [ALUSAPRefPersister._build_objs]. *)
Definition sap_entry (oid : string) (objs : gmap string row)
    (kv : string * value) : py HistoryStore (gmap string row) :=
  match split "." kv.1 with
  | [_; vpls; port; vlan] =>
      do p <- py_lift (decode_alu_port port);
      let name := vlan +:+ "-" +:+ p +:+ "-" +:+ vlan in
      do val <- (if bool_decide (oid ∈ sap_int_oids)
                 then do n <- py_int kv.2; py_ret (VInt n)
                 else py_ret kv.2);
      py_ret (set_named_attr objs name (lower oid) val)
  | _ => py_raise ValueError
  end.

(** [ALUSAPRefPersister._build_objs] *)
Definition ALUSAPRef_build_objs : py HistoryStore (gmap string row) :=
  do s <- get_state;
  py_foldl (λ objs oe, py_foldl (sap_entry oe.1) objs oe.2) ∅
    (map_to_list (the_data s)).

(** [ALUSAPRefPersister.store] *)
Definition ALUSAPRef_store (row_str : row → string) (blank : row)
    (result : PollResult poll_dict) : py HistoryStore unit :=
  do_ modify (set_the_result result);
  history_store row_str blank "name" false result ALUSAPRef_build_objs.
End sap_lsp.

(** The body of [for name, val in entries] of
    [LSPOpStatusPersister._build_objs]. *)
Definition lsp_entry (oid k : string) (objs : gmap string row)
    (nv : string * value) : py HistoryStore (gmap string row) :=
  let name := remove_char "'" (default "" (last (split "." nv.1))) in
  do val <- (if String.eqb oid "mplsLspInfoState"
             then do n <- py_int nv.2; py_ret (VInt n)
             else py_ret nv.2);
  py_ret (set_named_attr objs name k val).

(** [LSPOpStatusPersister._build_objs] *)
Definition LSPOpStatus_build_objs : py HistoryStore (gmap string row) :=
  do s <- get_state;
  py_foldl (λ objs oe,
              do k <- py_getitem oid_name_map oe.1;
              py_foldl (lsp_entry oe.1 k) objs oe.2) ∅
    (map_to_list (the_data s)).

(** [LSPOpStatusPersister.store] *)
Definition LSPOpStatus_store (row_str : row → string) (blank : row)
    (result : PollResult poll_dict) : py HistoryStore unit :=
  do_ modify (set_the_result result);
  history_store row_str blank "name" false result LSPOpStatus_build_objs.

(** The history persister classes, and [store] of each. *)
Inductive history_class : Type :=
  | IfRefPollPersister
  | ALUIfRefPollPersister
  | InfIfRefPollPersister
  | ALUSAPRefPersister
  | LSPOpStatusPersister.

Definition store (decode_alu_port : string → outcome string)
    (row_str : row → string) (blank : row) (c : history_class)
    (result : PollResult poll_dict) : py HistoryStore unit :=
  match c with
  | IfRefPollPersister => IfRef_store row_str blank IfRef_resolve_ifdescr result
  | ALUIfRefPollPersister => IfRef_store row_str blank ALU_resolve_ifdescr result
  | InfIfRefPollPersister => InfIfRef_store row_str blank result
  | ALUSAPRefPersister => ALUSAPRef_store decode_alu_port row_str blank result
  | LSPOpStatusPersister => LSPOpStatus_store row_str blank result
  end.

(** The keys of [result.data] a class writes to. *)
Definition written_keys (c : history_class) : list string :=
  match c with
  | ALUIfRefPollPersister => ["ifAlias"]
  | InfIfRefPollPersister =>
      ["ifAlias"; "ifSpeed"; "ifHighSpeed"; "ipAdEntIfIndex"; "ifDescr";
       "gigeClientCtpPmRealCktId"]
  | _ => []
  end.

(** The computation assigns to no attribute of the result object, and
    changes the dict of its [data] at keys of [K] only. *)
Definition writes_only {A : Type} (K : list string) (c : py HistoryStore A)
    : Prop :=
  ∀ s o s', c s = (o, s') →
    the_result s' = result_with (the_result s) (the_data s') ∧
    ∀ k, k ∉ K → the_data s' !! k = the_data s !! k.

(** A result object for a persister that was given none yet. *)
Definition no_result : PollResult poll_dict := mkPollResult "" "" "" 0 ∅ ∅.

(** The device table and an empty interface table, for the examples. *)
Definition example_history_store : HistoryStore :=
  mkHistoryStore (start_run "" ∅ VNone [] ∅) no_result
    [ {[ "id" := VInt 7; "name" := VStr "router1";
         "begin_time" := VStr "2010-01-01"; "end_time" := VStr "Infinity" ]} ]
    [].

(** An Infinera result: one client port and one other interface. *)
Definition inf_result : PollResult poll_dict :=
  mkPollResult "InfIfRefPoll" "router1" "ifDescr" 1288000000
    {[ "ifDescr" := [("ifDescr.1", VStr "GIGECLIENTCTP=1-A-1-T1-1");
                     ("ifDescr.2", VStr "OSC=1-A-1")];
       "gigeClientCtpPmRealCktId" :=
         [("gigeClientCtpPmRealCktId.1", VStr "circuit-7")];
       "ipAdEntAddr" := [] ]} ∅.

(** Scenario S6 of the specification: an ALU description with name,
    port and quoted alias. *)
Definition alu_result : PollResult poll_dict :=
  mkPollResult "ALUIfRefPoll" "router1" "ifDescr" 1288000000
    {[ "ifDescr" :=
         [("ifDescr.1",
           VStr ("1/1/1,port," +:+ String dquote "uplink"
                 +:+ String dquote ",extra"))];
       "ipAdEntIfIndex" := []; "ipAdEntAddr" := [] ]} ∅.

(** A port decoder for the examples. *)
Definition example_decode_alu_port (port : string) : outcome string :=
  Return port.

(** *** The keys and the contents of the queues of a server *)

(** The keys of a queue: the two counters and one slot per sequence
    number, each the queue's name behind [PREFIX] and before a suffix. *)
Inductive key_kind : Type :=
  | KLastAdded
  | KLastRead
  | KSlot (n : Z).

Definition key_suffix (k : key_kind) : string :=
  match k with
  | KLastAdded => "_last_added"
  | KLastRead => "_last_read"
  | KSlot n => "_" +:+ pretty n
  end.

Definition queue_key (qname : string) (k : key_kind) : string :=
  PREFIX +:+ "_" +:+ qname +:+ key_suffix k.

(** Characters of a [%d] rendering. *)
Definition is_numeric_char (c : ascii) : bool :=
  bool_decide (c ∈ ["0"; "1"; "2"; "3"; "4"; "5"; "6"; "7"; "8"; "9"; "-"]%char).

(** What the queues named in [σ] hold on the server: for each its reads so
    far and its pending values, with room for [budget] more puts before a
    counter wraps. *)
Definition store_holds {V : Type} `{Pickle V}
    (budget : Z) (σ : gmap string (Z * list V)) (w : world) : Prop :=
  map_Forall (λ q cv, queue_holds q cv.1 cv.2 w ∧ 0 ≤ cv.1 ∧
                      cv.1 + Z.of_nat (length cv.2) + budget < 2 ^ 64) σ.

(** The contents after [v] is appended to queue [q]. *)
Definition enqueue {V : Type} (v : V) (σ : gmap string (Z * list V))
    (q : string) : gmap string (Z * list V) :=
  alter (λ cv, (cv.1, cv.2 ++ [v])) q σ.

(** The queues of the server that a queue object of the handler puts on:
    its own, or one of its workers'. *)
Definition targets (qo : queue_obj) : list string :=
  match qo with
  | SingleQueue n => [n]
  | MultiQueue m => worker_name (qprefix m) <$> seqZ 1 (num_workers m)
  end.

(** Every [MultiWorkerQueue] of the handler is as its constructor and its
    methods leave it. *)
Definition handler_wf (h : MemcachedPersistHandler) : Prop :=
  ∀ qn m, handler_queues h !! qn = Some (MultiQueue m) →
    mwq_inv (qprefix m) (num_workers m) m.

(** The contents of the queues of [example_start]. *)
Definition example_contents : gmap string (Z * list (PollResult unit)) :=
  <["ifref" := (0, [])]> (<["tsdb_1" := (0, [])]> (<["tsdb_2" := (0, [])]>
    (<["tsdb_3" := (0, [])]> ∅))).

(** ** Further parts of [persist.py] *)

(** *** Sequences of queue operations *)

(** The calls a user of one queue makes, and what each answers. *)
Inductive queue_op (V : Type) : Type :=
  | OpPut (v : V)
  | OpGet
  | OpLen.
Arguments OpPut {V} v.
Arguments OpGet {V}.
Arguments OpLen {V}.

Inductive op_result (V : Type) : Type :=
  | RPut
  | RGet (r : option V)
  | RLen (n : Z).
Arguments RPut {V}.
Arguments RGet {V} r.
Arguments RLen {V} n.

Section queue_ops.
Context {V : Type} `{Pickle V}.

Definition run_op (qname : string) (op : queue_op V)
    : py world (op_result V) :=
  match op with
  | OpPut v => do_ put qname v; py_ret RPut
  | OpGet => do r <- get qname; py_ret (RGet r)
  | OpLen => do n <- len qname; py_ret (RLen n)
  end.

(** The calls of [ops], one after the other, on the queue [qname]. *)
Fixpoint run_ops (qname : string) (ops : list (queue_op V))
    : py world (list (op_result V)) :=
  match ops with
  | [] => py_ret []
  | op :: ops' =>
      do r <- run_op qname op;
      do rs <- run_ops qname ops';
      py_ret (r :: rs)
  end.
End queue_ops.

(** The same calls on a list used as a queue: [put] appends, [get] takes
    the head or answers empty, [len] is the length. *)
Fixpoint list_ops {V : Type} (vs : list V) (ops : list (queue_op V))
    : list (op_result V) * list V :=
  match ops with
  | [] => ([], vs)
  | OpPut v :: ops' =>
      let '(rs, vs') := list_ops (vs ++ [v]) ops' in (RPut :: rs, vs')
  | OpGet :: ops' =>
      let '(rs, vs') := list_ops (tail vs) ops' in (RGet (head vs) :: rs, vs')
  | OpLen :: ops' =>
      let '(rs, vs') := list_ops vs ops' in
      (RLen (Z.of_nat (length vs)) :: rs, vs')
  end.

(** A three-worker queue constructed on an empty server, for the
    examples. *)
Definition example_mwq : MultiWorkerQueue * world :=
  match MultiWorkerQueue_init "tsdb" 3 empty_world with
  | (Return m, w) => (m, w)
  | (Raise _, w) => (mkMultiWorkerQueue "tsdb" 3 1 ∅ ∅, w)
  end.

(** Results of the oidset [FastPoll] for four routers, and a second result
    of the first router. *)
Definition router_result (device : string) (t : Z) : PollResult unit :=
  mkPollResult "FastPoll" device "ifHCInOctets" t tt ∅.

Definition example_workers_contents
    : gmap string (Z * list (PollResult unit)) :=
  <["tsdb_1" := (0, [])]> (<["tsdb_2" := (0, [])]>
    (<["tsdb_3" := (0, [])]> ∅)).

(** *** PersistManager, worker and stats *)

(** What [Popen] was called with, and what the manager records beside the
    process object under the child's pid. *)
Record child : Type := mkChild {
  child_args : list string;
  child_qname : string;
  child_qclass : string;
  child_index : Z;
}.

(** The attributes of a [PersistManager] that the supervision reads and
    writes ([opts.config_file], [caller_path] and [sys.executable] go into
    the arguments of the children), the number of processes started so far
    and the records logged. *)
Record PersistManager : Type := mkPersistManager {
  pm_config : Config;
  pm_config_file : string;
  pm_caller_path : string;
  pm_executable : string;
  processes : gmap Z child;
  pm_spawned : nat;
  pm_log : list logrec;
}.

Definition pm_log_to (l : loglevel) (msg : string) : py PersistManager unit :=
  modify (λ s, mkPersistManager (pm_config s) (pm_config_file s)
                 (pm_caller_path s) (pm_executable s) (processes s)
                 (pm_spawned s) (pm_log s ++ [LogRec l msg])).

(** The [args] of [start_child]; [str(index)] is the decimal text. *)
Definition child_argv (self : PersistManager) (qname : string) (index : Z)
    : outcome (list string) :=
  let args := [pm_executable self; pm_caller_path self; "-r"; "worker";
               "-q"; qname; "-f"; pm_config_file self] in
  match persist_queues (pm_config self) !! qname with
  | Some qinfo =>
      Return (if (1 <? qinfo.2)%Z then args ++ ["-n"; pretty index] else args)
  | None => Raise KeyError
  end.

Section persist_manager.
(** The pid the operating system gives to the [n]-th process started. *)
Context (pid_of : nat → Z).

(** [PersistManager.start_child] *)
Definition start_child (qname qclass : string) (index : Z)
    : py PersistManager unit :=
  do self <- get_state;
  do args <- py_lift (child_argv self qname index);
  modify (λ s, mkPersistManager (pm_config s) (pm_config_file s)
                 (pm_caller_path s) (pm_executable s)
                 (<[pid_of (pm_spawned s) := mkChild args qname qclass index]>
                    (processes s))
                 (S (pm_spawned s)) (pm_log s)).

(** [PersistManager.start_all_children] *)
Definition start_all_children : py PersistManager unit :=
  do self <- get_state;
  py_for (map_to_list (persist_queues (pm_config self)))
    (λ qi, py_for (seqZ 1 qi.2.2) (start_child qi.1 qi.2.1)).

(** The body of the loop of [PersistManager.run] once [os.wait()] has
    answered [pid]; [output] is what [p.stdout.readlines()] gives. *)
Definition child_died (pid : Z) (output : list string)
    : py PersistManager unit :=
  do self <- get_state;
  do c <- match processes self !! pid with
          | Some c => py_ret c
          | None => py_raise KeyError
          end;
  do_ modify (λ s, mkPersistManager (pm_config s) (pm_config_file s)
                     (pm_caller_path s) (pm_executable s)
                     (delete pid (processes s)) (pm_spawned s) (pm_log s));
  do_ pm_log_to LError ("child died: pid " +:+ pretty pid +:+ ", "
                        +:+ child_qname c +:+ "_" +:+ pretty (child_index c));
  do_ py_for output
        (λ line, pm_log_to LError ("pid " +:+ pretty pid +:+ ": " +:+ line));
  start_child (child_qname c) (child_qclass c) (child_index c).
End persist_manager.

(** The options of [espersistd] that take a value and that [start_child]
    passes, as the option parser reads a command line: an option takes the
    argument after it; other arguments are left over. *)
Definition value_options : list string := ["-r"; "-q"; "-n"; "-f"].

Fixpoint parse_args (opts : gmap string string) (args : list string)
    : gmap string string :=
  match args with
  | [] => opts
  | a :: rest =>
      match rest with
      | v :: rest' =>
          if bool_decide (a ∈ value_options)
          then parse_args (<[a := v]> opts) rest'
          else parse_args opts rest
      | [] => opts
      end
  end.

(** The name of the queue that [worker] hands to the persister class, for
    the command line [argv]: [opts.qname] and [opts.number] default to the
    empty string. *)
Definition worker_qname (config : Config) (argv : list string)
    : outcome string :=
  let opts := parse_args ∅ argv in
  let qname := default "" (opts !! "-q") in
  let number := default "" (opts !! "-n") in
  match persist_queues config !! qname with
  | Some qinfo =>
      Return (if (1 <? qinfo.2)%Z then qname +:+ "_" +:+ number else qname)
  | None => Raise KeyError
  end.

(** The names under which [stats] makes a [QueueStats] for one entry of
    [persist_queues]. *)
Definition stats_names (qname : string) (nworkers : Z) : list string :=
  if (nworkers =? 1)%Z then [qname]
  else worker_name qname <$> seqZ 1 nworkers.

(** The manager has a live process for worker [index] of queue [qname],
    started with the arguments of [start_child]. *)
Definition supervised (s : PersistManager) (qname qclass : string)
    (index : Z) : Prop :=
  ∃ pid args, processes s !! pid = Some (mkChild args qname qclass index) ∧
              child_argv s qname index = Return args.

(** The same, for a process among those started so far. *)
Definition started (pid_of : nat → Z) (s : PersistManager)
    (qname qclass : string) (index : Z) : Prop :=
  ∃ k args, (k < pm_spawned s)%nat ∧
    processes s !! pid_of k = Some (mkChild args qname qclass index) ∧
    child_argv s qname index = Return args.

(** The attributes that go into the arguments of a child. *)
Definition same_setup (s s' : PersistManager) : Prop :=
  pm_config s' = pm_config s ∧ pm_config_file s' = pm_config_file s ∧
  pm_caller_path s' = pm_caller_path s ∧ pm_executable s' = pm_executable s.

(** A manager before [run], for the examples. *)
Definition example_manager : PersistManager :=
  mkPersistManager example_config "/etc/esxsnmp.conf" "/usr/bin/espersistd"
    "/usr/bin/python" ∅ 0 [].

(** A manager with the worker of the history queue running as pid 10. *)
Definition example_running_manager : PersistManager :=
  mkPersistManager example_config "/etc/esxsnmp.conf" "/usr/bin/espersistd"
    "/usr/bin/python"
    {[ 10 := mkChild ["/usr/bin/python"; "/usr/bin/espersistd"; "-r"; "worker";
                      "-q"; "ifref"; "-f"; "/etc/esxsnmp.conf"]
                "ifref" "IfRefPollPersister" 1 ]} 1 [].

(** *** What a run of [update_db] does to the session *)

(** The session between two states of a run that has gone through the old
    rows [olds]: the attributes the run reads are as before; each of
    [olds] is passed on as it was or with [end_time] set to ['NOW'], and
    nothing else is written on it; each row handed to [db_session.add] is
    [_new_row_from_obj] of an entry of the new data; what is left of the
    new data is part of what there was. *)
Definition session_step (s s' : HistoryTablePersister) (olds : list row)
    : Prop :=
  key s' = key s ∧ old_data s' = old_data s ∧ blank_row s' = blank_row s ∧
  device_id s' = device_id s ∧
  new_data s' ⊆ new_data s ∧
  (∃ vs, visited s' = visited s ++ vs ∧
         Forall2 (λ old v, v = old ∨ v = close_row old) olds vs) ∧
  (∃ news, added s' = added s ++ news ∧
           Forall (λ r, ∃ k obj, new_data s !! k = Some obj ∧
                                 r = _new_row_from_obj s obj) news).

(** *** What [_build_objs] makes *)

(** The attributes of the objects [LSPOpStatusPersister._build_objs]
    makes. *)
Definition lsp_attrs : list string := ["name"; "state"; "srcaddr"; "dstaddr"].

(** Every object of [objs] carries its key as its [name], and apart from
    [name] only attributes for which [P] holds. *)
Definition named_objs (P : string → Prop) (objs : gmap string row) : Prop :=
  ∀ k o, objs !! k = Some o →
    o !! "name" = Some (VStr k) ∧
    ∀ a, is_Some (o !! a) → a = "name" ∨ P a.

(** A service access point poll: one port of one service. *)
Definition sap_result : PollResult poll_dict :=
  mkPollResult "ALUSAPPoll" "router1" "sapDescription" 1288000000
    {[ "sapDescription" := [("sapDescription.100.35684352.200", VStr "A")] ]}
    ∅.

(** The computation raises whenever the poll data has no item [k]. *)
Definition fails_without {A : Type} (k : string) (c : py HistoryStore A)
    : Prop :=
  ∀ s, the_data s !! k = None → ∃ e s', c s = (Raise e, s').

(** The computation does not put an item [k] into the poll data. *)
Definition keeps_absent {A : Type} (k : string) (c : py HistoryStore A)
    : Prop :=
  ∀ s o s', c s = (o, s') → the_data s !! k = None → the_data s' !! k = None.

(** The classes whose [_build_objs] is that of [IfRefPollPersister]. *)
Definition is_ifref (c : history_class) : bool :=
  match c with
  | IfRefPollPersister | ALUIfRefPollPersister | InfIfRefPollPersister => true
  | _ => false
  end.

(** An Infinera poll as the device answers it: no address table. *)
Definition inf_result_no_addr : PollResult poll_dict :=
  mkPollResult "InfIfRefPoll" "router1" "ifDescr" 1288000000
    {[ "ifDescr" := [("ifDescr.1", VStr "GIGECLIENTCTP=1-A-1-T1-1")];
       "gigeClientCtpPmRealCktId" :=
         [("gigeClientCtpPmRealCktId.1", VStr "circuit-7")] ]} ∅.

(** *** The text of a physical address, read back *)

(** The value of a lower-case hexadecimal digit. *)
Definition hex_value (c : ascii) : option nat :=
  let n := nat_of_ascii c in
  if ((48 <=? n) && (n <=? 57))%nat then Some (n - 48)%nat
  else if ((97 <=? n) && (n <=? 102))%nat then Some (n - 87)%nat
  else None.

(** The byte that two lower-case hexadecimal digits stand for. *)
Definition hex_byte (hi lo : ascii) : option ascii :=
  h ← hex_value hi; l ← hex_value lo; Some (ascii_of_nat (16 * h + l)).

(** The bytes that a text of two lower-case hexadecimal digits for each
    byte, with a colon between one byte and the next, stands for; [None]
    for every other text. *)
Fixpoint parse_mac (t : string) : option (list ascii) :=
  match t with
  | String hi (String lo rest) =>
      b ← hex_byte hi lo;
      match rest with
      | EmptyString => Some [b]
      | String ":" rest' => bs ← parse_mac rest'; Some (b :: bs)
      | String _ _ => None
      end
  | _ => None
  end.

(** The address [00:1b:ab], as the three octets the poller gives. *)
Definition example_mac : string :=
  String (ascii_of_nat 0) (String (ascii_of_nat 27)
    (String (ascii_of_nat 171) EmptyString)).

(** *** TSDBPollPersister: the constructor *)

(** [s.split()]: the words between runs of white space. *)
Fixpoint split_ws_from (word : string) (s : string) : list string :=
  match s with
  | EmptyString =>
      match word with EmptyString => [] | _ => [word] end
  | String c s' =>
      if is_space c then
        match word with
        | EmptyString => split_ws_from EmptyString s'
        | _ => word :: split_ws_from EmptyString s'
        end
      else split_ws_from (word +:+ String c EmptyString) s'
  end.

Definition split_ws (s : string) : list string := split_ws_from EmptyString s.

(** The rows of [esxsnmp.sql.OIDSet] with their [oids], as the query of
    the constructor yields them; [poller_args] is a nullable column. *)
Record OIDRow : Type := mkOIDRow {
  oidr_name : string;
  oidr_aggregate : bool;
  oidr_type_name : string;
}.

Record OIDSetRow : Type := mkOIDSetRow {
  osr_name : string;
  osr_frequency : Z;
  osr_poller_args : option string;
  osr_oids : list OIDRow;
}.

Section tsdb_init.
Context {T : Type}.
(** The names that the module [tsdb.row] defines: [eval("tsdb.row.%s" %
    name)] is the class of that name, or an [AttributeError]. *)
Context (row_types : list string).

Definition set_oidset (name : string) (o : OIDSet)
    : py (TSDBPollPersister T) unit :=
  modify (λ s, mkTSDBPollPersister (tsdb s) (<[name := o]> (oidsets s))
                 (poller_args s) (oids s) (oid_type_map s) (inserted s)
                 (tsdb_log s)).

Definition set_poller_args (name : string) (d : gmap string string)
    : py (TSDBPollPersister T) unit :=
  modify (λ s, mkTSDBPollPersister (tsdb s) (oidsets s)
                 (<[name := d]> (poller_args s)) (oids s) (oid_type_map s)
                 (inserted s) (tsdb_log s)).

Definition set_oid (name : string) (o : OID)
    : py (TSDBPollPersister T) unit :=
  modify (λ s, mkTSDBPollPersister (tsdb s) (oidsets s) (poller_args s)
                 (<[name := o]> (oids s)) (oid_type_map s) (inserted s)
                 (tsdb_log s)).

Definition set_oid_type (name ty : string) : py (TSDBPollPersister T) unit :=
  modify (λ s, mkTSDBPollPersister (tsdb s) (oidsets s) (poller_args s)
                 (oids s) (<[name := ty]> (oid_type_map s)) (inserted s)
                 (tsdb_log s)).

Definition init_log (l : loglevel) (msg : string)
    : py (TSDBPollPersister T) unit :=
  modify (λ s, mkTSDBPollPersister (tsdb s) (oidsets s) (poller_args s)
                 (oids s) (oid_type_map s) (inserted s)
                 (tsdb_log s ++ [LogRec l msg])).

(** [for arg in oidset.poller_args.split(): (k, v) = arg.split('=');
    d[k] = v] *)
Definition parse_poller_args (text : string)
    : py (TSDBPollPersister T) (gmap string string) :=
  py_foldl (λ d arg, do kv <- unpack2 (split "=" arg);
                     py_ret (<[kv.1 := kv.2]> d))
    ∅ (split_ws text).

(** The body of [for oid in oidset.oids]. *)
Definition init_oid (oidset : OIDSetRow) (oid : OIDRow)
    : py (TSDBPollPersister T) unit :=
  do_ set_oid (oidr_name oid) (mkOID (oidr_name oid) (oidr_aggregate oid));
  if bool_decide (oidr_type_name oid ∈ row_types)
  then set_oid_type (oidr_name oid) (oidr_type_name oid)
  else init_log LWarning
         ("warning don't have a TSDBRow for " +:+ oidr_type_name oid
          +:+ " in " +:+ osr_name oidset).

(** The body of [for oidset in oidsets]. *)
Definition init_oidset (oidset : OIDSetRow) : py (TSDBPollPersister T) unit :=
  do_ set_oidset (osr_name oidset)
        (mkOIDSet (osr_name oidset) (osr_frequency oidset));
  do_ match osr_poller_args oidset with
      | None | Some EmptyString => py_ret tt
      | Some text =>
          do d <- parse_poller_args text;
          set_poller_args (osr_name oidset) d
      end;
  py_for (osr_oids oidset) (init_oid oidset).

(** [TSDBPollPersister.__init__], on the TSDB [t] that [tsdb.TSDB] opened
    and the rows the query yields: the persister when it returns. *)
Definition TSDBPollPersister_init (t : T) (rows : list OIDSetRow)
    : outcome unit * TSDBPollPersister T :=
  py_for rows init_oidset (mkTSDBPollPersister t ∅ ∅ ∅ ∅ [] []).
End tsdb_init.

(** [' '.join(k + '=' + v for k, v in kvs)] *)
Definition render_poller_args (kvs : list (string * string)) : string :=
  join " " ((λ kv, kv.1 +:+ "=" +:+ kv.2) <$> kvs).

(** A word of a [poller_args] text: no white space and no [=] in it. *)
Definition arg_word (s : string) : Prop :=
  Forall (λ c, is_space c = false ∧ c ≠ "="%char) (string_chars s).

(** The rows of the examples: an oidset without [poller_args], and one
    with an OID whose type [tsdb.row] does not define. *)
Definition example_oidset_rows : list OIDSetRow :=
  [ mkOIDSetRow "FastPoll" 30
      (Some "chunk_mapper=tsdb.YYYYMMDDChunkMapper aggregates=300,3600")
      [mkOIDRow "ifInOctets" true "Counter32"];
    mkOIDSetRow "Bare" 60 None [mkOIDRow "bareLoad" false "Gauge32"];
    mkOIDSetRow "Odd" 60 (Some "chunk_mapper=tsdb.YYYYMMDDChunkMapper")
      [mkOIDRow "oddThing" false "Opaque"] ].

(** What the maps of a persister constructed from [rows] hold: an oidset
    and an OID are stored under their own names, [poller_args] has an entry
    only for an oidset with a non-empty [poller_args] text, and
    [oid_type_map] only for an OID of some row whose type [tsdb.row]
    defines. *)
Definition init_maps {T : Type} (row_types : list string)
    (rows : list OIDSetRow) (p : TSDBPollPersister T) : Prop :=
  (∀ n os, oidsets p !! n = Some os → OIDSet_name os = n) ∧
  (∀ n o, oids p !! n = Some o → OID_name o = n) ∧
  (∀ n, is_Some (poller_args p !! n) →
     ∃ row c text, row ∈ rows ∧ osr_name row = n ∧
                   osr_poller_args row = Some (String c text)) ∧
  (∀ n ty, oid_type_map p !! n = Some ty →
     ty ∈ row_types ∧
     ∃ row oid, row ∈ rows ∧ oid ∈ osr_oids row ∧ oidr_name oid = n ∧
                oidr_type_name oid = ty).

(** *** A TSDB whose aggregation fails *)

(** A call of the TSDB library that always returns. *)
Definition tsdb_returns {T A : Type} (c : py T A) : Prop :=
  ∀ t, ∃ a t', c t = (Return a, t').

(** A call of the TSDB library that raises nothing but the library's own
    errors. *)
Definition tsdb_errors_only {T A : Type} (c : py T A) : Prop :=
  ∀ t o t', c t = (o, t') →
    match o with Raise e => is_TSDBError e = true | Return _ => True end.

(** A TSDB that has every variable and takes every row, and whose
    aggregates are missing and cannot be made: [update_aggregate],
    [add_aggregate] and [flush] raise. *)
Definition flaky_tsdb : TSDB unit :=
  {| tsdb_get_var := λ _, py_ret tt;
     tsdb_add_var := λ _ _ _ _, py_ret tt;
     tsdb_add_aggregate := λ _ _ _ _, py_raise ValueError;
     tsdb_insert := λ _ _, py_ret tt;
     tsdb_update_aggregate := λ _ _ _ _ _,
       py_raise TSDBAggregateDoesNotExistError;
     tsdb_flush := λ _, py_raise TSDBError |}.

(** The [chunk_mapper] text of the [poller_args] is there, and [eval]
    gives an object for it. *)
Definition chunk_mapper_evaluates (py_eval : string → outcome string)
    (args : gmap string string) : Prop :=
  ∃ text cm, args !! "chunk_mapper" = Some text ∧ py_eval text = Return cm.

(** A step of the aggregation, for a persister whose [poller_args] has
    [args] for the oidset [n]: it inserts nothing, leaves [poller_args] as
    it is and raises nothing but errors of the TSDB library. *)
Definition benign {T A : Type} (n : string) (args : gmap string string)
    (c : py (TSDBPollPersister T) A) : Prop :=
  ∀ s o s', poller_args s !! n = Some args → c s = (o, s') →
    inserted s' = inserted s ∧ poller_args s' = poller_args s ∧
    match o with Raise e => is_TSDBError e = true | Return _ => True end.

(** *** [store] and the object it is given *)

Section task_object.
Context {St D : Type}.

(** [self.store(task)] works on the persister and on the object that
    [task] refers to: the state of the call is the pair of them. *)
Definition get_task : py (St * PollResult D) (PollResult D) :=
  λ s, (Return s.2, s).

(** [result.attr] *)
Definition task_attr {A : Type} (f : PollResult D → A)
    : py (St * PollResult D) A :=
  λ s, (Return (f s.2), s).

(** A step on the attributes of the persister. *)
Definition on_persister_state {A : Type} (c : py St A)
    : py (St * PollResult D) A :=
  λ s, let '(o, st') := c s.1 in (o, (st', s.2)).

(** A function on a value, called with the object: the stores of the
    examples. *)
Definition store_task (store : PollResult D → py St unit)
    : py (St * PollResult D) unit :=
  do result <- get_task;
  on_persister_state (store result).
End task_object.

Section tsdb_task.
Context {T : Type} `{TSDB T}.
Context (float_of_str : string → option float).
Context (py_eval : string → outcome string).

(** [TSDBPollPersister.store] on the persister and the object: what
    [store] reads of [result], it reads where the code does. *)
Definition TSDBPollPersister_store_task
    : py (TSDBPollPersister T * PollResult (list (string * value))) unit :=
  do self <- on_persister_state get_state;
  do name <- task_attr oidset_name;
  do oidset <- py_getitem (oidsets self) name;
  do args <- py_getitem (poller_args self) (OIDSet_name oidset);
  let set_name := default (OIDSet_name oidset) (args !! "set_name") in
  do device <- task_attr device_name;
  let basename := path_join device set_name in
  do name <- task_attr oid_name;
  do oid <- py_getitem (oids self) name;
  do meta <- task_attr metadata;
  do flags <- py_getitem meta "tsdb_flags";
  do var_type <- py_getitem (oid_type_map self) (OID_name oid);
  do pairs <- task_attr data;
  do_ py_for pairs
        (λ vv, do result <- get_task;
               on_persister_state
                 (store_pair float_of_str py_eval result set_name basename
                    oidset oid flags var_type vv));
  do result <- get_task;
  on_persister_state
    (tsdb_log_to LDebug
       ("stored " +:+ pretty (Z.of_nat (length (data result))) +:+ " vars: "
        +:+ PollResult_str result)).
End tsdb_task.

(** [store] of a history class: [self.data] is the dict of the object, so
    the object is afterwards what the persister made of it, whether
    [store] returned or raised. *)
Definition history_store_task (decode_alu_port : string → outcome string)
    (row_str : row → string) (blank : row) (c : history_class)
    : py (HistoryStore * PollResult poll_dict) unit :=
  λ s, let '(o, st') := store decode_alu_port row_str blank c s.2 s.1 in
       (o, (st', the_result st')).

(** *** PollPersister: the loop of [run] *)

(** The attributes of a [PollPersister] that [run] reads and writes, the
    seconds it slept and the records it logged. *)
Record PollPersister : Type := mkPollPersister {
  pp_qname : string;
  pp_running : bool;
  pp_data_count : Z;
  pp_last_stats : float;
  pp_slept : Z;
  pp_log : list logrec;
}.

Definition STATS_INTERVAL : Z := 60.

Definition PERSIST_SLEEP_TIME : Z := 1.

Section poll_persister.
Context {D St : Type} `{Pickle (PollResult D)}.
(** [self.store] of the subclass, on its state and the task object;
    [len(d)] of a [data]; the text that [%f] gives for a float. *)
Context (store : py (St * PollResult D) unit) (data_len : D → Z).
Context (format_f : float → string).

Definition on_queue {A : Type} (c : py world A)
    : py (PollPersister * St * world) A :=
  λ s, let '(r, w') := c s.2 in (r, (s.1, w')).

(** [self.store(task)]: answers the object [task] refers to afterwards;
    when [store] raises, the exception leaves [run]. *)
Definition on_store (task : PollResult D)
    : py (PollPersister * St * world) (PollResult D) :=
  λ s, match store (s.1.2, task) with
       | (Return _, (st', task')) => (Return task', (s.1.1, st', s.2))
       | (Raise e, (st', _)) => (Raise e, (s.1.1, st', s.2))
       end.

Definition on_self {A : Type} (c : py PollPersister A)
    : py (PollPersister * St * world) A :=
  λ s, let '(r, p') := c s.1.1 in (r, (p', s.1.2, s.2)).

(** The statistics after a task, at the time [now]: [float] of an int
    that no float can hold raises [OverflowError], when the count has been
    added already. *)
Definition count_task (n : Z) (now : float) : py PollPersister unit :=
  λ p,
    let count := pp_data_count p + n in
    let p1 := mkPollPersister (pp_qname p) (pp_running p) count
                (pp_last_stats p) (pp_slept p) (pp_log p) in
    if PrimFloat.ltb (pp_last_stats p + float_of_Z STATS_INTERVAL)%float now
    then
      if PrimFloat.is_infinity (float_of_Z count)
      then (Raise OverflowError, p1)
      else
        (Return tt,
         mkPollPersister (pp_qname p) (pp_running p) 0 now (pp_slept p)
           (pp_log p ++
            [LogRec LInfo
               (pretty count +:+ " records written, " +:+
                format_f (float_of_Z count / float_of_Z STATS_INTERVAL)%float
                +:+ " records/sec")]))
    else (Return tt, p1).

(** [time.sleep(secs)] *)
Definition sleep (secs : Z) : py PollPersister unit :=
  modify (λ p,
    mkPollPersister (pp_qname p) (pp_running p) (pp_data_count p)
      (pp_last_stats p) (pp_slept p + secs) (pp_log p)).

(** The body of [while self.running] in [PollPersister.run]; [now] is what
    [time.time()] answers.  A [PollResult] is always true.
    [len(task.data)] is read after [store], from the object as [store]
    left it. *)
Definition run_step (now : float) : py (PollPersister * St * world) unit :=
  λ s,
    (do task <- on_queue (get (pp_qname s.1.1));
     match task with
     | Some task =>
         do task' <- on_store task;
         on_self (count_task (data_len (data task')) now)
     | None => on_self (sleep PERSIST_SLEEP_TIME)
     end) s.
End poll_persister.

(** For the examples: pickle that knows the two results of the handler
    examples, and a [store] that counts its calls and raises every time. *)
Definition example_pickle_results : Pickle (PollResult unit) :=
  example_result_pickle [example_result; ifref_result].

Definition failing_store (r : PollResult unit) : py nat unit :=
  λ calls, (Raise KeyError, S calls).

(** A stand-in for [%f] for the examples. *)
Definition example_format_f (x : float) : string :=
  if PrimFloat.eqb x 0 then "0.000000" else "?".

(** *** StreamingPollPersister *)

(** The attributes of a [StreamingPollPersister], with the file system it
    writes to: [sp_fd] is the path of the file that [self.fd] has open,
    [sp_files] the contents of the files by path, [sp_opened] the paths
    given to [open], in order.  The log directory exists and is writable,
    and what is written is in the file at once. *)
Record StreamingPollPersister : Type := mkStreamingPollPersister {
  streaming_log_dir : string;
  sp_filename : option string;
  sp_fd : option string;
  sp_files : gmap string string;
  sp_opened : list string;
  sp_log : list logrec;
}.

(** What a file holds; a file that is not there holds nothing. *)
Definition file_content (s : StreamingPollPersister) (path : string)
    : string :=
  default "" (sp_files s !! path).

(** ["\n\n"] *)
Definition two_newlines : string :=
  String (ascii_of_nat 10) (String (ascii_of_nat 10) EmptyString).

Section streaming.
Context {D : Type}.
(** [time.strftime("%Y%m%d_%H", time.gmtime(t))], where [time.gmtime]
    raises on a time stamp out of its range, and [result.json()], where
    [json.dumps] raises on what it cannot encode. *)
Context (hour_name : Z → outcome string).
Context (json : PollResult D → outcome string).

(** [StreamingPollPersister._rotate_file]: [open(path, "a")] makes the
    file when it is not there and leaves what it holds. *)
Definition _rotate_file (dst : string) : py StreamingPollPersister unit :=
  modify (λ s,
    let path := path_join (streaming_log_dir s) dst in
    mkStreamingPollPersister (streaming_log_dir s) (Some dst) (Some path)
      (<[path := file_content s path]> (sp_files s))
      (sp_opened s ++ [path]) (sp_log s)).

(** [self.fd.write(text)] on a file opened for appending; [self.fd] is
    [None] before the first [_rotate_file]. *)
Definition fd_write (text : string) : py StreamingPollPersister unit :=
  λ s, match sp_fd s with
       | Some path =>
           (Return tt,
            mkStreamingPollPersister (streaming_log_dir s) (sp_filename s)
              (sp_fd s)
              (<[path := file_content s path +:+ text]> (sp_files s))
              (sp_opened s) (sp_log s))
       | None => (Raise AttributeError, s)
       end.

(** [StreamingPollPersister.store] *)
Definition StreamingPollPersister_store (result : PollResult D)
    : py StreamingPollPersister unit :=
  do dst <- py_lift (hour_name (timestamp result));
  do self <- get_state;
  do_ (if decide (sp_filename self = Some dst) then py_ret tt
       else _rotate_file dst);
  do text <- py_lift (json result);
  do_ fd_write text;
  do_ fd_write two_newlines;
  modify (λ s,
    mkStreamingPollPersister (streaming_log_dir s) (sp_filename s) (sp_fd s)
      (sp_files s) (sp_opened s)
      (sp_log s ++ [LogRec LDebug
         ("stored " +:+ oidset_name result +:+ " " +:+ oid_name result
          +:+ " " +:+ device_name result +:+ " to streaming log")])).

(** [StreamingPollPersister.store] on the persister and the object: what
    [store] reads of [result], it reads where the code does. *)
Definition StreamingPollPersister_store_task
    : py (StreamingPollPersister * PollResult D) unit :=
  do t <- task_attr timestamp;
  do dst <- py_lift (hour_name t);
  do self <- on_persister_state get_state;
  do_ on_persister_state
        (if decide (sp_filename self = Some dst) then py_ret tt
         else _rotate_file dst);
  do result <- get_task;
  do text <- py_lift (json result);
  do_ on_persister_state (fd_write text);
  do_ on_persister_state (fd_write two_newlines);
  do result <- get_task;
  on_persister_state
    (modify (λ s,
       mkStreamingPollPersister (streaming_log_dir s) (sp_filename s)
         (sp_fd s) (sp_files s) (sp_opened s)
         (sp_log s ++ [LogRec LDebug
            ("stored " +:+ oidset_name result +:+ " " +:+ oid_name result
             +:+ " " +:+ device_name result +:+ " to streaming log")]))).

(** The result is one that [store] writes out: its time stamp has an hour
    name and [json] gives a text for it. *)
Definition loggable (result : PollResult D) : Prop :=
  (∃ dst, hour_name (timestamp result) = Return dst) ∧
  ∃ text, json result = Return text.

(** The path of the file a result goes to, and what it adds to the file;
    both are empty for a result that is not [loggable]. *)
Definition log_path (s : StreamingPollPersister) (result : PollResult D)
    : string :=
  match hour_name (timestamp result) with
  | Return dst => path_join (streaming_log_dir s) dst
  | Raise _ => ""
  end.

Definition log_entry (result : PollResult D) : string :=
  match json result with
  | Return text => text +:+ two_newlines
  | Raise _ => ""
  end.
End streaming.

(** The file that is open is the file of [filename]. *)
Definition streaming_wf (s : StreamingPollPersister) : Prop :=
  sp_fd s = path_join (streaming_log_dir s) <$> sp_filename s.

(** [''.join(l)] *)
Fixpoint concat_strings (l : list string) : string :=
  match l with
  | [] => EmptyString
  | x :: l' => x +:+ concat_strings l'
  end.

(** A persister just constructed, and stand-ins for [strftime] (the hour
    since the epoch, for a time stamp that is not negative) and [json]
    (which fails on a device name that is empty) for the examples. *)
Definition example_streaming : StreamingPollPersister :=
  mkStreamingPollPersister "/var/log/esxsnmp" None None ∅ [] [].

Definition example_hour_name (t : Z) : outcome string :=
  if (t <? 0)%Z then Raise ValueError else Return (pretty (t `div` 3600)).

Definition example_json (r : PollResult unit) : outcome string :=
  if String.eqb (device_name r) "" then Raise ValueError
  else Return ("{" +:+ PollResult_str r +:+ "}").

(** *** QueueStats *)

(** What [update_stats] and [get_stats] can raise: [IndexError] from
    [l.pop()] on an empty list and from an index past the end,
    [ValueError] from [int(v)]. *)
Inductive stats_exn : Type := StatsIndexError | StatsValueError.

(** A [QueueStats]: the two lists, first entry newest, and [warn]. *)
Record QueueStats : Type := mkQueueStats {
  qs_qname : string;
  qs_last_read : list Z;
  qs_last_added : list Z;
  qs_warn : bool;
}.

(** [QueueStats.__init__] *)
Definition QueueStats_init (qname : string) : QueueStats :=
  mkQueueStats qname [0; 0] [0; 0] false.

(** ['%s_%s_%s' % (self.prefix, self.qname, k)] *)
Definition stats_key (qname k : string) : string :=
  PREFIX +:+ "_" +:+ qname +:+ "_" +:+ k.

(** [getattr(self, k)] for the two names of the loop, and the write that a
    change of the list it answers is. *)
Definition qs_getattr (self : QueueStats) (k : string) : list Z :=
  if decide (k = "last_read") then qs_last_read self else qs_last_added self.

Definition qs_setattr (k : string) (l : list Z) (self : QueueStats)
    : QueueStats :=
  if decide (k = "last_read")
  then mkQueueStats (qs_qname self) l (qs_last_added self) (qs_warn self)
  else mkQueueStats (qs_qname self) (qs_last_read self) l (qs_warn self).

(** [int(v)] of what [mc.get] answered; [None] is [ValueError]. *)
Definition mc_int (v : mcval) : option Z :=
  match v with
  | MCInt n => Some n
  | MCStr s => int_of_str s
  end.

(** How one turn of the loop of [update_stats] ends. *)
Inductive turn : Type := Continue | Break | Failed (e : stats_exn).

(** The line [update_stats] prints to [sys.stderr]. *)
Definition no_stats_warning (qname : string) : string :=
  "warning: no stats, no work queue " +:+ qname +:+ " in memcache".

(** One turn of the loop of [QueueStats.update_stats], on the object and
    the lines printed to [sys.stderr]. *)
Definition update_stats_turn (w : world) (k : string)
    (s : QueueStats * list string) : turn * (QueueStats * list string) :=
  let kk := stats_key (qs_qname s.1) k in
  let v := mc w !! kk in
  let l := qs_getattr s.1 k in
  if truthy v then
    match l with
    | [] => (Failed StatsIndexError, s)
    | _ :: _ =>
        let l' := removelast l in
        match v ≫= mc_int with
        | Some n => (Continue, (qs_setattr k (n :: l') s.1, s.2))
        | None => (Failed StatsValueError, (qs_setattr k l' s.1, s.2))
        end
    end
  else if negb (qs_warn s.1) then
    (Break,
     (mkQueueStats (qs_qname s.1) (qs_last_read s.1) (qs_last_added s.1) true,
      s.2 ++ [no_stats_warning (qs_qname s.1)]))
  else (Continue, s).

Fixpoint update_stats_loop (w : world) (ks : list string)
    (s : QueueStats * list string)
    : option stats_exn * (QueueStats * list string) :=
  match ks with
  | [] => (None, s)
  | k :: ks' =>
      match update_stats_turn w k s with
      | (Continue, s') => update_stats_loop w ks' s'
      | (Break, s') => (None, s')
      | (Failed e, s') => (Some e, s')
      end
  end.

(** [QueueStats.update_stats]; the answer [Some e] is the exception. *)
Definition update_stats (w : world) (s : QueueStats * list string)
    : option stats_exn * (QueueStats * list string) :=
  update_stats_loop w ["last_read"; "last_added"] s.

(** [QueueStats.get_stats]: the name, pending, new, done and max; [None]
    is [IndexError]. *)
Definition get_stats (self : QueueStats)
    : option (string * Z * Z * Z * Z) :=
  a0 ← qs_last_added self !! 0%nat;
  r0 ← qs_last_read self !! 0%nat;
  a1 ← qs_last_added self !! 1%nat;
  r1 ← qs_last_read self !! 1%nat;
  Some (qs_qname self, a0 - r0, a0 - a1, r0 - r1, a0).

(** The first row that [stats] prints for a queue: [update_stats] when the
    object is made, and once more before [get_stats]. *)
Definition first_row (w : world) (qname : string)
    : option (string * Z * Z * Z * Z) * list string :=
  let s1 := (update_stats w (QueueStats_init qname, [])).2 in
  let s2 := (update_stats w s1).2 in
  (get_stats s2.1, s2.2).

(** Both lists hold two entries. *)
Definition stats_wf (self : QueueStats) : Prop :=
  length (qs_last_read self) = 2%nat ∧ length (qs_last_added self) = 2%nat.

(** ** Part II: properties *)

(** *** Keys of one queue never collide *)

Lemma pretty_N_go_numeric_head (x : N) (s : string) :
  numeric_head s = true → numeric_head (pretty_N_go x s) = true.
Proof.
  revert s. induction (N.lt_wf_0 x) as [x _ IH]; intros s Hs.
  destruct (decide (x = 0)%N) as [->|Hx].
  - by rewrite pretty_N_go_0.
  - rewrite pretty_N_go_step by lia.
    apply IH; [apply N.div_lt; lia|].
    unfold pretty_N_char. by repeat case_match.
Qed.

Lemma pretty_Z_numeric_head (z : Z) : numeric_head (pretty z) = true.
Proof.
  assert (∀ n : N, numeric_head (pretty n) = true) as HN.
  { intros n. unfold pretty, pretty_N. case_decide; [done|].
    by apply pretty_N_go_numeric_head. }
  destruct z as [|p|p]; [done|apply HN|done].
Qed.

Lemma last_added_ne_last_read (q : string) : last_added q ≠ last_read q.
Proof.
  unfold last_added, last_read. intros Heq.
  do 3 apply String.app_inj in Heq. discriminate.
Qed.

Lemma slot_key_ne_last_added (q : string) (n : Z) : slot_key q n ≠ last_added q.
Proof.
  unfold slot_key, last_added. intros Heq.
  do 3 apply String.app_inj in Heq.
  pose proof (pretty_Z_numeric_head n) as Hn.
  change (String "_" (pretty n) = String "_" "last_added") in Heq.
  injection Heq as Heq. rewrite Heq in Hn. discriminate.
Qed.

Lemma slot_key_ne_last_read (q : string) (n : Z) : slot_key q n ≠ last_read q.
Proof.
  unfold slot_key, last_read. intros Heq.
  do 3 apply String.app_inj in Heq.
  pose proof (pretty_Z_numeric_head n) as Hn.
  change (String "_" (pretty n) = String "_" "last_read") in Heq.
  injection Heq as Heq. rewrite Heq in Hn. discriminate.
Qed.

Lemma slot_key_inj (q : string) (n m : Z) : slot_key q n = slot_key q m → n = m.
Proof.
  unfold slot_key. intros Heq.
  do 4 apply String.app_inj in Heq. by apply (inj pretty).
Qed.

(** *** The queue implements a first-in first-out list *)

Section queue_facts.
Context {V : Type} `{Pickle V}.

Lemma serialize_truthy (v : V) :
  serialize v ≠ "" → truthy (Some (MCStr (serialize v))) = true.
Proof.
  intros Hv. simpl. apply negb_true_iff. by apply String.eqb_neq.
Qed.

(** [len] only reads: it answers the clamped difference of the counters. *)
Lemma len_holds (q : string) (c : Z) (vs : list V) (w : world) :
  queue_holds q c vs w →
  Z.of_nat (length vs) ≤ sys_maxsize →
  len q w = (Return (Z.of_nat (length vs)), w).
Proof.
  intros (Hlr & Hla & _) Hmax.
  unfold len, MemcachedPersistQueue_len, py_bind, mc_get, py_sub, py_ret.
  rewrite Hla, Hlr. simpl.
  replace (c + Z.of_nat (length vs) - c) with (Z.of_nat (length vs)) by lia.
  destruct (Z.ltb_spec (Z.of_nat (length vs)) 0); [lia|].
  destruct (Z.ltb_spec sys_maxsize (Z.of_nat (length vs))); [lia|done].
Qed.

(** [put] appends at the back. *)
Lemma put_holds (q : string) (c : Z) (vs : list V) (v : V) (w : world) :
  queue_holds q c vs w →
  serialize v ≠ "" →
  0 ≤ c → c + Z.of_nat (length vs) + 1 < 2 ^ 64 →
  ∃ w', put q v w = (Return tt, w') ∧ queue_holds q c (vs ++ [v]) w'
        ∧ logs w' = logs w.
Proof.
  intros (Hlr & Hla & Hslots) Hv Hc Hbound.
  unfold put. apply String.eqb_neq in Hv as Hv'. rewrite Hv'. simpl.
  unfold py_bind, mc_incr. rewrite Hla. simpl.
  rewrite Z.mod_small by lia.
  eexists; split; [reflexivity|]. split; [|done].
  split; [|split]; simpl.
  - rewrite lookup_insert_ne by apply slot_key_ne_last_read.
    rewrite lookup_insert_ne by apply last_added_ne_last_read. done.
  - rewrite lookup_insert_ne by apply slot_key_ne_last_added.
    rewrite lookup_insert_eq, length_app. simpl. do 2 f_equal. lia.
  - intros i x Hi.
    destruct (decide (i < length vs)%nat) as [Hlt|Hge].
    + rewrite lookup_app_l in Hi by done.
      rewrite lookup_insert_ne.
      2:{ intros Heq. apply slot_key_inj in Heq. lia. }
      rewrite lookup_insert_ne.
      2:{ apply not_eq_sym, slot_key_ne_last_added. }
      by apply Hslots.
    + rewrite lookup_app_r in Hi by lia.
      destruct (i - length vs)%nat as [|k] eqn:Hk; [|by destruct k].
      simpl in Hi. injection Hi as <-.
      replace (c + 1 + Z.of_nat i) with (c + Z.of_nat (length vs) + 1) by lia.
      apply lookup_insert_eq.
Qed.

(** [get] takes from the front. *)
Lemma get_holds (q : string) (c : Z) (v r : V) (vs : list V) (w : world) :
  queue_holds q c (v :: vs) w →
  serialize v ≠ "" →
  pickle_loads (serialize v) = Some r →
  0 ≤ c → c + Z.of_nat (length (v :: vs)) < 2 ^ 63 →
  ∃ w', get q w = (Return (Some r), w') ∧ queue_holds q (c + 1) vs w'
        ∧ logs w' = logs w.
Proof.
  intros Hq Hv Hr Hc Hbound.
  pose proof (len_holds q c (v :: vs) w Hq) as Hlen.
  destruct Hq as (Hlr & Hla & Hslots).
  unfold get, py_bind. rewrite Hlen by (unfold sys_maxsize; lia).
  destruct (Z.leb_spec (Z.of_nat (length (v :: vs))) 0) as [Hle|_];
    [simpl in Hle; lia|].
  unfold mc_incr. rewrite Hlr. simpl.
  rewrite Z.mod_small by lia.
  unfold mc_get. simpl.
  rewrite lookup_insert_ne by (apply not_eq_sym, slot_key_ne_last_read).
  specialize (Hslots 0%nat v eq_refl) as Hfront.
  replace (c + 1 + Z.of_nat 0) with (c + 1) in Hfront by lia.
  rewrite Hfront, serialize_truthy by done.
  simpl. rewrite Hr. simpl.
  eexists; split; [reflexivity|]. split; [|done].
  split; [|split]; simpl.
  - rewrite lookup_delete_ne by apply slot_key_ne_last_read.
    apply lookup_insert_eq.
  - rewrite lookup_delete_ne by apply slot_key_ne_last_added.
    rewrite lookup_insert_ne by (apply not_eq_sym, last_added_ne_last_read).
    rewrite Hla. simpl. do 2 f_equal. lia.
  - intros i x Hi.
    rewrite lookup_delete_ne.
    2:{ intros Heq. apply slot_key_inj in Heq. lia. }
    rewrite lookup_insert_ne by (apply not_eq_sym, slot_key_ne_last_read).
    specialize (Hslots (S i) x Hi).
    replace (c + 1 + 1 + Z.of_nat i) with (c + 1 + Z.of_nat (S i)) by lia.
    done.
Qed.

Lemma put_all_holds (q : string) (c : Z) (vs0 vs : list V) (w : world) :
  queue_holds q c vs0 w →
  Forall (λ v, serialize v ≠ "") vs →
  0 ≤ c → c + Z.of_nat (length vs0) + Z.of_nat (length vs) < 2 ^ 64 →
  ∃ w', put_all q vs w = (Return tt, w') ∧ queue_holds q c (vs0 ++ vs) w'
        ∧ logs w' = logs w.
Proof.
  intros Hq Hvs Hc. revert vs0 w Hq.
  induction Hvs as [|v vs Hv Hvs IH]; intros vs0 w Hq Hbound.
  - exists w. by rewrite app_nil_r.
  - simpl in Hbound.
    destruct (put_holds q c vs0 v w Hq Hv Hc) as (w1 & Hput & Hq1 & Hl1);
      [lia|].
    destruct (IH (vs0 ++ [v]) w1 Hq1) as (w2 & Hall & Hq2 & Hl2).
    { rewrite length_app. simpl. lia. }
    exists w2. split; [|split].
    + unfold put_all. simpl. unfold py_bind. rewrite Hput. exact Hall.
    + by rewrite <- app_assoc in Hq2.
    + congruence.
Qed.

Lemma get_n_holds (q : string) (c : Z) (vs rs : list V) (w : world) :
  queue_holds q c vs w →
  Forall (λ v, serialize v ≠ "") vs →
  Forall2 (λ v r, pickle_loads (serialize v) = Some r) vs rs →
  0 ≤ c → c + Z.of_nat (length vs) < 2 ^ 63 →
  ∃ w', get_n q (length vs) w = (Return (Some <$> rs), w')
        ∧ queue_holds q (c + Z.of_nat (length vs)) [] w'
        ∧ logs w' = logs w.
Proof.
  intros Hq Hvs Hrs. revert c w Hq Hvs.
  induction Hrs as [|v r vs rs Hr Hrs IH]; intros c w Hq Hvs Hc Hbound.
  - exists w. simpl. by rewrite Z.add_0_r.
  - inversion Hvs as [|? ? Hv Hvs']; subst.
    destruct (get_holds q c v r vs w Hq Hv Hr Hc Hbound)
      as (w1 & Hget & Hq1 & Hl1).
    simpl in Hbound.
    destruct (IH (c + 1) w1 Hq1 Hvs') as (w2 & Hrest & Hq2 & Hl2); [lia..|].
    exists w2. split; [|split].
    + simpl. unfold py_bind. rewrite Hget, Hrest. done.
    + replace (c + Z.of_nat (length (v :: vs)))
        with (c + 1 + Z.of_nat (length vs)) by (simpl; lia).
      done.
    + congruence.
Qed.
End queue_facts.

(** C1 (queue FIFO).  On a queue whose counters agree (nothing pending),
    [put(v1), ..., put(vn)] followed by [n] calls of [get], with nobody else
    using the queue, answers [v1, ..., vn] in that order, each as pickle
    hands it back ([loads(dumps(vi))]).  The counters are 64-bit and [len]
    is bounded by [sys.maxsize], hence the bound on [c + n]; pickle never
    produces an empty string. *)
Theorem queue_fifo {V : Type} `{Pickle V}
    (q : string) (c : Z) (vs rs : list V) (w : world) :
  mc w !! last_added q = Some (MCInt c) →
  mc w !! last_read q = Some (MCInt c) →
  0 ≤ c → c + Z.of_nat (length vs) < 2 ^ 63 →
  Forall (λ v, serialize v ≠ "") vs →
  Forall2 (λ v r, pickle_loads (serialize v) = Some r) vs rs →
  ∃ w1 w2,
    put_all q vs w = (Return tt, w1) ∧
    get_n q (length vs) w1 = (Return (Some <$> rs), w2) ∧
    len q w2 = (Return 0, w2).
Proof.
  intros Hla Hlr Hc Hbound Hvs Hrs.
  assert (queue_holds q c [] w) as Hq0.
  { split; [done|]. split; [by rewrite Z.add_0_r|]. intros i v Hi. done. }
  destruct (put_all_holds q c [] vs w Hq0 Hvs Hc) as (w1 & Hput & Hq1 & _).
  { simpl. lia. }
  destruct (get_n_holds q c vs rs w1 Hq1 Hvs Hrs Hc Hbound)
    as (w2 & Hget & Hq2 & _).
  exists w1, w2. split; [done|]. split; [done|].
  apply (len_holds q _ [] w2 Hq2). simpl. unfold sys_maxsize. lia.
Qed.

Lemma queue_fifo_witness :
  let w := (MemcachedPersistQueue_init "ifref" empty_world).2 in
  ∃ w1 w2,
    put_all (H := example_pickle) "ifref" ["Gi0/1"; "Gi0/2"; "Gi0/1"] w
      = (Return tt, w1) ∧
    get_n (H := example_pickle) "ifref" 3 w1
      = (Return [Some "Gi0/1"; Some "Gi0/2"; Some "Gi0/1"], w2) ∧
    len "ifref" w2 = (Return 0, w2).
Proof.
  apply (queue_fifo (H := example_pickle) "ifref" 0
           ["Gi0/1"; "Gi0/2"; "Gi0/1"] ["Gi0/1"; "Gi0/2"; "Gi0/1"]).
  - vm_compute. reflexivity.
  - vm_compute. reflexivity.
  - lia.
  - simpl. lia.
  - repeat constructor; discriminate.
  - repeat constructor.
Defined.

(** *** What [get] does *)

(** C6, as the code has it.  [get] answers empty and touches nothing when
    [len()] is zero.  Otherwise it increments [last_read], fetches the slot
    of that sequence number and deletes it, and then: a payload that is
    there and not empty is handed to [pickle.loads], whose value is the
    answer and whose exception leaves [get] unlogged; a missing (or empty)
    payload is logged as an error and answered with empty.  In each case
    the sequence number stays consumed. *)
Theorem get_semantics {V : Type} `{Pickle V} (q : string) (w : world) :
  match len q w with
  | (Raise e, _) => get q w = (Raise e, w)
  | (Return n, _) =>
      if (n =? 0)%Z then get q w = (Return None, w)
      else
        ∃ c, mc w !! last_read q = Some (MCInt c) ∧
          let qid := (c + 1) mod 2 ^ 64 in
          let w' := consumed q qid w in
          let miss := logged LError "failed to deserialize: got None" w' in
          get q w =
            match mc w !! slot_key q qid with
            | Some (MCStr s) =>
                if String.eqb s "" then (Return None, miss)
                else match pickle_loads s with
                     | Some v => (Return (Some v), w')
                     | None => (Raise UnpicklingError, w')
                     end
            | Some (MCInt i) =>
                if (i =? 0)%Z then (Return None, miss) else (Raise TypeError, w')
            | None => (Return None, miss)
            end
  end.
Proof.
  unfold get, len, MemcachedPersistQueue_len, py_bind, mc_get, py_sub.
  destruct (mc w !! last_added q) as [[a|?]|] eqn:Hla; simpl; try done.
  destruct (mc w !! last_read q) as [[b|?]|] eqn:Hlr; simpl; try done.
  set (n := if (a - b <? 0)%Z then 0 else a - b).
  assert (0 ≤ n) as Hn by (subst n; destruct (Z.ltb_spec (a - b) 0); lia).
  destruct (Z.ltb_spec sys_maxsize n); simpl; [done|].
  destruct (Z.eqb_spec n 0) as [->|Hn0]; [done|].
  destruct (Z.leb_spec n 0); [lia|].
  exists b. split; [done|].
  unfold mc_incr. rewrite Hlr. simpl.
  rewrite lookup_insert_ne by (apply not_eq_sym, slot_key_ne_last_read).
  destruct (mc w !! slot_key q ((b + 1) mod 2 ^ 64)) as [[i|s]|]; simpl.
  - destruct (Z.eqb_spec i 0); simpl; done.
  - destruct (String.eqb s ""); simpl; [done|].
    destruct (pickle_loads s); done.
  - done.
Qed.

(** C6 as stated fails: one slot is pending, its payload does not decode,
    and [get] raises instead of answering empty, and logs nothing. *)
Lemma get_undecodable_raises :
  len "q" undecodable_world = (Return 1, undecodable_world) ∧
  mc undecodable_world !! slot_key "q" 1 = Some (MCStr "garbage") ∧
  pickle_loads (Pickle := example_pickle) "garbage" = None ∧
  ∃ w', get (H := example_pickle) "q" undecodable_world
          = (Raise UnpicklingError, w') ∧
        logs w' = [] ∧
        mc w' !! last_read "q" = Some (MCInt 1) ∧
        mc w' !! slot_key "q" 1 = None.
Proof.
  split; [vm_compute; reflexivity|].
  split; [vm_compute; reflexivity|].
  split; [reflexivity|].
  eexists. split; [vm_compute; reflexivity|].
  split; [reflexivity|]. split; vm_compute; reflexivity.
Qed.

(** *** MultiWorkerQueue: sticky sharding and the ordinal range *)

Section multi_worker_facts.
Context {D : Type} `{Pickle (PollResult D)}.

(** [get_worker] never raises; it answers the recorded ordinal of the key,
    or records the round-robin cursor for a key it sees the first time. *)
Lemma get_worker_known (r : PollResult D) (m : MultiWorkerQueue) (w : world)
    (o : Z) :
  worker_map m !! shard_key r = Some o →
  get_worker r (m, w) = (Return (worker_name (qprefix m) o), (m, w)).
Proof.
  intros Hk. unfold get_worker, py_bind, get_self. simpl. by rewrite Hk.
Qed.

Lemma get_worker_new (r : PollResult D) (m : MultiWorkerQueue) (w : world) :
  worker_map m !! shard_key r = None →
  ∃ m' w',
    get_worker r (m, w)
      = (Return (worker_name (qprefix m) (cur_worker m)), (m', w')) ∧
    qprefix m' = qprefix m ∧ num_workers m' = num_workers m ∧
    queues m' = queues m ∧
    worker_map m' = <[shard_key r := cur_worker m]> (worker_map m) ∧
    cur_worker m' = (if (num_workers m <? cur_worker m + 1)%Z then 1
                     else cur_worker m + 1).
Proof.
  intros Hk. unfold get_worker, py_bind, get_self. simpl. rewrite Hk. simpl.
  eexists _, _. split; [reflexivity|]. done.
Qed.

Lemma get_worker_total (r : PollResult D) (m : MultiWorkerQueue) (w : world) :
  ∃ o m' w',
    get_worker r (m, w) = (Return (worker_name (qprefix m) o), (m', w')) ∧
    worker_map m' !! shard_key r = Some o ∧
    (∀ k x, worker_map m !! k = Some x → worker_map m' !! k = Some x) ∧
    qprefix m' = qprefix m.
Proof.
  destruct (worker_map m !! shard_key r) as [o|] eqn:Hk.
  - exists o, m, w. by rewrite (get_worker_known r m w o Hk).
  - destruct (get_worker_new r m w Hk) as (m' & w' & -> & Hp & _ & _ & Hm & _).
    exists (cur_worker m), m', w'. split; [done|]. rewrite Hm.
    split; [apply lookup_insert_eq|]. split; [|done].
    intros k x Hx. rewrite lookup_insert_ne; [done|]. congruence.
Qed.

Lemma get_workers_sticky (rs : list (PollResult D))
    (m : MultiWorkerQueue) (w : world) :
  ∃ names m' w',
    get_workers rs (m, w) = (Return names, (m', w')) ∧
    qprefix m' = qprefix m ∧
    (∀ k x, worker_map m !! k = Some x → worker_map m' !! k = Some x) ∧
    (∀ (i : nat) r, rs !! i = Some r →
       ∃ o, names !! i = Some (worker_name (qprefix m) o) ∧
            worker_map m' !! shard_key r = Some o).
Proof.
  revert m w. induction rs as [|r rs IH]; intros m w.
  - exists [], m, w. repeat split; try done.
  - destruct (get_worker_total r m w) as (o & m1 & w1 & Hg & Ho & Hmono & Hp).
    destruct (IH m1 w1) as (names & m2 & w2 & Hgs & Hp2 & Hmono2 & Hnames).
    exists (worker_name (qprefix m) o :: names), m2, w2.
    split; [|split; [|split]].
    + simpl. unfold py_bind. rewrite Hg.
      unfold py_bind in Hgs. by rewrite Hgs.
    + congruence.
    + auto.
    + intros [|i] r' Hr'; simpl in Hr'.
      * injection Hr' as <-. exists o. split; [done|]. by apply Hmono2.
      * destruct (Hnames i r' Hr') as (o' & Hn & Hw).
        exists o'. split; [|done]. simpl. by rewrite <- Hp.
Qed.

(** C5 (sharding stickiness).  From any state of a [MultiWorkerQueue], over
    any sequence of [get_worker] calls: the calls return; two results with
    the same [oidset_name] and [device_name] are answered with the same
    worker (the same ordinal [o], as the name [qprefix_o]); and an ordinal
    recorded for a key is still the one recorded afterwards. *)
Theorem get_worker_sticky (rs : list (PollResult D))
    (m : MultiWorkerQueue) (w : world) :
  ∃ names m' w',
    get_workers rs (m, w) = (Return names, (m', w')) ∧
    (∀ (i j : nat) ri rj,
       rs !! i = Some ri → rs !! j = Some rj →
       oidset_name ri = oidset_name rj → device_name ri = device_name rj →
       ∃ o, names !! i = Some (worker_name (qprefix m) o) ∧
            names !! j = Some (worker_name (qprefix m) o)) ∧
    (∀ k o, worker_map m !! k = Some o → worker_map m' !! k = Some o).
Proof.
  destruct (get_workers_sticky rs m w)
    as (names & m' & w' & Hgs & _ & Hmono & Hnames).
  exists names, m', w'. split; [done|]. split; [|done].
  intros i j ri rj Hi Hj Ho Hd.
  destruct (Hnames i ri Hi) as (o & Hni & Hwi).
  destruct (Hnames j rj Hj) as (o' & Hnj & Hwj).
  assert (shard_key ri = shard_key rj) as Hk
    by (unfold shard_key; congruence).
  rewrite Hk in Hwi. assert (o = o') as -> by congruence.
  exists o'. done.
Qed.

Lemma MemcachedPersistQueue_init_returns (q : string) (w : world) :
  ∃ w', MemcachedPersistQueue_init q w = (Return tt, w').
Proof.
  unfold MemcachedPersistQueue_init, py_bind, mc_get. simpl.
  destruct (truthy (mc w !! last_added q)); simpl;
    match goal with |- context [truthy ?x] => destruct (truthy x) end;
    simpl; eauto.
Qed.

Lemma py_for_init_returns (names : list string) (w : world) :
  ∃ w', py_for names MemcachedPersistQueue_init w = (Return tt, w').
Proof.
  revert w. induction names as [|q names IH]; intros w; simpl; [by eexists|].
  destruct (MemcachedPersistQueue_init_returns q w) as (w1 & Hq).
  unfold py_bind. rewrite Hq. apply IH.
Qed.

Lemma MultiWorkerQueue_init_inv (p : string) (n : Z) (w : world) :
  1 ≤ n →
  ∃ m w', MultiWorkerQueue_init p n w = (Return m, w') ∧ mwq_inv p n m
          ∧ worker_map m = ∅.
Proof.
  intros Hn. unfold MultiWorkerQueue_init, py_bind.
  destruct (py_for_init_returns (worker_name p <$> seqZ 1 n) w) as (w' & ->).
  eexists _, w'. split; [reflexivity|]. split; [|done].
  repeat split; simpl; try done; try lia.
  intros i Hi. apply elem_of_list_to_map_1'.
  - intros y. rewrite list_elem_of_fmap. intros (x & [= ? ?] & _). congruence.
  - rewrite list_elem_of_fmap. exists (worker_name p i). split; [done|].
    rewrite list_elem_of_fmap. exists i. split; [done|].
    apply elem_of_seqZ. lia.
Qed.

Lemma get_worker_inv (p : string) (n : Z) (r : PollResult D)
    (m : MultiWorkerQueue) (w : world) :
  mwq_inv p n m →
  ∃ o m' w',
    1 ≤ o ≤ n ∧
    get_worker r (m, w) = (Return (worker_name p o), (m', w')) ∧
    mwq_inv p n m' ∧
    queues m' !! worker_name p o = Some (worker_name p o).
Proof.
  intros (Hp & Hnum & Hcur & Hmap & Hq).
  destruct (worker_map m !! shard_key r) as [o|] eqn:Hk.
  - exists o, m, w. rewrite (get_worker_known r m w o Hk), Hp.
    split; [by apply (Hmap _ _ Hk)|]. split; [done|].
    split; [done|]. apply Hq, (Hmap _ _ Hk).
  - destruct (get_worker_new r m w Hk)
      as (m' & w' & -> & Hp' & Hn' & Hq' & Hm' & Hc').
    exists (cur_worker m), m', w'. rewrite Hp.
    split; [done|]. split; [done|]. split.
    + split; [congruence|]. split; [congruence|]. split; [|split].
      * rewrite Hc', Hnum. destruct (Z.ltb_spec n (cur_worker m + 1)); lia.
      * intros k o. rewrite Hm'. rewrite lookup_insert.
        case_decide; [intros [= <-]; done|apply Hmap].
      * intros i Hi. rewrite Hq'. by apply Hq.
    + rewrite Hq'. by apply Hq.
Qed.

Lemma MultiWorkerQueue_put_inv (p : string) (n : Z) (r : PollResult D)
    (m : MultiWorkerQueue) (w : world) :
  mwq_inv p n m →
  ∃ o m' w',
    1 ≤ o ≤ n ∧
    get_worker r (m, w) = (Return (worker_name p o), (m', w')) ∧
    mwq_inv p n m' ∧
    MultiWorkerQueue_put r (m, w)
      = on_world (put (worker_name p o) r) (m', w').
Proof.
  intros Hinv.
  destruct (get_worker_inv p n r m w Hinv) as (o & m' & w' & Ho & Hg & Hi & Hq).
  exists o, m', w'. split; [done|]. split; [done|]. split; [done|].
  unfold MultiWorkerQueue_put, py_bind. rewrite Hg.
  unfold get_self. simpl. by rewrite Hq.
Qed.

Lemma mwq_reachable_inv (p : string) (n : Z) (s : MultiWorkerQueue * world) :
  1 ≤ n → mwq_reachable p n s → mwq_inv p n s.1.
Proof.
  intros Hn Hreach.
  induction Hreach as [w w' m Hinit|s s' r o _ IH Hg|s s' r o _ IH Hput|m w w' _ IH].
  - destruct (MultiWorkerQueue_init_inv p n w Hn) as (m0 & w0 & Hi & Hinv & _).
    rewrite Hi in Hinit. injection Hinit as <- <-. done.
  - destruct s as [m w].
    destruct (get_worker_inv p n r m w IH) as (? & m' & w' & _ & Hg' & Hi & _).
    rewrite Hg' in Hg. injection Hg as _ <-. done.
  - destruct s as [m w].
    destruct (MultiWorkerQueue_put_inv p n r m w IH)
      as (x & m' & w' & _ & _ & Hi & Hput').
    rewrite Hput' in Hput. unfold on_world in Hput. simpl in Hput.
    destruct (put (worker_name p x) r w') as [o' w''].
    injection Hput as _ <-. done.
  - done.
Qed.
End multi_worker_facts.

(** C8 (worker-ordinal range).  A [MultiWorkerQueue] with [n >= 1] workers
    can be constructed, and in every state it reaches through [get_worker]
    and [put] calls: [cur_worker] and every ordinal in [worker_map] lie in
    [1..n]; [get_worker] answers the name of one of the [n] siblings built
    by the constructor; and [put] finds that sibling in [queues], so it is
    the sibling's own [put]. *)
Theorem worker_ordinal_range {D : Type} `{Pickle (PollResult D)}
    (p : string) (n : Z) :
  1 ≤ n →
  (∀ w, ∃ m w', MultiWorkerQueue_init p n w = (Return m, w')) ∧
  ∀ m w, mwq_reachable p n (m, w) →
    1 ≤ cur_worker m ≤ n ∧
    (∀ k o, worker_map m !! k = Some o → 1 ≤ o ≤ n) ∧
    ∀ r : PollResult D, ∃ o m' w',
      1 ≤ o ≤ n ∧
      get_worker r (m, w) = (Return (worker_name p o), (m', w')) ∧
      queues m !! worker_name p o = Some (worker_name p o) ∧
      MultiWorkerQueue_put r (m, w)
        = on_world (put (worker_name p o) r) (m', w').
Proof.
  intros Hn. split.
  - intros w. destruct (MultiWorkerQueue_init_inv p n w Hn) as (m & w' & ? & _).
    eauto.
  - intros m w Hreach.
    pose proof (mwq_reachable_inv p n (m, w) Hn Hreach) as Hinv.
    destruct Hinv as (Hp & Hnum & Hcur & Hmap & Hq) eqn:Hi. simpl in *.
    split; [done|]. split; [done|]. intros r.
    destruct (MultiWorkerQueue_put_inv p n r m w
                (conj Hp (conj Hnum (conj Hcur (conj Hmap Hq)))))
      as (o & m' & w' & Ho & Hg & _ & Hput).
    exists o, m', w'. split; [done|]. split; [done|]. split; [by apply Hq|done].
Qed.

(** *** HistoryTablePersister.update_db *)

Section history_facts.
Context (row_str : row → string).

Lemma elem_of_map_keys (m : row) (a : string) :
  a ∈ (map_to_list m).*1 ↔ is_Some (m !! a).
Proof.
  rewrite list_elem_of_fmap. split.
  - intros ([a' v] & -> & Hin). apply elem_of_map_to_list in Hin. by exists v.
  - intros [v Hv]. exists (a, v). split; [done|]. by apply elem_of_map_to_list.
Qed.

Lemma elem_of_attrs (key : string) (new : row) (a : string) :
  a ∈ filter (λ a, a ≠ key) (map_to_list new).*1
  ↔ a ≠ key ∧ is_Some (new !! a).
Proof. by rewrite list_elem_of_filter, elem_of_map_keys. Qed.

(** The flag [changed] is raised exactly by an attribute the old object has
    with another value; attributes it does not have play no part. *)
Lemma attrs_changed_true (old new : row) (attrs : list string) :
  (attrs_changed row_str old new attrs).1 = true
  ↔ ∃ attr ov, attr ∈ attrs ∧ old !! attr = Some ov ∧ Some ov ≠ new !! attr.
Proof.
  induction attrs as [|a attrs IH]; simpl.
  - split; [done|]. intros (? & ? & Hin & _). by apply elem_of_nil in Hin.
  - destruct (old !! a) as [ov|] eqn:Ha.
    + case_bool_decide as Hne; simpl.
      * split; [|done]. intros _. exists a, ov. split; [left|]. done.
      * rewrite IH. split.
        -- intros (x & xv & Hin & Hx & Hd). exists x, xv. split; [by right|done].
        -- intros (x & xv & Hin & Hx & Hd).
           apply elem_of_cons in Hin as [->|Hin]; [|by exists x, xv].
           rewrite Ha in Hx. injection Hx as <-. done.
    + destruct (attrs_changed row_str old new attrs) as [c l]. simpl in *.
      rewrite IH. split.
      * intros (x & xv & Hin & Hx & Hd). exists x, xv. split; [by right|done].
      * intros (x & xv & Hin & Hx & Hd).
        apply elem_of_cons in Hin as [->|Hin]; [congruence|by exists x, xv].
Qed.

Lemma attrs_changed_false (key : string) (old new : row) :
  (attrs_changed row_str old new
     (filter (λ a, a ≠ key) (map_to_list new).*1)).1 = false
  ↔ agrees key old new.
Proof.
  rewrite <- not_true_iff_false, attrs_changed_true. unfold agrees. split.
  - intros Hno attr Hk Hnew.
    destruct (old !! attr) as [ov|] eqn:Hov; [|by left]. right.
    destruct (decide (Some ov = new !! attr)) as [|Hne]; [done|].
    destruct Hno. exists attr, ov. by rewrite elem_of_attrs.
  - intros Hag (attr & ov & Hin & Hov & Hne).
    apply elem_of_attrs in Hin as [Hk Hnew].
    destruct (Hag attr Hk Hnew); congruence.
Qed.

(** [setattr] of every item of the dict on top of the base attributes. *)
Lemma foldl_setattr_lookup (l : list (string * value)) (base : row)
    (a : string) :
  NoDup l.*1 →
  foldl (λ (r : row) av, <[av.1 := av.2]> r) base l !! a
  = match (list_to_map l : row) !! a with
    | Some v => Some v
    | None => base !! a
    end.
Proof.
  revert base. induction l as [|[a0 v0] l IH]; intros base Hnd; simpl.
  - by rewrite lookup_empty.
  - apply NoDup_cons in Hnd as [Hnotin Hnd]. rewrite IH by done.
    destruct (decide (a0 = a)) as [->|Hne].
    + rewrite !lookup_insert_eq.
      by rewrite (not_elem_of_list_to_map_1 (M := gmap string) l a Hnotin).
    + by rewrite !lookup_insert_ne.
Qed.

Lemma new_row_lookup (s : HistoryTablePersister) (obj : row) (a : string) :
  _new_row_from_obj s obj !! a
  = match obj !! a with
    | Some v => Some v
    | None =>
        (<["end_time" := VStr "Infinity"]>
           (<["begin_time" := VStr "NOW"]>
              (<["deviceid" := device_id s]> (blank_row s)))) !! a
    end.
Proof.
  unfold _new_row_from_obj.
  rewrite foldl_setattr_lookup by apply NoDup_fst_map_to_list.
  by rewrite list_to_map_to_list.
Qed.

Lemma new_row_settled (key : string) (nd : gmap string row)
    (s : HistoryTablePersister) (k : string) (new : row) :
  snapshot_wf key nd → nd !! k = Some new →
  live (_new_row_from_obj s new) ∧
  _new_row_from_obj s new !! key = Some (VStr k) ∧
  agrees key (_new_row_from_obj s new) new.
Proof.
  intros Hwf Hk. destruct (Hwf k new Hk) as [Hkey Hend].
  split; [|split].
  - unfold live. rewrite new_row_lookup, Hend. apply lookup_insert_eq.
  - by rewrite new_row_lookup, Hkey.
  - intros attr _ [v Hv]. right. by rewrite new_row_lookup, Hv.
Qed.

Lemma close_row_not_live (old : row) : ¬ live (close_row old).
Proof. unfold live, close_row. by rewrite lookup_insert_eq. Qed.
End history_facts.

Section update_db_runs.
Context (row_str : row → string).

Lemma find_new_Some (nd : gmap string row) (kv : value) (k : string)
    (new : row) :
  find_new nd kv = Some (k, new) ↔ kv = VStr k ∧ nd !! k = Some new.
Proof.
  destruct kv as [|n|k']; simpl; try (split; [done|by intros [? _]]).
  destruct (nd !! k') as [new'|] eqn:Hk; simpl.
  - split; [intros [= <- <-]; done|intros [[= <-] ?]; congruence].
  - split; [done|intros [[= <-] ?]; congruence].
Qed.

Lemma find_new_None (nd : gmap string row) (k : string) :
  find_new nd (VStr k) = None ↔ nd !! k = None.
Proof. simpl. destruct (nd !! k); simpl; split; done. Qed.

(** The old row has no entry in the new data: it is closed and counted as
    deleted. *)
Lemma update_db_old_gone (cd : Z * Z) (old : row) (s : HistoryTablePersister)
    (kv : value) :
  old !! key s = Some kv →
  find_new (new_data s) kv = None →
  update_db_old row_str cd old s
  = (Return (cd.1, cd.2 + 1), push_visited (close_row old) s).
Proof.
  intros Hk Hf. unfold update_db_old, py_bind, get_state. simpl.
  by rewrite Hk, Hf.
Qed.

(** The old row has an entry: it is closed and replaced when [changed], and
    left alone otherwise; the entry is taken out of the new data. *)
Lemma update_db_old_found (cd : Z * Z) (old : row) (s : HistoryTablePersister)
    (kv : value) (k : string) (new : row) :
  old !! key s = Some kv →
  find_new (new_data s) kv = Some (k, new) →
  is_Some (new !! key s) →
  update_db_old row_str cd old s
  = let cl := attrs_changed row_str old new
                (filter (λ a, a ≠ key s) (map_to_list new).*1) in
    if cl.1 then
      (Return (cd.1 + 1, cd.2),
       set_new_data (delete k (new_data s))
         (push_added (_new_row_from_obj s new)
            (push_visited (close_row old) (push_log cl.2 s))))
    else
      (Return cd,
       set_new_data (delete k (new_data s))
         (push_visited old (push_log cl.2 s))).
Proof.
  intros Hk Hf [v Hv]. unfold update_db_old, py_bind, get_state. simpl.
  rewrite Hk, Hf, Hv.
  destruct (attrs_changed row_str old new _) as [[|] l]; simpl; done.
Qed.
Lemma live_rows_push_visited (r : row) (s : HistoryTablePersister) :
  live_rows (push_visited r s)
  ≡ₚ if decide (live r) then r :: live_rows s else live_rows s.
Proof.
  unfold live_rows, push_visited. simpl.
  rewrite !filter_app, filter_cons, filter_nil.
  destruct (decide (live r)).
  - rewrite <- app_assoc. simpl. by rewrite <- Permutation_middle.
  - by rewrite app_nil_r.
Qed.

Lemma live_rows_push_added (r : row) (s : HistoryTablePersister) :
  live_rows (push_added r s)
  ≡ₚ if decide (live r) then r :: live_rows s else live_rows s.
Proof.
  unfold live_rows, push_added. simpl.
  rewrite !filter_app, filter_cons, filter_nil.
  destruct (decide (live r)).
  - rewrite app_assoc. by rewrite <- Permutation_cons_append.
  - by rewrite app_nil_r.
Qed.

Lemma run_inv_perm (key : string) (nd : gmap string row) (P : string → Prop)
    (L L' : list row) :
  L ≡ₚ L' → run_inv key nd P L → run_inv key nd P L'.
Proof.
  intros HL (Hall & Hnd & Hcov). split; [|split].
  - by rewrite <- HL.
  - by rewrite <- HL.
  - intros k Hk. destruct (Hcov k Hk) as [?|(r & Hr & ?)]; [by left|].
    right. exists r. by rewrite <- HL.
Qed.

Lemma run_inv_ext (key : string) (nd : gmap string row) (P P' : string → Prop)
    (L : list row) :
  (∀ k, P k ↔ P' k) → run_inv key nd P L → run_inv key nd P' L.
Proof.
  intros HP (Hall & Hnd & Hcov). split; [|split]; [|done|].
  - eapply Forall_impl; [exact Hall|]. simpl.
    intros r (Hl & k & new & ? & ? & HnP & ?). split; [done|].
    exists k, new. rewrite <- HP. done.
  - intros k Hk. destruct (Hcov k Hk); [left; by apply HP|by right].
Qed.

(** A key still to be handled gets its live row. *)
Lemma run_inv_add (key : string) (nd : gmap string row) (P : string → Prop)
    (L : list row) (k : string) (new r : row) :
  run_inv key nd P L →
  P k → nd !! k = Some new →
  live r → r !! key = Some (VStr k) → agrees key r new →
  run_inv key nd (λ k', P k' ∧ k' ≠ k) (r :: L).
Proof.
  intros (Hall & Hnd & Hcov) HPk Hk Hlive Hrk Hag. split; [|split].
  - constructor.
    + split; [done|]. exists k, new. repeat split; try done. by intros [_ ?].
    + eapply Forall_impl; [exact Hall|]. simpl.
      intros r' (Hl & k' & new' & ? & ? & HnP & ?). split; [done|].
      exists k', new'. repeat split; try done. intros [? _]. done.
  - rewrite fmap_cons. constructor; [|done].
    rewrite list_elem_of_fmap. intros (r' & Heq & Hin).
    rewrite Forall_forall in Hall.
    destruct (Hall r' Hin) as (_ & k' & new' & Hk' & _ & HnP & _).
    rewrite Hrk, Hk' in Heq. injection Heq as ->. done.
  - intros k' Hk'. destruct (decide (k' = k)) as [->|Hne].
    + right. exists r. split; [left|done].
    + destruct (Hcov k' Hk') as [?|(r' & Hin & ?)]; [by left|].
      right. exists r'. split; [by right|done].
Qed.

(** One step of the first loop keeps the invariant, for a well-formed row. *)
Lemma update_db_old_inv (k0 : string) (nd : gmap string row) (cd : Z * Z)
    (old : row) (s : HistoryTablePersister) :
  snapshot_wf k0 nd → key s = k0 → new_data s ⊆ nd →
  run_inv k0 nd (λ k, is_Some (new_data s !! k)) (live_rows s) →
  is_Some (old !! k0) → live old →
  ∃ cd' s',
    update_db_old row_str cd old s = (Return cd', s') ∧
    key s' = k0 ∧ blank_row s' = blank_row s ∧ device_id s' = device_id s ∧
    new_data s' ⊆ nd ∧
    run_inv k0 nd (λ k, is_Some (new_data s' !! k)) (live_rows s').
Proof.
  intros Hwf Hkey Hsub Hinv [kv Hkv] Hlive. subst k0.
  destruct (find_new (new_data s) kv) as [[k new]|] eqn:Hf.
  - apply find_new_Some in Hf as [-> Hk].
    assert (nd !! k = Some new) as Hndk by (by eapply lookup_weaken).
    destruct (Hwf k new Hndk) as [Hnk _].
    assert (find_new (new_data s) (VStr k) = Some (k, new)) as Hf
      by (by apply find_new_Some).
    rewrite (update_db_old_found cd old s (VStr k) k new Hkv Hf)
      by (by rewrite Hnk).
    simpl.
    destruct (attrs_changed row_str old new _) as [changed l] eqn:Hc. simpl.
    destruct (new_row_settled (key s) nd s k new Hwf Hndk) as (Hl' & Hk' & Ha').
    assert (∀ r, live r → r !! key s = Some (VStr k) → agrees (key s) r new →
            ∀ L, L ≡ₚ r :: live_rows s →
            run_inv (key s) nd (λ k', is_Some (delete k (new_data s) !! k')) L)
      as Hstep.
    { intros r Hr Hrk Hag L HL.
      apply (run_inv_perm _ _ _ (r :: live_rows s)); [done|].
      eapply run_inv_ext; [|eapply (run_inv_add _ _ _ _ k new r Hinv); eauto].
      intros k'. simpl. rewrite lookup_delete.
      case_decide; subst; [split; [by intros [_ ?]|by intros [? ?]]|].
      split; [by intros [? _]|done]. }
    destruct changed.
    + eexists _, _. split; [reflexivity|]. do 3 (split; [done|]). split.
      { simpl. etrans; [apply delete_subseteq|done]. }
      simpl. apply (Hstep (_new_row_from_obj s new)); try done.
      unfold live_rows. simpl. fold (live_rows s).
      pose proof (live_rows_push_added (_new_row_from_obj s new)
                    (push_visited (close_row old) s)) as Hp.
      unfold live_rows in Hp. simpl in Hp. rewrite Hp.
      rewrite decide_True by done. constructor.
      pose proof (live_rows_push_visited (close_row old) s) as Hp2.
      unfold live_rows in Hp2. simpl in Hp2. rewrite Hp2.
      rewrite decide_False by apply close_row_not_live. done.
    + eexists _, _. split; [reflexivity|]. do 3 (split; [done|]). split.
      { simpl. etrans; [apply delete_subseteq|done]. }
      simpl. apply (Hstep old); try done.
      * apply (attrs_changed_false row_str). by rewrite Hc.
      * pose proof (live_rows_push_visited old s) as Hp.
        unfold live_rows in Hp. simpl in Hp. unfold live_rows. simpl.
        rewrite Hp. by rewrite decide_True.
  - rewrite (update_db_old_gone cd old s kv Hkv Hf).
    eexists _, _. split; [reflexivity|]. do 3 (split; [done|]). split; [done|].
    simpl. eapply run_inv_perm; [|exact Hinv].
    rewrite live_rows_push_visited.
    by rewrite decide_False by apply close_row_not_live.
Qed.
Lemma update_db_old_loop_inv (k0 : string) (nd : gmap string row)
    (l : list row) (cd : Z * Z) (s : HistoryTablePersister) :
  snapshot_wf k0 nd → key s = k0 → new_data s ⊆ nd →
  run_inv k0 nd (λ k, is_Some (new_data s !! k)) (live_rows s) →
  old_data_wf k0 l →
  ∃ cd' s',
    py_foldl (update_db_old row_str) cd l s = (Return cd', s') ∧
    key s' = k0 ∧ new_data s' ⊆ nd ∧
    blank_row s' = blank_row s ∧ device_id s' = device_id s ∧
    run_inv k0 nd (λ k, is_Some (new_data s' !! k)) (live_rows s').
Proof.
  intros Hwf. revert cd s.
  induction l as [|old l IH]; intros cd s Hkey Hsub Hinv Hl.
  - exists cd, s. done.
  - apply Forall_cons in Hl as [[Hk Hlive] Hl].
    destruct (update_db_old_inv k0 nd cd old s Hwf Hkey Hsub Hinv Hk Hlive)
      as (cd1 & s1 & Hrun & Hkey1 & Hb & Hd & Hsub1 & Hinv1).
    destruct (IH cd1 s1 Hkey1 Hsub1 Hinv1 Hl)
      as (cd2 & s2 & Hrun2 & Hkey2 & Hsub2 & Hb2 & Hd2 & Hinv2).
    exists cd2, s2. split; [simpl; unfold py_bind; by rewrite Hrun|].
    split; [done|]. split; [done|].
    split; [congruence|]. split; [congruence|]. done.
Qed.

Lemma update_db_new_run (a : Z) (k : string) (obj : row)
    (s : HistoryTablePersister) :
  new_data s !! k = Some obj →
  update_db_new a k s
  = (Return (a + 1), push_added (_new_row_from_obj s obj) s).
Proof.
  intros Hk. unfold update_db_new, py_bind, get_state. simpl. by rewrite Hk.
Qed.

Lemma update_db_new_loop_inv (k0 : string) (nd : gmap string row)
    (ks : list string) (a : Z) (s : HistoryTablePersister) :
  snapshot_wf k0 nd → key s = k0 → new_data s ⊆ nd →
  NoDup ks → (∀ k, k ∈ ks → is_Some (new_data s !! k)) →
  run_inv k0 nd (λ k, k ∈ ks) (live_rows s) →
  ∃ s',
    py_foldl update_db_new a ks s = (Return (a + Z.of_nat (length ks)), s') ∧
    visited s' = visited s ∧
    length (added s') = (length (added s) + length ks)%nat ∧
    run_inv k0 nd (λ _, False) (live_rows s').
Proof.
  intros Hwf. revert a s.
  induction ks as [|k ks IH]; intros a s Hkey Hsub Hnd Hks Hinv.
  - exists s. simpl. rewrite Z.add_0_r, Nat.add_0_r.
    do 3 (split; [done|]).
    eapply run_inv_ext; [|exact Hinv]. intros k. by rewrite elem_of_nil.
  - apply NoDup_cons in Hnd as [Hnotin Hnd].
    destruct (Hks k) as [obj Hobj]; [left|].
    assert (nd !! k = Some obj) as Hndk by (by eapply lookup_weaken).
    destruct (new_row_settled k0 nd s k obj Hwf Hndk) as (Hl' & Hk' & Ha').
    destruct (IH (a + 1) (push_added (_new_row_from_obj s obj) s))
      as (s' & Hrun & Hv & Hlen & Hinv'); try done.
    { intros k' Hk''. apply Hks. by right. }
    { eapply run_inv_perm.
      { symmetry. rewrite live_rows_push_added. by rewrite decide_True. }
      eapply run_inv_ext;
        [|eapply (run_inv_add _ _ _ _ k obj _ Hinv); eauto; left].
      intros k'. simpl. rewrite elem_of_cons. split.
      - intros [[->|?] ?]; done.
      - intros Hin. split; [by right|]. intros ->. done. }
    exists s'. split; [|split; [|split]]; try done.
    + simpl. unfold py_bind. rewrite (update_db_new_run a k obj s Hobj).
      rewrite Hrun. do 2 f_equal. lia.
    + rewrite Hlen. simpl. rewrite length_app. simpl. lia.
Qed.

(** A first run on well-formed data returns, and leaves exactly one live
    row, described by the snapshot, for each key of the snapshot. *)
Lemma update_db_first_run (k0 : string) (blank : row) (dev : value)
    (old : list row) (nd : gmap string row) :
  snapshot_wf k0 nd → old_data_wf k0 old →
  ∃ counts s1,
    update_db row_str (start_run k0 blank dev old nd) = (Return counts, s1) ∧
    run_inv k0 nd (λ _, False) (live_rows s1).
Proof.
  intros Hwf Hold.
  assert (run_inv k0 nd (λ k, is_Some (nd !! k)) []) as Hinv0.
  { split; [constructor|]. split; [constructor|]. intros k Hk. by left. }
  destruct (update_db_old_loop_inv k0 nd old (0, 0)
              (start_run k0 blank dev old nd) Hwf eq_refl (reflexivity _)
              Hinv0 Hold)
    as (cd & s1 & Hrun1 & Hkey1 & Hsub1 & _ & _ & Hinv1).
  destruct (update_db_new_loop_inv k0 nd (map_to_list (new_data s1)).*1 0 s1
              Hwf Hkey1 Hsub1)
    as (s2 & Hrun2 & _ & _ & Hinv2).
  { apply NoDup_fst_map_to_list. }
  { intros k Hk. rewrite list_elem_of_fmap in Hk.
    destruct Hk as ([k' v] & -> & Hin).
    apply elem_of_map_to_list in Hin. by exists v. }
  { eapply run_inv_ext; [|exact Hinv1]. intros k. simpl.
    rewrite list_elem_of_fmap. split.
    - intros [v Hv]. exists (k, v). split; [done|].
      by apply elem_of_map_to_list.
    - intros ([k' v] & -> & Hin). apply elem_of_map_to_list in Hin.
      by exists v. }
  eexists _, (push_commit s2). split; [|exact Hinv2].
  unfold update_db, py_bind, get_state. simpl.
  unfold py_bind in Hrun1. rewrite Hrun1.
  unfold py_bind in Hrun2. rewrite Hrun2. reflexivity.
Qed.
(** The first loop over rows that the snapshot describes, one per key:
    nothing is closed, replaced or counted, and each row takes its entry
    out of the new data. *)
Lemma update_db_old_loop_settled (k0 : string) (nd : gmap string row)
    (l : list row) (cd : Z * Z) (s : HistoryTablePersister) :
  snapshot_wf k0 nd → key s = k0 →
  Forall (settled k0 nd) l →
  NoDup ((λ r : row, r !! k0) <$> l) →
  (∀ r k, r ∈ l → r !! k0 = Some (VStr k) → new_data s !! k = nd !! k) →
  ∃ s',
    py_foldl (update_db_old row_str) cd l s = (Return cd, s') ∧
    visited s' = visited s ++ l ∧ added s' = added s ∧
    (∀ k, new_data s' !! k
          = if decide (Some (VStr k) ∈ (λ r : row, r !! k0) <$> l) then None
            else new_data s !! k).
Proof.
  intros Hwf. revert s.
  induction l as [|old l IH]; intros s Hkey Hall Hnd Hsame.
  - exists s. simpl. rewrite app_nil_r. repeat split; done.
  - apply Forall_cons in Hall as [(k & new & Hk & Hndk & Hag) Hall].
    rewrite fmap_cons in Hnd. apply NoDup_cons in Hnd as [Hnotin Hnd].
    assert (new_data s !! k = Some new) as Hsk.
    { rewrite (Hsame old k); [done|left|done]. }
    destruct (Hwf k new Hndk) as [Hnk _].
    assert (update_db_old row_str cd old s
            = (Return cd, set_new_data (delete k (new_data s))
                 (push_visited old
                    (push_log (attrs_changed row_str old new
                       (filter (λ a, a ≠ key s) (map_to_list new).*1)).2 s))))
      as Hrun.
    { subst k0.
      rewrite (update_db_old_found cd old s (VStr k) k new Hk);
        [|by apply find_new_Some|by rewrite Hnk].
      simpl. apply (attrs_changed_false row_str) in Hag. by rewrite Hag. }
    destruct (IH (set_new_data (delete k (new_data s))
                 (push_visited old
                    (push_log (attrs_changed row_str old new
                       (filter (λ a, a ≠ key s) (map_to_list new).*1)).2 s))))
      as (s' & Hrun' & Hv & Ha & Hnew); try done.
    { intros r k' Hr Hk'. simpl.
      rewrite lookup_delete_ne; [apply (Hsame r); [by right|done]|].
      intros ->. apply Hnotin. rewrite Hk, <- Hk'.
      apply list_elem_of_fmap. by exists r. }
    exists s'. split; [|split; [|split]].
    + simpl. unfold py_bind. by rewrite Hrun.
    + rewrite Hv. simpl. by rewrite <- app_assoc.
    + by rewrite Ha.
    + intros k'. rewrite Hnew. simpl.
      assert (Some (VStr k') ∈ old !! k0 :: ((λ r : row, r !! k0) <$> l)
              ↔ k' = k ∨ Some (VStr k') ∈ (λ r : row, r !! k0) <$> l) as Hiff.
      { rewrite elem_of_cons, Hk.
        split; [intros [[= ->]|?]; auto|intros [->|?]; auto]. }
      destruct (decide (k' = k)) as [->|Hne].
      * rewrite lookup_delete_eq. repeat case_decide; try done;
          exfalso; match goal with H : _ ∉ _ :: _ |- _ => apply H end;
          apply Hiff; by left.
      * rewrite lookup_delete_ne by done. repeat case_decide; try done.
        -- exfalso. match goal with H : _ ∉ _ :: _ |- _ => apply H end.
           apply Hiff. by right.
        -- exfalso. match goal with H : _ ∈ _ :: _ |- _ =>
             apply Hiff in H as [?|?] end; done.
Qed.

(** A run over the live rows of a finished run finds nothing to do. *)
Lemma update_db_second_run (k0 : string) (blank : row) (dev : value)
    (L : list row) (nd : gmap string row) :
  snapshot_wf k0 nd →
  run_inv k0 nd (λ _, False) L →
  ∃ s2,
    update_db row_str (start_run k0 blank dev L nd)
      = (Return (0, 0, 0), s2) ∧
    visited s2 = L ∧ added s2 = [].
Proof.
  intros Hwf (Hall & Hnd & Hcov).
  destruct (update_db_old_loop_settled k0 nd L (0, 0)
              (start_run k0 blank dev L nd) Hwf eq_refl)
    as (s1 & Hrun1 & Hv & Ha & Hnew); try done.
  { eapply Forall_impl; [exact Hall|]. simpl.
    intros r (_ & k & new & ? & ? & _ & ?). by exists k, new. }
  assert (new_data s1 = ∅) as Hempty.
  { apply map_empty. intros k. rewrite Hnew. case_decide as Hin; [done|].
    simpl. destruct (nd !! k) as [new|] eqn:Hk; [|done].
    destruct (Hcov k) as [[]|(r & Hr & Hrk)]; [by rewrite Hk|].
    destruct Hin. rewrite <- Hrk. apply list_elem_of_fmap. by exists r. }
  eexists (push_commit s1). split; [|done].
  unfold update_db, py_bind, get_state. simpl.
  unfold py_bind in Hrun1. rewrite Hrun1. rewrite Hempty.
  rewrite map_to_list_empty. reflexivity.
Qed.
End update_db_runs.

(** C2 (reconciler idempotence).  [update_db] run on a snapshot, and then
    run again on the same snapshot with the live rows of the first run as
    [old_data] (in any order), answers [(0, 0, 0)] the second time, and
    neither adds nor closes a row.  The snapshot is as [_build_objs] makes
    it and the first [old_data] is what the query yields: live rows of the
    mapped class. *)
Theorem update_db_idempotent (row_str : row → string) (k0 : string)
    (blank : row) (dev : value) (old : list row) (nd : gmap string row) :
  snapshot_wf k0 nd → old_data_wf k0 old →
  ∃ counts s1,
    update_db row_str (start_run k0 blank dev old nd) = (Return counts, s1) ∧
    ∀ old2, old2 ≡ₚ live_rows s1 →
      ∃ s2,
        update_db row_str (start_run k0 blank dev old2 nd)
          = (Return (0, 0, 0), s2) ∧
        visited s2 = old2 ∧ added s2 = [].
Proof.
  intros Hwf Hold.
  destruct (update_db_first_run row_str k0 blank dev old nd Hwf Hold)
    as (counts & s1 & Hrun & Hinv).
  exists counts, s1. split; [done|]. intros old2 Hperm.
  apply (update_db_second_run row_str k0 blank dev old2 nd Hwf).
  by apply (run_inv_perm _ _ _ (live_rows s1)).
Qed.

Lemma snapshot_wf_s2 : snapshot_wf "ifdescr" s2_new_data.
Proof.
  intros k new Hk. unfold s2_new_data in Hk.
  apply lookup_singleton_Some in Hk as [<- <-]. split; reflexivity.
Qed.

Lemma old_data_wf_s2 : old_data_wf "ifdescr" s2_old_data.
Proof.
  repeat constructor. by eexists.
Qed.

Lemma update_db_idempotent_witness :
  ∃ counts s1,
    update_db example_row_str
      (start_run "ifdescr" s2_blank (VInt 7) s2_old_data s2_new_data)
    = (Return counts, s1) ∧
    ∀ old2, old2 ≡ₚ live_rows s1 →
      ∃ s2,
        update_db example_row_str
          (start_run "ifdescr" s2_blank (VInt 7) old2 s2_new_data)
          = (Return (0, 0, 0), s2) ∧
        visited s2 = old2 ∧ added s2 = [].
Proof.
  apply (update_db_idempotent example_row_str "ifdescr" s2_blank (VInt 7)
           s2_old_data s2_new_data).
  - exact snapshot_wf_s2.
  - exact old_data_wf_s2.
Defined.

(** Scenario S2: [Gi0/1] is closed, [Gi0/2] is added, and the answer is
    [(1, 0, 1)]. *)
Example update_db_s2 :
  ∃ s1,
    update_db example_row_str
      (start_run "ifdescr" s2_blank (VInt 7) s2_old_data s2_new_data)
    = (Return (1, 0, 1), s1) ∧
    (λ r : row, (r !! "ifdescr", r !! "end_time")) <$> visited s1
    = [(Some (VStr "Gi0/1"), Some (VStr "NOW"))] ∧
    (λ r : row, (r !! "ifdescr", r !! "begin_time", r !! "end_time"))
      <$> added s1
    = [(Some (VStr "Gi0/2"), Some (VStr "NOW"), Some (VStr "Infinity"))] ∧
    commits s1 = 1%nat.
Proof.
  eexists. split; [vm_compute; reflexivity|].
  split; [vm_compute; reflexivity|]. split; vm_compute; reflexivity.
Qed.

Lemma worker_ordinal_range_witness :
  (∀ w, ∃ m w', MultiWorkerQueue_init "tsdb" 3 w = (Return m, w')) ∧
  ∀ m w, mwq_reachable (H := example_result_pickle (D := unit) []) "tsdb" 3
           (m, w) →
    1 ≤ cur_worker m ≤ 3 ∧
    (∀ k o, worker_map m !! k = Some o → 1 ≤ o ≤ 3) ∧
    ∀ r : PollResult unit, ∃ o m' w',
      1 ≤ o ≤ 3 ∧
      get_worker r (m, w) = (Return (worker_name "tsdb" o), (m', w')) ∧
      queues m !! worker_name "tsdb" o = Some (worker_name "tsdb" o) ∧
      MultiWorkerQueue_put (H := example_result_pickle []) r (m, w)
        = on_world (put (H := example_result_pickle [])
                      (worker_name "tsdb" o) r) (m', w').
Proof.
  apply (worker_ordinal_range (H := example_result_pickle []) "tsdb" 3). lia.
Defined.

(** *** update_db: the counters partition the entities *)

Section update_db_counts.
Context (row_str : row → string).

Lemma agreesb_spec (key : string) (old new : row) :
  agreesb key old new = true ↔ agrees key old new.
Proof.
  unfold agreesb, agrees. rewrite bool_decide_eq_true. unfold map_Forall.
  split.
  - intros Hall attr Hk [nv Hnv].
    destruct (Hall attr nv Hnv) as [?|[?|?]]; [done|by left|right; congruence].
  - intros Hag attr nv Hnv.
    destruct (decide (attr = key)) as [|Hk]; [by left|]. right.
    destruct (Hag attr Hk) as [?|?]; [by eexists|by left|right; congruence].
Qed.

Lemma attrs_changed_agreesb (key : string) (old new : row) :
  (attrs_changed row_str old new
     (filter (λ a, a ≠ key) (map_to_list new).*1)).1
  = negb (agreesb key old new).
Proof.
  destruct (agreesb key old new) eqn:Hag; simpl.
  - apply attrs_changed_false. by apply agreesb_spec.
  - apply not_false_iff_true. rewrite attrs_changed_false, <- agreesb_spec.
    by rewrite Hag.
Qed.

Lemma count_verdict_cons (v x : verdict) (vs : list verdict) :
  count_verdict v (x :: vs)
  = (if decide (x = v) then 1 else 0) + count_verdict v vs.
Proof.
  unfold count_verdict. rewrite filter_cons.
  destruct (decide (x = v)); simpl; lia.
Qed.

Lemma count_verdict_total (vs : list verdict) :
  Z.of_nat (length vs)
  = count_verdict Changed vs + count_verdict Deleted vs
    + count_verdict Untouched vs.
Proof.
  induction vs as [|v vs IH]; [done|].
  rewrite !count_verdict_cons. simpl length. destruct v; simpl; lia.
Qed.

(** One step of the first loop follows the verdict on the row. *)
Lemma update_db_old_verdict (cd : Z * Z) (old : row)
    (s : HistoryTablePersister) :
  is_Some (old !! key s) →
  (∀ k new, new_data s !! k = Some new → is_Some (new !! key s)) →
  ∃ s',
    let v := (verdict_of (key s) (new_data s) old).1 in
    update_db_old row_str cd old s
    = (Return (cd.1 + (if decide (v = Changed) then 1 else 0),
               cd.2 + (if decide (v = Deleted) then 1 else 0)), s') ∧
    key s' = key s ∧
    new_data s' = (verdict_of (key s) (new_data s) old).2 ∧
    visited s' = visited s ++ [apply_verdict old v] ∧
    length (added s')
    = (length (added s) + (if decide (v = Changed) then 1 else 0))%nat.
Proof.
  intros [kv Hkv] Hkeyed. unfold verdict_of. rewrite Hkv.
  destruct (find_new (new_data s) kv) as [[k new]|] eqn:Hf.
  - apply find_new_Some in Hf as [-> Hk]. rewrite Hk.
    rewrite (update_db_old_found row_str cd old s (VStr k) k new Hkv);
      [|by apply find_new_Some|by eapply Hkeyed].
    simpl. rewrite attrs_changed_agreesb.
    destruct (agreesb (key s) old new); simpl.
    + eexists. split.
      { destruct cd. simpl. rewrite !Z.add_0_r. reflexivity. }
      simpl. repeat split; try done; lia.
    + eexists. split.
      { destruct cd. simpl. rewrite !Z.add_0_r. reflexivity. }
      simpl. repeat split; try done; by rewrite length_app.
  - rewrite (update_db_old_gone row_str cd old s kv Hkv Hf).
    assert (match kv with
            | VStr k => match new_data s !! k with
                        | Some new =>
                            (if agreesb (key s) old new then Untouched
                             else Changed, delete k (new_data s))
                        | None => (Deleted, new_data s)
                        end
            | _ => (Deleted, new_data s)
            end = (Deleted, new_data s)) as ->.
    { destruct kv as [| |k]; try done.
      apply find_new_None in Hf. by rewrite Hf. }
    simpl. eexists. split.
    { destruct cd. simpl. rewrite !Z.add_0_r. reflexivity. }
    simpl. repeat split; try done; lia.
Qed.

Lemma update_db_old_loop_verdicts (l : list row) (cd : Z * Z)
    (s : HistoryTablePersister) :
  Forall (λ old, is_Some (old !! key s)) l →
  (∀ k new, new_data s !! k = Some new → is_Some (new !! key s)) →
  ∃ s',
    let vs := (verdicts (key s) (new_data s) l).1 in
    py_foldl (update_db_old row_str) cd l s
    = (Return (cd.1 + count_verdict Changed vs,
               cd.2 + count_verdict Deleted vs), s') ∧
    key s' = key s ∧
    new_data s' = (verdicts (key s) (new_data s) l).2 ∧
    visited s' = visited s ++ zip_with apply_verdict l vs ∧
    Z.of_nat (length (added s'))
    = Z.of_nat (length (added s)) + count_verdict Changed vs ∧
    Z.of_nat (size (new_data s))
    = Z.of_nat (size (new_data s')) + count_verdict Changed vs
      + count_verdict Untouched vs.
Proof.
  revert cd s. induction l as [|old l IH]; intros cd s Hl Hkeyed.
  - exists s. simpl. unfold count_verdict. simpl.
    rewrite !Z.add_0_r, app_nil_r. by destruct cd.
  - apply Forall_cons in Hl as [Hold Hl].
    destruct (update_db_old_verdict cd old s Hold Hkeyed)
      as (s1 & Hrun & Hkey1 & Hnew1 & Hvis1 & Hadd1).
    simpl in Hrun, Hvis1, Hadd1.
    assert (Z.of_nat (size (new_data s))
            = Z.of_nat (size (new_data s1))
              + (if decide ((verdict_of (key s) (new_data s) old).1 = Deleted)
                 then 0 else 1)) as Hsize.
    { rewrite Hnew1. unfold verdict_of.
      destruct (old !! key s) as [[| |k]|]; simpl; try lia.
      destruct (new_data s !! k) as [new|] eqn:Hk; simpl; [|lia].
      rewrite map_size_delete_Some by (by eexists).
      assert (size (new_data s) ≠ 0%nat).
      { apply map_size_non_empty_iff. intros He. by rewrite He in Hk. }
      destruct (agreesb (key s) old new); simpl; lia. }
    destruct (IH (cd.1 + (if decide ((verdict_of (key s) (new_data s) old).1
                                     = Changed) then 1 else 0),
                  cd.2 + (if decide ((verdict_of (key s) (new_data s) old).1
                                     = Deleted) then 1 else 0)) s1)
      as (s2 & Hrun2 & Hkey2 & Hnew2 & Hvis2 & Hadd2 & Hsize2).
    { by rewrite Hkey1. }
    { rewrite Hkey1, Hnew1. intros k new. unfold verdict_of.
      destruct (old !! key s) as [[| |k']|]; simpl; try apply Hkeyed.
      destruct (new_data s !! k') as [new'|]; simpl; [|apply Hkeyed].
      intros Hd. apply lookup_delete_Some in Hd as [_ Hd]. by eapply Hkeyed. }
    rewrite Hkey1, Hnew1 in Hrun2, Hnew2, Hvis2, Hadd2, Hsize2.
    simpl in Hrun2, Hvis2, Hadd2, Hsize2.
    exists s2. simpl.
    destruct (verdict_of (key s) (new_data s) old) as [v nd1] eqn:Hv.
    simpl in *.
    destruct (verdicts (key s) nd1 l) as [vs rest] eqn:Hvs. simpl in *.
    rewrite !count_verdict_cons.
    split; [|split; [|split; [|split; [|split]]]].
    + unfold py_bind. rewrite Hrun. rewrite Hrun2. do 3 f_equal; lia.
    + congruence.
    + done.
    + rewrite Hvis2, Hvis1. by rewrite <- app_assoc.
    + rewrite Hadd2, Hadd1. destruct (decide (v = Changed)); lia.
    + rewrite Hnew1 in Hsize.
      destruct v; repeat case_decide; try done; lia.
Qed.

Lemma update_db_new_loop (ks : list string) (a : Z)
    (s : HistoryTablePersister) :
  (∀ k, k ∈ ks → is_Some (new_data s !! k)) →
  ∃ s',
    py_foldl update_db_new a ks s = (Return (a + Z.of_nat (length ks)), s') ∧
    visited s' = visited s ∧
    length (added s') = (length (added s) + length ks)%nat.
Proof.
  revert a s. induction ks as [|k ks IH]; intros a s Hks.
  - exists s. simpl. by rewrite Z.add_0_r, Nat.add_0_r.
  - destruct (Hks k) as [obj Hobj]; [left|].
    destruct (IH (a + 1) (push_added (_new_row_from_obj s obj) s))
      as (s' & Hrun & Hv & Hlen).
    { intros k' Hk'. apply Hks. by right. }
    exists s'. split; [|split].
    + simpl. unfold py_bind. rewrite (update_db_new_run a k obj s Hobj).
      rewrite Hrun. do 2 f_equal. lia.
    + done.
    + rewrite Hlen. simpl. rewrite length_app. simpl. lia.
Qed.
End update_db_counts.

(** C9 (diff-count partition).  A run of [update_db] on objects that have
    the key attribute returns, and its counters follow the verdicts on the
    old rows: each old row has one verdict, [changes] counts the changed
    and [deletes] the deleted rows, and an untouched row (its entry has no
    differing attribute) counts nowhere and is not closed; each key of the
    new data is matched by one changed or untouched row or else counted in
    [adds]; and the rows added to the session number [adds + changes]. *)
Theorem update_db_counts (row_str : row → string) (k0 : string)
    (blank : row) (dev : value) (old : list row) (nd : gmap string row) :
  keyed k0 old nd →
  ∃ a c d s1,
    update_db row_str (start_run k0 blank dev old nd)
      = (Return (a, c, d), s1) ∧
    let vs := (verdicts k0 nd old).1 in
    length vs = length old ∧
    c = count_verdict Changed vs ∧
    d = count_verdict Deleted vs ∧
    a = Z.of_nat (size (verdicts k0 nd old).2) ∧
    Z.of_nat (length old) = c + d + count_verdict Untouched vs ∧
    Z.of_nat (size nd) = a + c + count_verdict Untouched vs ∧
    Z.of_nat (length (added s1)) = a + c ∧
    visited s1 = zip_with apply_verdict old vs.
Proof.
  intros [Hold Hnd].
  destruct (update_db_old_loop_verdicts row_str old (0, 0)
              (start_run k0 blank dev old nd) Hold Hnd)
    as (s1 & Hrun1 & Hkey1 & Hnew1 & Hvis1 & Hadd1 & Hsize1).
  simpl in *.
  destruct (update_db_new_loop (map_to_list (new_data s1)).*1 0 s1)
    as (s2 & Hrun2 & Hvis2 & Hadd2).
  { intros k Hk. rewrite list_elem_of_fmap in Hk.
    destruct Hk as ([k' v] & -> & Hin).
    apply elem_of_map_to_list in Hin. by exists v. }
  rewrite length_fmap, length_map_to_list in Hrun2, Hadd2.
  assert (length (verdicts k0 nd old).1 = length old) as Hlen.
  { clear. revert nd. induction old as [|o old IH]; intros nd; [done|].
    simpl. destruct (verdict_of k0 nd o) as [v nd1].
    specialize (IH nd1). destruct (verdicts k0 nd1 old). simpl in *.
    by rewrite IH. }
  eexists _, _, _, (push_commit s2). split.
  { unfold update_db, py_bind, get_state. simpl.
    unfold py_bind in Hrun1. rewrite Hrun1.
    unfold py_bind in Hrun2. rewrite Hrun2. reflexivity. }
  simpl. rewrite <- Hnew1.
  pose proof (count_verdict_total (verdicts k0 nd old).1) as Htot.
  rewrite Hlen in Htot.
  repeat split; try done; try lia.
  by rewrite Hvis2, Hvis1.
Qed.

Lemma update_db_counts_witness :
  ∃ a c d s1,
    update_db example_row_str
      (start_run "ifdescr" s2_blank (VInt 7) s2_old_data s2_new_data)
      = (Return (a, c, d), s1) ∧
    let vs := (verdicts "ifdescr" s2_new_data s2_old_data).1 in
    length vs = length s2_old_data ∧
    c = count_verdict Changed vs ∧
    d = count_verdict Deleted vs ∧
    a = Z.of_nat (size (verdicts "ifdescr" s2_new_data s2_old_data).2) ∧
    Z.of_nat (length s2_old_data) = c + d + count_verdict Untouched vs ∧
    Z.of_nat (size s2_new_data) = a + c + count_verdict Untouched vs ∧
    Z.of_nat (length (added s1)) = a + c ∧
    visited s1 = zip_with apply_verdict s2_old_data vs.
Proof.
  apply (update_db_counts example_row_str "ifdescr" s2_blank (VInt 7)
           s2_old_data s2_new_data).
  split.
  - repeat constructor. by eexists.
  - intros k new Hk. destruct (snapshot_wf_s2 k new Hk) as [-> _]. by eexists.
Defined.

(** *** update_db: attributes the old object does not have *)

Section unknown_attributes.
Context (row_str : row → string).

Lemma attrs_changed_known (old new : row) (attrs : list string) :
  (attrs_changed row_str old new attrs).1
  = (attrs_changed row_str old new
       (filter (λ a, is_Some (old !! a)) attrs)).1.
Proof.
  induction attrs as [|a attrs IH]; [done|].
  rewrite filter_cons. simpl.
  destruct (old !! a) as [ov|] eqn:Ha.
  - rewrite decide_True by (by eexists). simpl. rewrite Ha.
    by case_bool_decide.
  - rewrite decide_False by (by intros [? ?]).
    destruct (attrs_changed row_str old new attrs). simpl in *. done.
Qed.

Lemma attrs_changed_agree (old new : row) (attrs : list string) :
  (∀ a, a ∈ attrs → old !! a = None ∨ old !! a = new !! a) →
  attrs_changed row_str old new attrs
  = (false, missing_field row_str old
              <$> filter (λ a, old !! a = None) attrs).
Proof.
  induction attrs as [|a attrs IH]; intros Hag; [done|].
  rewrite filter_cons. simpl.
  assert (∀ a', a' ∈ attrs → old !! a' = None ∨ old !! a' = new !! a') as Hag'.
  { intros a' Ha'. apply Hag. by right. }
  destruct (old !! a) as [ov|] eqn:Ha.
  - destruct (Hag a) as [Hn|He]; [left|congruence|].
    rewrite Ha in He. rewrite bool_decide_false by (by intros Hne).
    rewrite decide_False by done. by apply IH.
  - rewrite decide_True by done. rewrite (IH Hag'). done.
Qed.

Lemma py_foldl_app {S A B : Type} (body : B → A → py S B) (acc acc1 : B)
    (l1 l2 : list A) (s s1 : S) :
  py_foldl body acc l1 s = (Return acc1, s1) →
  py_foldl body acc (l1 ++ l2) s = py_foldl body acc1 l2 s1.
Proof.
  revert acc s. induction l1 as [|x l1 IH]; intros acc s Hrun; simpl in *.
  - by injection Hrun as -> ->.
  - unfold py_bind in *. destruct (body acc x s) as [[acc'|e] s']; [|done].
    by apply IH.
Qed.
End unknown_attributes.



(** The same run through [update_db]: the answer is [(0, 0, 0)] and the one
    record logged names [ipAddr]. *)
Example update_db_unknown_attribute_run :
  ∃ s1,
    update_db example_row_str
      (start_run "ifdescr" s2_blank (VInt 7) [unknown_attr_old]
         {[ "Gi0/1" := unknown_attr_new ]})
    = (Return (0, 0, 0), s1) ∧
    visited s1 = [unknown_attr_old] ∧ added s1 = [] ∧
    log s1 = [LogRec LError
                "Field ipAddr is not contained in the object: <IfRef Gi0/1>"].
Proof.
  eexists. split; [vm_compute; reflexivity|].
  split; [reflexivity|]. split; [reflexivity|]. vm_compute. reflexivity.
Qed.

(** *** MemcachedPersistHandler.put: routing *)

Section handler_facts.
Context {D : Type} `{Pickle (PollResult D)}.

Lemma queue_obj_put_queues (qn : string) (r : PollResult D)
    (s s' : MemcachedPersistHandler * world) (o : outcome unit) :
  queue_obj_put qn r s = (o, s') →
  ∀ x, is_Some (handler_queues s'.1 !! x) ↔ is_Some (handler_queues s.1 !! x).
Proof.
  unfold queue_obj_put. intros Hrun x.
  destruct (handler_queues s.1 !! qn) as [[n|m]|] eqn:Hq.
  - unfold on_world in Hrun. destruct (put n r s.2).
    by injection Hrun as _ <-.
  - destruct (MultiWorkerQueue_put r (m, s.2)) as [r' [m' w']].
    injection Hrun as _ <-. simpl.
    destruct (decide (qn = x)) as [<-|Hne].
    + rewrite lookup_insert_eq, Hq. split; by eexists.
    + by rewrite lookup_insert_ne.
  - by injection Hrun as _ <-.
Qed.

(** A registered name: the local [q] becomes the queue just looked up and
    the result is put on it. *)
Lemma put_queue_registered (r : PollResult D) (q : option string)
    (qn : string) (s : MemcachedPersistHandler * world) :
  is_Some (handler_queues s.1 !! qn) →
  MemcachedPersistHandler_put_queue r q qn s
  = match queue_obj_put qn r s with
    | (Return _, s') => (Return (Some qn), s')
    | (Raise e, s') => (Raise e, s')
    end.
Proof.
  intros [qo Hqn].
  unfold MemcachedPersistHandler_put_queue, py_bind, get_self. simpl.
  rewrite Hqn. simpl. by destruct (queue_obj_put qn r s) as [[[]|e] s1].
Qed.

Lemma put_loop_registered (r : PollResult D) (qnames : list string)
    (q : option string) (s : MemcachedPersistHandler * world) :
  Forall (λ qn, is_Some (handler_queues s.1 !! qn)) qnames →
  (do_ py_foldl (MemcachedPersistHandler_put_queue r) q qnames; py_ret tt) s
  = py_for qnames (λ qn, queue_obj_put qn r) s.
Proof.
  revert q s. induction qnames as [|qn qnames IH]; intros q s Hall; [done|].
  apply Forall_cons in Hall as [Hqn Hall].
  change (py_foldl (MemcachedPersistHandler_put_queue r) q (qn :: qnames))
    with (do acc <- MemcachedPersistHandler_put_queue r q qn;
          py_foldl (MemcachedPersistHandler_put_queue r) acc qnames).
  change (py_for (qn :: qnames) (λ qn, queue_obj_put qn r))
    with (do_ queue_obj_put qn r;
          py_for qnames (λ qn, queue_obj_put qn r)).
  unfold py_bind at 1 2 3. rewrite (put_queue_registered r q qn s Hqn).
  destruct (queue_obj_put qn r s) as [[[]|e] s1] eqn:Hput; [|done].
  specialize (IH (Some qn) s1). unfold py_bind in IH at 1. apply IH.
  eapply Forall_impl; [exact Hall|]. simpl. intros x Hx.
  by apply (queue_obj_put_queues qn r s s1 _ Hput).
Qed.
End handler_facts.

(** *** Keys of different queues never collide *)

Lemma string_chars_app (a b : string) :
  string_chars (a +:+ b) = string_chars a ++ string_chars b.
Proof. induction a as [|c a IH]; simpl; [done|]. by rewrite IH. Qed.

Lemma string_chars_inj (a b : string) :
  string_chars a = string_chars b → a = b.
Proof.
  revert b. induction a as [|c a IH]; intros [|d b]; simpl; try done.
  intros [= -> Hab]. f_equal. by apply IH.
Qed.

Lemma pretty_N_go_numeric (x : N) (s : string) :
  Forall (λ c, is_numeric_char c = true) (string_chars s) →
  Forall (λ c, is_numeric_char c = true) (string_chars (pretty_N_go x s)).
Proof.
  revert s. induction (N.lt_wf_0 x) as [x _ IH]; intros s Hs.
  destruct (decide (x = 0)%N) as [->|Hx].
  - by rewrite pretty_N_go_0.
  - rewrite pretty_N_go_step by lia.
    apply IH; [apply N.div_lt; lia|].
    simpl. constructor; [|done].
    unfold pretty_N_char. by repeat case_match.
Qed.

Lemma pretty_Z_numeric (z : Z) :
  Forall (λ c, is_numeric_char c = true) (string_chars (pretty z)).
Proof.
  assert (∀ n : N, Forall (λ c, is_numeric_char c = true)
                     (string_chars (pretty n))) as HN.
  { intros n. unfold pretty, pretty_N. case_decide.
    - repeat constructor.
    - apply pretty_N_go_numeric. constructor. }
  destruct z as [|p|p].
  - repeat constructor.
  - apply HN.
  - change (pretty (Z.neg p)) with ("-" +:+ pretty (N.pos p)).
    rewrite string_chars_app. apply Forall_app. split; [|apply HN].
    repeat constructor.
Qed.

Lemma pretty_Z_no_underscore (z : Z) (u v : list ascii) :
  string_chars (pretty z) ≠ u ++ "_"%char :: v.
Proof.
  intros Heq. pose proof (pretty_Z_numeric z) as Hnum. rewrite Heq in Hnum.
  apply Forall_app in Hnum as [_ Hnum].
  apply Forall_cons in Hnum as [Hc _]. done.
Qed.

Lemma key_suffix_head (k : key_kind) :
  ∃ t, string_chars (key_suffix k) = "_"%char :: t.
Proof. destruct k; simpl; eauto. Qed.

(** No key suffix is a proper suffix of another. *)
Lemma key_suffix_no_overlap (k k' : key_kind) (u : list ascii) :
  string_chars (key_suffix k') = u ++ string_chars (key_suffix k) →
  u = [] ∧ k = k'.
Proof.
  intros Heq.
  assert (u = []) as ->.
  { destruct k' as [| |m].
    - destruct k as [| |n]; [simpl in Heq..|].
      + apply (f_equal length) in Heq. rewrite length_app in Heq.
        simpl in Heq. destruct u; [done|simpl in Heq; lia].
      + do 12 (destruct u as [|? u]; [try done|]; try done;
               injection Heq as <- Heq).
      + pose proof (pretty_Z_numeric n) as Hn.
        change (string_chars (key_suffix (KSlot n)))
          with ("_"%char :: string_chars (pretty n)) in Heq.
        do 12 (destruct u as [|? u];
               [try done; injection Heq as Heq;
                rewrite <- Heq in Hn; apply Forall_cons in Hn as [Hc _];
                done|];
               try done; injection Heq as <- Heq).
    - destruct k as [| |n]; [simpl in Heq..|].
      + do 12 (destruct u as [|? u]; [try done|]; try done;
               injection Heq as <- Heq).
      + apply (f_equal length) in Heq. rewrite length_app in Heq.
        simpl in Heq. destruct u; [done|simpl in Heq; lia].
      + pose proof (pretty_Z_numeric n) as Hn.
        change (string_chars (key_suffix (KSlot n)))
          with ("_"%char :: string_chars (pretty n)) in Heq.
        do 12 (destruct u as [|? u];
               [try done; injection Heq as Heq;
                rewrite <- Heq in Hn; apply Forall_cons in Hn as [Hc _];
                done|];
               try done; injection Heq as <- Heq).
    - destruct u as [|c u]; [done|].
      destruct (key_suffix_head k) as [t Ht]. rewrite Ht in Heq.
      change (string_chars (key_suffix (KSlot m)))
        with ("_"%char :: string_chars (pretty m)) in Heq.
      injection Heq as _ Heq.
      by apply pretty_Z_no_underscore in Heq. }
  split; [done|]. rewrite app_nil_l in Heq. apply string_chars_inj in Heq.
  destruct k as [| |n], k' as [| |m]; try done.
  - change (String "_" (pretty m) = String "_" "last_added") in Heq.
    injection Heq as Heq. pose proof (pretty_Z_numeric_head m) as Hm.
    rewrite Heq in Hm. done.
  - change (String "_" (pretty m) = String "_" "last_read") in Heq.
    injection Heq as Heq. pose proof (pretty_Z_numeric_head m) as Hm.
    rewrite Heq in Hm. done.
  - change (String "_" "last_added" = String "_" (pretty n)) in Heq.
    injection Heq as Heq. pose proof (pretty_Z_numeric_head n) as Hn.
    rewrite <- Heq in Hn. done.
  - change (String "_" "last_read" = String "_" (pretty n)) in Heq.
    injection Heq as Heq. pose proof (pretty_Z_numeric_head n) as Hn.
    rewrite <- Heq in Hn. done.
  - change (String "_" (pretty m) = String "_" (pretty n)) in Heq.
    injection Heq as Heq. f_equal. symmetry. by apply (inj pretty).
Qed.

(** A key names its queue and its kind. *)
Lemma queue_key_inj (q q' : string) (k k' : key_kind) :
  queue_key q k = queue_key q' k' → q = q' ∧ k = k'.
Proof.
  unfold queue_key. intros Heq. do 2 apply String.app_inj in Heq.
  apply (f_equal string_chars) in Heq. rewrite !string_chars_app in Heq.
  apply app_eq_app in Heq as [u [[Hq Hs]|[Hq Hs]]].
  - apply key_suffix_no_overlap in Hs as [-> ->]. rewrite app_nil_r in Hq.
    by apply string_chars_inj in Hq.
  - apply key_suffix_no_overlap in Hs as [-> ->]. rewrite app_nil_r in Hq.
    by apply string_chars_inj in Hq.
Qed.

(** *** A put touches one queue *)

Section queue_frame.
Context {V : Type} `{Pickle V}.

Lemma queue_holds_ext (q : string) (c : Z) (vs : list V) (w w' : world) :
  (∀ k, mc w' !! queue_key q k = mc w !! queue_key q k) →
  queue_holds q c vs w → queue_holds q c vs w'.
Proof.
  intros Hext (Hlr & Hla & Hslots). split; [|split].
  - rewrite <- Hlr. apply (Hext KLastRead).
  - rewrite <- Hla. apply (Hext KLastAdded).
  - intros i v Hi. rewrite <- (Hslots i v Hi). apply (Hext (KSlot _)).
Qed.

(** [put] on one queue leaves the keys of every other queue alone. *)
Lemma put_other (q q' : string) (v : V) (w w' : world) (o : outcome unit) :
  q ≠ q' → put q' v w = (o, w') →
  ∀ k, mc w' !! queue_key q k = mc w !! queue_key q k.
Proof.
  intros Hne Hput k. unfold put in Hput.
  destruct (negb (String.eqb (serialize v) "")).
  - unfold py_bind, mc_incr in Hput.
    destruct (mc w !! last_added q') as [[n|s]|] eqn:Hla; simpl in Hput;
      try (by injection Hput as _ <-).
    injection Hput as _ <-. simpl.
    rewrite lookup_insert_ne.
    2:{ intros Heq. by apply (queue_key_inj q' q (KSlot _) k) in Heq as [? _]. }
    rewrite lookup_insert_ne; [done|].
    intros Heq. by apply (queue_key_inj q' q KLastAdded k) in Heq as [? _].
  - by injection Hput as _ <-.
Qed.

Lemma store_holds_mc (b : Z) (σ : gmap string (Z * list V)) (w w' : world) :
  mc w' = mc w → store_holds b σ w → store_holds b σ w'.
Proof.
  intros Hmc Hσ q cv Hq. destruct (Hσ q cv Hq) as (Hh & Hc & Hb).
  split; [|done]. apply (queue_holds_ext q _ _ w); [|done].
  intros k. by rewrite Hmc.
Qed.

(** [put] on a queue of [σ] appends to it and to no other. *)
Lemma put_store_holds (b : Z) (σ : gmap string (Z * list V)) (t : string)
    (v : V) (w : world) :
  0 ≤ b → serialize v ≠ "" →
  is_Some (σ !! t) →
  store_holds (b + 1) σ w →
  ∃ w', put t v w = (Return tt, w') ∧ store_holds b (enqueue v σ t) w'.
Proof.
  intros Hb Hv [[c vs] Ht] Hσ.
  destruct (Hσ t _ Ht) as (Hh & Hc & Hbound). simpl in *.
  destruct (put_holds t c vs v w Hh Hv Hc) as (w' & Hput & Hh' & _); [lia|].
  exists w'. split; [done|].
  intros q cv Hq. unfold enqueue in Hq.
  destruct (decide (t = q)) as [<-|Hne].
  - rewrite lookup_alter_eq, Ht in Hq. injection Hq as <-. simpl.
    split; [done|]. split; [done|]. rewrite length_app. simpl. lia.
  - rewrite lookup_alter_ne in Hq by done.
    destruct (Hσ q cv Hq) as (Hhq & Hcq & Hbq).
    split; [|lia]. apply (queue_holds_ext q _ _ w); [|done].
    apply (put_other q t v w w' (Return tt)); [done|done].
Qed.
End queue_frame.

(** *** MemcachedPersistHandler.put: what the queues hold afterwards *)

Section handler_enqueues.
Context {D : Type} `{Pickle (PollResult D)}.

Lemma get_worker_mc (r : PollResult D) (m m' : MultiWorkerQueue)
    (w w' : world) (o : outcome string) :
  get_worker r (m, w) = (o, (m', w')) → mc w' = mc w.
Proof.
  unfold get_worker, py_bind, get_self. simpl.
  destruct (worker_map m !! shard_key r); simpl; by intros [= _ _ <-].
Qed.

Lemma enqueue_is_Some (r : PollResult D) (σ : gmap string (Z * list (PollResult D)))
    (t x : string) :
  is_Some (σ !! x) → is_Some (enqueue r σ t !! x).
Proof.
  intros [cv Hx]. unfold enqueue. destruct (decide (t = x)) as [<-|Hne].
  - rewrite lookup_alter_eq, Hx. by eexists.
  - rewrite lookup_alter_ne by done. by eexists.
Qed.

(** One [q.put(result)] of the handler appends the result to one of the
    queues behind [q]; the handler keeps its queue objects and their
    workers. *)
Lemma queue_obj_put_enqueues (qn : string) (r : PollResult D)
    (s : MemcachedPersistHandler * world) (b : Z)
    (σ : gmap string (Z * list (PollResult D))) (qo : queue_obj) :
  handler_wf s.1 → serialize r ≠ "" → 0 ≤ b →
  handler_queues s.1 !! qn = Some qo →
  Forall (λ t, is_Some (σ !! t)) (targets qo) →
  store_holds (b + 1) σ s.2 →
  ∃ t s',
    t ∈ targets qo ∧
    queue_obj_put qn r s = (Return tt, s') ∧
    store_holds b (enqueue r σ t) s'.2 ∧
    handler_wf s'.1 ∧
    ∀ x, targets <$> handler_queues s'.1 !! x
         = targets <$> handler_queues s.1 !! x.
Proof.
  intros Hwf Hr Hb Hqn Hts Hσ. destruct s as [h w]. simpl in *.
  unfold queue_obj_put. simpl. rewrite Hqn.
  destruct qo as [n|m].
  - apply Forall_cons in Hts as [Hn _].
    destruct (put_store_holds b σ n r w Hb Hr Hn Hσ) as (w' & Hput & Hσ').
    exists n, (h, w'). split; [by apply list_elem_of_here|].
    unfold on_world. simpl. rewrite Hput. split; [done|].
    split; [done|]. split; [done|]. done.
  - pose proof (Hwf qn m Hqn) as Hinv.
    destruct (MultiWorkerQueue_put_inv _ _ r m w Hinv)
      as (o & m' & w1 & Ho & Hg & Hinv' & Hput).
    rewrite Hput. unfold on_world. simpl.
    assert (worker_name (qprefix m) o ∈ targets (MultiQueue m)) as Ht.
    { simpl. apply list_elem_of_fmap. exists o. split; [done|].
      apply elem_of_seqZ. lia. }
    assert (is_Some (σ !! worker_name (qprefix m) o)) as Hsome.
    { rewrite Forall_forall in Hts. by apply Hts. }
    apply get_worker_mc in Hg as Hmc.
    destruct (put_store_holds b σ (worker_name (qprefix m) o) r w1 Hb Hr Hsome)
      as (w' & Hput' & Hσ'); [by apply (store_holds_mc _ _ w)|].
    rewrite Hput'.
    destruct Hinv' as (Hp & Hnum & Hrest).
    exists (worker_name (qprefix m) o),
      (mkMemcachedPersistHandler (<[qn := MultiQueue m']> (handler_queues h))
         (handler_config h), w').
    split; [exact Ht|]. split; [reflexivity|].
    split; [done|]. simpl. split.
    + intros x mx Hx. simpl in Hx. destruct (decide (qn = x)) as [<-|Hne].
      * rewrite lookup_insert_eq in Hx. injection Hx as <-.
        rewrite Hp, Hnum. done.
      * rewrite lookup_insert_ne in Hx by done. by apply (Hwf x).
    + intros x. destruct (decide (qn = x)) as [<-|Hne].
      * rewrite lookup_insert_eq, Hqn. simpl. by rewrite Hp, Hnum.
      * by rewrite lookup_insert_ne.
Qed.

Lemma put_loop_enqueues (r : PollResult D) (qnames : list string)
    (s : MemcachedPersistHandler * world)
    (σ : gmap string (Z * list (PollResult D))) :
  handler_wf s.1 → serialize r ≠ "" →
  Forall (λ qn, ∃ qo, handler_queues s.1 !! qn = Some qo ∧
                      Forall (λ t, is_Some (σ !! t)) (targets qo)) qnames →
  store_holds (Z.of_nat (length qnames)) σ s.2 →
  ∃ ts s',
    py_for qnames (λ qn, queue_obj_put qn r) s = (Return tt, s') ∧
    Forall2 (λ qn t, ∃ qo, handler_queues s.1 !! qn = Some qo ∧
                           t ∈ targets qo) qnames ts ∧
    store_holds 0 (foldl (enqueue r) σ ts) s'.2.
Proof.
  intros Hwf Hr. revert s σ Hwf.
  induction qnames as [|qn qnames IH]; intros s σ Hwf Hall Hσ.
  - exists [], s. split; [done|]. split; [constructor|done].
  - apply Forall_cons in Hall as [(qo & Hqn & Hts) Hall].
    destruct (queue_obj_put_enqueues qn r s (Z.of_nat (length qnames)) σ qo)
      as (t & s1 & Ht & Hput & Hσ1 & Hwf1 & Hshape); try done; [lia| |].
    { replace (Z.of_nat (length qnames) + 1)
        with (Z.of_nat (length (qn :: qnames))) by (simpl; lia). done. }
    destruct (IH s1 (enqueue r σ t) Hwf1) as (ts & s' & Hrun & Hf2 & Hσ');
      [|done|].
    { eapply Forall_impl; [exact Hall|]. simpl.
      intros x (qx & Hx & Hxs). pose proof (Hshape x) as Hsx.
      rewrite Hx in Hsx. simpl in Hsx.
      apply fmap_Some in Hsx as (qx' & Hx' & Heq).
      exists qx'. split; [done|]. rewrite <- Heq.
      eapply Forall_impl; [exact Hxs|]. intros y. apply enqueue_is_Some. }
    exists (t :: ts), s'. split; [|split; [|done]].
    + change (py_for (qn :: qnames) (λ qn, queue_obj_put qn r))
        with (do_ queue_obj_put qn r;
              py_for qnames (λ qn, queue_obj_put qn r)).
      unfold py_bind. by rewrite Hput.
    + constructor; [by exists qo|].
      eapply Forall2_impl; [exact Hf2|]. simpl.
      intros x y (qx' & Hx' & Hy). pose proof (Hshape x) as Hsx.
      rewrite Hx' in Hsx. simpl in Hsx. symmetry in Hsx.
      apply fmap_Some in Hsx as (qx & Hx & Heq).
      exists qx. split; [done|]. by rewrite <- Heq.
Qed.
End handler_enqueues.

(** *** The handler as constructed *)

Lemma init_queue_wf (config : Config) (qs qs' : gmap string queue_obj)
    (qname : string) (w w' : world) :
  (∀ qn m, qs !! qn = Some (MultiQueue m) →
     mwq_inv (qprefix m) (num_workers m) m) →
  MemcachedPersistHandler_init_queue config qs qname w = (Return qs', w') →
  ∀ qn m, qs' !! qn = Some (MultiQueue m) →
    mwq_inv (qprefix m) (num_workers m) m.
Proof.
  intros Hwf Hrun. unfold MemcachedPersistHandler_init_queue in Hrun.
  destruct (persist_queues config !! qname) as [[cls n]|]; [|done].
  destruct (Z.ltb_spec 1 n) as [Hn|Hn].
  - destruct (MultiWorkerQueue_init_inv qname n w) as (m0 & w0 & Hi & Hinv & _);
      [lia|].
    unfold py_bind in Hrun. rewrite Hi in Hrun. injection Hrun as <- <-.
    intros qn m Hqn. destruct (decide (qname = qn)) as [<-|Hne].
    + rewrite lookup_insert_eq in Hqn. injection Hqn as <-.
      destruct Hinv as (Hp & Hnum & Hrest). by rewrite Hp, Hnum.
    + rewrite lookup_insert_ne in Hqn by done. by apply (Hwf qn).
  - unfold py_bind in Hrun.
    destruct (MemcachedPersistQueue_init qname w) as [[[]|e] w1]; [|done].
    injection Hrun as <- <-.
    intros qn m Hqn. destruct (decide (qname = qn)) as [<-|Hne].
    + by rewrite lookup_insert_eq in Hqn.
    + rewrite lookup_insert_ne in Hqn by done. by apply (Hwf qn).
Qed.

Lemma MemcachedPersistHandler_init_wf (config : Config)
    (h : MemcachedPersistHandler) (w w' : world) :
  MemcachedPersistHandler_init config w = (Return h, w') → handler_wf h.
Proof.
  unfold MemcachedPersistHandler_init.
  assert (∀ names qs qs' w w',
    (∀ qn m, qs !! qn = Some (MultiQueue m) →
       mwq_inv (qprefix m) (num_workers m) m) →
    py_foldl (MemcachedPersistHandler_init_queue config) qs names w
      = (Return qs', w') →
    ∀ qn m, qs' !! qn = Some (MultiQueue m) →
      mwq_inv (qprefix m) (num_workers m) m) as Hloop.
  { induction names as [|x names IH]; intros qs qs' w0 w1 Hwf Hrun.
    - injection Hrun as <- <-. done.
    - simpl in Hrun. unfold py_bind in Hrun.
      destruct (MemcachedPersistHandler_init_queue config qs x w0)
        as [[qs1|e] w2] eqn:Hstep; [|done].
      apply (IH qs1 qs' w2 w1); [|done].
      by apply (init_queue_wf config qs qs1 x w0 w2). }
  unfold py_bind.
  destruct (py_foldl _ _ _ w) as [[qs|e] w1] eqn:Hrun; [|done].
  intros [= <- <-]. intros qn m Hqn. simpl in Hqn.
  eapply Hloop; [|exact Hrun|exact Hqn].
  intros x mx Hx. by rewrite lookup_empty in Hx.
Qed.

(** X23 (routing to configured queues).  A result whose lower-cased
    [oidset_name] is not a key of [persist_map] is dropped: the handler,
    its queues and the server are as before, and one error record is
    logged.  A result whose lower-cased [oidset_name] is a key is put, in
    the order of the mapped list, on the queue registered under each name
    of the list, when the names are those of configured queues; and when
    the queues behind
    those names hold [σ] on the server, with room in their counters, the
    call returns and the server then holds [σ] with the result appended
    once for each name of the list, to the queue of that name or to one of
    its workers' queues, every other queue of [σ] being as before. *)
Theorem handler_put_routes {D : Type} `{Pickle (PollResult D)}
    (r : PollResult D) (h : MemcachedPersistHandler) (w : world) :
  (persist_map (handler_config h) !! lower (oidset_name r) = None →
   MemcachedPersistHandler_put r (h, w)
   = (Return tt,
      (h, logged LError ("unknown oidset: " +:+ oidset_name r) w))) ∧
  (∀ qnames,
     persist_map (handler_config h) !! lower (oidset_name r) = Some qnames →
     Forall (λ qn, is_Some (handler_queues h !! qn)) qnames →
     MemcachedPersistHandler_put r (h, w)
     = py_for qnames (λ qn, queue_obj_put qn r) (h, w)) ∧
  (∀ qnames σ,
     persist_map (handler_config h) !! lower (oidset_name r) = Some qnames →
     handler_wf h → serialize r ≠ "" →
     Forall (λ qn, ∃ qo, handler_queues h !! qn = Some qo ∧
                         Forall (λ t, is_Some (σ !! t)) (targets qo)) qnames →
     store_holds (Z.of_nat (length qnames)) σ w →
     ∃ ts h' w',
       MemcachedPersistHandler_put r (h, w) = (Return tt, (h', w')) ∧
       Forall2 (λ qn t, ∃ qo, handler_queues h !! qn = Some qo ∧
                              t ∈ targets qo) qnames ts ∧
       store_holds 0 (foldl (enqueue r) σ ts) w').
Proof.
  split; [|split].
  - intros Hmiss.
    unfold MemcachedPersistHandler_put, py_bind at 1, get_self. simpl.
    by rewrite Hmiss.
  - intros qnames Hhit Hall.
    unfold MemcachedPersistHandler_put, py_bind at 1, get_self. simpl.
    rewrite Hhit. by apply put_loop_registered.
  - intros qnames σ Hhit Hwf Hr Hall Hσ.
    destruct (put_loop_enqueues r qnames (h, w) σ Hwf Hr Hall Hσ)
      as (ts & [h' w'] & Hrun & Hts & Hσ').
    exists ts, h', w'. split; [|done].
    unfold MemcachedPersistHandler_put, py_bind at 1, get_self. simpl.
    rewrite Hhit. rewrite put_loop_registered; [done|].
    eapply Forall_impl; [exact Hall|]. simpl. intros x (qo & -> & _). by eexists.
Qed.

Lemma handler_put_routes_witness :
  MemcachedPersistHandler_put (H := example_result_pickle []) unrouted_result
    example_start
  = (Return tt,
     (example_start.1,
      logged LError "unknown oidset: NoSuchSet" example_start.2)) ∧
  MemcachedPersistHandler_put (H := example_result_pickle []) ifref_result
    example_start
  = py_for ["ifref"; "tsdb"]
      (λ qn, queue_obj_put (H := example_result_pickle []) qn ifref_result)
      example_start ∧
  ∃ ts h' w',
    MemcachedPersistHandler_put (H := example_result_pickle []) ifref_result
      example_start = (Return tt, (h', w')) ∧
    Forall2 (λ qn t, ∃ qo, handler_queues example_start.1 !! qn = Some qo ∧
                           t ∈ targets qo) ["ifref"; "tsdb"] ts ∧
    store_holds (H := example_result_pickle []) 0
      (foldl (enqueue ifref_result) example_contents ts) w'.
Proof.
  split; [|split].
  - apply (handler_put_routes (H := example_result_pickle []) unrouted_result
             example_start.1 example_start.2).
    vm_compute. reflexivity.
  - apply (handler_put_routes (H := example_result_pickle []) ifref_result
             example_start.1 example_start.2).
    + vm_compute. reflexivity.
    + repeat constructor; eexists; vm_compute; reflexivity.
  - apply (proj2 (proj2 (handler_put_routes (H := example_result_pickle [])
             ifref_result example_start.1 example_start.2))
             ["ifref"; "tsdb"] example_contents).
    + vm_compute. reflexivity.
    + apply (MemcachedPersistHandler_init_wf example_config _ empty_world
               example_start.2).
      vm_compute. reflexivity.
    + intros Heq. vm_compute in Heq. discriminate.
    + repeat constructor; eexists; (split; [vm_compute; reflexivity|]);
        repeat constructor; eexists; vm_compute; reflexivity.
    + unfold store_holds, example_contents.
      repeat apply map_Forall_insert_2; try apply map_Forall_empty;
        (split; [split; [vm_compute; reflexivity|
                         split; [vm_compute; reflexivity|
                                 intros i v Hi; by destruct i]]
                |simpl; lia]).
Defined.

(** The routed result lands once on the history queue and once on the
    worker of the TSDB queue that its key is assigned to; the unrouted one
    leaves every counter alone. *)
Example handler_put_lengths :
  ∃ s1 s2,
    MemcachedPersistHandler_put (H := example_result_pickle []) ifref_result
      example_start = (Return tt, s1) ∧
    (len "ifref" s1.2).1 = Return 1 ∧
    (len "tsdb_1" s1.2).1 = Return 1 ∧
    (len "tsdb_2" s1.2).1 = Return 0 ∧
    (len "tsdb_3" s1.2).1 = Return 0 ∧
    MemcachedPersistHandler_put (H := example_result_pickle []) unrouted_result
      s1 = (Return tt, s2) ∧
    mc s2.2 = mc s1.2 ∧ s2.1 = s1.1.
Proof.
  eexists _, _. split; [vm_compute; reflexivity|].
  repeat split; vm_compute; reflexivity.
Qed.

(** A mapped name that is not a configured queue: the code logs it and
    then puts on the queue of the previous name again, or fails on the
    unbound local when there is none. *)
Example handler_put_unknown_queue :
  let h := mkMemcachedPersistHandler (handler_queues example_start.1)
             (mkConfig (persist_queues example_config)
                {[ "fastpoll" := ["ifref"; "nosuch"];
                   "slowpoll" := ["nosuch"] ]}) in
  ∃ s1 s2,
    MemcachedPersistHandler_put (H := example_result_pickle []) example_result
      (h, example_start.2) = (Return tt, s1) ∧
    (len "ifref" s1.2).1 = Return 2 ∧
    MemcachedPersistHandler_put (H := example_result_pickle [])
      (mkPollResult "SlowPoll" "router1" "sysUpTime" 1288000000 tt ∅)
      (h, example_start.2) = (Raise UnboundLocalError, s2).
Proof.
  eexists _, _. split; [vm_compute; reflexivity|].
  split; vm_compute; reflexivity.
Qed.

(** C3 (router total coverage) does not hold of the code.  The handler
    is constructed for a configuration whose [persist_map] sends
    [ifrefpoll] to [nosuch] and then to the configured queue [ifref].
    [put] of an [IfRefPoll] result logs that [nosuch] is unknown and goes
    on to [q.put(result)] with [q] unbound: it raises [UnboundLocalError],
    the server is left as it was, and the queue [ifref], which is named in
    the mapped list, is still empty. *)
Theorem handler_put_skips_queue :
  persist_map misrouted_config !! lower (oidset_name ifref_result)
    = Some ["nosuch"; "ifref"] ∧
  MemcachedPersistHandler_init misrouted_config empty_world
    = (Return misrouted_start.1, misrouted_start.2) ∧
  handler_queues misrouted_start.1 !! "ifref" = Some (SingleQueue "ifref") ∧
  len "ifref" misrouted_start.2 = (Return 0, misrouted_start.2) ∧
  ∃ w',
    MemcachedPersistHandler_put (H := example_result_pickle []) ifref_result
      misrouted_start
    = (Raise UnboundLocalError, (misrouted_start.1, w')) ∧
    mc w' = mc misrouted_start.2 ∧
    logs w' = logs misrouted_start.2
              ++ [LogRec LError "unknown queue: nosuch"] ∧
    len "ifref" w' = (Return 0, w').
Proof.
  split; [vm_compute; reflexivity|]. split; [vm_compute; reflexivity|].
  split; [vm_compute; reflexivity|]. split; [vm_compute; reflexivity|].
  eexists. split; [vm_compute; reflexivity|].
  split; [vm_compute; reflexivity|]. split; vm_compute; reflexivity.
Qed.

(** *** TSDBPollPersister.store: the values inserted *)

Section tsdb_facts.
Context {T : Type} `{TSDB T}.
Context (float_of_str : string → option float).
Context (py_eval : string → outcome string).

Lemma keeps_ret {A : Type} (a : A) :
  keeps_inserted (T := T) (py_ret a).
Proof. intros s o s' [= <- <-]. done. Qed.

Lemma keeps_raise {A : Type} (e : exn) :
  keeps_inserted (T := T) (A := A) (py_raise e).
Proof. intros s o s' [= <- <-]. done. Qed.

Lemma keeps_lift {A : Type} (x : outcome A) :
  keeps_inserted (T := T) (py_lift x).
Proof. intros s o s' [= <- <-]. done. Qed.

Lemma keeps_get_state : keeps_inserted (T := T) get_state.
Proof. intros s o s' [= <- <-]. done. Qed.

Lemma keeps_bind {A B : Type} (c : py (TSDBPollPersister T) A)
    (k : A → py (TSDBPollPersister T) B) :
  keeps_inserted c → (∀ a, keeps_inserted (k a)) → keeps_inserted (py_bind c k).
Proof.
  intros Hc Hk s o s'. unfold py_bind.
  destruct (c s) as [[a|e] s1] eqn:Hcs.
  - intros Hks. rewrite (Hk a s1 o s' Hks). by eapply Hc.
  - intros [= <- <-]. by eapply Hc.
Qed.

Lemma keeps_catch {A : Type} (c : py (TSDBPollPersister T) A)
    (h : exn → option (py (TSDBPollPersister T) A)) :
  keeps_inserted c → (∀ e k, h e = Some k → keeps_inserted k) →
  keeps_inserted (py_catch c h).
Proof.
  intros Hc Hh s o s'. unfold py_catch.
  destruct (c s) as [[a|e] s1] eqn:Hcs.
  - intros [= <- <-]. by eapply Hc.
  - destruct (h e) as [k|] eqn:He.
    + intros Hks. rewrite (Hh e k He s1 o s' Hks). by eapply Hc.
    + intros [= <- <-]. by eapply Hc.
Qed.

Lemma keeps_for {A : Type} (l : list A)
    (body : A → py (TSDBPollPersister T) unit) :
  (∀ a, keeps_inserted (body a)) → keeps_inserted (py_for l body).
Proof.
  intros Hb. induction l as [|a l IH]; simpl.
  - apply keeps_ret.
  - apply keeps_bind; [apply Hb|done].
Qed.

Lemma keeps_getitem {A : Type} (d : gmap string A) (k : string) :
  keeps_inserted (T := T) (py_getitem d k).
Proof.
  unfold py_getitem. destruct (d !! k); [apply keeps_ret|apply keeps_raise].
Qed.

Lemma keeps_on_tsdb {A : Type} (c : py T A) : keeps_inserted (on_tsdb c).
Proof.
  intros s o s'. unfold on_tsdb. destruct (c (tsdb s)) as [r t'].
  by intros [= <- <-].
Qed.

Lemma keeps_log (l : loglevel) (msg : string) :
  keeps_inserted (T := T) (tsdb_log_to l msg).
Proof. intros s o s' [= <- <-]. done. Qed.

Lemma keeps_py_int (v : value) : keeps_inserted (T := T) (py_int v).
Proof.
  destruct v as [|n|x]; simpl; try apply keeps_raise; try apply keeps_ret.
  destruct (int_of_str x); [apply keeps_ret|apply keeps_raise].
Qed.

Lemma keeps_create_agg (v : string) (oidset : OIDSet) (period : Z) :
  keeps_inserted (T := T) (_create_agg py_eval v oidset period).
Proof.
  unfold _create_agg.
  apply keeps_bind; [apply keeps_get_state|intros self].
  apply keeps_bind; [apply keeps_getitem|intros args].
  apply keeps_bind; [apply keeps_getitem|intros text].
  apply keeps_bind; [apply keeps_lift|intros cm].
  apply keeps_catch; [apply keeps_on_tsdb|].
  intros e k [= <-]. apply keeps_log.
Qed.

Lemma keeps_create_aggs (v : string) (oidset : OIDSet) :
  keeps_inserted (T := T) (_create_aggs py_eval v oidset).
Proof.
  unfold _create_aggs.
  apply keeps_bind; [apply keeps_create_agg|intros _].
  apply keeps_bind; [apply keeps_get_state|intros self].
  apply keeps_bind; [apply keeps_getitem|intros args].
  destruct (args !! "aggregates"); [|apply keeps_ret].
  apply keeps_for. intros agg.
  apply keeps_bind; [apply keeps_py_int|intros p]. apply keeps_create_agg.
Qed.

Lemma keeps_create_var (ty v : string) (oidset : OIDSet) (oid : OID) :
  keeps_inserted (T := T) (_create_var py_eval ty v oidset oid).
Proof.
  unfold _create_var.
  apply keeps_bind; [apply keeps_log|intros _].
  apply keeps_bind; [apply keeps_get_state|intros self].
  apply keeps_bind; [apply keeps_getitem|intros args].
  apply keeps_bind; [apply keeps_getitem|intros text].
  apply keeps_bind; [apply keeps_lift|intros cm].
  apply keeps_bind; [apply keeps_on_tsdb|intros _].
  apply keeps_bind.
  { destruct (OID_aggregate oid); [apply keeps_create_aggs|apply keeps_ret]. }
  intros _. apply keeps_bind; [apply keeps_on_tsdb|intros _]. apply keeps_ret.
Qed.

Lemma keeps_update_agg (v : string) (oidset : OIDSet) (up : option string)
    (m : Z) :
  keeps_inserted (T := T) (update_agg v oidset up m).
Proof.
  unfold update_agg. apply keeps_bind; [apply keeps_on_tsdb|intros bad].
  apply keeps_for. intros msg. apply keeps_log.
Qed.

Lemma keeps_aggregate (v name : string) (ts : Z) (up : string)
    (oidset : OIDSet) :
  keeps_inserted (T := T) (_aggregate py_eval v name ts up oidset).
Proof.
  unfold _aggregate. apply keeps_bind.
  { apply keeps_catch.
    - apply keeps_bind; [apply keeps_on_tsdb|intros _; apply keeps_ret].
    - intros e k He. destruct e; simplify_eq. apply keeps_ret. }
  intros uptime. apply keeps_catch; [apply keeps_update_agg|].
  intros e k He. destruct e; simplify_eq.
  - apply keeps_bind; [apply keeps_log|intros _].
    apply keeps_bind; [apply keeps_create_agg|intros _].
    apply keeps_bind; [apply keeps_on_tsdb|intros _]. apply keeps_update_agg.
  - apply keeps_log.
Qed.

Lemma bind_Return_inv {S A B : Type} (c : py S A) (k : A → py S B)
    (s s' : S) (b : B) :
  py_bind c k s = (Return b, s') →
  ∃ a s1, c s = (Return a, s1) ∧ k a s1 = (Return b, s').
Proof.
  unfold py_bind. destruct (c s) as [[a|e] s1]; [|done]. eauto.
Qed.

Lemma create_var_returns (ty v : string) (oidset : OIDSet) (oid : OID)
    (s s' : TSDBPollPersister T) (x : string) :
  _create_var py_eval ty v oidset oid s = (Return x, s') → x = v.
Proof.
  unfold _create_var. intros Hrun.
  repeat (apply bind_Return_inv in Hrun as (? & ? & _ & Hrun)).
  by injection Hrun as <- _.
Qed.

(** The row value [store_value] computes, and nothing else: the state is
    not touched. *)
Lemma store_value_spec (set_name : string) (val : value)
    (s s' : TSDBPollPersister T) (o : outcome sample) :
  store_value float_of_str set_name val s = (o, s') →
  s' = s ∧
  ∀ smp, o = Return smp →
    if decide (set_name = "SparkySet")
    then ∃ f, py_float float_of_str val = Return f ∧
              smp = SFloat (f * float_of_Z 100)%float
    else smp = SVal val.
Proof.
  unfold store_value. destruct (String.eqb_spec set_name "SparkySet") as [->|Hne].
  - unfold py_bind, py_lift.
    destruct (py_float float_of_str val) as [f|e]; intros [= <- <-].
    + split; [done|]. intros smp [= <-]. rewrite decide_True by done. eauto.
    + split; [done|]. intros smp [=].
  - intros [= <- <-]. split; [done|]. intros smp [= <-].
    by rewrite decide_False.
Qed.

Lemma store_pair_spec (r : PollResult (list (string * value)))
    (set_name : string) (oidset : OIDSet) (oid : OID)
    (flags : value) (var_type : string) (vv : string * value)
    (s s' : TSDBPollPersister T) (o : outcome unit) :
  metadata r !! "tsdb_flags" = Some flags →
  store_pair float_of_str py_eval r set_name (path_join (device_name r) set_name)
    oidset oid flags var_type vv s = (o, s') →
  (inserted s' = inserted s ∧
   (o = Return tt → ∃ t',
      tsdb_get_var (path_join (path_join (device_name r) set_name) vv.1)
        (tsdb s) = (Raise InvalidMetaData, t')))
  ∨ ∃ rec, inserted_for float_of_str r set_name vv rec ∧ inserted s' = inserted s ++ [rec].
Proof.
  intros Hflags. unfold store_pair. unfold py_bind at 1.
  destruct (store_value float_of_str set_name vv.2 s) as [[smp|e] s0] eqn:Hv.
  2:{ intros [= <- <-]. left.
      apply store_value_spec in Hv as [-> _]. split; [done|]. intros [=]. }
  apply store_value_spec in Hv as [-> Hsmp]. specialize (Hsmp smp eq_refl).
  set (var_name := path_join (path_join (device_name r) set_name) vv.1).
  unfold py_bind at 1. unfold py_catch at 1. unfold py_bind at 1.
  unfold on_tsdb at 1.
  destruct (tsdb_get_var var_name (tsdb s)) as [[[]|e] t1] eqn:Hget.
  - (* the variable exists *)
    simpl. unfold py_bind at 1.
    match goal with |- context [on_tsdb ?c ?st] =>
      destruct (on_tsdb c st) as [[[]|e] s1] eqn:Hins end.
    + apply keeps_on_tsdb in Hins. simpl in Hins.
      unfold py_bind at 1. unfold push_inserted at 1. simpl.
      intros Hrest. right. eexists. split.
      2:{ destruct (OID_aggregate oid).
          - apply keeps_catch in Hrest.
            + rewrite Hrest. simpl. by rewrite Hins.
            + apply keeps_aggregate.
            + intros e k He. destruct (is_TSDBError e); simplify_eq.
              apply keeps_log.
          - injection Hrest as _ <-. simpl. by rewrite Hins. }
      repeat split; try done; simpl; by rewrite Hflags.
    + intros [= <- <-]. left. apply keeps_on_tsdb in Hins. simpl in Hins.
      split; [done|]. intros [=].
  - (* get_var raised *)
    simpl.
    destruct e;
      try (by intros [= <- <-]; left; split; [done|intros [=]]).
    + (* TSDBVarDoesNotExistError: create it *)
      unfold py_bind at 1.
      match goal with |- context [_create_var ?ev ?a ?b ?c ?d ?st] =>
        destruct (_create_var ev a b c d st) as [[v|e] s1] eqn:Hcr end.
      2:{ intros [= <- <-]. left. apply keeps_create_var in Hcr.
          simpl in Hcr. split; [done|]. intros [=]. }
      apply create_var_returns in Hcr as Hv. subst v.
      apply keeps_create_var in Hcr. simpl in Hcr.
      simpl. unfold py_bind at 1.
      match goal with |- context [on_tsdb ?c ?st] =>
        destruct (on_tsdb c st) as [[[]|e] s2] eqn:Hins end.
      * apply keeps_on_tsdb in Hins.
        unfold py_bind at 1. unfold push_inserted at 1. simpl.
        intros Hrest. right. eexists. split.
        2:{ destruct (OID_aggregate oid).
            - apply keeps_catch in Hrest.
              + rewrite Hrest. simpl. by rewrite Hins, Hcr.
              + apply keeps_aggregate.
              + intros e k He. destruct (is_TSDBError e); simplify_eq.
                apply keeps_log.
            - injection Hrest as _ <-. simpl. by rewrite Hins, Hcr. }
        repeat split; try done; simpl; by rewrite Hflags.
      * intros [= <- <-]. left. apply keeps_on_tsdb in Hins.
        split; [congruence|]. intros [=].
    + (* InvalidMetaData: log and continue *)
      unfold py_bind, _repair_var_metadata, tsdb_log_to. simpl.
      intros [= <- <-]. left. split; [done|]. intros _. by exists t1.
Qed.

Lemma store_loop_spec (r : PollResult (list (string * value)))
    (set_name : string) (oidset : OIDSet) (oid : OID)
    (flags : value) (var_type : string) (l : list (string * value))
    (s s' : TSDBPollPersister T) (o : outcome unit) :
  metadata r !! "tsdb_flags" = Some flags →
  py_for l (store_pair float_of_str py_eval r set_name
              (path_join (device_name r) set_name) oidset oid flags var_type)
    s = (o, s') →
  ∃ kept new,
    sublist kept l ∧
    Forall2 (inserted_for float_of_str r set_name) kept new ∧
    inserted s' = inserted s ++ new ∧
    (o = Return tt →
     (∀ p t t', tsdb_get_var p t ≠ (Raise InvalidMetaData, t')) →
     kept = l).
Proof.
  intros Hflags. revert s.
  induction l as [|vv l IH]; intros s; simpl.
  - intros [= <- <-]. exists [], []. rewrite app_nil_r.
    repeat split; try done; constructor.
  - unfold py_bind at 1.
    match goal with |- context [store_pair ?a ?ev ?b ?c ?d ?e ?f ?g ?h ?i ?st] =>
      destruct (store_pair a ev b c d e f g h i st) as [[[]|e1] s1] eqn:Hpair end.
    + intros Hrest. destruct (IH s1 Hrest) as (kept & new & Hsub & Hall & Hins & Hfull).
      apply (store_pair_spec r set_name oidset oid flags var_type vv s s1 _ Hflags)
        in Hpair as [[Hsame Hskip]|(rec & Hrec & Hone)].
      * exists kept, new. split; [by constructor|]. split; [done|].
        split; [congruence|]. intros Ho Hvalid.
        destruct (Hskip eq_refl) as [t' Ht']. by apply Hvalid in Ht'.
      * exists (vv :: kept), (rec :: new). split; [by constructor|].
        split; [by constructor|]. split.
        { rewrite Hins, Hone. by rewrite <- app_assoc. }
        intros Ho Hvalid. by rewrite Hfull.
    + intros [= <- <-].
      apply (store_pair_spec r set_name oidset oid flags var_type vv s s1 _ Hflags)
        in Hpair as [[Hsame _]|(rec & Hrec & Hone)].
      * exists [], []. rewrite app_nil_r. split; [apply sublist_nil_l|].
        split; [constructor|]. split; [done|]. intros [=].
      * exists [vv], [rec]. split.
        { constructor. apply sublist_nil_l. }
        split; [constructor; [done|constructor]|]. split; [done|]. intros [=].
Qed.
End tsdb_facts.



(** The rows of the two example results: [7] and ["0.07"] are stored as the
    floats [700] and [0.07 * 100] under [SparkySet]; the counter of
    scenario S1 is stored as it is. *)
Example store_sparky_rows :
  (λ x : string * TSDBRow, (x.1, row_value x.2))
    <$> inserted (TSDBPollPersister_store (H := example_tsdb)
                    example_float_of_str example_eval sparky_result
                    example_tsdb_persister).2
  = [("router1/SparkySet/load.1", SFloat 700%float);
     ("router1/SparkySet/load.2", SFloat 0x1.c000000000001p+2%float)] ∧
  inserted (TSDBPollPersister_store (H := example_tsdb)
              example_float_of_str example_eval s1_result
              example_tsdb_persister).2
  = [("router1/FastPoll/ifInOctets.1",
      mkTSDBRow "Counter32" 1288000000 (VInt 1) (SVal (VInt 100)))].
Proof.
  split; vm_compute; reflexivity.
Qed.

(** *** The history persisters and the result they are given *)

Section store_frames.

Lemma result_with_data (r : PollResult poll_dict) :
  result_with r (data r) = r.
Proof. by destruct r. Qed.

Lemma writes_same (K : list string) (s : HistoryStore) :
  the_result s = result_with (the_result s) (the_data s) ∧
  ∀ k, k ∉ K → the_data s !! k = the_data s !! k.
Proof. split; [symmetry; apply result_with_data|done]. Qed.

Lemma writes_ret {A : Type} (K : list string) (a : A) :
  writes_only K (py_ret a).
Proof. intros s o s' [= <- <-]. apply writes_same. Qed.

Lemma writes_raise {A : Type} (K : list string) (e : exn) :
  writes_only (A := A) K (py_raise e).
Proof. intros s o s' [= <- <-]. apply writes_same. Qed.

Lemma writes_lift {A : Type} (K : list string) (x : outcome A) :
  writes_only K (py_lift x).
Proof. intros s o s' [= <- <-]. apply writes_same. Qed.

Lemma writes_get_state (K : list string) : writes_only K get_state.
Proof. intros s o s' [= <- <-]. apply writes_same. Qed.

Lemma writes_bind {A B : Type} (K : list string) (c : py HistoryStore A)
    (k : A → py HistoryStore B) :
  writes_only K c → (∀ a, writes_only K (k a)) → writes_only K (py_bind c k).
Proof.
  intros Hc Hk s o s'. unfold py_bind.
  destruct (c s) as [[a|e] s1] eqn:Hcs.
  - intros Hks. destruct (Hc _ _ _ Hcs) as [Hr1 Hd1].
    destruct (Hk a _ _ _ Hks) as [Hr2 Hd2].
    split; [by rewrite Hr2, Hr1|]. intros x Hx. by rewrite Hd2, Hd1.
  - intros [= <- <-]. by eapply Hc.
Qed.

Lemma writes_get_state_bind {B : Type} (K : list string)
    (k : HistoryStore → py HistoryStore B) :
  (∀ s o s', k s s = (o, s') →
     the_result s' = result_with (the_result s) (the_data s') ∧
     ∀ x, x ∉ K → the_data s' !! x = the_data s !! x) →
  writes_only K (py_bind get_state k).
Proof. intros Hk s o s'. unfold py_bind, get_state. apply Hk. Qed.

Lemma writes_foldl {A B : Type} (K : list string)
    (body : B → A → py HistoryStore B) (l : list A) (acc : B) :
  (∀ b a, writes_only K (body b a)) → writes_only K (py_foldl body acc l).
Proof.
  intros Hb. revert acc. induction l as [|a l IH]; intros acc; simpl.
  - apply writes_ret.
  - apply writes_bind; [apply Hb|intros b; apply IH].
Qed.

Lemma writes_getitem {A : Type} (K : list string) (d : gmap string A)
    (k : string) :
  writes_only K (py_getitem d k).
Proof.
  unfold py_getitem. destruct (d !! k); [apply writes_ret|apply writes_raise].
Qed.

Lemma writes_py_int (K : list string) (v : value) : writes_only K (py_int v).
Proof.
  destruct v as [|n|x]; simpl; try apply writes_raise; try apply writes_ret.
  destruct (int_of_str x); [apply writes_ret|apply writes_raise].
Qed.

Lemma writes_unpack2 {A : Type} (K : list string) (l : list A) :
  writes_only K (unpack2 l).
Proof.
  destruct l as [|a [|b [|c l]]]; simpl;
    try apply writes_raise; apply writes_ret.
Qed.

Lemma writes_getattr (K : list string) (obj : row) (attr : string) :
  writes_only K (py_getattr obj attr).
Proof.
  unfold py_getattr. destruct (obj !! attr);
    [apply writes_ret|apply writes_raise].
Qed.

Lemma writes_modify (K : list string) (f : HistoryStore → HistoryStore) :
  (∀ s, the_result (f s) = the_result s) → writes_only K (modify f).
Proof.
  intros Hf s o s' [= <- <-]. unfold the_data. rewrite Hf.
  apply writes_same.
Qed.

Lemma writes_on_persister {A : Type} (K : list string)
    (c : py HistoryTablePersister A) :
  writes_only K (on_persister c).
Proof.
  intros s o s'. unfold on_persister. destruct (c (persister s)) as [r p'].
  intros [= <- <-]. apply (writes_same K s).
Qed.

Lemma writes_data_getitem (K : list string) (oid : string) :
  writes_only K (data_getitem oid).
Proof.
  unfold data_getitem. apply writes_bind; [apply writes_get_state|intros s].
  apply writes_getitem.
Qed.

Lemma writes_data_setitem (K : list string) (oid : string)
    (l : list (string * value)) :
  oid ∈ K → writes_only K (data_setitem oid l).
Proof.
  intros Hin s o s'. unfold data_setitem, py_bind, get_state, modify. simpl.
  intros [= <- <-]. split; [done|]. intros k Hk. unfold the_data. simpl.
  rewrite lookup_insert_ne; [done|]. by intros ->.
Qed.

Lemma writes_data_append (K : list string) (oid : string)
    (x : string * value) :
  oid ∈ K → writes_only K (data_append oid x).
Proof.
  intros Hin. unfold data_append.
  apply writes_bind; [apply writes_data_getitem|intros l].
  by apply writes_data_setitem.
Qed.

Lemma writes_query_device (K : list string) (name : string) :
  writes_only K (query_device name).
Proof.
  unfold query_device. apply writes_bind; [apply writes_get_state|intros s].
  destruct (filter _ (devices s)) as [|d [|d' l]];
    try apply writes_raise; apply writes_ret.
Qed.

Lemma writes_history_store (K : list string) (row_str : row → string)
    (blank : row) (key : string) (extra : bool) (r : PollResult poll_dict)
    (build : py HistoryStore (gmap string row)) :
  writes_only K build →
  writes_only K (history_store row_str blank key extra r build).
Proof.
  intros Hbuild. unfold history_store.
  apply writes_bind; [apply writes_query_device|intros device].
  apply writes_bind; [apply writes_getattr|intros device_id].
  apply writes_bind; [apply writes_get_state|intros s0].
  apply writes_bind; [exact Hbuild|intros new_data].
  apply writes_bind; [apply writes_get_state|intros s1].
  apply writes_bind; [by apply writes_modify|intros _].
  apply writes_bind; [apply writes_on_persister|intros counts].
  apply writes_bind; [apply writes_get_state|intros s2].
  apply writes_bind; [by apply writes_modify|intros _].
  apply writes_bind.
  { destruct extra; [apply writes_on_persister|apply writes_ret]. }
  intros _. apply writes_on_persister.
Qed.

Lemma writes_IfRef_resolve (K : list string) (d : value) (i : Z) :
  writes_only K (IfRef_resolve_ifdescr d i).
Proof. destruct d; simpl; try apply writes_raise; apply writes_ret. Qed.

Lemma writes_ALU_resolve (d : value) (i : Z) :
  writes_only ["ifAlias"] (ALU_resolve_ifdescr d i).
Proof.
  destruct d as [| |x]; simpl; try apply writes_raise.
  apply writes_bind; [|intros _; apply writes_ret].
  case_match; [|apply writes_ret].
  apply writes_bind; [apply writes_get_state|intros s].
  apply writes_bind.
  { case_match; [apply writes_ret|]. apply writes_data_setitem. by left. }
  intros _. apply writes_data_append. by left.
Qed.

Lemma writes_set_obj_attr (K : list string) (loc : build_locals) (i : value)
    (attr : string) (val : value) :
  writes_only K (set_obj_attr loc i attr val).
Proof.
  destruct i as [|n|x]; simpl; try apply writes_raise.
  apply writes_bind.
  { case_match; [apply writes_ret|apply writes_raise]. }
  intros d. apply writes_bind; [apply writes_getitem|intros obj].
  apply writes_ret.
Qed.

Lemma writes_find_addr (K : list string) (ip : string)
    (addrs : list (string * value)) :
  writes_only K (find_addr ip addrs).
Proof.
  induction addrs as [|[a b] addrs IH]; simpl; [apply writes_ret|].
  apply writes_bind; [apply writes_unpack2|intros fi].
  case_match; [apply writes_ret|done].
Qed.

Lemma writes_coerce_val (K : list string) (oid : string) (val : value) :
  writes_only K (coerce_val oid val).
Proof.
  unfold coerce_val. apply writes_bind.
  { case_match; [|apply writes_ret].
    apply writes_bind; [apply writes_py_int|intros n; apply writes_ret]. }
  intros v. case_match; [|apply writes_ret].
  destruct v as [| |[|c x]]; try apply writes_raise; apply writes_ret.
Qed.

Lemma writes_IfRef_build_objs (K : list string)
    (resolve : value → Z → py HistoryStore string) :
  (∀ d i, writes_only K (resolve d i)) →
  writes_only K (IfRef_build_objs resolve).
Proof.
  intros Hres. unfold IfRef_build_objs.
  apply writes_bind; [apply writes_data_getitem|intros descrs].
  apply writes_bind.
  { apply writes_foldl. intros loc nv. unfold build_ifdescr.
    apply writes_bind; [apply writes_unpack2|intros fi].
    apply writes_bind; [apply writes_py_int|intros idx].
    apply writes_bind; [apply Hres|intros d]. apply writes_ret. }
  intros loc. apply writes_bind; [apply writes_data_getitem|intros idxs].
  apply writes_bind.
  { apply writes_foldl. intros loc' nv. unfold build_ipaddr.
    apply writes_bind; [apply writes_unpack2|intros fi].
    apply writes_bind; [apply writes_data_getitem|intros addrs].
    apply writes_bind; [apply writes_find_addr|intros ip].
    apply writes_set_obj_attr. }
  intros loc'. apply writes_bind; [apply writes_get_state|intros s].
  assert (∀ x l, writes_only K (py_remove (S := HistoryStore) x l)) as Hrem.
  { intros x l. unfold py_remove.
    destruct (list_remove_first x l); [apply writes_ret|apply writes_raise]. }
  apply writes_bind; [apply Hrem|intros r1].
  apply writes_bind; [apply Hrem|intros r2].
  apply writes_bind; [apply Hrem|intros r3].
  apply writes_bind; [|intros loc''; apply writes_ret].
  apply writes_foldl. intros loc'' oid.
  apply writes_bind; [apply writes_data_getitem|intros entries].
  apply writes_foldl. intros loc3 nv. unfold build_oid.
  apply writes_bind; [apply writes_coerce_val|intros v].
  apply writes_bind; [apply writes_unpack2|intros fi].
  apply writes_bind; [apply writes_py_int|intros idx].
  apply writes_set_obj_attr.
Qed.

Lemma IfRef_store_data (K : list string) (row_str : row → string)
    (blank : row) (resolve : value → Z → py HistoryStore string)
    (r : PollResult poll_dict) (s s' : HistoryStore) (o : outcome unit) :
  (∀ d i, writes_only K (resolve d i)) →
  IfRef_store row_str blank resolve r s = (o, s') →
  the_result s' = result_with r (the_data s') ∧
  ∀ k, k ∉ K → the_data s' !! k = data r !! k.
Proof.
  intros Hres. unfold IfRef_store, py_bind at 1, modify at 1.
  intros Hrun.
  apply (writes_history_store K row_str blank "ifdescr" true r _
           (writes_IfRef_build_objs K resolve Hres)) in Hrun.
  exact Hrun.
Qed.

Lemma writes_sap_build (decode_alu_port : string → outcome string) :
  writes_only [] (ALUSAPRef_build_objs decode_alu_port).
Proof.
  unfold ALUSAPRef_build_objs.
  apply writes_bind; [apply writes_get_state|intros s].
  apply writes_foldl. intros objs oe. apply writes_foldl. intros objs' kv.
  unfold sap_entry.
  destruct (split "." kv.1) as [|a [|b [|c [|d [|e l]]]]];
    try apply writes_raise.
  apply writes_bind; [apply writes_lift|intros p].
  apply writes_bind; [|intros v; apply writes_ret].
  case_match; [|apply writes_ret].
  apply writes_bind; [apply writes_py_int|intros n; apply writes_ret].
Qed.

Lemma writes_lsp_build : writes_only [] LSPOpStatus_build_objs.
Proof.
  unfold LSPOpStatus_build_objs.
  apply writes_bind; [apply writes_get_state|intros s].
  apply writes_foldl. intros objs oe.
  apply writes_bind; [apply writes_getitem|intros k].
  apply writes_foldl. intros objs' nv. unfold lsp_entry.
  apply writes_bind; [|intros v; apply writes_ret].
  case_match; [|apply writes_ret].
  apply writes_bind; [apply writes_py_int|intros n; apply writes_ret].
Qed.

Lemma InfIfRef_store_data (row_str : row → string) (blank : row)
    (r : PollResult poll_dict) (s s' : HistoryStore) (o : outcome unit) :
  InfIfRef_store row_str blank r s = (o, s') →
  the_result s' = result_with r (the_data s') ∧
  ∀ k, k ∉ written_keys InfIfRefPollPersister →
       the_data s' !! k = data r !! k.
Proof.
  unfold InfIfRef_store, py_bind at 1, modify at 1.
  match goal with |- ?c ?st = _ → _ =>
    assert (writes_only (written_keys InfIfRefPollPersister) c) as Hw end.
  { simpl.
    apply writes_bind; [apply writes_data_setitem; set_solver|intros _].
    apply writes_bind; [apply writes_data_setitem; set_solver|intros _].
    apply writes_bind; [apply writes_data_setitem; set_solver|intros _].
    apply writes_bind; [apply writes_data_setitem; set_solver|intros _].
    apply writes_bind; [apply writes_data_getitem|intros ids].
    apply writes_bind.
    { apply writes_foldl. intros acc kv. unfold inf_alias.
      apply writes_bind; [apply writes_unpack2|intros fi]. apply writes_ret. }
    intros ifalias.
    apply writes_bind; [apply writes_data_getitem|intros descrs].
    apply writes_bind.
    { apply writes_foldl. intros keep kv. unfold inf_ifdescr.
      destruct kv.2 as [| |v]; try apply writes_raise.
      case_match; [|apply writes_ret].
      apply writes_bind; [apply writes_unpack2|intros fd].
      apply writes_bind; [apply writes_unpack2|intros fi].
      apply writes_bind; [apply writes_data_append; set_solver|intros _].
      apply writes_bind; [apply writes_data_append; set_solver|intros _].
      apply writes_bind; [apply writes_data_append; set_solver|intros _].
      apply writes_ret. }
    intros keep.
    apply writes_bind; [apply writes_data_setitem; set_solver|intros _].
    apply writes_get_state_bind. intros s0 o0 s1.
    unfold py_bind at 1, modify at 1. unfold py_bind at 1, get_state at 1.
    intros Hrun.
    apply (IfRef_store_data [] row_str blank IfRef_resolve_ifdescr
             _ _ _ _ (writes_IfRef_resolve [])) in Hrun as [Hr Hd].
    split; [by rewrite Hr|]. intros k Hk.
    rewrite Hd by apply not_elem_of_nil.
    unfold the_data. simpl. rewrite lookup_delete_ne; [done|].
    intros <-. apply Hk. set_solver. }
  intros Hrun. exact (Hw _ _ _ Hrun).
Qed.
End store_frames.

Lemma bind_unfold {S A B : Type} (c : py S A) (k : A → py S B) (s : S) :
  (do x <- c; k x) s
  = let '(o, s') := c s in
    match o with Return a => k a s' | Raise e => (Raise e, s') end.
Proof. reflexivity. Qed.

Lemma bind_get_state {S B : Type} (k : S → py S B) (s : S) :
  (do x <- get_state; k x) s = k s s.
Proof. reflexivity. Qed.

Lemma bind_getitem {S A B : Type} (d : gmap string A) (key : string)
    (k : A → py S B) (s : S) :
  (do x <- py_getitem d key; k x) s
  = match d !! key with Some v => k v s | None => (Raise KeyError, s) end.
Proof. unfold py_bind, py_getitem. by destruct (d !! key). Qed.

Lemma bind_lift {S A B : Type} (o : outcome A) (k : A → py S B) (s : S) :
  (do x <- py_lift o; k x) s
  = match o with Return a => k a s | Raise e => (Raise e, s) end.
Proof. by destruct o. Qed.

Section task_stores.
Context {St D : Type}.

Lemma task_bind_attr {A B : Type} (f : PollResult D → A)
    (k : A → py (St * PollResult D) B) (st : St) (r : PollResult D) :
  (do x <- task_attr f; k x) (st, r) = k (f r) (st, r).
Proof. reflexivity. Qed.

Lemma task_bind_get {B : Type} (k : PollResult D → py (St * PollResult D) B)
    (st : St) (r : PollResult D) :
  (do x <- get_task; k x) (st, r) = k r (st, r).
Proof. reflexivity. Qed.

Lemma task_bind_state {A B : Type} (c : py St A)
    (k : A → py (St * PollResult D) B) (st : St) (r : PollResult D) :
  (do x <- on_persister_state c; k x) (st, r)
  = let '(o, st') := c st in
    match o with Return a => k a (st', r) | Raise e => (Raise e, (st', r)) end.
Proof.
  unfold py_bind, on_persister_state. cbn [fst snd]. by destruct (c st).
Qed.

Lemma task_on_state {A : Type} (c : py St A) (st : St) (r : PollResult D) :
  on_persister_state c (st, r) = let '(o, st') := c st in (o, (st', r)).
Proof. reflexivity. Qed.

Lemma py_for_task {A : Type} (body : PollResult D → A → py St unit)
    (l : list A) (st : St) (r : PollResult D) :
  py_for l (λ a, do result <- get_task; on_persister_state (body result a))
    (st, r)
  = let '(o, st') := py_for l (body r) st in (o, (st', r)).
Proof.
  revert st. induction l as [|a l IH]; intros st; [done|].
  cbn [py_for]. rewrite (bind_unfold (body r a)).
  rewrite bind_unfold, task_bind_get, task_on_state.
  destruct (body r a st) as [[[]|e] st1]; [|done]. apply IH.
Qed.
End task_stores.

Lemma TSDBPollPersister_store_task_spec {T : Type} `{TSDB T}
    (float_of_str : string → option float)
    (py_eval : string → outcome string)
    (r : PollResult (list (string * value))) (p : TSDBPollPersister T) :
  TSDBPollPersister_store_task float_of_str py_eval (p, r)
  = let '(o, p') := TSDBPollPersister_store float_of_str py_eval r p in
    (o, (p', r)).
Proof.
  unfold TSDBPollPersister_store_task, TSDBPollPersister_store.
  rewrite task_bind_state, bind_get_state. cbn [get_state].
  rewrite task_bind_attr, !bind_getitem.
  destruct (oidsets p !! oidset_name r) as [oidset|]; [|done].
  rewrite !bind_getitem.
  destruct (poller_args p !! OIDSet_name oidset) as [args|]; [|done].
  cbv zeta. rewrite !task_bind_attr, !bind_getitem.
  destruct (oids p !! oid_name r) as [oid|]; [|done].
  rewrite task_bind_attr, !bind_getitem.
  destruct (metadata r !! "tsdb_flags") as [flags|]; [|done].
  rewrite !bind_getitem.
  destruct (oid_type_map p !! OID_name oid) as [var_type|]; [|done].
  rewrite task_bind_attr, !bind_unfold, py_for_task.
  destruct (py_for (data r) _ p) as [[[]|e] p1]; [|done].
  by rewrite task_bind_get, task_on_state.
Qed.

Lemma StreamingPollPersister_store_task_spec {D : Type}
    (hour_name : Z → outcome string) (json : PollResult D → outcome string)
    (r : PollResult D) (s : StreamingPollPersister) :
  StreamingPollPersister_store_task hour_name json (s, r)
  = let '(o, s') := StreamingPollPersister_store hour_name json r s in
    (o, (s', r)).
Proof.
  unfold StreamingPollPersister_store_task, StreamingPollPersister_store.
  rewrite task_bind_attr, !bind_lift.
  destruct (hour_name (timestamp r)) as [dst|e]; [|done].
  rewrite task_bind_state, bind_get_state. cbn [get_state].
  rewrite task_bind_state, bind_unfold.
  destruct ((if decide (sp_filename s = Some dst) then py_ret tt
             else _rotate_file dst) s) as [[[]|e] s0]; [|done].
  rewrite task_bind_get, !bind_lift.
  destruct (json r) as [text|e]; [|done].
  rewrite task_bind_state, bind_unfold.
  destruct (fd_write text s0) as [[[]|e] s1]; [|done].
  rewrite task_bind_state, bind_unfold.
  destruct (fd_write two_newlines s1) as [[[]|e] s2]; [|done].
  by rewrite task_bind_get, task_on_state.
Qed.

(** C4, as the code has it.  [store] of no persister assigns to
    [oidset_name], [device_name], [oid_name], [timestamp] or [metadata] of
    the result it is given, whether it returns or raises.
    [IfRefPollPersister], [ALUSAPRefPersister] and [LSPOpStatusPersister]
    leave [result.data] as it is too, and so do the TSDB and the streaming
    persister, which only read the result.  [ALUIfRefPollPersister] writes
    to [result.data] under [ifAlias] only, and [InfIfRefPollPersister]
    under [ifAlias], [ifSpeed], [ifHighSpeed], [ipAdEntIfIndex], [ifDescr]
    and [gigeClientCtpPmRealCktId] only. *)
Theorem store_keeps_result :
  (∀ (decode_alu_port : string → outcome string) (row_str : row → string)
     (blank : row) (c : history_class) (r r' : PollResult poll_dict)
     (s s' : HistoryStore) (o : outcome unit),
     history_store_task decode_alu_port row_str blank c (s, r)
       = (o, (s', r')) →
     oidset_name r' = oidset_name r ∧ device_name r' = device_name r ∧
     oid_name r' = oid_name r ∧ timestamp r' = timestamp r ∧
     metadata r' = metadata r ∧
     (∀ k, k ∉ written_keys c → data r' !! k = data r !! k) ∧
     (written_keys c = [] → r' = r)) ∧
  (∀ (T : Type) (H : TSDB T) (float_of_str : string → option float)
     (py_eval : string → outcome string)
     (r r' : PollResult (list (string * value)))
     (p p' : TSDBPollPersister T) (o : outcome unit),
     TSDBPollPersister_store_task float_of_str py_eval (p, r)
       = (o, (p', r')) →
     r' = r ∧ TSDBPollPersister_store float_of_str py_eval r p = (o, p')) ∧
  (∀ (D : Type) (hour_name : Z → outcome string)
     (json : PollResult D → outcome string) (r r' : PollResult D)
     (s s' : StreamingPollPersister) (o : outcome unit),
     StreamingPollPersister_store_task hour_name json (s, r)
       = (o, (s', r')) →
     r' = r ∧ StreamingPollPersister_store hour_name json r s = (o, s')).
Proof.
  split; [|split].
  - intros decode_alu_port row_str blank c r r' s s' o.
    unfold history_store_task. cbn [fst snd].
    destruct (store decode_alu_port row_str blank c r s) as [o1 s1] eqn:Hrun.
    intros [= <- <- <-].
    assert (the_result s1 = result_with r (the_data s1) ∧
            ∀ k, k ∉ written_keys c → the_data s1 !! k = data r !! k)
      as [Hobj Hdata].
    { destruct c; simpl in Hrun.
      - apply (IfRef_store_data [] _ _ _ _ _ _ _ (writes_IfRef_resolve [])
                 Hrun).
      - apply (IfRef_store_data ["ifAlias"] _ _ _ _ _ _ _ writes_ALU_resolve
                 Hrun).
      - apply (InfIfRef_store_data _ _ _ _ _ _ Hrun).
      - unfold ALUSAPRef_store, py_bind at 1, modify at 1 in Hrun.
        apply (writes_history_store [] _ _ _ _ _ _
                 (writes_sap_build decode_alu_port) _ _ _ Hrun).
      - unfold LSPOpStatus_store, py_bind at 1, modify at 1 in Hrun.
        apply (writes_history_store [] _ _ _ _ _ _ writes_lsp_build
                 _ _ _ Hrun). }
    rewrite Hobj. cbn [result_with oidset_name device_name oid_name timestamp
                       metadata data].
    repeat split; try done.
    intros Hnone. destruct r as [a b c' d e f]. unfold result_with. simpl.
    f_equal. apply map_eq. intros k. simpl in Hdata. apply Hdata.
    rewrite Hnone. apply not_elem_of_nil.
  - intros T H float_of_str py_eval r r' p p' o.
    rewrite TSDBPollPersister_store_task_spec.
    destruct (TSDBPollPersister_store float_of_str py_eval r p) as [o1 p1].
    by intros [= <- <- <-].
  - intros D hour_name json r r' s s' o.
    rewrite StreamingPollPersister_store_task_spec.
    destruct (StreamingPollPersister_store hour_name json r s) as [o1 s1].
    by intros [= <- <- <-].
Qed.

Lemma store_keeps_result_witness :
  let run := history_store_task example_decode_alu_port example_row_str
               s2_blank InfIfRefPollPersister
               (example_history_store, inf_result) in
  oidset_name run.2.2 = oidset_name inf_result ∧
  device_name run.2.2 = device_name inf_result ∧
  oid_name run.2.2 = oid_name inf_result ∧
  timestamp run.2.2 = timestamp inf_result ∧
  metadata run.2.2 = metadata inf_result ∧
  (∀ k, k ∉ written_keys InfIfRefPollPersister →
        data run.2.2 !! k = data inf_result !! k) ∧
  (written_keys InfIfRefPollPersister = [] → run.2.2 = inf_result).
Proof.
  intros run.
  apply (proj1 store_keeps_result example_decode_alu_port example_row_str
           s2_blank InfIfRefPollPersister inf_result run.2.2
           example_history_store run.2.1 run.1).
  unfold run. by destruct (history_store_task _ _ _ _ _) as [o [s' r']].
Defined.

(** C4 as stated fails: [InfIfRefPollPersister.store] returns with the
    dict of [result.data] rewritten (the circuit ids are gone, the
    descriptions are filtered and stripped, aliases and speeds are new),
    and [ALUIfRefPollPersister.store] returns with an [ifAlias] entry that
    the result did not have. *)
Lemma store_mutates_data :
  ∃ s1 s2,
    store example_decode_alu_port example_row_str s2_blank
      InfIfRefPollPersister inf_result example_history_store
      = (Return tt, s1) ∧
    data inf_result !! "gigeClientCtpPmRealCktId"
      = Some [("gigeClientCtpPmRealCktId.1", VStr "circuit-7")] ∧
    the_data s1 !! "gigeClientCtpPmRealCktId" = None ∧
    data inf_result !! "ifDescr"
      = Some [("ifDescr.1", VStr "GIGECLIENTCTP=1-A-1-T1-1");
              ("ifDescr.2", VStr "OSC=1-A-1")] ∧
    the_data s1 !! "ifDescr" = Some [("ifDescr.1", VStr "1-A-1-T1-1")] ∧
    data inf_result !! "ifAlias" = None ∧
    the_data s1 !! "ifAlias" = Some [("ifAlias.1", VStr "circuit-7")] ∧
    store example_decode_alu_port example_row_str s2_blank
      ALUIfRefPollPersister alu_result example_history_store
      = (Return tt, s2) ∧
    data alu_result !! "ifAlias" = None ∧
    the_data s2 !! "ifAlias" = Some [("ifAlias.1", VStr "uplink")].
Proof.
  eexists _, _. split; [vm_compute; reflexivity|].
  repeat split; vm_compute; reflexivity.
Qed.

(** Scenario S6: the ALU description is stored as [ifdescr = "1/1/1"] with
    the alias [uplink]. *)
Example alu_store_s6 :
  (λ r : row, (r !! "ifdescr", r !! "ifalias", r !! "ifindex"))
    <$> added (persister
                 (store example_decode_alu_port example_row_str s2_blank
                    ALUIfRefPollPersister alu_result
                    example_history_store).2)
  = [(Some (VStr "1/1/1"), Some (VStr "uplink"), Some (VInt 1))].
Proof. vm_compute. reflexivity. Qed.

(** ** Part III: further properties *)

(** ** Further properties of the persist queue *)

Section queue_more.
Context {V : Type} `{Pickle V}.

Lemma queue_holds_nil (q : string) (w : world) :
  mc w !! last_read q = Some (MCInt 0) →
  mc w !! last_added q = Some (MCInt 0) →
  queue_holds (V := V) q 0 [] w.
Proof. intros Hlr Hla. split; [done|]. split; [done|]. by intros [|i] v. Qed.

Lemma get_empty_holds (q : string) (c : Z) (w : world) :
  queue_holds (V := V) q c [] w → get (V := V) q w = (Return None, w).
Proof.
  intros Hq. unfold get, py_bind.
  rewrite (len_holds q c [] w Hq) by (simpl; unfold sys_maxsize; lia).
  done.
Qed.

(** X1 (the queue behaves as a list).  On a queue that holds [vs], any
    sequence of [put], [get] and [len] calls answers what the same calls
    answer on a list used as a queue, and logs nothing, as long as the
    counters stay below [2^63]; pickle is taken to load what it dumped and
    never to dump an empty string. *)
Theorem queue_refines_list (q : string) (ops : list (queue_op V)) (c : Z)
    (vs : list V) (w : world) :
  (∀ v : V, pickle_loads (pickle_dumps v) = Some v) →
  (∀ v : V, pickle_dumps v ≠ "") →
  queue_holds q c vs w →
  0 ≤ c → c + Z.of_nat (length vs) + Z.of_nat (length ops) < 2 ^ 63 →
  ∃ c' w',
    run_ops q ops w = (Return (list_ops vs ops).1, w') ∧
    queue_holds q c' (list_ops vs ops).2 w' ∧
    logs w' = logs w.
Proof.
  intros Hrt Hne. revert c vs w.
  induction ops as [|op ops IH]; intros c vs w Hq Hc Hbound.
  - exists c, w. done.
  - simpl in Hbound. destruct op as [v| |].
    + destruct (put_holds q c vs v w Hq (Hne v) Hc) as (w1 & Hput & Hq1 & Hl1);
        [lia|].
      destruct (IH c (vs ++ [v]) w1 Hq1 Hc) as (c' & w' & Hrun & Hq' & Hl').
      { rewrite length_app. simpl. lia. }
      exists c', w'. simpl.
      destruct (list_ops (vs ++ [v]) ops) as [rs vs'] eqn:Hlo.
      unfold py_bind. rewrite Hput. simpl in *. unfold py_bind.
      rewrite Hrun. split; [done|]. split; [done|]. congruence.
    + destruct vs as [|v vs].
      * destruct (IH c [] w Hq Hc) as (c' & w' & Hrun & Hq' & Hl').
        { simpl in *. lia. }
        exists c', w'. simpl.
        destruct (list_ops [] ops) as [rs vs'] eqn:Hlo.
        unfold py_bind. rewrite (get_empty_holds q c w Hq). simpl in *.
        unfold py_bind. rewrite Hrun. done.
      * destruct (get_holds q c v v vs w Hq (Hne v) (Hrt v) Hc)
          as (w1 & Hget & Hq1 & Hl1); [simpl in *; lia|].
        destruct (IH (c + 1) vs w1 Hq1) as (c' & w' & Hrun & Hq' & Hl');
          [lia|simpl in *; lia|].
        exists c', w'. simpl.
        destruct (list_ops vs ops) as [rs vs'] eqn:Hlo.
        unfold py_bind. rewrite Hget. simpl in *. unfold py_bind.
        rewrite Hrun. split; [done|]. split; [done|]. congruence.
    + destruct (IH c vs w Hq Hc) as (c' & w' & Hrun & Hq' & Hl'); [lia|].
      exists c', w'. simpl.
      destruct (list_ops vs ops) as [rs vs'] eqn:Hlo.
      unfold py_bind.
      rewrite (len_holds q c vs w Hq) by (unfold sys_maxsize; lia).
      simpl in *. unfold py_bind. rewrite Hrun. done.
Qed.
End queue_more.

Lemma queue_refines_list_witness :
  let w := (MemcachedPersistQueue_init "q" empty_world).2 in
  ∃ c' w',
    run_ops (H := example_pickle) "q"
      [OpGet; OpPut "a"; OpPut "b"; OpLen; OpGet; OpPut "c"; OpGet; OpGet;
       OpGet] w
    = (Return [RGet None; RPut; RPut; RLen 2; RGet (Some "a"); RPut;
               RGet (Some "b"); RGet (Some "c"); RGet None], w') ∧
    queue_holds (H := example_pickle) "q" c' [] w' ∧
    logs w' = logs w.
Proof.
  apply (queue_refines_list (H := example_pickle) "q"
           [OpGet; OpPut "a"; OpPut "b"; OpLen; OpGet; OpPut "c"; OpGet;
            OpGet; OpGet] 0 []).
  - intros v. reflexivity.
  - intros v. discriminate.
  - apply queue_holds_nil; vm_compute; reflexivity.
  - lia.
  - simpl. lia.
Defined.

Lemma world_eta (w : world) : World (mc w) (logs w) = w.
Proof. by destruct w. Qed.

(** X2 (constructing a queue object).  [MemcachedPersistQueue.__init__] on
    a queue that is in use changes nothing on the server: what is pending
    stays pending.  On a server where the two counters of the queue are
    absent or zero it leaves the queue empty, and touches no other key. *)
Theorem queue_init_keeps_pending {V : Type} `{Pickle V}
    (q : string) (w : world) :
  (∀ c vs, queue_holds q c vs w →
     MemcachedPersistQueue_init q w = (Return tt, w)) ∧
  (truthy (mc w !! last_added q) = false →
   truthy (mc w !! last_read q) = false →
   ∃ w', MemcachedPersistQueue_init q w = (Return tt, w') ∧
         queue_holds q 0 [] w' ∧ logs w' = logs w ∧
         ∀ k, k ≠ last_added q → k ≠ last_read q → mc w' !! k = mc w !! k).
Proof.
  split.
  - intros c vs (Hlr & Hla & _).
    unfold MemcachedPersistQueue_init, py_bind, mc_get, mc_set, py_ret.
    rewrite Hla. simpl.
    destruct (c + Z.of_nat (length vs) =? 0) eqn:Hz; simpl.
    + apply Z.eqb_eq in Hz. rewrite Hz in Hla.
      rewrite lookup_insert_ne by apply last_added_ne_last_read.
      rewrite Hlr. simpl.
      destruct (c =? 0) eqn:Hc; simpl.
      * apply Z.eqb_eq in Hc. subst c.
        rewrite (insert_id (mc w) (last_added q)) by done.
        rewrite (insert_id (mc w) (last_read q)) by done.
        by rewrite world_eta.
      * rewrite (insert_id (mc w) (last_added q)) by done.
        by rewrite world_eta.
    + rewrite Hlr. simpl.
      destruct (c =? 0) eqn:Hc; simpl; [|done].
      apply Z.eqb_eq in Hc. subst c.
      rewrite (insert_id (mc w) (last_read q)) by done.
      by rewrite world_eta.
  - intros Hla Hlr.
    unfold MemcachedPersistQueue_init, py_bind, mc_get, mc_set, py_ret.
    rewrite Hla. simpl.
    rewrite lookup_insert_ne by apply last_added_ne_last_read.
    rewrite Hlr. simpl.
    eexists. split; [reflexivity|]. simpl. split; [|split; [done|]].
    + apply queue_holds_nil; simpl.
      * apply lookup_insert_eq.
      * rewrite lookup_insert_ne by apply not_eq_sym, last_added_ne_last_read.
        apply lookup_insert_eq.
    + intros k Hk1 Hk2. by rewrite !lookup_insert_ne.
Qed.

Lemma queue_init_keeps_pending_witness :
  let w := (put_all (H := example_pickle) "q" ["a"; "b"]
              (MemcachedPersistQueue_init "q" empty_world).2).2 in
  MemcachedPersistQueue_init "q" w = (Return tt, w) ∧
  ∃ w', MemcachedPersistQueue_init "q" empty_world = (Return tt, w') ∧
        queue_holds (H := example_pickle) "q" 0 [] w' ∧
        logs w' = logs empty_world ∧
        ∀ k, k ≠ last_added "q" → k ≠ last_read "q" →
             mc w' !! k = mc empty_world !! k.
Proof.
  split.
  - apply (proj1 (queue_init_keeps_pending (H := example_pickle) "q" _)
             0 ["a"; "b"]).
    split; [vm_compute; reflexivity|]. split; [vm_compute; reflexivity|].
    intros [|[|i]] v Hi; simpl in Hi; try done;
      injection Hi as <-; vm_compute; reflexivity.
  - apply (proj2 (queue_init_keeps_pending (H := example_pickle) "q"
                    empty_world)); vm_compute; reflexivity.
Defined.

(** X3 (reset).  [reset] drops whatever was pending, from any state of the
    server: afterwards [len] is zero and [get] answers empty.  The slots
    written before stay on the server, and they do not come back: values
    put after the reset are the ones [get] answers, in order. *)
Theorem reset_empties {V : Type} `{Pickle V}
    (q : string) (vs rs : list V) (w : world) :
  Z.of_nat (length vs) < 2 ^ 63 →
  Forall (λ v, serialize v ≠ "") vs →
  Forall2 (λ v r, pickle_loads (serialize v) = Some r) vs rs →
  ∃ w0 w1 w2,
    reset q w = (Return tt, w0) ∧
    len q w0 = (Return 0, w0) ∧
    get (V := V) q w0 = (Return None, w0) ∧
    (∀ k, k ≠ last_added q → k ≠ last_read q → mc w0 !! k = mc w !! k) ∧
    put_all q vs w0 = (Return tt, w1) ∧
    get_n q (length vs) w1 = (Return (Some <$> rs), w2).
Proof.
  intros Hbound Hvs Hrs.
  set (w0 := World (<[last_read q := MCInt 0]>
                      (<[last_added q := MCInt 0]> (mc w))) (logs w)).
  assert (queue_holds (V := V) q 0 [] w0) as Hq0.
  { apply queue_holds_nil; simpl.
    - apply lookup_insert_eq.
    - rewrite lookup_insert_ne by apply not_eq_sym, last_added_ne_last_read.
      apply lookup_insert_eq. }
  destruct (put_all_holds q 0 [] vs w0 Hq0 Hvs) as (w1 & Hput & Hq1 & _);
    [lia|simpl; lia|].
  destruct (get_n_holds q 0 vs rs w1 Hq1 Hvs Hrs) as (w2 & Hget & _);
    [lia|lia|].
  exists w0, w1, w2. split; [done|]. split.
  { apply (len_holds (V := V) q 0 [] w0 Hq0). simpl. unfold sys_maxsize. lia. }
  split; [by apply (get_empty_holds q 0)|].
  split; [|done].
  intros k Hk1 Hk2. simpl. by rewrite !lookup_insert_ne.
Qed.

Lemma reset_empties_witness :
  let w := (put_all (H := example_pickle) "q" ["old1"; "old2"]
              (MemcachedPersistQueue_init "q" empty_world).2).2 in
  ∃ w0 w1 w2,
    reset "q" w = (Return tt, w0) ∧
    len "q" w0 = (Return 0, w0) ∧
    get (H := example_pickle) "q" w0 = (Return None, w0) ∧
    (∀ k, k ≠ last_added "q" → k ≠ last_read "q" → mc w0 !! k = mc w !! k) ∧
    put_all (H := example_pickle) "q" ["a"] w0 = (Return tt, w1) ∧
    get_n (H := example_pickle) "q" 1 w1 = (Return [Some "a"], w2).
Proof.
  apply (reset_empties (H := example_pickle) "q" ["a"] ["a"]).
  - simpl. lia.
  - repeat constructor; discriminate.
  - repeat constructor.
Defined.

(** X4 (counters gone).  When the [last_added] counter of a queue is not on
    the server (the server was restarted, or the key evicted), [put] raises
    [TypeError] at the [%d] of the slot key and stores nothing, and [len]
    and [get] raise [TypeError] at the subtraction; the server is left as
    it was.  The same holds of [len] and [get] when [last_read] is gone. *)
Theorem queue_counter_gone {V : Type} `{Pickle V}
    (q : string) (v : V) (w : world) :
  (mc w !! last_added q = None →
   (serialize v ≠ "" → put q v w = (Raise TypeError, w)) ∧
   len q w = (Raise TypeError, w) ∧
   get (V := V) q w = (Raise TypeError, w)) ∧
  (mc w !! last_read q = None →
   len q w = (Raise TypeError, w) ∧
   get (V := V) q w = (Raise TypeError, w)).
Proof.
  split.
  - intros Hla. split; [|split].
    + intros Hv. unfold put. apply String.eqb_neq in Hv. rewrite Hv. simpl.
      unfold py_bind, mc_incr. by rewrite Hla.
    + unfold len, MemcachedPersistQueue_len, py_bind, mc_get. simpl.
      by rewrite Hla.
    + unfold get, len, MemcachedPersistQueue_len, py_bind, mc_get. simpl.
      by rewrite Hla.
  - intros Hlr. split.
    + unfold len, MemcachedPersistQueue_len, py_bind, mc_get. simpl.
      rewrite Hlr. by destruct (mc w !! last_added q) as [[]|].
    + unfold get, len, MemcachedPersistQueue_len, py_bind, mc_get. simpl.
      rewrite Hlr. by destruct (mc w !! last_added q) as [[]|].
Qed.

Lemma queue_counter_gone_witness :
  let w := World (<[last_read "q" := MCInt 0]> ∅) [] in
  let w2 := World (<[last_added "q" := MCInt 1]> ∅) [] in
  (put (H := example_pickle) "q" "a" empty_world
     = (Raise TypeError, empty_world) ∧
   len "q" w = (Raise TypeError, w) ∧
   get (H := example_pickle) "q" w = (Raise TypeError, w)) ∧
  (len "q" w2 = (Raise TypeError, w2) ∧
   get (H := example_pickle) "q" w2 = (Raise TypeError, w2)).
Proof.
  split.
  - split; [|split].
    + apply (proj1 (queue_counter_gone (H := example_pickle) "q" "a"
                      empty_world)); [reflexivity|discriminate].
    + apply (proj1 (queue_counter_gone (H := example_pickle) "q" "a" _)).
      vm_compute. reflexivity.
    + apply (proj1 (queue_counter_gone (H := example_pickle) "q" "a" _)).
      vm_compute. reflexivity.
  - apply (proj2 (queue_counter_gone (H := example_pickle) "q" "a" _)).
    vm_compute. reflexivity.
Defined.

(** ** Further properties of the multi worker queue *)

Lemma worker_name_inj (p : string) (i j : Z) :
  worker_name p i = worker_name p j → i = j.
Proof.
  unfold worker_name. intros Heq. do 2 apply String.app_inj in Heq.
  by apply (inj pretty).
Qed.

Section multi_worker_more.
Context {D : Type} `{Pickle (PollResult D)}.

(** X5 (round robin).  The key of a result is the text that [get_worker]
    makes of it, [oidset_name] and [device_name] joined by a colon (so two
    different pairs of names have the same key when the colon can be read
    in two places).  Results whose keys are new and pairwise different are
    given the workers in rotation, from the current one on: on a
    [MultiWorkerQueue] just constructed the [i]-th of them (from 0) gets the
    worker [i mod num_workers + 1]. *)
Theorem get_worker_round_robin (p : string) (n : Z)
    (rs : list (PollResult D)) (m : MultiWorkerQueue) (w : world) :
  mwq_inv p n m →
  NoDup (shard_key <$> rs) →
  Forall (λ r, worker_map m !! shard_key r = None) rs →
  ∃ names m' w',
    get_workers rs (m, w) = (Return names, (m', w')) ∧
    length names = length rs ∧
    (∀ (i : nat), (i < length rs)%nat →
       names !! i
       = Some (worker_name p ((cur_worker m - 1 + Z.of_nat i) mod n + 1))) ∧
    cur_worker m' = (cur_worker m - 1 + Z.of_nat (length rs)) mod n + 1.
Proof.
  intros Hinv Hnd Hnew. revert m w Hinv Hnew.
  induction rs as [|r rs IH]; intros m w Hinv Hnew.
  - exists [], m, w. destruct Hinv as (_ & _ & Hcur & _).
    split; [done|]. split; [done|]. split; [intros i Hi; simpl in Hi; lia|].
    simpl. rewrite Z.add_0_r, Z.mod_small by lia. lia.
  - apply Forall_cons in Hnew as [Hr Hnew].
    rewrite fmap_cons in Hnd. apply NoDup_cons in Hnd as [Hnotin Hnd].
    pose proof Hinv as (Hp & Hnum & Hcur & Hmap & Hq).
    destruct (get_worker_new r m w Hr)
      as (m1 & w1 & Hg & Hp1 & Hn1 & Hq1 & Hm1 & Hc1).
    assert (mwq_inv p n m1) as Hinv1.
    { split; [congruence|]. split; [congruence|]. split.
      - rewrite Hc1, Hnum. destruct (Z.ltb_spec n (cur_worker m + 1)); lia.
      - split.
        + intros k o. rewrite Hm1. intros Hk.
          apply lookup_insert_Some in Hk as [[_ <-]|[_ Hk]]; [lia|].
          by apply (Hmap k).
        + by rewrite Hq1. }
    destruct (IH Hnd m1 w1 Hinv1) as (names & m2 & w2 & Hgs & Hlen & Hnames & Hc2).
    { eapply Forall_impl.
      - apply Forall_forall. intros x Hx. exact (conj Hx I).
      - simpl. intros x [Hx _]. rewrite Hm1. rewrite lookup_insert_ne.
        + rewrite Forall_forall in Hnew. by apply Hnew.
        + intros Heq. apply Hnotin. rewrite Heq.
          apply list_elem_of_fmap. by exists x. }
    assert (cur_worker m1 - 1 = cur_worker m mod n) as Hcm.
    { rewrite Hc1, Hnum. destruct (Z.ltb_spec n (cur_worker m + 1)).
      - assert (cur_worker m = n) as -> by lia. rewrite Z.mod_same by lia. lia.
      - rewrite Z.mod_small by lia. lia. }
    exists (worker_name p (cur_worker m) :: names), m2, w2.
    split; [|split; [|split]].
    + simpl. unfold py_bind. rewrite Hg, Hp. unfold py_bind in Hgs.
      by rewrite Hgs.
    + simpl. by rewrite Hlen.
    + intros [|i] Hi; simpl.
      * rewrite Z.add_0_r, Z.mod_small by lia. do 2 f_equal. lia.
      * rewrite Hnames by (simpl in Hi; lia). do 3 f_equal.
        rewrite Hcm, Z.add_mod_idemp_l by lia. f_equal. lia.
    + rewrite Hc2, Hcm, Z.add_mod_idemp_l by lia. simpl length.
      do 2 f_equal. lia.
Qed.

(** One [put] of the multi worker queue, on the contents of the server. *)
Lemma mwq_put_step (p : string) (n : Z) (r : PollResult D)
    (m : MultiWorkerQueue) (w : world) (b : Z)
    (σ : gmap string (Z * list (PollResult D))) :
  mwq_inv p n m → 0 ≤ b → serialize r ≠ "" →
  (∀ i, 1 ≤ i ≤ n → is_Some (σ !! worker_name p i)) →
  store_holds (b + 1) σ w →
  ∃ o m' w',
    1 ≤ o ≤ n ∧
    MultiWorkerQueue_put r (m, w) = (Return tt, (m', w')) ∧
    mwq_inv p n m' ∧
    worker_map m' !! shard_key r = Some o ∧
    (∀ k x, worker_map m !! k = Some x → worker_map m' !! k = Some x) ∧
    store_holds b (enqueue r σ (worker_name p o)) w'.
Proof.
  intros Hinv Hb Hr Hσn Hσ.
  destruct (MultiWorkerQueue_put_inv p n r m w Hinv)
    as (o & m' & w1 & Ho & Hg & Hinv' & Hput).
  destruct (get_worker_total r m w) as (o2 & m2 & w2 & Hg2 & Hk & Hmono & _).
  rewrite Hg in Hg2. injection Hg2 as Hname <- <-.
  destruct Hinv as (Hp & _). rewrite Hp in Hname.
  apply worker_name_inj in Hname as <-.
  apply get_worker_mc in Hg as Hmc.
  destruct (put_store_holds b σ (worker_name p o) r w1 Hb Hr (Hσn o Ho))
    as (w' & Hput' & Hσ'); [by apply (store_holds_mc _ _ w)|].
  exists o, m', w'. split; [done|]. split.
  { rewrite Hput. unfold on_world. simpl. by rewrite Hput'. }
  done.
Qed.

(** X6 (order per key).  After a sequence of [put] calls on a multi worker
    queue, each worker's queue holds what it held before followed by the
    results that were given to that worker, in the order they were put: so
    the results of one device and oidset stay in order, in one queue. *)
Theorem mwq_put_keeps_order (p : string) (n : Z)
    (rs : list (PollResult D)) (m : MultiWorkerQueue) (w : world)
    (σ : gmap string (Z * list (PollResult D))) :
  mwq_inv p n m →
  Forall (λ r, serialize r ≠ "") rs →
  (∀ i, 1 ≤ i ≤ n → is_Some (σ !! worker_name p i)) →
  store_holds (Z.of_nat (length rs)) σ w →
  ∃ m' w',
    py_for rs MultiWorkerQueue_put (m, w) = (Return tt, (m', w')) ∧
    mwq_inv p n m' ∧
    (∀ k x, worker_map m !! k = Some x → worker_map m' !! k = Some x) ∧
    Forall (λ r, ∃ o, 1 ≤ o ≤ n ∧ worker_map m' !! shard_key r = Some o) rs ∧
    ∀ i c vs, 1 ≤ i ≤ n → σ !! worker_name p i = Some (c, vs) →
      queue_holds (worker_name p i) c
        (vs ++ filter (λ r, worker_map m' !! shard_key r = Some i) rs) w'.
Proof.
  intros Hinv Hrs. revert m w σ Hinv.
  induction Hrs as [|r rs Hr Hrs IH]; intros m w σ Hinv Hσn Hσ.
  - exists m, w. split; [done|]. split; [done|]. split; [done|].
    split; [constructor|]. intros i c vs Hi Hq.
    destruct (Hσ _ _ Hq) as (Hh & _). simpl in Hh. by rewrite app_nil_r.
  - destruct (mwq_put_step p n r m w (Z.of_nat (length rs)) σ Hinv)
      as (o & m1 & w1 & Ho & Hput & Hinv1 & Hk1 & Hmono1 & Hσ1);
      [lia|done|done| |].
    { replace (Z.of_nat (length rs) + 1)
        with (Z.of_nat (length (r :: rs))) by (simpl; lia). done. }
    destruct (IH m1 w1 (enqueue r σ (worker_name p o)) Hinv1)
      as (m' & w' & Hrun & Hinv' & Hmono & Hall & Hqs); [|done|].
    { intros i Hi. apply enqueue_is_Some. by apply Hσn. }
    exists m', w'. split; [|split; [done|split; [|split]]].
    + simpl. unfold py_bind. by rewrite Hput.
    + intros k x Hx. by apply Hmono, Hmono1.
    + constructor; [|done]. exists o. split; [done|]. by apply Hmono.
    + intros i c vs Hi Hq. rewrite filter_cons.
      destruct (decide (i = o)) as [->|Hne].
      * rewrite decide_True by by apply Hmono.
        specialize (Hqs o c (vs ++ [r]) Hi).
        rewrite <- app_assoc in Hqs. apply Hqs.
        unfold enqueue. by rewrite lookup_alter_eq, Hq.
      * rewrite decide_False.
        2:{ rewrite (Hmono _ _ Hk1). intros [= ->]. done. }
        apply (Hqs i c vs Hi). unfold enqueue.
        rewrite lookup_alter_ne; [done|].
        intros Heq. by apply worker_name_inj in Heq.
Qed.
End multi_worker_more.

Lemma example_mwq_inv : mwq_inv "tsdb" 3 example_mwq.1.
Proof.
  destruct (MultiWorkerQueue_init_inv "tsdb" 3 empty_world)
    as (m & w & Hi & Hinv & _); [lia|].
  unfold example_mwq. by rewrite Hi.
Qed.

Lemma get_worker_round_robin_witness :
  ∃ names m' w',
    get_workers [router_result "r1" 1; router_result "r2" 1;
                 router_result "r3" 1; router_result "r4" 1]
      (example_mwq.1, example_mwq.2) = (Return names, (m', w')) ∧
    length names = 4%nat ∧
    (∀ (i : nat), (i < 4)%nat →
       names !! i
       = Some (worker_name "tsdb"
                 ((cur_worker example_mwq.1 - 1 + Z.of_nat i) mod 3 + 1))) ∧
    cur_worker m' = (cur_worker example_mwq.1 - 1 + Z.of_nat 4) mod 3 + 1.
Proof.
  apply (get_worker_round_robin "tsdb" 3
           [router_result "r1" 1; router_result "r2" 1;
            router_result "r3" 1; router_result "r4" 1]
           example_mwq.1 example_mwq.2 example_mwq_inv).
  - apply (bool_decide_unpack _). vm_compute. reflexivity.
  - repeat constructor; vm_compute; reflexivity.
Defined.

Lemma mwq_put_keeps_order_witness :
  let rs := [router_result "r1" 1; router_result "r2" 1;
             router_result "r1" 2; router_result "r2" 2] in
  ∃ m' w',
    py_for rs (MultiWorkerQueue_put (H := example_result_pickle []))
      (example_mwq.1, example_mwq.2) = (Return tt, (m', w')) ∧
    mwq_inv "tsdb" 3 m' ∧
    (∀ k x, worker_map example_mwq.1 !! k = Some x →
            worker_map m' !! k = Some x) ∧
    Forall (λ r, ∃ o, 1 ≤ o ≤ 3 ∧ worker_map m' !! shard_key r = Some o) rs ∧
    ∀ i c vs, 1 ≤ i ≤ 3 →
      example_workers_contents !! worker_name "tsdb" i = Some (c, vs) →
      queue_holds (H := example_result_pickle []) (worker_name "tsdb" i) c
        (vs ++ filter (λ r, worker_map m' !! shard_key r = Some i) rs) w'.
Proof.
  apply (mwq_put_keeps_order (H := example_result_pickle []) "tsdb" 3
           [router_result "r1" 1; router_result "r2" 1;
            router_result "r1" 2; router_result "r2" 2]
           example_mwq.1 example_mwq.2 example_workers_contents
           example_mwq_inv).
  - repeat constructor; intros Heq; vm_compute in Heq; discriminate.
  - intros i Hi.
    assert (i = 1 ∨ i = 2 ∨ i = 3) as [->|[->| ->]] by lia;
      eexists; vm_compute; reflexivity.
  - unfold store_holds, example_workers_contents.
    repeat apply map_Forall_insert_2; try apply map_Forall_empty;
      (split; [split; [vm_compute; reflexivity|
                       split; [vm_compute; reflexivity|
                               intros i v Hi; by destruct i]]
              |simpl; lia]).
Defined.

(** ** Further properties of the persist handler *)

Lemma handler_init_spec (config : Config) (w : world) :
  ∃ h w',
    MemcachedPersistHandler_init config w = (Return h, w') ∧
    handler_config h = config ∧
    ∀ qn,
      match persist_queues config !! qn with
      | None => handler_queues h !! qn = None
      | Some (_, n) =>
          if (1 <? n)%Z then
            ∃ m, handler_queues h !! qn = Some (MultiQueue m) ∧
                 mwq_inv qn n m ∧ worker_map m = ∅
          else handler_queues h !! qn = Some (SingleQueue qn)
      end.
Proof.
  set (good := λ (qn : string) (o : option queue_obj),
    match persist_queues config !! qn with
    | None => False
    | Some (_, n) =>
        if (1 <? n)%Z then
          ∃ m, o = Some (MultiQueue m) ∧ mwq_inv qn n m ∧ worker_map m = ∅
        else o = Some (SingleQueue qn)
    end).
  assert (∀ names qs w0,
    Forall (λ x, is_Some (persist_queues config !! x)) names →
    ∃ qs' w',
      py_foldl (MemcachedPersistHandler_init_queue config) qs names w0
        = (Return qs', w') ∧
      ∀ qn, (qn ∈ names → good qn (qs' !! qn)) ∧
            (qn ∉ names → qs' !! qn = qs !! qn)) as Hloop.
  { induction names as [|x names IH]; intros qs w0 Hall.
    - exists qs, w0. split; [done|]. intros qn. split; [|done].
      intros Hin. by apply elem_of_nil in Hin.
    - apply Forall_cons in Hall as [[[cls n] Hx] Hall].
      assert (∃ qo w1,
        MemcachedPersistHandler_init_queue config qs x w0
          = (Return (<[x := qo]> qs), w1) ∧ good x (Some qo))
        as (qo & w1 & Hstep & Hgood).
      { unfold MemcachedPersistHandler_init_queue, good. rewrite Hx.
        destruct (Z.ltb_spec 1 n) as [Hn|Hn].
        - destruct (MultiWorkerQueue_init_inv x n w0)
            as (m0 & w1 & Hi & Hinv & Hmap); [lia|].
          exists (MultiQueue m0), w1. unfold py_bind. rewrite Hi.
          split; [done|]. by exists m0.
        - destruct (MemcachedPersistQueue_init_returns x w0) as (w1 & Hi).
          exists (SingleQueue x), w1. unfold py_bind. rewrite Hi. done. }
      destruct (IH (<[x := qo]> qs) w1 Hall) as (qs' & w' & Hrun & Hqs').
      exists qs', w'. split.
      { simpl. unfold py_bind. by rewrite Hstep. }
      intros qn. split.
      + intros Hin. destruct (decide (qn ∈ names)) as [Hn|Hn].
        * by apply Hqs'.
        * apply elem_of_cons in Hin as [->|Hin]; [|done].
          rewrite (proj2 (Hqs' x) Hn), lookup_insert_eq. done.
      + intros Hnotin. apply not_elem_of_cons in Hnotin as [Hne Hnotin].
        rewrite (proj2 (Hqs' qn) Hnotin). by rewrite lookup_insert_ne. }
  destruct (Hloop (map_to_list (persist_queues config)).*1 ∅ w)
    as (qs' & w' & Hrun & Hqs').
  { apply Forall_forall. intros x Hx.
    apply list_elem_of_fmap in Hx as ([k v] & -> & Hkv).
    apply elem_of_map_to_list in Hkv. by eexists. }
  exists (mkMemcachedPersistHandler qs' config), w'.
  split; [|split; [done|]].
  { unfold MemcachedPersistHandler_init, py_bind. by rewrite Hrun. }
  intros qn. simpl.
  destruct (persist_queues config !! qn) as [[cls n]|] eqn:Hqn.
  - assert (qn ∈ (map_to_list (persist_queues config)).*1) as Hin.
    { apply list_elem_of_fmap. exists (qn, (cls, n)). split; [done|].
      by apply elem_of_map_to_list. }
    pose proof (proj1 (Hqs' qn) Hin) as Hgood. unfold good in Hgood.
    by rewrite Hqn in Hgood.
  - rewrite (proj2 (Hqs' qn)); [done|].
    intros Hin. apply list_elem_of_fmap in Hin as ([k v] & -> & Hkv).
    apply elem_of_map_to_list in Hkv. simpl in Hqn. congruence.
Qed.

(** The constructors write counters and nothing else: what is on the
    server stays, nothing is logged. *)
Lemma queue_init_counters (q : string) (w w' : world) (o : outcome unit) :
  MemcachedPersistQueue_init q w = (o, w') →
  logs w' = logs w ∧
  (∀ k, is_Some (mc w !! k) → is_Some (mc w' !! k)) ∧
  is_Some (mc w' !! last_added q) ∧ is_Some (mc w' !! last_read q).
Proof.
  unfold MemcachedPersistQueue_init, py_bind, mc_get, mc_set, py_ret. simpl.
  destruct (truthy (mc w !! last_added q)) eqn:Hla; simpl.
  - assert (is_Some (mc w !! last_added q)) as Hsa.
    { destruct (mc w !! last_added q); [by eexists|done]. }
    destruct (truthy (mc w !! last_read q)) eqn:Hlr; simpl; intros [= _ <-];
      simpl.
    + split; [done|]. split; [done|]. split; [done|].
      destruct (mc w !! last_read q); [by eexists|done].
    + split; [done|]. split; [|split].
      * intros k Hk. destruct (decide (last_read q = k)) as [<-|Hne].
        -- rewrite lookup_insert_eq. by eexists.
        -- by rewrite lookup_insert_ne.
      * by rewrite lookup_insert_ne
          by apply not_eq_sym, last_added_ne_last_read.
      * rewrite lookup_insert_eq. by eexists.
  - rewrite lookup_insert_ne by apply last_added_ne_last_read.
    destruct (truthy (mc w !! last_read q)) eqn:Hlr; simpl; intros [= _ <-];
      simpl.
    + split; [done|]. split; [|split].
      * intros k Hk. destruct (decide (last_added q = k)) as [<-|Hne].
        -- rewrite lookup_insert_eq. by eexists.
        -- by rewrite lookup_insert_ne.
      * rewrite lookup_insert_eq. by eexists.
      * rewrite lookup_insert_ne by apply last_added_ne_last_read.
        destruct (mc w !! last_read q); [by eexists|done].
    + split; [done|]. split; [|split].
      * intros k Hk. destruct (decide (last_read q = k)) as [<-|Hne].
        -- rewrite lookup_insert_eq. by eexists.
        -- rewrite lookup_insert_ne by done.
           destruct (decide (last_added q = k)) as [<-|Hne'].
           ++ rewrite lookup_insert_eq. by eexists.
           ++ by rewrite lookup_insert_ne.
      * rewrite lookup_insert_ne
          by apply not_eq_sym, last_added_ne_last_read.
        rewrite lookup_insert_eq. by eexists.
      * rewrite lookup_insert_eq. by eexists.
Qed.

Lemma queues_init_counters (names : list string) (w w' : world)
    (o : outcome unit) :
  py_for names MemcachedPersistQueue_init w = (o, w') →
  logs w' = logs w ∧
  (∀ k, is_Some (mc w !! k) → is_Some (mc w' !! k)) ∧
  (o = Return tt →
   ∀ q, q ∈ names →
     is_Some (mc w' !! last_added q) ∧ is_Some (mc w' !! last_read q)).
Proof.
  revert w. induction names as [|x names IH]; intros w Hrun.
  - injection Hrun as <- <-. split; [done|]. split; [done|].
    intros _ q Hq. by apply elem_of_nil in Hq.
  - simpl in Hrun. unfold py_bind in Hrun.
    destruct (MemcachedPersistQueue_init x w) as [[[]|e] w1] eqn:Hx.
    + apply queue_init_counters in Hx as (Hl1 & Hk1 & Ha1 & Hr1).
      apply IH in Hrun as (Hl & Hk & Hq).
      split; [congruence|]. split; [auto|].
      intros Ho q Hin. apply elem_of_cons in Hin as [->|Hin]; [|by apply Hq].
      split; by apply Hk.
    + apply queue_init_counters in Hx as (Hl1 & Hk1 & _).
      injection Hrun as <- <-. done.
Qed.

Lemma handler_init_counters (config : Config) (h : MemcachedPersistHandler)
    (w w' : world) :
  MemcachedPersistHandler_init config w = (Return h, w') →
  logs w' = logs w ∧
  (∀ k, is_Some (mc w !! k) → is_Some (mc w' !! k)) ∧
  ∀ qn qo t, handler_queues h !! qn = Some qo → t ∈ targets qo →
    is_Some (mc w' !! last_added t) ∧ is_Some (mc w' !! last_read t).
Proof.
  unfold MemcachedPersistHandler_init.
  set (P := λ (qs : gmap string queue_obj) (w0 : world),
    ∀ qn qo t, qs !! qn = Some qo → t ∈ targets qo →
      is_Some (mc w0 !! last_added t) ∧ is_Some (mc w0 !! last_read t)).
  assert (∀ names qs qs' w0 w1,
    P qs w0 →
    py_foldl (MemcachedPersistHandler_init_queue config) qs names w0
      = (Return qs', w1) →
    logs w1 = logs w0 ∧
    (∀ k, is_Some (mc w0 !! k) → is_Some (mc w1 !! k)) ∧ P qs' w1) as Hloop.
  { induction names as [|x names IH]; intros qs qs' w0 w1 HP Hrun.
    - injection Hrun as <- <-. done.
    - simpl in Hrun. unfold py_bind in Hrun.
      destruct (MemcachedPersistHandler_init_queue config qs x w0)
        as [[qs1|e] w2] eqn:Hstep; [|done].
      assert (logs w2 = logs w0 ∧
              (∀ k, is_Some (mc w0 !! k) → is_Some (mc w2 !! k)) ∧
              P qs1 w2) as (Hl2 & Hk2 & HP2).
      { unfold MemcachedPersistHandler_init_queue in Hstep.
        destruct (persist_queues config !! x) as [[cls n]|]; [|done].
        destruct (1 <? n)%Z.
        - unfold MultiWorkerQueue_init, py_bind in Hstep.
          destruct (py_for (worker_name x <$> seqZ 1 n)
                      MemcachedPersistQueue_init w0) as [[[]|e] w3] eqn:Hfor;
            [|done].
          apply queues_init_counters in Hfor as (Hl & Hk & Hq).
          injection Hstep as <- <-. split; [done|]. split; [done|].
          intros qn qo t Hqn Ht.
          destruct (decide (x = qn)) as [<-|Hne].
          + rewrite lookup_insert_eq in Hqn. injection Hqn as <-.
            simpl in Ht. by apply Hq.
          + rewrite lookup_insert_ne in Hqn by done.
            destruct (HP qn qo t Hqn Ht). split; by apply Hk.
        - unfold py_bind in Hstep.
          destruct (MemcachedPersistQueue_init x w0) as [[[]|e] w3] eqn:Hq;
            [|done].
          apply queue_init_counters in Hq as (Hl & Hk & Ha & Hr).
          injection Hstep as <- <-. split; [done|]. split; [done|].
          intros qn qo t Hqn Ht.
          destruct (decide (x = qn)) as [<-|Hne].
          + rewrite lookup_insert_eq in Hqn. injection Hqn as <-.
            simpl in Ht. apply list_elem_of_singleton in Ht as ->. done.
          + rewrite lookup_insert_ne in Hqn by done.
            destruct (HP qn qo t Hqn Ht). split; by apply Hk. }
      destruct (IH qs1 qs' w2 w1 HP2 Hrun) as (Hl & Hk & HP').
      split; [congruence|]. split; [auto|done]. }
  unfold py_bind.
  destruct (py_foldl _ _ _ w) as [[qs|e] w1] eqn:Hrun; [|done].
  intros [= <- <-]. simpl.
  eapply Hloop; [|exact Hrun].
  intros qn qo t Hqn. by rewrite lookup_empty in Hqn.
Qed.

(** X7 (the handler as constructed).  [MemcachedPersistHandler.__init__]
    returns, and registers exactly the names of [persist_queues]: a
    [MemcachedPersistQueue] of that name when the worker count is at most
    one, a [MultiWorkerQueue] with that prefix and that many workers, none
    assigned yet, when it is more.  It logs nothing and removes nothing
    from the server, and afterwards the two counters of every queue the
    handler can put on are there. *)
Theorem handler_init_registers (config : Config) (w : world) :
  ∃ h w',
    MemcachedPersistHandler_init config w = (Return h, w') ∧
    handler_config h = config ∧
    (∀ qn,
       match persist_queues config !! qn with
       | None => handler_queues h !! qn = None
       | Some (_, n) =>
           if (1 <? n)%Z then
             ∃ m, handler_queues h !! qn = Some (MultiQueue m) ∧
                  mwq_inv qn n m ∧ worker_map m = ∅
           else handler_queues h !! qn = Some (SingleQueue qn)
       end) ∧
    logs w' = logs w ∧
    (∀ k, is_Some (mc w !! k) → is_Some (mc w' !! k)) ∧
    ∀ qn qo t, handler_queues h !! qn = Some qo → t ∈ targets qo →
      is_Some (mc w' !! last_added t) ∧ is_Some (mc w' !! last_read t).
Proof.
  destruct (handler_init_spec config w) as (h & w' & Hinit & Hc & Hq).
  exists h, w'. split; [done|]. split; [done|]. split; [done|].
  by apply (handler_init_counters config h w w').
Qed.

Section handler_more.
Context {D : Type} `{Pickle (PollResult D)}.

(** X8 (a mapped name that is no queue).  The loop of
    [MemcachedPersistHandler.put] logs a name of the mapped list that is
    not a configured queue and goes on to [q.put(result)] all the same.
    When this is the first name, [q] is unbound: the call raises
    [UnboundLocalError] and nothing is put.  When it follows a configured
    name, [q] is still that queue, and the result is put on it twice. *)
Theorem handler_put_unconfigured (r : PollResult D)
    (h : MemcachedPersistHandler) (w : world) :
  (∀ qn rest,
     persist_map (handler_config h) !! lower (oidset_name r)
       = Some (qn :: rest) →
     handler_queues h !! qn = None →
     MemcachedPersistHandler_put r (h, w)
     = (Raise UnboundLocalError,
        (h, logged LError ("unknown queue: " +:+ qn) w))) ∧
  (∀ prev qn,
     persist_map (handler_config h) !! lower (oidset_name r)
       = Some [prev; qn] →
     is_Some (handler_queues h !! prev) →
     handler_queues h !! qn = None →
     MemcachedPersistHandler_put r (h, w)
     = (do_ queue_obj_put prev r;
        do_ on_world (log_to LError ("unknown queue: " +:+ qn));
        queue_obj_put prev r) (h, w)).
Proof.
  split.
  - intros qn rest Hhit Hqn.
    unfold MemcachedPersistHandler_put, py_bind at 1, get_self. simpl.
    rewrite Hhit.
    change (py_foldl (MemcachedPersistHandler_put_queue r) None (qn :: rest))
      with (do acc <- MemcachedPersistHandler_put_queue r None qn;
            py_foldl (MemcachedPersistHandler_put_queue r) acc rest).
    unfold MemcachedPersistHandler_put_queue at 1.
    cbv [py_bind get_self fst snd]. rewrite Hqn.
    by cbv [py_bind on_world log_to py_ret py_raise fst snd logged].
  - intros prev qn Hhit Hprev Hqn.
    unfold MemcachedPersistHandler_put, py_bind at 1, get_self. simpl.
    rewrite Hhit.
    change (py_foldl (MemcachedPersistHandler_put_queue r) None [prev; qn])
      with (do acc <- MemcachedPersistHandler_put_queue r None prev;
            do acc' <- MemcachedPersistHandler_put_queue r acc qn;
            py_ret acc').
    unfold py_bind at 1 2 4.
    rewrite (put_queue_registered r None prev (h, w) Hprev).
    destruct (queue_obj_put prev r (h, w)) as [[[]|e] s1] eqn:Hput; [|done].
    assert (handler_queues s1.1 !! qn = None) as Hqn1.
    { apply eq_None_not_Some. intros Hs.
      apply (queue_obj_put_queues prev r (h, w) s1 _ Hput qn) in Hs.
      simpl in Hs. rewrite Hqn in Hs. by destruct Hs. }
    unfold MemcachedPersistHandler_put_queue.
    cbv [py_bind get_self]. rewrite Hqn1.
    cbv [py_bind on_world log_to py_ret py_raise].
    match goal with
    | |- context [queue_obj_put prev r ?s] =>
        by destruct (queue_obj_put prev r s) as [[[]|e] s2]
    end.
Qed.
End handler_more.

Lemma handler_put_unconfigured_witness :
  let h := mkMemcachedPersistHandler (handler_queues example_start.1)
             (mkConfig (persist_queues example_config)
                {[ "fastpoll" := ["ifref"; "nosuch"];
                   "ifrefpoll" := ["nosuch"; "ifref"] ]}) in
  MemcachedPersistHandler_put (H := example_result_pickle []) ifref_result
    (h, example_start.2)
  = (Raise UnboundLocalError,
     (h, logged LError "unknown queue: nosuch" example_start.2)) ∧
  MemcachedPersistHandler_put (H := example_result_pickle []) example_result
    (h, example_start.2)
  = (do_ queue_obj_put (H := example_result_pickle []) "ifref" example_result;
     do_ on_world (log_to LError "unknown queue: nosuch");
     queue_obj_put (H := example_result_pickle []) "ifref" example_result)
      (h, example_start.2).
Proof.
  split.
  - apply (proj1 (handler_put_unconfigured (H := example_result_pickle [])
                    ifref_result _ _) "nosuch" ["ifref"]);
      vm_compute; reflexivity.
  - apply (proj2 (handler_put_unconfigured (H := example_result_pickle [])
                    example_result _ _) "ifref" "nosuch");
      [vm_compute; reflexivity|eexists; vm_compute; reflexivity
      |vm_compute; reflexivity].
Defined.

(** ** The queues by name: handler, manager, worker and stats *)

Lemma not_value_option (s : string) :
  startswith "/" s = true → bool_decide (s ∈ value_options) = false.
Proof.
  intros Hs. apply bool_decide_eq_false. intros Hin.
  unfold value_options in Hin.
  repeat (apply elem_of_cons in Hin as [->|Hin]; [done|]).
  by apply elem_of_nil in Hin.
Qed.

(** X9 (one worker per queue).  For an entry of [persist_queues] with at
    least one worker, the queues the handler puts on, the queues [stats]
    watches and the queues drained by the children that the manager starts
    are the same, one child per queue: the child with index [i] runs
    [worker] with the command line [start_child] gave it and ends up on the
    [i]-th queue.  The caller path is absolute. *)
Theorem queue_names_agree (self : PersistManager) (w : world)
    (qn cls : string) (n : Z) :
  startswith "/" (pm_caller_path self) = true →
  persist_queues (pm_config self) !! qn = Some (cls, n) →
  1 ≤ n →
  ∃ h w' qo,
    MemcachedPersistHandler_init (pm_config self) w = (Return h, w') ∧
    handler_queues h !! qn = Some qo ∧
    targets qo = stats_names qn n ∧
    Forall2 (λ i t, ∃ args, child_argv self qn i = Return args ∧
                            worker_qname (pm_config self) (tail args)
                            = Return t)
      (seqZ 1 n) (targets qo).
Proof.
  intros Hcaller Hqn Hn.
  destruct (handler_init_spec (pm_config self) w) as (h & w' & Hinit & _ & Hq).
  specialize (Hq qn). rewrite Hqn in Hq.
  assert (∀ i, child_argv self qn i
    = Return (if (1 <? n)%Z
              then [pm_executable self; pm_caller_path self; "-r"; "worker";
                    "-q"; qn; "-f"; pm_config_file self; "-n"; pretty i]
              else [pm_executable self; pm_caller_path self; "-r"; "worker";
                    "-q"; qn; "-f"; pm_config_file self])) as Hargv.
  { intros i. unfold child_argv. rewrite Hqn. simpl. by destruct (1 <? n)%Z. }
  destruct (Z.ltb_spec 1 n) as [Hlt|Hge].
  - destruct Hq as (m & Hm & (Hp & Hnum & _) & _).
    exists h, w', (MultiQueue m). split; [done|]. split; [done|].
    simpl. rewrite Hp, Hnum. split.
    { unfold stats_names. by destruct (Z.eqb_spec n 1); [lia|]. }
    apply Forall2_fmap_r, Forall_Forall2_diag, Forall_forall.
    intros i _. eexists. split; [apply Hargv|].
    unfold worker_qname. simpl.
    rewrite (not_value_option _ Hcaller). simpl.
    rewrite lookup_insert_ne by done. rewrite lookup_insert_ne by done.
    rewrite lookup_insert_eq. simpl. rewrite Hqn. simpl.
    destruct (Z.ltb_spec 1 n); [|lia].
    rewrite lookup_insert_eq. done.
  - assert (n = 1) as -> by lia.
    exists h, w', (SingleQueue qn). split; [done|]. split; [done|].
    split; [done|]. simpl.
    constructor; [|constructor]. eexists. split; [apply Hargv|].
    unfold worker_qname. simpl.
    rewrite (not_value_option _ Hcaller). simpl.
    rewrite lookup_insert_ne by done.
    rewrite lookup_insert_eq. simpl. by rewrite Hqn.
Qed.

(** ** The manager keeps one process per worker *)

Lemma child_argv_setup (s s' : PersistManager) (q : string) (i : Z) :
  same_setup s s' → child_argv s' q i = child_argv s q i.
Proof. intros (Hc & Hf & Hp & He). unfold child_argv. by rewrite Hc, Hf, Hp, He. Qed.

Section manager_facts.
Context (pid_of : nat → Z).
Hypothesis pid_of_inj : ∀ a b, pid_of a = pid_of b → a = b.

Lemma start_child_started (q cls : string) (i : Z) (s : PersistManager) :
  is_Some (persist_queues (pm_config s) !! q) →
  ∃ s', start_child pid_of q cls i s = (Return tt, s') ∧
        same_setup s s' ∧ (pm_spawned s ≤ pm_spawned s')%nat ∧
        started pid_of s' q cls i ∧
        ∀ q0 c0 i0, started pid_of s q0 c0 i0 → started pid_of s' q0 c0 i0.
Proof.
  intros [qinfo Hq].
  unfold start_child, py_bind, get_state, py_lift, modify.
  destruct (child_argv s q i) as [args|e] eqn:Hargs.
  2:{ unfold child_argv in Hargs. by rewrite Hq in Hargs. }
  eexists. split; [reflexivity|]. split; [done|]. simpl. split; [lia|]. split.
  - exists (pm_spawned s), args. simpl. split; [lia|].
    split; [apply lookup_insert_eq|]. by rewrite <- Hargs.
  - intros q0 c0 i0 (k & a & Hk & Hp & Ha). exists k, a. simpl.
    split; [lia|]. split; [|by rewrite <- Ha].
    rewrite lookup_insert_ne; [done|].
    intros Heq. apply pid_of_inj in Heq. lia.
Qed.

Lemma start_children_started (q cls : string) (l : list Z)
    (s : PersistManager) :
  is_Some (persist_queues (pm_config s) !! q) →
  ∃ s', py_for l (start_child pid_of q cls) s = (Return tt, s') ∧
        same_setup s s' ∧
        (∀ i, i ∈ l → started pid_of s' q cls i) ∧
        ∀ q0 c0 i0, started pid_of s q0 c0 i0 → started pid_of s' q0 c0 i0.
Proof.
  revert s. induction l as [|i l IH]; intros s Hq.
  - exists s. split; [done|]. split; [done|]. split; [|done].
    intros i Hi. by apply elem_of_nil in Hi.
  - destruct (start_child_started q cls i s Hq)
      as (s1 & Hrun & Hset & _ & Hnew & Hkeep).
    destruct (IH s1) as (s' & Hrun' & Hset' & Hnew' & Hkeep').
    { destruct Hset as (-> & _). done. }
    exists s'. split; [simpl; unfold py_bind; by rewrite Hrun|].
    split.
    { destruct Hset as (? & ? & ? & ?), Hset' as (? & ? & ? & ?).
      repeat split; congruence. }
    split.
    + intros j Hj. apply elem_of_cons in Hj as [->|Hj]; [|by apply Hnew'].
      by apply Hkeep'.
    + intros q0 c0 i0 Hs. by apply Hkeep', Hkeep.
Qed.

Lemma start_all_started (entries : list (string * (string * Z)))
    (s : PersistManager) :
  Forall (λ qi, is_Some (persist_queues (pm_config s) !! qi.1)) entries →
  ∃ s', py_for entries
          (λ qi, py_for (seqZ 1 qi.2.2) (start_child pid_of qi.1 qi.2.1)) s
        = (Return tt, s') ∧
        same_setup s s' ∧
        (∀ qi i, qi ∈ entries → 1 ≤ i ≤ qi.2.2 →
           started pid_of s' qi.1 qi.2.1 i) ∧
        ∀ q0 c0 i0, started pid_of s q0 c0 i0 → started pid_of s' q0 c0 i0.
Proof.
  revert s. induction entries as [|[q [cls n]] entries IH]; intros s Hall.
  - exists s. split; [done|]. split; [done|]. split; [|done].
    intros qi i Hqi. by apply elem_of_nil in Hqi.
  - apply Forall_cons in Hall as [Hq Hall]. simpl in Hq.
    destruct (start_children_started q cls (seqZ 1 n) s Hq)
      as (s1 & Hrun & Hset & Hnew & Hkeep).
    destruct (IH s1) as (s' & Hrun' & Hset' & Hnew' & Hkeep').
    { destruct Hset as (-> & _). done. }
    exists s'. split; [simpl; unfold py_bind; by rewrite Hrun|].
    split.
    { destruct Hset as (? & ? & ? & ?), Hset' as (? & ? & ? & ?).
      repeat split; congruence. }
    split.
    + intros qi i Hqi Hi. apply elem_of_cons in Hqi as [->|Hqi].
      * simpl in *. apply Hkeep', Hnew, elem_of_seqZ. lia.
      * by apply Hnew'.
    + intros q0 c0 i0 Hs. by apply Hkeep', Hkeep.
Qed.
End manager_facts.

(** X10 (children started).  [start_all_children] returns and leaves the
    manager with a process for every worker of every queue of
    [persist_queues], the workers of a queue being numbered from 1 to its
    worker count, each started with the arguments of [start_child]; the
    operating system gives different pids to the processes it starts. *)
Theorem start_all_children_covers (pid_of : nat → Z) (s : PersistManager) :
  (∀ a b, pid_of a = pid_of b → a = b) →
  ∃ s',
    start_all_children pid_of s = (Return tt, s') ∧
    same_setup s s' ∧
    ∀ qn cls n i,
      persist_queues (pm_config s) !! qn = Some (cls, n) → 1 ≤ i ≤ n →
      supervised s' qn cls i.
Proof.
  intros Hinj.
  destruct (start_all_started pid_of Hinj
              (map_to_list (persist_queues (pm_config s))) s)
    as (s' & Hrun & Hset & Hnew & _).
  { apply Forall_forall. intros [q qi] Hin.
    apply elem_of_map_to_list in Hin. by eexists. }
  exists s'. split; [done|]. split; [done|].
  intros qn cls n i Hqn Hi.
  destruct (Hnew (qn, (cls, n)) i) as (k & args & _ & Hp & Ha);
    [by apply elem_of_map_to_list|done|].
  by exists (pid_of k), args.
Qed.

Lemma start_all_children_covers_witness :
  ∃ s',
    start_all_children Z.of_nat example_manager = (Return tt, s') ∧
    same_setup example_manager s' ∧
    ∀ qn cls n i,
      persist_queues (pm_config example_manager) !! qn = Some (cls, n) →
      1 ≤ i ≤ n → supervised s' qn cls i.
Proof.
  apply (start_all_children_covers Z.of_nat example_manager).
  intros a b Hab. lia.
Defined.

(** X11 (a child is restarted).  When a child dies, the loop of
    [PersistManager.run] logs it, takes it out of [processes] and starts
    the same worker again: every worker that had a process has one
    afterwards, unless the new pid is that of another live child.  A pid
    that is not in [processes] raises [KeyError] and changes nothing. *)
Theorem child_died_restarts (pid_of : nat → Z) (pid : Z)
    (output : list string) (s : PersistManager) :
  (processes s !! pid = None →
   child_died pid_of pid output s = (Raise KeyError, s)) ∧
  (∀ c,
     processes s !! pid = Some c →
     is_Some (persist_queues (pm_config s) !! child_qname c) →
     delete pid (processes s) !! pid_of (pm_spawned s) = None →
     ∃ s',
       child_died pid_of pid output s = (Return tt, s') ∧
       same_setup s s' ∧
       length (pm_log s') = S (length (pm_log s) + length output) ∧
       size (processes s') = size (processes s) ∧
       ∀ qn cls i, supervised s qn cls i → supervised s' qn cls i).
Proof.
  split.
  - intros Hpid. unfold child_died, py_bind, get_state. by rewrite Hpid.
  - intros c Hpid [qinfo Hq] Hfresh.
    unfold child_died.
    set (body := λ line : string,
           pm_log_to LError ("pid " +:+ pretty pid +:+ ": " +:+ line)).
    assert (∀ l s0, ∃ s1,
      py_for l body s0 = (Return tt, s1) ∧
      pm_config s1 = pm_config s0 ∧ pm_config_file s1 = pm_config_file s0 ∧
      pm_caller_path s1 = pm_caller_path s0 ∧
      pm_executable s1 = pm_executable s0 ∧
      processes s1 = processes s0 ∧ pm_spawned s1 = pm_spawned s0 ∧
      length (pm_log s1) = (length (pm_log s0) + length l)%nat) as Hlog.
    { induction l as [|x l IH]; intros s0.
      - exists s0. repeat split; try done; simpl; lia.
      - simpl. unfold py_bind, body at 1, pm_log_to, modify. simpl.
        destruct (IH (mkPersistManager (pm_config s0) (pm_config_file s0)
                        (pm_caller_path s0) (pm_executable s0) (processes s0)
                        (pm_spawned s0)
                        (pm_log s0 ++ [LogRec LError
                           ("pid " +:+ pretty pid +:+ ": " +:+ x)])))
          as (s1 & -> & ? & ? & ? & ? & ? & ? & Hlen).
        exists s1. simpl in *. repeat split; try done.
        rewrite Hlen, length_app. simpl. lia. }
    unfold py_bind, get_state. rewrite Hpid.
    unfold py_ret, modify, pm_log_to, modify.
    match goal with
    | |- context [py_for output body ?s0] =>
        destruct (Hlog output s0)
          as (s1 & -> & Hc & Hf & Hp & He & Hproc & Hsp & Hlen)
    end.
    simpl in *.
    unfold start_child, py_bind, get_state, py_lift, modify.
    destruct (child_argv s1 (child_qname c) (child_index c)) as [args|e]
      eqn:Hargs.
    2:{ unfold child_argv in Hargs. by rewrite Hc, Hq in Hargs. }
    eexists. split; [reflexivity|]. simpl.
    split; [done|]. split.
    { rewrite Hlen, length_app. simpl. lia. }
    split.
    { rewrite Hproc, Hsp. rewrite map_size_insert_None by done.
      rewrite map_size_delete_Some by by eexists.
      assert (size (processes s) ≠ 0%nat); [|lia].
      intros Hz. apply map_size_empty_inv in Hz. by rewrite Hz in Hpid. }
    intros qn cls i (pid0 & a & Hp0 & Ha).
    assert (child_argv s1 qn i = Return a) as Ha1.
    { rewrite <- Ha. unfold child_argv. by rewrite Hc, Hf, Hp, He. }
    destruct (decide (pid0 = pid)) as [->|Hne].
    + rewrite Hpid in Hp0. injection Hp0 as ->. simpl in *.
      exists (pid_of (pm_spawned s1)), args. simpl.
      split; [apply lookup_insert_eq|exact Hargs].
    + exists pid0, a. simpl. split; [|exact Ha1].
      rewrite lookup_insert_ne.
      * rewrite Hproc. by rewrite lookup_delete_ne.
      * intros Heq. rewrite Hsp, Heq in *.
        rewrite lookup_delete_ne in Hfresh by done. congruence.
Qed.

Lemma child_died_restarts_witness :
  child_died (λ n, 10 + Z.of_nat n) 7 ["Traceback"] example_running_manager
    = (Raise KeyError, example_running_manager) ∧
  ∃ s',
    child_died (λ n, 10 + Z.of_nat n) 10 ["Traceback"; "KeyError"]
      example_running_manager = (Return tt, s') ∧
    same_setup example_running_manager s' ∧
    length (pm_log s') = 3%nat ∧
    size (processes s') = size (processes example_running_manager) ∧
    ∀ qn cls i, supervised example_running_manager qn cls i →
                supervised s' qn cls i.
Proof.
  split.
  - apply (proj1 (child_died_restarts (λ n, 10 + Z.of_nat n) 7 ["Traceback"]
                    example_running_manager)).
    vm_compute. reflexivity.
  - apply (proj2 (child_died_restarts (λ n, 10 + Z.of_nat n) 10
                    ["Traceback"; "KeyError"] example_running_manager)
             (mkChild ["/usr/bin/python"; "/usr/bin/espersistd"; "-r";
                       "worker"; "-q"; "ifref"; "-f"; "/etc/esxsnmp.conf"]
                "ifref" "IfRefPollPersister" 1)).
    + vm_compute. reflexivity.
    + eexists. vm_compute. reflexivity.
    + vm_compute. reflexivity.
Defined.

Lemma queue_names_agree_witness :
  ∃ h w' qo,
    MemcachedPersistHandler_init (pm_config example_manager) empty_world
      = (Return h, w') ∧
    handler_queues h !! "tsdb" = Some qo ∧
    targets qo = stats_names "tsdb" 3 ∧
    Forall2 (λ i t, ∃ args, child_argv example_manager "tsdb" i = Return args ∧
                            worker_qname (pm_config example_manager)
                              (tail args) = Return t)
      (seqZ 1 3) (targets qo).
Proof.
  apply (queue_names_agree example_manager empty_world "tsdb"
           "TSDBPollPersister" 3).
  - reflexivity.
  - vm_compute. reflexivity.
  - lia.
Defined.

(** ** What [update_db] does to the session *)

Lemma new_row_same (s s' : HistoryTablePersister) (obj : row) :
  blank_row s' = blank_row s → device_id s' = device_id s →
  _new_row_from_obj s' obj = _new_row_from_obj s obj.
Proof. intros Hb Hd. unfold _new_row_from_obj. by rewrite Hb, Hd. Qed.

Lemma session_step_refl (s : HistoryTablePersister) : session_step s s [].
Proof.
  repeat split; try done.
  - exists []. by rewrite app_nil_r.
  - exists []. by rewrite app_nil_r.
Qed.

Lemma session_step_trans (s s1 s2 : HistoryTablePersister)
    (l1 l2 : list row) :
  session_step s s1 l1 → session_step s1 s2 l2 →
  session_step s s2 (l1 ++ l2).
Proof.
  intros (Hk1 & Ho1 & Hb1 & Hd1 & Hn1 & (vs1 & Hv1 & Hf1) & (n1 & Ha1 & Hg1))
         (Hk2 & Ho2 & Hb2 & Hd2 & Hn2 & (vs2 & Hv2 & Hf2) & (n2 & Ha2 & Hg2)).
  split; [congruence|]. split; [congruence|]. split; [congruence|].
  split; [congruence|]. split; [by etrans|]. split.
  - exists (vs1 ++ vs2). split; [by rewrite Hv2, Hv1, app_assoc|].
    by apply Forall2_app.
  - exists (n1 ++ n2). split; [by rewrite Ha2, Ha1, app_assoc|].
    apply Forall_app. split; [done|].
    eapply Forall_impl; [exact Hg2|]. simpl.
    intros r (k & obj & Hobj & ->). exists k, obj. split.
    + by apply (lookup_weaken _ _ _ _ Hobj).
    + by apply new_row_same.
Qed.

Section update_db_effects.
Context (row_str : row → string).

Lemma update_db_old_step (cd : Z * Z) (old : row)
    (s s1 : HistoryTablePersister) (o : outcome (Z * Z)) :
  update_db_old row_str cd old s = (o, s1) →
  commits s1 = commits s ∧
  match o with
  | Return _ => session_step s s1 [old]
  | Raise _ => s1 = s
  end.
Proof.
  unfold update_db_old, py_bind, get_state. simpl.
  destruct (old !! key s) as [kv|]; [|by intros [= <- <-]].
  destruct (find_new (new_data s) kv) as [[k new]|] eqn:Hfind.
  - destruct (new !! key s); [|by intros [= <- <-]].
    destruct kv as [|n|k']; simpl in Hfind; try done.
    destruct (new_data s !! k') as [new'|] eqn:Hk; simpl in Hfind; [|done].
    injection Hfind as <- <-.
    destruct (attrs_changed row_str old new' _) as [[] l];
      unfold py_bind, modify, py_ret; simpl; intros [= <- <-]; simpl;
      (split; [done|]); repeat split; simpl; try done;
      try apply delete_subseteq.
    + exists [close_row old]. split; [done|]. constructor; [by right|done].
    + exists [_new_row_from_obj s new']. split; [done|].
      constructor; [|done]. by exists k', new'.
    + exists [old]. split; [done|]. constructor; [by left|done].
    + exists []. by rewrite app_nil_r.
  - unfold py_bind, modify, py_ret; simpl; intros [= <- <-]; simpl.
    split; [done|]. repeat split; simpl; try done.
    + exists [close_row old]. split; [done|]. constructor; [by right|done].
    + exists []. by rewrite app_nil_r.
Qed.

Lemma update_db_old_loop_step (olds : list row) (cd : Z * Z)
    (s s1 : HistoryTablePersister) (o : outcome (Z * Z)) :
  py_foldl (update_db_old row_str) cd olds s = (o, s1) →
  commits s1 = commits s ∧
  ∃ seen, seen `prefix_of` olds ∧ session_step s s1 seen ∧
          match o with Return _ => seen = olds | Raise _ => True end.
Proof.
  revert cd s. induction olds as [|old olds IH]; intros cd s Hrun.
  - injection Hrun as <- <-. split; [done|]. exists [].
    split; [done|]. split; [apply session_step_refl|done].
  - simpl in Hrun. unfold py_bind in Hrun.
    destruct (update_db_old row_str cd old s) as [[cd'|e] s2] eqn:Hstep.
    + apply update_db_old_step in Hstep as (Hc & Hs).
      apply IH in Hrun as (Hc' & seen & Hpre & Hs' & Ho).
      split; [congruence|]. exists (old :: seen).
      split; [by apply prefix_cons|].
      split; [by apply (session_step_trans s s2 s1 [old] seen)|].
      destruct o; [by subst|done].
    + apply update_db_old_step in Hstep as (Hc & ->).
      injection Hrun as <- <-. split; [done|]. exists [].
      split; [apply prefix_nil|]. split; [apply session_step_refl|done].
Qed.

Lemma update_db_new_loop_step (ks : list string) (a : Z)
    (s s1 : HistoryTablePersister) (o : outcome Z) :
  py_foldl update_db_new a ks s = (o, s1) →
  commits s1 = commits s ∧ session_step s s1 [].
Proof.
  revert a s. induction ks as [|k ks IH]; intros a s Hrun.
  - injection Hrun as <- <-. split; [done|apply session_step_refl].
  - simpl in Hrun. unfold py_bind at 1 in Hrun.
    unfold update_db_new at 1 in Hrun.
    unfold py_bind, get_state in Hrun. simpl in Hrun.
    destruct (new_data s !! k) as [obj|] eqn:Hk.
    + unfold modify, py_ret in Hrun. simpl in Hrun.
      apply IH in Hrun as (Hc & Hs). split; [done|].
      apply (session_step_trans s (push_added (_new_row_from_obj s obj) s)
               s1 [] []); [|exact Hs].
      repeat split; simpl; try done.
      * exists []. by rewrite app_nil_r.
      * exists [_new_row_from_obj s obj]. split; [done|].
        constructor; [|done]. by exists k, obj.
    + injection Hrun as <- <-. split; [done|apply session_step_refl].
Qed.

(** X12 (what [update_db] writes).  Whether [update_db] returns or raises,
    the only thing it writes on an old row is [end_time = 'NOW']; the rows
    it adds are [_new_row_from_obj] of entries of the new data; it takes
    entries out of [new_data] and puts none in.  It commits once when it
    returns, having gone through every old row, and not at all when it
    raises. *)
Theorem update_db_effects (s : HistoryTablePersister) :
  ∃ seen,
    seen `prefix_of` old_data s ∧
    session_step s (update_db row_str s).2 seen ∧
    match (update_db row_str s).1 with
    | Return _ =>
        seen = old_data s ∧ commits (update_db row_str s).2 = S (commits s)
    | Raise _ => commits (update_db row_str s).2 = commits s
    end.
Proof.
  destruct (update_db row_str s) as [o s'] eqn:Hrun. simpl. revert Hrun.
  unfold update_db, py_bind at 1 2, get_state. simpl.
  destruct (py_foldl (update_db_old row_str) (0, 0) (old_data s) s)
    as [[cd|e] s1] eqn:Hold.
  - apply update_db_old_loop_step in Hold as (Hc1 & seen & Hpre & Hs1 & ->).
    unfold py_bind at 1 2. simpl.
    destruct (py_foldl update_db_new 0 _ s1) as [[a|e] s2] eqn:Hnew.
    + apply update_db_new_loop_step in Hnew as (Hc2 & Hs2).
      unfold py_bind, modify, py_ret. simpl. intros [= <- <-].
      exists (old_data s). split; [done|]. split.
      * pose proof (session_step_trans s s1 s2 _ _ Hs1 Hs2) as Hs.
        rewrite app_nil_r in Hs.
        destruct Hs as (? & ? & ? & ? & ? & ? & ?). by repeat split.
      * simpl. split; [done|]. congruence.
    + apply update_db_new_loop_step in Hnew as (Hc2 & Hs2).
      intros [= <- <-]. exists (old_data s). split; [done|]. split.
      * pose proof (session_step_trans s s1 s2 _ _ Hs1 Hs2) as Hs.
        by rewrite app_nil_r in Hs.
      * congruence.
  - apply update_db_old_loop_step in Hold as (Hc1 & seen & Hpre & Hs1 & _).
    intros [= <- <-]. by exists seen.
Qed.
End update_db_effects.

(** ** The snapshots of the SAP and LSP persisters *)

Lemma set_named_attr_named (P : string → Prop) (objs : gmap string row)
    (name attr : string) (val : value) :
  attr ≠ "name" → P attr →
  named_objs P objs → named_objs P (set_named_attr objs name attr val).
Proof.
  intros Hattr HP Hobjs k o. unfold set_named_attr.
  destruct (decide (name = k)) as [<-|Hne].
  - rewrite lookup_insert_eq. intros [= <-].
    destruct (objs !! name) as [o0|] eqn:Ho; simpl.
    + destruct (Hobjs name o0 Ho) as (Hn & Ha). split.
      * by rewrite lookup_insert_ne.
      * intros a. destruct (decide (attr = a)) as [<-|Hne']; [by right|].
        rewrite lookup_insert_ne by done. apply Ha.
    + split.
      * rewrite lookup_insert_ne by done. apply lookup_singleton_eq.
      * intros a. destruct (decide (attr = a)) as [<-|Hne']; [by right|].
        rewrite lookup_insert_ne by done.
        intros [v Hv]. apply lookup_singleton_Some in Hv as [<- _]. by left.
  - rewrite lookup_insert_ne by done. apply Hobjs.
Qed.

Lemma named_objs_snapshot_wf (P : string → Prop) (objs : gmap string row) :
  ¬ P "end_time" → named_objs P objs → snapshot_wf "name" objs.
Proof.
  intros HP Hobjs k o Ho. destruct (Hobjs k o Ho) as (Hn & Ha).
  split; [done|]. apply eq_None_not_Some. intros Hs.
  by destruct (Ha _ Hs).
Qed.

(** A loop over the entries of the data that keeps the state and an
    invariant of the accumulator. *)
Lemma py_foldl_inv {S A B : Type} (I : B → Prop) (body : B → A → py S B)
    (l : list A) (acc : B) (s : S) :
  (∀ b a s0, a ∈ l → I b →
     match body b a s0 with
     | (Return b', s1) => s1 = s0 ∧ I b'
     | (Raise _, s1) => s1 = s0
     end) →
  I acc →
  match py_foldl body acc l s with
  | (Return b', s1) => s1 = s ∧ I b'
  | (Raise _, s1) => s1 = s
  end.
Proof.
  revert acc. induction l as [|a l IH]; intros acc Hbody Hacc; [done|].
  simpl. unfold py_bind.
  pose proof (Hbody acc a s (list_elem_of_here _ _) Hacc) as Ha.
  destruct (body acc a s) as [[b'|e] s1]; [|done].
  destruct Ha as [-> Hb']. apply IH; [|done].
  intros b x s0 Hx. apply Hbody. by apply list_elem_of_further.
Qed.

Lemma oid_name_map_attrs (oid k : string) :
  oid_name_map !! oid = Some k → k ≠ "name" ∧ k ∈ lsp_attrs.
Proof.
  intros Hk. unfold oid_name_map in Hk. unfold lsp_attrs.
  repeat (apply lookup_insert_Some in Hk as [[_ <-]|[_ Hk]];
          [split; [done|repeat constructor]|]).
  apply lookup_singleton_Some in Hk as [_ <-].
  split; [done|repeat constructor].
Qed.

Lemma lsp_entry_named (oid k : string) (objs : gmap string row)
    (nv : string * value) (s : HistoryStore) :
  k ≠ "name" → k ∈ lsp_attrs →
  named_objs (λ a, a ∈ lsp_attrs) objs →
  match lsp_entry oid k objs nv s with
  | (Return objs', s1) => s1 = s ∧ named_objs (λ a, a ∈ lsp_attrs) objs'
  | (Raise _, s1) => s1 = s
  end.
Proof.
  intros Hk1 Hk2 Hobjs. unfold lsp_entry, py_bind.
  destruct (String.eqb oid "mplsLspInfoState").
  - unfold py_int. destruct nv.2 as [|n|v]; simpl; try done.
    + split; [done|]. by apply set_named_attr_named.
    + destruct (int_of_str v); simpl; [|done].
      split; [done|]. by apply set_named_attr_named.
  - simpl. split; [done|]. by apply set_named_attr_named.
Qed.

(** X13 (the LSP snapshot).  [LSPOpStatusPersister._build_objs] leaves the
    poll data as it is.  When it returns, every key of the data was one of
    the three OIDs of [oid_name_map], and every object it made carries its
    key as [name] and no attribute beside [name], [state], [srcaddr] and
    [dstaddr]: the snapshot is one that [update_db] is idempotent on. *)
Theorem lsp_build_objs_snapshot (s : HistoryStore) :
  match LSPOpStatus_build_objs s with
  | (Return objs, s') =>
      s' = s ∧ snapshot_wf "name" objs ∧
      named_objs (λ a, a ∈ lsp_attrs) objs ∧
      ∀ oid, is_Some (the_data s !! oid) → is_Some (oid_name_map !! oid)
  | (Raise _, s') => s' = s
  end.
Proof.
  unfold LSPOpStatus_build_objs, py_bind, get_state. simpl.
  assert (∀ seen objs s0,
    named_objs (λ a, a ∈ lsp_attrs) objs →
    match py_foldl (λ objs oe, do k <- py_getitem oid_name_map oe.1;
                               py_foldl (lsp_entry oe.1 k) objs oe.2)
            objs seen s0 with
    | (Return objs', s1) =>
        s1 = s0 ∧ named_objs (λ a, a ∈ lsp_attrs) objs' ∧
        Forall (λ oe, is_Some (oid_name_map !! oe.1)) seen
    | (Raise _, s1) => s1 = s0
    end) as Hall.
  { induction seen as [|[oid entries] seen IH]; intros objs s0 Hobjs; [done|].
    simpl. unfold py_bind at 1. unfold py_bind at 1, py_getitem. simpl.
    destruct (oid_name_map !! oid) as [k|] eqn:Hk; [|done].
    destruct (oid_name_map_attrs oid k Hk) as (Hk1 & Hk2). unfold py_ret at 1.
    pose proof (py_foldl_inv (named_objs (λ a, a ∈ lsp_attrs))
                  (lsp_entry oid k) entries objs s0) as Hin.
    destruct (py_foldl (lsp_entry oid k) objs entries s0) as [[objs1|e] s1].
    - destruct Hin as [-> Hobjs1]; [|done|].
      { intros b a s2 _ Hb. by apply lsp_entry_named. }
      specialize (IH objs1 s0 Hobjs1).
      destruct (py_foldl _ objs1 seen s0) as [[objs2|e] s2]; [|done].
      destruct IH as (-> & Hobjs2 & Hseen). split; [done|]. split; [done|].
      constructor; [by eexists|done].
    - apply Hin; [|done]. intros b a s2 _ Hb. by apply lsp_entry_named. }
  specialize (Hall (map_to_list (the_data s)) ∅ s).
  destruct (py_foldl _ ∅ (map_to_list (the_data s)) s) as [[objs|e] s1].
  - destruct Hall as (-> & Hobjs & Hseen).
    { intros k o Hk. by rewrite lookup_empty in Hk. }
    split; [done|]. split.
    { apply (named_objs_snapshot_wf (λ a, a ∈ lsp_attrs)); [|done].
      unfold lsp_attrs. intros Hin.
      repeat (apply elem_of_cons in Hin as [?|Hin]; [done|]).
      by apply elem_of_nil in Hin. }
    split; [done|].
    intros oid [l Hoid]. rewrite Forall_forall in Hseen.
    apply (Hseen (oid, l)). by apply elem_of_map_to_list.
  - apply Hall. intros k o Hk. by rewrite lookup_empty in Hk.
Qed.

Section sap_snapshot.
Context (decode_alu_port : string → outcome string).

Lemma sap_entry_named (P : string → Prop) (oid : string)
    (objs : gmap string row) (kv : string * value) (s : HistoryStore) :
  lower oid ≠ "name" → P (lower oid) →
  named_objs P objs →
  match sap_entry decode_alu_port oid objs kv s with
  | (Return objs', s1) => s1 = s ∧ named_objs P objs'
  | (Raise _, s1) => s1 = s
  end.
Proof.
  intros Hn HP Hobjs. unfold sap_entry.
  destruct (split "." kv.1) as [|a [|b [|c [|d [|e l]]]]]; try done.
  unfold py_bind, py_lift.
  destruct (decode_alu_port c) as [p|e]; [|done].
  destruct (bool_decide (oid ∈ sap_int_oids)).
  - unfold py_bind, py_int. destruct kv.2 as [|n|v]; simpl; try done.
    + split; [done|]. by apply set_named_attr_named.
    + destruct (int_of_str v); simpl; [|done].
      split; [done|]. by apply set_named_attr_named.
  - simpl. split; [done|]. by apply set_named_attr_named.
Qed.

(** X14 (the SAP snapshot).  [ALUSAPRefPersister._build_objs] leaves the
    poll data as it is, and when no OID of the data is called [name] or
    [end_time] in lower case, every object it made carries its key as
    [name] and beside it only the lower-cased OID names of the data: the
    snapshot is one that [update_db] is idempotent on.  An entry whose key
    has not four dot-separated parts makes it raise. *)
Theorem sap_build_objs_snapshot (s : HistoryStore) :
  (∀ oid, is_Some (the_data s !! oid) →
          lower oid ≠ "name" ∧ lower oid ≠ "end_time") →
  match ALUSAPRef_build_objs decode_alu_port s with
  | (Return objs, s') =>
      s' = s ∧ snapshot_wf "name" objs ∧
      named_objs (λ a, ∃ oid, is_Some (the_data s !! oid) ∧ a = lower oid) objs ∧
      ∀ oid entries kv, the_data s !! oid = Some entries → kv ∈ entries →
        length (split "." kv.1) = 4%nat
  | (Raise _, s') => s' = s
  end.
Proof.
  intros Hoids.
  unfold ALUSAPRef_build_objs, py_bind, get_state. simpl.
  set (P := λ a, ∃ oid, is_Some (the_data s !! oid) ∧ a = lower oid).
  assert (∀ seen objs s0,
    Forall (λ oe, is_Some (the_data s !! oe.1)) seen →
    named_objs P objs →
    match py_foldl (λ objs oe, py_foldl (sap_entry decode_alu_port oe.1)
                                 objs oe.2) objs seen s0 with
    | (Return objs', s1) =>
        s1 = s0 ∧ named_objs P objs' ∧
        Forall (λ oe, Forall (λ kv, length (split "." kv.1) = 4%nat) oe.2) seen
    | (Raise _, s1) => s1 = s0
    end) as Hall.
  { induction seen as [|[oid entries] seen IH]; intros objs s0 Hin Hobjs;
      [done|].
    apply Forall_cons in Hin as [Hoid Hin]. simpl in Hoid.
    simpl. unfold py_bind at 1.
    assert (∀ es b s2, named_objs P b →
      match py_foldl (sap_entry decode_alu_port oid) b es s2 with
      | (Return b', s3) =>
          s3 = s2 ∧ named_objs P b' ∧
          Forall (λ kv, length (split "." kv.1) = 4%nat) es
      | (Raise _, s3) => s3 = s2
      end) as Hentries.
    { induction es as [|kv es IHes]; intros b s2 Hb; [done|].
      simpl. unfold py_bind.
      pose proof (sap_entry_named P oid b kv s2 (proj1 (Hoids oid Hoid))) as He.
      assert (∀ o s3, sap_entry decode_alu_port oid b kv s2 = (Return o, s3) →
                length (split "." kv.1) = 4%nat) as Hlen.
      { unfold sap_entry. intros o s3.
        by destruct (split "." kv.1) as [|a [|b0 [|c [|d [|e l]]]]]. }
      destruct (sap_entry decode_alu_port oid b kv s2) as [[b'|e] s3]; [|
        apply He; [by exists oid|done]].
      destruct He as [-> Hb']; [by exists oid|done|].
      specialize (IHes b' s2 Hb').
      destruct (py_foldl _ b' es s2) as [[b2|e] s4]; [|done].
      destruct IHes as (-> & Hb2 & Hes). split; [done|]. split; [done|].
      constructor; [by apply (Hlen b' s2)|done]. }
    specialize (Hentries entries objs s0 Hobjs).
    destruct (py_foldl (sap_entry decode_alu_port oid) objs entries s0)
      as [[objs1|e] s1]; [|done].
    destruct Hentries as (-> & Hobjs1 & Hes).
    specialize (IH objs1 s0 Hin Hobjs1).
    destruct (py_foldl _ objs1 seen s0) as [[objs2|e] s2]; [|done].
    destruct IH as (-> & Hobjs2 & Hseen). split; [done|]. split; [done|].
    by constructor. }
  specialize (Hall (map_to_list (the_data s)) ∅ s).
  destruct (py_foldl _ ∅ (map_to_list (the_data s)) s) as [[objs|e] s1].
  - destruct Hall as (-> & Hobjs & Hseen).
    { apply Forall_forall. intros [oid l] Hin.
      apply elem_of_map_to_list in Hin. by eexists. }
    { intros k o Hk. by rewrite lookup_empty in Hk. }
    split; [done|]. split.
    { apply (named_objs_snapshot_wf P); [|done].
      intros (oid & Hoid & Heq). by destruct (Hoids oid Hoid). }
    split; [done|].
    intros oid entries kv Hoid Hkv. rewrite Forall_forall in Hseen.
    specialize (Hseen (oid, entries)). simpl in Hseen.
    rewrite Forall_forall in Hseen. apply Hseen; [|done].
    by apply elem_of_map_to_list.
  - apply Hall.
    + apply Forall_forall. intros [oid l] Hin.
      apply elem_of_map_to_list in Hin. by eexists.
    + intros k o Hk. by rewrite lookup_empty in Hk.
Qed.
End sap_snapshot.

Lemma sap_build_objs_snapshot_witness :
  let s := set_the_data (data sap_result) example_history_store in
  ∃ objs,
    ALUSAPRef_build_objs example_decode_alu_port s = (Return objs, s) ∧
    snapshot_wf "name" objs.
Proof.
  intros s.
  assert (∀ oid, is_Some (the_data s !! oid) →
                 lower oid ≠ "name" ∧ lower oid ≠ "end_time") as Hoids.
  { intros oid [l Hoid]. unfold the_data in Hoid. simpl in Hoid.
    by apply lookup_singleton_Some in Hoid as [<- _]. }
  pose proof (sap_build_objs_snapshot example_decode_alu_port s Hoids) as Hs.
  assert (ALUSAPRef_build_objs example_decode_alu_port s
          = (Return (match (ALUSAPRef_build_objs example_decode_alu_port s).1
                     with Return o => o | Raise _ => ∅ end), s)) as Hrun
    by (vm_compute; reflexivity).
  rewrite Hrun in Hs. cbv beta iota in Hs. destruct Hs as (_ & Hwf & _).
  eexists. split; [exact Hrun|exact Hwf].
Defined.

(** ** The interface persisters need the address table *)

Lemma writes_keeps_absent {A : Type} (K : list string) (k : string)
    (c : py HistoryStore A) :
  k ∉ K → writes_only K c → keeps_absent k c.
Proof.
  intros Hk Hw s o s' Hrun Hs. by rewrite (proj2 (Hw s o s' Hrun) k Hk).
Qed.

Lemma fails_bind_l {A B : Type} (k : string) (c : py HistoryStore A)
    (f : A → py HistoryStore B) :
  fails_without k c → fails_without k (py_bind c f).
Proof.
  intros Hc s Hs. destruct (Hc s Hs) as (e & s' & Hrun).
  exists e, s'. unfold py_bind. by rewrite Hrun.
Qed.

Lemma fails_bind_r {A B : Type} (k : string) (c : py HistoryStore A)
    (f : A → py HistoryStore B) :
  keeps_absent k c → (∀ a, fails_without k (f a)) →
  fails_without k (py_bind c f).
Proof.
  intros Hc Hf s Hs. unfold py_bind.
  destruct (c s) as [[a|e] s1] eqn:Hrun; [|by eauto].
  apply Hf. by apply (Hc s _ s1 Hrun).
Qed.

Lemma list_remove_first_absent (x : string) (l : list string) :
  x ∉ l → list_remove_first x l = None.
Proof.
  induction l as [|y l IH]; [done|]. intros Hx.
  apply not_elem_of_cons in Hx as [Hne Hx]. simpl.
  rewrite decide_False by done. by rewrite IH.
Qed.

Lemma list_remove_first_subset (x y : string) (l l' : list string) :
  list_remove_first y l = Some l' → x ∉ l → x ∉ l'.
Proof.
  revert l'. induction l as [|z l IH]; intros l'; [done|]. simpl.
  intros Hrem Hx. apply not_elem_of_cons in Hx as [Hne Hx].
  destruct (decide (z = y)) as [->|Hzy].
  - by injection Hrem as <-.
  - destruct (list_remove_first y l) as [l0|]; [|done].
    injection Hrem as <-. apply not_elem_of_cons. split; [done|by apply IH].
Qed.

Lemma IfRef_build_objs_needs_addr (K : list string)
    (resolve : value → Z → py HistoryStore string) :
  "ipAdEntAddr" ∉ K →
  (∀ d i, writes_only K (resolve d i)) →
  fails_without "ipAdEntAddr" (IfRef_build_objs resolve).
Proof.
  intros HK Hres. unfold IfRef_build_objs.
  apply fails_bind_r.
  { apply (writes_keeps_absent []); [apply not_elem_of_nil|].
    apply writes_data_getitem. }
  intros descrs. apply fails_bind_r.
  { apply (writes_keeps_absent K); [done|].
    apply writes_foldl. intros loc nv. unfold build_ifdescr.
    apply writes_bind; [apply writes_unpack2|intros fi].
    apply writes_bind; [apply writes_py_int|intros idx].
    apply writes_bind; [apply Hres|intros d]. apply writes_ret. }
  intros loc. apply fails_bind_r.
  { apply (writes_keeps_absent []); [apply not_elem_of_nil|].
    apply writes_data_getitem. }
  intros idxs. apply fails_bind_r.
  { apply (writes_keeps_absent []); [apply not_elem_of_nil|].
    apply writes_foldl. intros loc' nv. unfold build_ipaddr.
    apply writes_bind; [apply writes_unpack2|intros fi].
    apply writes_bind; [apply writes_data_getitem|intros addrs].
    apply writes_bind; [apply writes_find_addr|intros ip].
    apply writes_set_obj_attr. }
  intros loc' s Hs. unfold py_bind at 1, get_state.
  assert ("ipAdEntAddr" ∉ (map_to_list (the_data s)).*1) as Hkeys.
  { intros Hin. apply list_elem_of_fmap in Hin as ([k v] & Hk & Hin).
    apply elem_of_map_to_list in Hin. simpl in Hk. subst k. congruence. }
  unfold py_bind at 1, py_remove at 1.
  destruct (list_remove_first "ifDescr" _) as [r1|] eqn:H1; [|by eauto].
  pose proof (list_remove_first_subset _ _ _ _ H1 Hkeys) as Hr1.
  unfold py_ret at 1. unfold py_bind at 1, py_remove at 1.
  destruct (list_remove_first "ipAdEntIfIndex" r1) as [r2|] eqn:H2;
    [|by eauto].
  pose proof (list_remove_first_subset _ _ _ _ H2 Hr1) as Hr2.
  unfold py_ret at 1. unfold py_bind at 1, py_remove at 1.
  rewrite (list_remove_first_absent _ _ Hr2). by eauto.
Qed.

Lemma history_store_fails (k : string) (row_str : row → string) (blank : row)
    (key : string) (extra : bool) (r : PollResult poll_dict)
    (build : py HistoryStore (gmap string row)) :
  fails_without k build →
  fails_without k (history_store row_str blank key extra r build).
Proof.
  intros Hbuild. unfold history_store.
  apply fails_bind_r.
  { apply (writes_keeps_absent []); [apply not_elem_of_nil|].
    apply writes_query_device. }
  intros device. apply fails_bind_r.
  { apply (writes_keeps_absent []); [apply not_elem_of_nil|].
    apply writes_getattr. }
  intros device_id. apply fails_bind_r.
  { apply (writes_keeps_absent []); [apply not_elem_of_nil|].
    apply writes_get_state. }
  intros s0. by apply fails_bind_l.
Qed.

(** X15 (no address table, no store).  [_build_objs] of
    [IfRefPollPersister] takes ['ipAdEntAddr'] out of the list of the OIDs
    of the poll data, so [store] of the three interface persisters raises
    on every result whose data has no item ['ipAdEntAddr'], also when the
    index table is empty; the Infinera [store], which makes the index table
    empty itself, is no exception. *)
Theorem ifref_store_needs_addr (decode_alu_port : string → outcome string)
    (row_str : row → string) (blank : row) (c : history_class)
    (r : PollResult poll_dict) (s : HistoryStore) :
  is_ifref c = true →
  data r !! "ipAdEntAddr" = None →
  ∃ e s', store decode_alu_port row_str blank c r s = (Raise e, s').
Proof.
  intros Hc Hr.
  assert (∀ K resolve (r0 : PollResult poll_dict),
    "ipAdEntAddr" ∉ K → (∀ d i, writes_only K (resolve d i)) →
    ∀ s0, data r0 !! "ipAdEntAddr" = None →
      ∃ e s', IfRef_store row_str blank resolve r0 s0 = (Raise e, s'))
    as Hifref.
  { intros K resolve r0 HK Hres s0 Hr0.
    unfold IfRef_store, py_bind at 1, modify at 1.
    apply (history_store_fails "ipAdEntAddr"); [|done].
    by apply (IfRef_build_objs_needs_addr K). }
  destruct c; try done; simpl.
  - apply (Hifref []); [apply not_elem_of_nil|apply writes_IfRef_resolve|done].
  - apply (Hifref ["ifAlias"]); [|apply writes_ALU_resolve|done].
    intros Hin. apply list_elem_of_singleton in Hin. done.
  - unfold InfIfRef_store, py_bind at 1, modify at 1.
    set (K := written_keys InfIfRefPollPersister).
    assert ("ipAdEntAddr" ∉ K) as HK.
    { unfold K. simpl. intros Hin.
      repeat (apply elem_of_cons in Hin as [?|Hin]; [done|]).
      by apply elem_of_nil in Hin. }
    assert (∀ oid, oid ∈ K → ∀ l, keeps_absent "ipAdEntAddr"
                                    (data_setitem oid l)) as Hset.
    { intros oid Hoid l. apply (writes_keeps_absent K); [done|].
      by apply writes_data_setitem. }
    assert (∀ oid, oid ∈ K → ∀ x, keeps_absent "ipAdEntAddr"
                                    (data_append oid x)) as Happ.
    { intros oid Hoid x. apply (writes_keeps_absent K); [done|].
      by apply writes_data_append. }
    assert (∀ oid, keeps_absent "ipAdEntAddr" (data_getitem oid)) as Hget.
    { intros oid. apply (writes_keeps_absent K); [done|].
      apply writes_data_getitem. }
    match goal with |- ∃ e s', ?c ?st = _ =>
      assert (fails_without "ipAdEntAddr" c) as Hfail end.
    { apply fails_bind_r; [apply Hset; unfold K; simpl; repeat constructor|intros _].
      apply fails_bind_r; [apply Hset; unfold K; simpl; repeat constructor|intros _].
      apply fails_bind_r; [apply Hset; unfold K; simpl; repeat constructor|intros _].
      apply fails_bind_r; [apply Hset; unfold K; simpl; repeat constructor|intros _].
      apply fails_bind_r; [apply Hget|intros ids].
      apply fails_bind_r.
      { apply (writes_keeps_absent K); [done|].
        apply writes_foldl. intros acc kv. unfold inf_alias.
        apply writes_bind; [apply writes_unpack2|intros fi].
        apply writes_ret. }
      intros ifalias. apply fails_bind_r; [apply Hget|intros descrs].
      apply fails_bind_r.
      { apply (writes_keeps_absent K); [done|].
        apply writes_foldl. intros keep kv. unfold inf_ifdescr.
        destruct kv.2 as [| |v]; try apply writes_raise.
        case_match; [|apply writes_ret].
        apply writes_bind; [apply writes_unpack2|intros fd].
        apply writes_bind; [apply writes_unpack2|intros fi].
        apply writes_bind;
          [apply writes_data_append; unfold K; simpl; repeat constructor|intros _].
        apply writes_bind;
          [apply writes_data_append; unfold K; simpl; repeat constructor|intros _].
        apply writes_bind;
          [apply writes_data_append; unfold K; simpl; repeat constructor|intros _].
        apply writes_ret. }
      intros keep.
      apply fails_bind_r; [apply Hset; unfold K; simpl; repeat constructor|intros _].
      intros s0 Hs0. unfold py_bind at 1, get_state at 1.
      unfold py_bind at 1, modify at 1. unfold py_bind at 1, get_state at 1.
      apply (Hifref []);
        [apply not_elem_of_nil|apply writes_IfRef_resolve|].
      simpl. by rewrite lookup_delete_ne. }
    by apply Hfail.
Qed.

Lemma ifref_store_needs_addr_witness :
  ∃ e s',
    store example_decode_alu_port example_row_str s2_blank
      InfIfRefPollPersister inf_result_no_addr example_history_store
    = (Raise e, s').
Proof.
  apply (ifref_store_needs_addr example_decode_alu_port example_row_str
           s2_blank InfIfRefPollPersister inf_result_no_addr
           example_history_store); [reflexivity|].
  vm_compute. reflexivity.
Defined.

(** ** The text of a physical address *)

Lemma hex_digit_inj (i j : nat) :
  (i < 16)%nat → (j < 16)%nat → hex_digit i = hex_digit j → i = j.
Proof.
  intros Hi Hj.
  do 16 (destruct i as [|i];
         [do 16 (destruct j as [|j]; [done|]); lia|]).
  lia.
Qed.

Lemma hex2_inj (c d : ascii) : hex2 c = hex2 d → c = d.
Proof.
  pose proof (nat_ascii_bounded c) as Hc.
  pose proof (nat_ascii_bounded d) as Hd.
  assert (∀ n, (n < 256)%nat → (n / 16 < 16)%nat ∧ (n mod 16 < 16)%nat)
    as Hb.
  { intros n Hn. split; [apply Nat.Div0.div_lt_upper_bound; lia|].
    apply Nat.mod_upper_bound. lia. }
  destruct (Hb _ Hc) as [Hqc Hrc]. destruct (Hb _ Hd) as [Hqd Hrd].
  pose proof (Nat.div_mod_eq (nat_of_ascii c) 16) as Hec.
  pose proof (Nat.div_mod_eq (nat_of_ascii d) 16) as Hed.
  unfold hex2. cbv zeta.
  remember (nat_of_ascii c / 16)%nat as qc.
  remember (nat_of_ascii c mod 16)%nat as rc.
  remember (nat_of_ascii d / 16)%nat as qd.
  remember (nat_of_ascii d mod 16)%nat as rd.
  intros [= H1 H2].
  apply hex_digit_inj in H1; [|done..].
  apply hex_digit_inj in H2; [|done..].
  rewrite <- (ascii_nat_embedding c), <- (ascii_nat_embedding d).
  f_equal. lia.
Qed.

Lemma hex2_shape (c : ascii) : ∃ x y, hex2 c = String x (String y "").
Proof. unfold hex2. eauto. Qed.

Lemma mac_join_inj (l1 l2 : list ascii) :
  join ":" (hex2 <$> l1) = join ":" (hex2 <$> l2) → l1 = l2.
Proof.
  revert l2. induction l1 as [|c1 l1 IH]; intros [|c2 l2].
  - done.
  - simpl. destruct (hex2_shape c2) as (x & y & ->). by destruct l2.
  - simpl. destruct (hex2_shape c1) as (x & y & ->). by destruct l1.
  - destruct l1 as [|c1' l1], l2 as [|c2' l2].
    + simpl. intros Heq. f_equal. by apply hex2_inj.
    + simpl. destruct (hex2_shape c1) as (x1 & y1 & ->).
      destruct (hex2_shape c2) as (x2 & y2 & ->). by intros [= _ _ ?].
    + simpl. destruct (hex2_shape c1) as (x1 & y1 & ->).
      destruct (hex2_shape c2) as (x2 & y2 & ->). by intros [= _ _ ?].
    + change (join ":" (hex2 <$> c1 :: c1' :: l1))
        with (hex2 c1 +:+ ":" +:+ join ":" (hex2 <$> c1' :: l1)).
      change (join ":" (hex2 <$> c2 :: c2' :: l2))
        with (hex2 c2 +:+ ":" +:+ join ":" (hex2 <$> c2' :: l2)).
      destruct (hex2_shape c1) as (x1 & y1 & Hs1).
      destruct (hex2_shape c2) as (x2 & y2 & Hs2).
      rewrite Hs1, Hs2. intros [= -> -> Hl].
      assert (c1 = c2) as -> by (apply hex2_inj; congruence).
      f_equal. by apply IH.
Qed.

Lemma mac_join_length (l : list ascii) :
  l ≠ [] →
  Z.of_nat (String.length (join ":" (hex2 <$> l)))
  = 3 * Z.of_nat (length l) - 1.
Proof.
  induction l as [|c l IH]; [done|]. intros _.
  destruct l as [|c' l]; [done|].
  specialize (IH ltac:(done)).
  change (join ":" (hex2 <$> c :: c' :: l))
    with (hex2 c +:+ ":" +:+ join ":" (hex2 <$> c' :: l)).
  destruct (hex2_shape c) as (x & y & ->).
  change (String.length (String x (String y "") +:+ ":" +:+
                         join ":" (hex2 <$> c' :: l)))
    with (S (S (S (String.length (join ":" (hex2 <$> c' :: l)))))).
  rewrite !Nat2Z.inj_succ, IH. simpl length. lia.
Qed.

Lemma hex2_parse (c : ascii) :
  ∃ x y, hex2 c = String x (String y "") ∧ hex_byte x y = Some c.
Proof.
  destruct c as [[] [] [] [] [] [] [] []];
    eexists _, _; split; reflexivity.
Qed.

Lemma mac_join_parse (l : list ascii) :
  l ≠ [] → parse_mac (join ":" (hex2 <$> l)) = Some l.
Proof.
  induction l as [|c l IH]; [done|]. intros _.
  destruct (hex2_parse c) as (x & y & Hs & Hb).
  destruct l as [|c' l].
  - change (join ":" (hex2 <$> [c])) with (hex2 c). rewrite Hs.
    cbn [parse_mac]. by rewrite Hb.
  - specialize (IH ltac:(done)).
    change (join ":" (hex2 <$> c :: c' :: l))
      with (hex2 c +:+ ":" +:+ join ":" (hex2 <$> c' :: l)).
    rewrite Hs.
    change (String x (String y "") +:+ ":" +:+ join ":" (hex2 <$> c' :: l))
      with (String x (String y (String ":"
              (join ":" (hex2 <$> c' :: l))))).
    cbn [parse_mac]. rewrite Hb. cbn [mbind option_bind]. by rewrite IH.
Qed.

(** X16 (the text of a physical address).  The coercion of [_build_objs]
    always turns an [ifPhysAddress] that is a str into a value: [None] for
    the empty str, and otherwise a text of two lower-case hexadecimal
    digits for each byte, in order, with a colon between one byte and the
    next, so [3 n - 1] characters for [n] bytes: reading the digits back
    gives the bytes of the address.  Different addresses get different
    values. *)
Theorem ifPhysAddress_text (a b : string) (s : HistoryStore) :
  (∃ v, coerce_val "ifPhysAddress" (VStr a) s = (Return v, s) ∧
        match v with
        | VNone => a = ""
        | VStr t =>
            a ≠ "" ∧ parse_mac t = Some (string_chars a) ∧
            Z.of_nat (String.length t) = 3 * Z.of_nat (String.length a) - 1
        | VInt _ => False
        end) ∧
  ((coerce_val "ifPhysAddress" (VStr a) s).1
   = (coerce_val "ifPhysAddress" (VStr b) s).1 → a = b).
Proof.
  assert (∀ x : string, String.length x = length (string_chars x)) as Hlen.
  { induction x as [|c x IH]; simpl; [done|by rewrite IH]. }
  assert (∀ x st,
    coerce_val "ifPhysAddress" (VStr x) st
    = (Return match x with
              | EmptyString => VNone
              | _ => VStr (join ":" (hex2 <$> string_chars x))
              end, st)) as Hco.
  { intros x st. unfold coerce_val, py_bind. simpl. by destruct x. }
  split.
  - eexists. split; [apply Hco|].
    destruct a as [|c a]; [done|]. split; [done|].
    split; [by apply mac_join_parse|].
    rewrite mac_join_length by done. by rewrite Hlen.
  - rewrite !Hco. cbn [fst]. destruct a as [|c a], b as [|d b]; try done.
    intros Heq.
    assert (join ":" (hex2 <$> string_chars (String c a))
            = join ":" (hex2 <$> string_chars (String d b))) as Hj
      by (by injection Heq).
    apply mac_join_inj in Hj. by apply string_chars_inj.
Qed.

(** The octets [0x00 0x1b 0xab] become ["00:1b:ab"]; a text in upper case
    or without the colons is not what [parse_mac] reads. *)
Example ifPhysAddress_example :
  coerce_val "ifPhysAddress" (VStr example_mac) example_history_store
  = (Return (VStr "00:1b:ab"), example_history_store) ∧
  parse_mac "00:1b:ab" = Some (string_chars example_mac) ∧
  parse_mac "00:1B:AB" = None ∧ parse_mac "001bab" = None.
Proof. repeat split; vm_compute; reflexivity. Qed.

(** ** The TSDB persister as constructed *)

Section tsdb_init_facts.
Context {T : Type} `{TSDB T}.
Context (row_types : list string) (rows : list OIDSetRow).

Lemma parse_poller_args_state (text : string) (s s' : TSDBPollPersister T)
    (o : outcome (gmap string string)) :
  parse_poller_args text s = (o, s') → s' = s.
Proof.
  unfold parse_poller_args. generalize (∅ : gmap string string).
  induction (split_ws text) as [|arg l IH]; intros d; simpl.
  - by intros [= _ <-].
  - unfold py_bind at 1. unfold py_bind at 1.
    destruct (split "=" arg) as [|a [|b [|c l']]]; simpl;
      try (by intros [= _ <-]).
    apply IH.
Qed.

Lemma init_oid_maps (row : OIDSetRow) (oid : OIDRow)
    (s s' : TSDBPollPersister T) (o : outcome unit) :
  row ∈ rows → oid ∈ osr_oids row →
  init_maps row_types rows s →
  init_oid row_types row oid s = (o, s') →
  o = Return tt ∧ init_maps row_types rows s' ∧ inserted s' = inserted s ∧
  tsdb s' = tsdb s.
Proof.
  intros Hrow Hoid (Hos & Ho & Hpa & Hty).
  unfold init_oid, py_bind, set_oid, modify. simpl.
  destruct (bool_decide (oidr_type_name oid ∈ row_types)) eqn:Hin.
  - apply bool_decide_eq_true in Hin.
    unfold set_oid_type, modify. intros [= <- <-]. simpl.
    split; [done|]. split; [|done]. split; [done|]. split; [|split; [done|]].
    + intros n o0. simpl. intros Hn.
      apply lookup_insert_Some in Hn as [[<- <-]|[_ Hn]]; [done|by apply Ho].
    + intros n ty. simpl. intros Hn.
      apply lookup_insert_Some in Hn as [[<- <-]|[_ Hn]]; [|by apply Hty].
      split; [done|]. by exists row, oid.
  - unfold init_log, modify. intros [= <- <-]. simpl.
    split; [done|]. split; [|done]. split; [done|]. split; [|done].
    intros n o0. simpl. intros Hn.
    apply lookup_insert_Some in Hn as [[<- <-]|[_ Hn]]; [done|by apply Ho].
Qed.

Lemma init_oids_maps (row : OIDSetRow) (l : list OIDRow)
    (s s' : TSDBPollPersister T) (o : outcome unit) :
  row ∈ rows → l ⊆ osr_oids row →
  init_maps row_types rows s →
  py_for l (init_oid row_types row) s = (o, s') →
  o = Return tt ∧ init_maps row_types rows s' ∧ inserted s' = inserted s ∧
  tsdb s' = tsdb s.
Proof.
  intros Hrow. revert s. induction l as [|oid l IH]; intros s Hl Hs.
  - by intros [= <- <-].
  - simpl. unfold py_bind.
    destruct (init_oid row_types row oid s) as [o1 s1] eqn:H1.
    apply init_oid_maps in H1 as (-> & Hs1 & Hi1 & Ht1); [|done| |done].
    2:{ apply Hl. by left. }
    intros Hrun. apply IH in Hrun as (-> & Hs' & Hi' & Ht'); [| |done].
    + split; [done|]. split; [done|]. split; congruence.
    + intros x Hx. apply Hl. by right.
Qed.

Lemma init_oidset_maps (row : OIDSetRow) (s s' : TSDBPollPersister T)
    (o : outcome unit) :
  row ∈ rows →
  init_maps row_types rows s →
  init_oidset row_types row s = (o, s') →
  init_maps row_types rows s' ∧ inserted s' = inserted s ∧ tsdb s' = tsdb s.
Proof.
  intros Hrow (Hos & Ho & Hpa & Hty).
  unfold init_oidset. unfold py_bind at 1, set_oidset at 1, modify at 1.
  set (s1 := mkTSDBPollPersister (tsdb s)
               (<[osr_name row := mkOIDSet (osr_name row) (osr_frequency row)]>
                  (oidsets s))
               (poller_args s) (oids s) (oid_type_map s) (inserted s)
               (tsdb_log s)).
  assert (init_maps row_types rows s1) as Hs1.
  { split; [|done]. intros n os. simpl. intros Hn.
    apply lookup_insert_Some in Hn as [[<- <-]|[_ Hn]]; [done|by apply Hos]. }
  unfold py_bind at 1.
  destruct (osr_poller_args row) as [[|c text]|] eqn:Hargs.
  - unfold py_ret at 1. intros Hrun.
    apply init_oids_maps in Hrun as (_ & ? & ? & ?); done.
  - unfold py_bind at 1.
    destruct (parse_poller_args (String c text) s1) as [[d|e] s2] eqn:Hparse.
    + apply parse_poller_args_state in Hparse as ->.
      unfold set_poller_args, modify. intros Hrun.
      apply init_oids_maps in Hrun as (_ & ? & ? & ?); try done.
      destruct Hs1 as (Hos1 & Ho1 & Hpa1 & Hty1).
      split; [done|]. split; [done|]. split; [|done].
      intros n. simpl. intros Hn.
      destruct (decide (osr_name row = n)) as [<-|Hne].
      * by exists row, c, text.
      * rewrite lookup_insert_ne in Hn by done. by apply Hpa1.
    + apply parse_poller_args_state in Hparse as ->.
      by intros [= <- <-].
  - unfold py_ret at 1. intros Hrun.
    apply init_oids_maps in Hrun as (_ & ? & ? & ?); done.
Qed.

Lemma init_rows_maps (l : list OIDSetRow) (s s' : TSDBPollPersister T)
    (o : outcome unit) :
  l ⊆ rows →
  init_maps row_types rows s →
  py_for l (init_oidset row_types) s = (o, s') →
  init_maps row_types rows s' ∧ inserted s' = inserted s ∧ tsdb s' = tsdb s.
Proof.
  revert s. induction l as [|row l IH]; intros s Hl Hs.
  - by intros [= <- <-].
  - simpl. unfold py_bind.
    destruct (init_oidset row_types row s) as [[[]|e] s1] eqn:H1.
    + apply init_oidset_maps in H1 as (Hs1 & Hi1 & Ht1); [| |done].
      2:{ apply Hl. by left. }
      intros Hrun. apply IH in Hrun as (Hs' & Hi' & Ht'); [| |done].
      * split; [done|]. split; congruence.
      * intros x Hx. apply Hl. by right.
    + apply init_oidset_maps in H1 as (Hs1 & Hi1 & Ht1); [| |done].
      2:{ apply Hl. by left. }
      by intros [= <- <-].
Qed.

Context (float_of_str : string → option float).
Context (py_eval : string → outcome string).

End tsdb_init_facts.

(** *** The text of [poller_args] *)

Lemma split_no_sep (sep : ascii) (s : string) :
  Forall (λ c, c ≠ sep) (string_chars s) → split sep s = [s].
Proof.
  induction s as [|c s IH]; simpl; [done|].
  intros Hall. apply Forall_cons in Hall as [Hc Hall].
  rewrite decide_False by done. by rewrite IH.
Qed.

Lemma split_key_value (k v : string) :
  Forall (λ c, c ≠ "="%char) (string_chars k) →
  Forall (λ c, c ≠ "="%char) (string_chars v) →
  split "=" (k +:+ "=" +:+ v) = [k; v].
Proof.
  intros Hk Hv. induction k as [|c k IH]; simpl.
  - by rewrite split_no_sep.
  - simpl in Hk. apply Forall_cons in Hk as [Hc Hk].
    rewrite decide_False by done. by rewrite IH.
Qed.

Lemma app_String_assoc (a : string) (c : ascii) (b : string) :
  (a +:+ String c EmptyString) +:+ b = a +:+ String c b.
Proof.
  induction a as [|x a IH]; [done|].
  change (String x ((a +:+ String c "") +:+ b) = String x (a +:+ String c b)).
  by rewrite IH.
Qed.

Lemma string_app_nil_r (s : string) : s +:+ "" = s.
Proof.
  induction s as [|c s IH]; [done|].
  change (String c (s +:+ "") = String c s). by rewrite IH.
Qed.

Lemma split_ws_from_word (w acc rest : string) :
  Forall (λ c, is_space c = false) (string_chars w) →
  split_ws_from acc (w +:+ rest) = split_ws_from (acc +:+ w) rest.
Proof.
  revert acc. induction w as [|c w IH]; intros acc Hw; simpl.
  - by rewrite string_app_nil_r.
  - simpl in Hw. apply Forall_cons in Hw as [Hc Hw]. rewrite Hc.
    rewrite IH by done. by rewrite app_String_assoc.
Qed.

Lemma split_ws_join (args : list string) :
  Forall (λ a, a ≠ "" ∧ Forall (λ c, is_space c = false) (string_chars a))
    args →
  split_ws (join " " args) = args.
Proof.
  unfold split_ws. induction args as [|a args IH]; [done|].
  intros Hall. apply Forall_cons in Hall as [[Hne Ha] Hall].
  destruct args as [|b args].
  - simpl. rewrite <- (string_app_nil_r a) at 1.
    rewrite split_ws_from_word by done. simpl. by destruct a.
  - change (join " " (a :: b :: args))
      with (a +:+ " " +:+ join " " (b :: args)).
    rewrite split_ws_from_word by done.
    change (split_ws_from ("" +:+ a) (" " +:+ join " " (b :: args)))
      with (match a with
            | EmptyString => split_ws_from EmptyString (join " " (b :: args))
            | _ => a :: split_ws_from EmptyString (join " " (b :: args))
            end).
    rewrite IH by done. by destruct a.
Qed.

Section poller_args_text.
Context {T : Type}.

(** X18 (the text of [poller_args]).  The constructor reads a [poller_args]
    text of [key=value] words separated by single spaces back into the dict
    of those keys and values, a later word for the same key winning, when
    no key or value has white space or [=] in it; the persister is not
    touched. *)
Theorem parse_poller_args_render (kvs : list (string * string))
    (s : TSDBPollPersister T) :
  Forall (λ kv, arg_word kv.1 ∧ arg_word kv.2) kvs →
  parse_poller_args (render_poller_args kvs) s
  = (Return (foldl (λ d kv, <[kv.1 := kv.2]> d) ∅ kvs), s).
Proof.
  intros Hkvs. unfold parse_poller_args, render_poller_args.
  rewrite split_ws_join.
  2:{ apply Forall_fmap. eapply Forall_impl; [exact Hkvs|]. simpl.
      intros [k v] [Hk Hv]. simpl in *. split.
      - intros Heq. apply (f_equal string_chars) in Heq.
        rewrite string_chars_app in Heq. by destruct (string_chars k).
      - rewrite string_chars_app. apply Forall_app. split.
        + eapply Forall_impl; [exact Hk|]. by intros c [? _].
        + simpl. constructor; [done|].
          eapply Forall_impl; [exact Hv|]. by intros c [? _]. }
  generalize (∅ : gmap string string).
  induction Hkvs as [|[k v] kvs [Hk Hv] Hkvs IH]; intros d; [done|].
  simpl in *. unfold py_bind at 1. unfold py_bind at 1.
  rewrite split_key_value.
  - simpl. apply IH.
  - eapply Forall_impl; [exact Hk|]. by intros c [_ ?].
  - eapply Forall_impl; [exact Hv|]. by intros c [_ ?].
Qed.
End poller_args_text.

Lemma parse_poller_args_render_witness :
  parse_poller_args
    (render_poller_args [("chunk_mapper", "tsdb.YYYYMMDDChunkMapper");
                         ("aggregates", "300,3600")])
    example_tsdb_persister
  = (Return (foldl (λ d kv, <[kv.1 := kv.2]> d) ∅
               [("chunk_mapper", "tsdb.YYYYMMDDChunkMapper");
                ("aggregates", "300,3600")]),
     example_tsdb_persister).
Proof.
  apply (parse_poller_args_render
           [("chunk_mapper", "tsdb.YYYYMMDDChunkMapper");
            ("aggregates", "300,3600")] example_tsdb_persister).
  repeat constructor; simpl; try done.
Defined.


(** ** Aggregation errors do not stop [store] *)

Section benign_steps.
Context {T : Type} `{TSDB T}.
Context (py_eval : string → outcome string).
Context (n : string) (args : gmap string string).

Lemma benign_ret {A : Type} (a : A) : benign (T := T) n args (py_ret a).
Proof. intros s o s' _ [= <- <-]. done. Qed.

Lemma benign_log (l : loglevel) (msg : string) :
  benign (T := T) n args (tsdb_log_to l msg).
Proof. intros s o s' _ [= <- <-]. done. Qed.

Lemma benign_on_tsdb {A : Type} (c : py T A) :
  tsdb_errors_only c → benign n args (on_tsdb c).
Proof.
  intros Hc s o s' _. unfold on_tsdb.
  destruct (c (tsdb s)) as [r t'] eqn:Hrun. intros [= <- <-].
  split; [done|]. split; [done|]. by apply (Hc _ _ _ Hrun).
Qed.

Lemma benign_bind {A B : Type} (c : py (TSDBPollPersister T) A)
    (k : A → py (TSDBPollPersister T) B) :
  benign n args c → (∀ a, benign n args (k a)) → benign n args (py_bind c k).
Proof.
  intros Hc Hk s o s' Hs. unfold py_bind.
  destruct (c s) as [[a|e] s1] eqn:Hcs.
  - destruct (Hc s _ s1 Hs Hcs) as (Hi & Hp & _). intros Hrun.
    destruct (Hk a s1 o s') as (Hi' & Hp' & Ho); [congruence|done|].
    split; [congruence|]. split; [congruence|done].
  - intros [= <- <-]. by apply (Hc s _ s1 Hs Hcs).
Qed.

Lemma benign_for {A : Type} (l : list A)
    (body : A → py (TSDBPollPersister T) unit) :
  (∀ a, benign n args (body a)) → benign n args (py_for l body).
Proof.
  intros Hb. induction l as [|a l IH]; simpl.
  - apply benign_ret.
  - apply benign_bind; [apply Hb|done].
Qed.

Lemma benign_catch {A : Type} (c : py (TSDBPollPersister T) A)
    (h : exn → option (py (TSDBPollPersister T) A)) :
  benign n args c → (∀ e k, h e = Some k → benign n args k) →
  benign n args (py_catch c h).
Proof.
  intros Hc Hh s o s' Hs. unfold py_catch.
  destruct (c s) as [[a|e] s1] eqn:Hcs.
  - intros [= <- <-]. by apply (Hc s _ s1 Hs Hcs).
  - destruct (Hc s _ s1 Hs Hcs) as (Hi & Hp & He).
    destruct (h e) as [k|] eqn:Hk.
    + intros Hrun.
      destruct (Hh e k Hk s1 o s') as (Hi' & Hp' & Ho); [congruence|done|].
      split; [congruence|]. split; [congruence|done].
    + by intros [= <- <-].
Qed.

Lemma benign_create_agg (v : string) (oidset : OIDSet) (period : Z) :
  OIDSet_name oidset = n → chunk_mapper_evaluates py_eval args →
  benign (T := T) n args (_create_agg py_eval v oidset period).
Proof.
  intros Hn (text & cm & Hcm & Heval) s o s' Hs.
  unfold _create_agg, py_bind, get_state, py_getitem. simpl.
  rewrite Hn, Hs. simpl. rewrite Hcm. simpl.
  unfold py_lift. rewrite Heval.
  unfold py_catch, on_tsdb.
  destruct (tsdb_add_aggregate v (pretty period) cm _ (tsdb s)) as [[[]|e] t'].
  - by intros [= <- <-].
  - unfold tsdb_log_to. by intros [= <- <-].
Qed.
End benign_steps.

Section tsdb_aggregation.
Context {T : Type} `{TSDB T}.
Context (float_of_str : string → option float).
Context (py_eval : string → outcome string).
Hypothesis get_var_returns : ∀ v, tsdb_returns (tsdb_get_var v).
Hypothesis insert_returns : ∀ v r, tsdb_returns (tsdb_insert v r).
Hypothesis update_aggregate_errors :
  ∀ v p u m x, tsdb_errors_only (tsdb_update_aggregate v p u m x).
Hypothesis flush_errors : ∀ v, tsdb_errors_only (tsdb_flush v).

Lemma benign_update_agg (n : string) (args : gmap string string)
    (v : string) (oidset : OIDSet) (up : option string) (m : Z) :
  benign n args (update_agg v oidset up m).
Proof.
  unfold update_agg.
  apply benign_bind; [by apply benign_on_tsdb|intros bad].
  apply benign_for. intros msg. apply benign_log.
Qed.

Lemma benign_aggregate (args : gmap string string) (v name : string)
    (ts : Z) (up : string) (oidset : OIDSet) :
  chunk_mapper_evaluates py_eval args →
  benign (OIDSet_name oidset) args (_aggregate py_eval v name ts up oidset).
Proof.
  intros Hcm. unfold _aggregate. apply benign_bind.
  { apply benign_catch.
    - apply benign_bind; [|intros _; apply benign_ret].
      apply benign_on_tsdb. intros t o t' Hrun.
      destruct (get_var_returns up t) as ([] & t1 & Hg).
      rewrite Hg in Hrun. by injection Hrun as <- _.
    - intros e k He. destruct e; simplify_eq. apply benign_ret. }
  intros uptime. apply benign_catch; [apply benign_update_agg|].
  intros e k He. destruct e; simplify_eq.
  - apply benign_bind; [apply benign_log|intros _].
    apply benign_bind; [by apply benign_create_agg|intros _].
    apply benign_bind; [by apply benign_on_tsdb|intros _].
    apply benign_update_agg.
  - apply benign_log.
Qed.

Lemma store_pair_returns (r : PollResult (list (string * value)))
    (set_name basename : string) (oidset : OIDSet) (oid : OID)
    (flags : value) (ty : string) (vv : string * value)
    (args : gmap string string) (s : TSDBPollPersister T) :
  poller_args s !! OIDSet_name oidset = Some args →
  chunk_mapper_evaluates py_eval args →
  (set_name = "SparkySet" → ∃ f, py_float float_of_str vv.2 = Return f) →
  ∃ s' row,
    store_pair float_of_str py_eval r set_name basename oidset oid flags ty vv s
      = (Return tt, s') ∧
    inserted s' = inserted s ++ [(path_join basename vv.1, row)] ∧
    poller_args s' = poller_args s.
Proof.
  intros Hs Hcm Hval.
  assert (∃ val, store_value float_of_str set_name vv.2 s = (Return val, s))
    as (val & Hsv).
  { unfold store_value. destruct (String.eqb_spec set_name "SparkySet") as [->|?].
    - destruct Hval as (f & Hf); [done|].
      unfold py_bind, py_lift. rewrite Hf. by eexists.
    - by eexists. }
  unfold store_pair. unfold py_bind at 1. rewrite Hsv.
  unfold py_bind at 1, py_catch at 1. unfold py_bind at 1, on_tsdb at 1.
  destruct (get_var_returns (path_join basename vv.1) (tsdb s))
    as ([] & t1 & ->). unfold py_ret at 1.
  unfold py_bind at 1, on_tsdb at 1. simpl.
  destruct (insert_returns (path_join basename vv.1)
              (mkTSDBRow ty (timestamp r) flags val) t1) as ([] & t2 & ->).
  unfold py_bind at 1, push_inserted at 1. simpl.
  destruct (OID_aggregate oid).
  - unfold py_catch.
    match goal with
    | |- context [_aggregate ?ev ?v ?nm ?ts ?up oidset ?st] =>
        pose proof (benign_aggregate args v nm ts up oidset Hcm st) as Hb;
        destruct (_aggregate ev v nm ts up oidset st) as [[[]|e] s1] eqn:Hagg
    end.
    + destruct (Hb _ _ Hs eq_refl) as (Hi & Hp & _).
      exists s1, (mkTSDBRow ty (timestamp r) flags val). done.
    + destruct (Hb _ _ Hs eq_refl) as (Hi & Hp & He). rewrite He.
      eexists _, (mkTSDBRow ty (timestamp r) flags val).
      split; [reflexivity|]. done.
  - eexists _, (mkTSDBRow ty (timestamp r) flags val).
    split; [reflexivity|]. done.
Qed.

(** X19 (aggregation errors do not stop [store]).  On a TSDB that has every
    variable and accepts every row, [store] returns and inserts one row
    for every pair of the data, in order, whatever the aggregation does,
    as long as what [update_aggregate] and [flush] raise are errors of the
    TSDB library: they are logged.  The lookups of [store] succeed, the
    [chunk_mapper] text is among the [poller_args] and [eval] gives an
    object for it, and under the set name [SparkySet] the values are
    numbers. *)
Theorem store_survives_aggregation
    (r : PollResult (list (string * value))) (s : TSDBPollPersister T)
    (oidset : OIDSet) (args : gmap string string) (oid : OID)
    (flags : value) (ty : string) :
  oidsets s !! oidset_name r = Some oidset →
  poller_args s !! OIDSet_name oidset = Some args →
  chunk_mapper_evaluates py_eval args →
  oids s !! oid_name r = Some oid →
  metadata r !! "tsdb_flags" = Some flags →
  oid_type_map s !! OID_name oid = Some ty →
  (default (OIDSet_name oidset) (args !! "set_name") = "SparkySet" →
   Forall (λ vv, ∃ f, py_float float_of_str vv.2 = Return f) (data r)) →
  ∃ s' new,
    TSDBPollPersister_store float_of_str py_eval r s = (Return tt, s') ∧
    inserted s' = inserted s ++ new ∧
    new.*1 = (λ vv, path_join
                      (path_join (device_name r)
                         (default (OIDSet_name oidset) (args !! "set_name")))
                      vv.1) <$> data r.
Proof.
  intros Hoidset Hargs Hcm Hoid Hflags Hty Hvals.
  unfold TSDBPollPersister_store, py_bind at 1, get_state.
  unfold py_bind at 1, py_getitem at 1. rewrite Hoidset. unfold py_ret at 1.
  unfold py_bind at 1, py_getitem at 1. rewrite Hargs. unfold py_ret at 1.
  unfold py_bind at 1, py_getitem at 1. rewrite Hoid. unfold py_ret at 1.
  unfold py_bind at 1, py_getitem at 1. rewrite Hflags. unfold py_ret at 1.
  unfold py_bind at 1, py_getitem at 1. rewrite Hty. unfold py_ret at 1.
  set (set_name := default (OIDSet_name oidset) (args !! "set_name")) in *.
  set (basename := path_join (device_name r) set_name).
  assert (∀ l s0,
    poller_args s0 !! OIDSet_name oidset = Some args →
    (set_name = "SparkySet" →
     Forall (λ vv, ∃ f, py_float float_of_str vv.2 = Return f) l) →
    ∃ s1 new,
      py_for l (store_pair float_of_str py_eval r set_name basename oidset oid flags ty)
        s0 = (Return tt, s1) ∧
      inserted s1 = inserted s0 ++ new ∧
      new.*1 = (λ vv, path_join basename vv.1) <$> l) as Hloop.
  { induction l as [|vv l IH]; intros s0 Hs0 Hl.
    - exists s0, []. by rewrite app_nil_r.
    - destruct (store_pair_returns r set_name basename oidset oid flags ty vv
                  args s0 Hs0 Hcm) as (s1 & row & Hrun & Hi & Hp).
      { intros Hsp. specialize (Hl Hsp). by apply Forall_cons in Hl as [? _]. }
      destruct (IH s1) as (s2 & new & Hrun' & Hi' & Hnew); [congruence| |].
      { intros Hsp. specialize (Hl Hsp). by apply Forall_cons in Hl as [_ ?]. }
      exists s2, ((path_join basename vv.1, row) :: new).
      split; [simpl; unfold py_bind; by rewrite Hrun|].
      split; [by rewrite Hi', Hi, <- app_assoc|].
      rewrite !fmap_cons. by rewrite Hnew. }
  destruct (Hloop (data r) s Hargs Hvals) as (s1 & new & Hrun & Hi & Hnew).
  unfold py_bind. rewrite Hrun. unfold tsdb_log_to.
  eexists _, new. split; [reflexivity|]. done.
Qed.
End tsdb_aggregation.

Lemma store_survives_aggregation_witness :
  ∃ s' new,
    TSDBPollPersister_store (H := flaky_tsdb) example_float_of_str example_eval s1_result
      example_tsdb_persister = (Return tt, s') ∧
    inserted s' = inserted example_tsdb_persister ++ new ∧
    new.*1 = (λ vv, path_join
                      (path_join (device_name s1_result)
                         (default (OIDSet_name (mkOIDSet "FastPoll" 30))
                            (({[ "chunk_mapper" := "tsdb.YYYYMMDDChunkMapper" ]}
                              : gmap string string) !! "set_name")))
                      vv.1) <$> data s1_result.
Proof.
  apply (store_survives_aggregation (H := flaky_tsdb) example_float_of_str
           example_eval
           ltac:(intros v t; by eexists _, _)
           ltac:(intros v r t; by eexists _, _)
           ltac:(by intros v p u m x t o t' [= <- <-])
           ltac:(by intros v t o t' [= <- <-])
           s1_result example_tsdb_persister
           (mkOIDSet "FastPoll" 30)
           {[ "chunk_mapper" := "tsdb.YYYYMMDDChunkMapper" ]}
           (mkOID "ifInOctets" true) (VInt 1) "Counter32").
  - vm_compute. reflexivity.
  - vm_compute. reflexivity.
  - eexists _, _. split; vm_compute; reflexivity.
  - vm_compute. reflexivity.
  - vm_compute. reflexivity.
  - vm_compute. reflexivity.
  - intros Heq. vm_compute in Heq. discriminate.
Defined.

(** When the [chunk_mapper] text does not evaluate, the exception of
    [eval] in [_create_agg] is not one of the TSDB library: it is not
    caught, and [store] raises after the first row went in. *)
Example store_eval_error_escapes :
  let run := TSDBPollPersister_store (H := flaky_tsdb) example_float_of_str
               (λ _, Raise AttributeError) s1_result
               example_tsdb_persister in
  run.1 = Raise AttributeError ∧
  (inserted run.2).*1 = ["router1/FastPoll/ifInOctets.1"].
Proof. split; vm_compute; reflexivity. Qed.

(** ** A task is taken once *)

Section run_facts.
Context {D St : Type} `{Pickle (PollResult D)}.
Context (store : py (St * PollResult D) unit) (data_len : D → Z).
Context (format_f : float → string).

(** X20 (at most once).  One turn of the loop of [PollPersister.run] on a
    queue that holds results takes the first of them and hands it to
    [store].  When [store] returns, the statistics count the items of
    [task.data] as [store] left it; when it raises, the exception leaves
    [run] and the statistics are as before.  Either way the result is off
    the queue: a result whose [store] raised is not stored again.  On an
    empty queue the turn sleeps a second and touches nothing else. *)
Theorem run_step_takes_once (now : float) (p : PollPersister) (st : St)
    (w : world) (c : Z) (v r : PollResult D) (vs : list (PollResult D)) :
  (queue_holds (pp_qname p) c (v :: vs) w →
   serialize v ≠ "" → pickle_loads (serialize v) = Some r →
   0 ≤ c → c + Z.of_nat (length (v :: vs)) < 2 ^ 63 →
   ∃ w',
     queue_holds (pp_qname p) (c + 1) vs w' ∧ logs w' = logs w ∧
     run_step store data_len format_f now (p, st, w)
     = match store (st, r) with
       | (Return _, (st', r')) =>
           let '(o, p') := count_task format_f (data_len (data r')) now p in
           (o, (p', st', w'))
       | (Raise e, (st', _)) => (Raise e, (p, st', w'))
       end) ∧
  (queue_holds (pp_qname p) c [] w →
   run_step store data_len format_f now (p, st, w)
   = (Return tt, ((sleep PERSIST_SLEEP_TIME p).2, st, w))).
Proof.
  split.
  - intros Hq Hv Hr Hc Hbound.
    destruct (get_holds _ c v r vs w Hq Hv Hr Hc Hbound)
      as (w' & Hget & Hq' & Hl).
    exists w'. split; [done|]. split; [done|].
    unfold run_step, py_bind, on_queue. simpl. rewrite Hget.
    unfold on_store. simpl.
    destruct (store (st, r)) as [[[]|e] [st' r']]; [|done].
    unfold on_self. simpl. by destruct (count_task _ _ _ _) as [o p'].
  - intros Hq. unfold run_step, py_bind, on_queue. simpl.
    by rewrite (get_empty_holds _ c w Hq).
Qed.
End run_facts.

Lemma run_step_takes_once_witness :
  let w := (put_all (H := example_pickle_results) "q"
              [example_result; ifref_result]
              (MemcachedPersistQueue_init "q" empty_world).2).2 in
  let p := mkPollPersister "q" true 0 0%float 0 [] in
  let w0 := (MemcachedPersistQueue_init "q" empty_world).2 in
  (∃ w',
     queue_holds (H := example_pickle_results) "q" 1 [ifref_result] w' ∧
     logs w' = logs w ∧
     run_step (H := example_pickle_results) (store_task failing_store)
       (λ _, 1) example_format_f 100%float (p, 0%nat, w)
     = match store_task failing_store (0%nat, example_result) with
       | (Return _, (st', r')) =>
           let '(o, p') := count_task example_format_f 1 100%float p in
           (o, (p', st', w'))
       | (Raise e, (st', _)) => (Raise e, (p, st', w'))
       end) ∧
  run_step (H := example_pickle_results) (store_task failing_store)
    (λ _, 1) example_format_f 100%float (p, 0%nat, w0)
  = (Return tt, ((sleep PERSIST_SLEEP_TIME p).2, 0%nat, w0)).
Proof.
  intros w p w0. split.
  - apply (proj1 (run_step_takes_once (H := example_pickle_results)
                    (store_task failing_store) (λ _, 1) example_format_f
                    100%float p 0%nat w 0
                    example_result example_result [ifref_result])).
    + split; [vm_compute; reflexivity|]. split; [vm_compute; reflexivity|].
      intros [|[|i]] x Hi; simpl in Hi; try done; injection Hi as <-;
        vm_compute; reflexivity.
    + intros Heq. vm_compute in Heq. discriminate.
    + vm_compute. reflexivity.
    + lia.
    + simpl. lia.
  - apply (proj2 (run_step_takes_once (H := example_pickle_results)
                    (store_task failing_store) (λ _, 1) example_format_f
                    100%float p 0%nat w0 0
                    example_result example_result [])).
    apply queue_holds_nil; vm_compute; reflexivity.
Defined.

(** The Infinera result has three items when it is taken off the queue and
    six when [store] has returned: the turn counts six. *)
Example run_step_counts_after_store :
  let pickle := example_result_pickle [inf_result] in
  let w := (put_all (H := pickle) "q" [inf_result]
              (MemcachedPersistQueue_init "q" empty_world).2).2 in
  let p := mkPollPersister "q" true 0 0%float 0 [] in
  let run := run_step (H := pickle)
               (history_store_task example_decode_alu_port example_row_str
                  s2_blank InfIfRefPollPersister)
               (λ d, Z.of_nat (size d)) example_format_f 10%float
               (p, example_history_store, w) in
  Z.of_nat (size (data inf_result)) = 3 ∧
  run.1 = Return tt ∧ pp_data_count run.2.1.1 = 6.
Proof.
  split; [vm_compute; reflexivity|]. split; vm_compute; reflexivity.
Qed.

(** ** The streaming log is appended to *)

Lemma string_app_assoc (a b c : string) : (a +:+ b) +:+ c = a +:+ b +:+ c.
Proof.
  induction a as [|x a IH]; [done|].
  change (String x ((a +:+ b) +:+ c) = String x (a +:+ b +:+ c)).
  by rewrite IH.
Qed.

Lemma string_app_empty_r (a : string) : a +:+ "" = a.
Proof.
  induction a as [|x a IH]; [done|].
  change (String x (a +:+ "") = String x a). by rewrite IH.
Qed.

Section streaming_facts.
Context {D : Type}.
Context (hour_name : Z → outcome string).
Context (json : PollResult D → outcome string).

(** What [store] does once the file of the hour [dst] is open. *)
Lemma streaming_write_step (r : PollResult D) (dst : string)
    (s0 : StreamingPollPersister) :
  sp_filename s0 = Some dst →
  sp_fd s0 = Some (path_join (streaming_log_dir s0) dst) →
  let run := (do text <- py_lift (json r);
              do_ fd_write text;
              do_ fd_write two_newlines;
              modify (λ s1,
                mkStreamingPollPersister (streaming_log_dir s1)
                  (sp_filename s1) (sp_fd s1) (sp_files s1) (sp_opened s1)
                  (sp_log s1 ++ [LogRec LDebug
                     ("stored " +:+ oidset_name r +:+ " " +:+ oid_name r
                      +:+ " " +:+ device_name r
                      +:+ " to streaming log")]))) s0 in
  streaming_wf run.2 ∧ streaming_log_dir run.2 = streaming_log_dir s0 ∧
  sp_filename run.2 = Some dst ∧ sp_opened run.2 = sp_opened s0 ∧
  match run.1 with
  | Return _ =>
      (∃ text, json r = Return text) ∧
      ∀ path,
        file_content run.2 path
        = file_content s0 path +:+
          (if decide (path = path_join (streaming_log_dir s0) dst)
           then log_entry json r else "")
  | Raise _ =>
      ¬ (∃ text, json r = Return text) ∧
      ∀ path, file_content run.2 path = file_content s0 path
  end.
Proof.
  intros Hname Hfd. unfold py_bind, py_lift, log_entry.
  destruct (json r) as [text|e] eqn:Hjson; simpl.
  - unfold fd_write. rewrite Hfd. simpl.
    split. { unfold streaming_wf. simpl. by rewrite Hname. }
    split; [done|]. split; [done|]. split; [done|].
    split; [by eexists|].
    intros path. unfold file_content. simpl.
    destruct (decide (path = path_join (streaming_log_dir s0) dst))
      as [->|Hne].
    + rewrite !lookup_insert_eq. simpl. by rewrite string_app_assoc.
    + rewrite !lookup_insert_ne by done. by rewrite string_app_empty_r.
  - split. { unfold streaming_wf. by rewrite Hfd, Hname. }
    split; [done|]. split; [done|]. split; [done|].
    split; [|done]. by intros [text [=]].
Qed.

Lemma streaming_store_step (r : PollResult D) (s : StreamingPollPersister) :
  streaming_wf s →
  let run := StreamingPollPersister_store hour_name json r s in
  streaming_wf run.2 ∧ streaming_log_dir run.2 = streaming_log_dir s ∧
  (∀ name, sp_filename s = Some name →
           hour_name (timestamp r) = Return name →
           sp_opened run.2 = sp_opened s) ∧
  (length (sp_opened run.2) ≤ length (sp_opened s) + 1)%nat ∧
  match run.1 with
  | Return _ =>
      loggable hour_name json r ∧
      ∀ path,
        file_content run.2 path
        = file_content s path +:+
          (if decide (path = log_path hour_name s r)
           then log_entry json r else "")
  | Raise _ =>
      ¬ loggable hour_name json r ∧
      ∀ path, file_content run.2 path = file_content s path
  end.
Proof.
  intros Hwf run. unfold loggable, log_path.
  assert (run = StreamingPollPersister_store hour_name json r s) as Hrun
    by done.
  clearbody run. unfold StreamingPollPersister_store in Hrun.
  unfold py_bind at 1, py_lift at 1 in Hrun.
  destruct (hour_name (timestamp r)) as [dst|e] eqn:Hhour.
  2:{ subst run. simpl. split; [done|]. split; [done|]. split; [done|].
      split; [lia|]. split; [|done]. by intros [[dst [=]] _]. }
  unfold py_bind at 1, get_state at 1 in Hrun.
  destruct (decide (sp_filename s = Some dst)) as [Hsame|Hdiff].
  - assert (sp_fd s = Some (path_join (streaming_log_dir s) dst)) as Hfd
      by (by rewrite Hwf, Hsame).
    pose proof (streaming_write_step r dst s Hsame Hfd) as Hstep.
    cbv zeta in Hstep.
    match type of Hstep with
    | streaming_wf (?t).2 ∧ _ =>
        assert (run = t) as -> by (rewrite Hrun; reflexivity)
    end.
    clear Hrun.
    match type of Hstep with
    | streaming_wf (?c ?st).2 ∧ _ => destruct (c st) as [o s1] end.
    destruct Hstep as (Hwf1 & Hdir & Hname & Hop & Hout).
    simpl in *. split; [done|]. split; [done|].
    split; [by intros name _ _|]. split; [rewrite Hop; lia|].
    destruct o as [[]|e].
    + destruct Hout as [Hjson Hfiles]. split; [|done].
      split; [by eexists|done].
    + destruct Hout as [Hjson Hfiles]. split; [|done]. by intros [_ ?].
  - set (s0 := mkStreamingPollPersister (streaming_log_dir s) (Some dst)
                 (Some (path_join (streaming_log_dir s) dst))
                 (<[path_join (streaming_log_dir s) dst :=
                      file_content s (path_join (streaming_log_dir s) dst)]>
                    (sp_files s))
                 (sp_opened s ++ [path_join (streaming_log_dir s) dst])
                 (sp_log s)).
    pose proof (streaming_write_step r dst s0 eq_refl eq_refl) as Hstep.
    cbv zeta in Hstep.
    match type of Hstep with
    | streaming_wf (?t).2 ∧ _ =>
        assert (run = t) as -> by (rewrite Hrun; reflexivity)
    end.
    clear Hrun.
    match type of Hstep with
    | streaming_wf (?c ?st).2 ∧ _ => destruct (c st) as [o s1] end.
    destruct Hstep as (Hwf1 & Hdir & Hname & Hop & Hout).
    assert (∀ path, file_content s0 path = file_content s path) as Hsame.
    { intros path. unfold file_content, s0. simpl.
      destruct (decide (path_join (streaming_log_dir s) dst = path))
        as [<-|Hne].
      - by rewrite lookup_insert_eq.
      - by rewrite lookup_insert_ne. }
    simpl in *. split; [done|]. split; [done|].
    split. { intros name Hn [= <-]. done. }
    split. { rewrite Hop, length_app. simpl. lia. }
    destruct o as [[]|e].
    + destruct Hout as [Hjson Hfiles]. split; [split; [by eexists|done]|].
      intros path. by rewrite Hfiles, Hsame.
    + destruct Hout as [Hjson Hfiles]. split; [by intros [_ ?]|].
      intros path. by rewrite Hfiles, Hsame.
Qed.

(** X21 (the streaming log).  On a persister whose open file is the file of
    [filename] (none of both at the start), [store] of a sequence of
    results works through the results until one is not loggable (its time
    stamp is out of the range of [gmtime], or [json] cannot encode it):
    the exception leaves [store], and with loggable results only the loop
    returns.  Whether it returns or raises, every file of the log
    directory then holds what it held before followed by the entries
    ([json] and two newlines) of the results of its hour that were worked
    through, in order; nothing is truncated or rewritten.  A file is
    opened at most once for a result, and not at all while the hour is
    that of the open file. *)
Theorem streaming_store_appends (rs : list (PollResult D))
    (s : StreamingPollPersister) :
  streaming_wf s →
  let run := py_for rs (StreamingPollPersister_store hour_name json) s in
  ∃ stored,
    stored `prefix_of` rs ∧ Forall (loggable hour_name json) stored ∧
    match run.1 with
    | Return _ => stored = rs
    | Raise _ =>
        ∃ r, (stored ++ [r]) `prefix_of` rs ∧ ¬ loggable hour_name json r
    end ∧
    (Forall (loggable hour_name json) rs → run.1 = Return tt) ∧
    streaming_wf run.2 ∧
    (∀ path,
       file_content run.2 path
       = file_content s path +:+
         concat_strings
           (log_entry json <$>
              filter (λ r, log_path hour_name s r = path) stored)) ∧
    (length (sp_opened run.2) ≤ length (sp_opened s) + length rs)%nat ∧
    (∀ name, sp_filename s = Some name →
             Forall (λ r, hour_name (timestamp r) = Return name) rs →
             sp_opened run.2 = sp_opened s).
Proof.
  revert s. induction rs as [|r rs IH]; intros s Hwf.
  - exists []. simpl. split; [done|]. split; [done|]. split; [done|].
    split; [done|]. split; [done|].
    split; [intros path; by rewrite string_app_empty_r|].
    split; [lia|done].
  - pose proof (streaming_store_step r s Hwf) as Hstep. cbv zeta in Hstep.
    cbv zeta. simpl. unfold py_bind.
    destruct (StreamingPollPersister_store hour_name json r s)
      as [[[]|e] s1] eqn:Hrun; simpl in Hstep.
    + destruct Hstep as (Hwf1 & Hdir & Hkeep & Hlen1 & Hlog & Hfiles).
      pose proof (IH s1 Hwf1) as IH1. cbv zeta in IH1.
      destruct IH1
        as (stored & Hpre & Hall & Hout & Hret & Hwf2 & Hfiles2 & Hlen2
            & Hkeep2).
      exists (r :: stored).
      split; [by apply prefix_cons|]. split; [by constructor|].
      split.
      { destruct (py_for rs _ s1).1; [by rewrite Hout|].
        destruct Hout as (r0 & Hpre0 & Hr0). exists r0.
        split; [|done]. simpl. by apply prefix_cons. }
      split. { intros Hrs. apply Hret. by apply Forall_cons in Hrs as [_ ?]. }
      split; [done|]. split; [|split].
      * intros path. rewrite Hfiles2, Hfiles, string_app_assoc. f_equal.
        assert (∀ r' : PollResult D,
                  log_path hour_name s1 r' = log_path hour_name s r')
          as Hpath by (intros r'; unfold log_path; by rewrite Hdir).
        rewrite filter_cons.
        rewrite (list_filter_iff
                   (λ r' : PollResult D, log_path hour_name s1 r' = path)
                   (λ r' : PollResult D, log_path hour_name s r' = path))
          by (intros r'; by rewrite Hpath).
        destruct (decide (path = log_path hour_name s r)) as [->|Hne].
        -- by rewrite decide_True by done.
        -- by rewrite decide_False by done.
      * lia.
      * intros name Hname Hrs. apply Forall_cons in Hrs as [Hr Hrs].
        rewrite <- (Hkeep name Hname Hr). apply (Hkeep2 name); [|done].
        clear -Hwf Hname Hr Hrun.
        unfold StreamingPollPersister_store, py_bind at 1, py_lift at 1
          in Hrun.
        rewrite Hr in Hrun.
        unfold py_bind at 1, get_state at 1, py_bind at 1 in Hrun.
        rewrite decide_True in Hrun by done. unfold py_ret at 1 in Hrun.
        pose proof (streaming_write_step r name s Hname) as Hstep.
        cbv zeta in Hstep. rewrite Hrun in Hstep.
        destruct Hstep as (_ & _ & Hn & _); [|done].
        rewrite Hwf, Hname. done.
    + destruct Hstep as (Hwf1 & Hdir & Hkeep & Hlen1 & Hlog & Hfiles).
      exists []. split; [apply prefix_nil|]. split; [done|].
      split. { exists r. split; [|done]. simpl. apply prefix_cons, prefix_nil. }
      split. { intros Hrs. by apply Forall_cons in Hrs as [? _]. }
      split; [done|].
      split; [intros path; simpl; by rewrite Hfiles, string_app_empty_r|].
      split; [simpl; lia|].
      intros name Hname Hrs. apply Forall_cons in Hrs as [Hr Hrs].
      by apply (Hkeep name).
Qed.
End streaming_facts.

Lemma streaming_store_appends_witness :
  let rs := [router_result "r1" 3600; router_result "r2" 3700;
             router_result "" 3800; router_result "r1" 7300] in
  let run := py_for rs
               (StreamingPollPersister_store example_hour_name example_json)
               example_streaming in
  ∃ stored,
    stored `prefix_of` rs ∧
    Forall (loggable example_hour_name example_json) stored ∧
    match run.1 with
    | Return _ => stored = rs
    | Raise _ =>
        ∃ r, (stored ++ [r]) `prefix_of` rs ∧
             ¬ loggable example_hour_name example_json r
    end ∧
    (Forall (loggable example_hour_name example_json) rs →
     run.1 = Return tt) ∧
    streaming_wf run.2 ∧
    (∀ path,
       file_content run.2 path
       = file_content example_streaming path +:+
         concat_strings
           (log_entry example_json <$>
              filter (λ r, log_path example_hour_name example_streaming r
                           = path) stored)) ∧
    (length (sp_opened run.2)
     ≤ length (sp_opened example_streaming) + length rs)%nat ∧
    (∀ name, sp_filename example_streaming = Some name →
             Forall (λ r, example_hour_name (timestamp r) = Return name) rs →
             sp_opened run.2 = sp_opened example_streaming).
Proof.
  apply (streaming_store_appends example_hour_name example_json
           [router_result "r1" 3600; router_result "r2" 3700;
            router_result "" 3800; router_result "r1" 7300]
           example_streaming).
  reflexivity.
Defined.

(** The third result of the example has a device name that the stand-in
    for [json] refuses: the first two are in the file of their hour, the
    file is left open, and the fourth result is not reached. *)
Example streaming_store_stops :
  let rs := [router_result "r1" 3600; router_result "r2" 3700;
             router_result "" 3800; router_result "r1" 7300] in
  let run := py_for rs
               (StreamingPollPersister_store example_hour_name example_json)
               example_streaming in
  run.1 = Raise ValueError ∧
  sp_opened run.2 = ["/var/log/esxsnmp/1"] ∧
  file_content run.2 "/var/log/esxsnmp/1"
  = concat_strings (log_entry example_json <$>
                      [router_result "r1" 3600; router_result "r2" 3700]) ∧
  file_content run.2 "/var/log/esxsnmp/2" = "".
Proof.
  repeat split; vm_compute; reflexivity.
Qed.

(** ** The statistics follow the queue *)

Lemma stats_key_last_read (q : string) : stats_key q "last_read" = last_read q.
Proof. reflexivity. Qed.

Lemma stats_key_last_added (q : string) :
  stats_key q "last_added" = last_added q.
Proof. reflexivity. Qed.

Lemma qs_setattr_qname (k : string) (l : list Z) (s : QueueStats) :
  qs_qname (qs_setattr k l s) = qs_qname s.
Proof. unfold qs_setattr. by destruct (decide (k = "last_read")). Qed.

Lemma qs_setattr_last_read (l : list Z) (s : QueueStats) :
  qs_setattr "last_read" l s
  = mkQueueStats (qs_qname s) l (qs_last_added s) (qs_warn s).
Proof. reflexivity. Qed.

Lemma qs_setattr_last_added (l : list Z) (s : QueueStats) :
  qs_setattr "last_added" l s
  = mkQueueStats (qs_qname s) (qs_last_read s) l (qs_warn s).
Proof. reflexivity. Qed.

Lemma update_stats_turn_counter (w : world) (k : string) (n x y : Z)
    (s : QueueStats) (err : list string) :
  mc w !! stats_key (qs_qname s) k = Some (MCInt n) →
  n ≠ 0 →
  qs_getattr s k = [x; y] →
  update_stats_turn w k (s, err) = (Continue, (qs_setattr k [n; x] s, err)).
Proof.
  intros Hk Hn Hl. unfold update_stats_turn. cbn [fst snd].
  rewrite Hk, Hl. cbn [truthy]. rewrite (proj2 (Z.eqb_neq n 0) Hn). done.
Qed.

Lemma update_stats_turn_zero (w : world) (k : string) (s : QueueStats)
    (err : list string) :
  mc w !! stats_key (qs_qname s) k = Some (MCInt 0) →
  update_stats_turn w k (s, err)
  = if qs_warn s
    then (Continue, (s, err))
    else (Break, (mkQueueStats (qs_qname s) (qs_last_read s)
                    (qs_last_added s) true,
                  err ++ [no_stats_warning (qs_qname s)])).
Proof.
  intros Hk. unfold update_stats_turn. cbn [fst snd]. rewrite Hk.
  cbn [truthy]. by destruct (qs_warn s).
Qed.

(** X22 (queue statistics).  For a queue that holds [vs] after [c] reads:
    once something has been read ([0 < c]), [update_stats] on an object
    with two entries in each list returns, prints nothing and keeps
    [warn], and [get_stats] then gives the length of the queue as pending,
    the changes of the two counters since the update before as new and
    done, and the number of values ever added as max; the pending number
    is what [__len__] of the queue answers.  The first row that [stats]
    prints also shows the length of the queue as pending; but when nothing
    has been read from the queue yet it is preceded by the warning that
    there is no such work queue, whatever the queue holds. *)
Theorem stats_follow_queue {V : Type} `{Pickle V}
    (q : string) (c : Z) (vs : list V) (w : world) :
  queue_holds q c vs w →
  0 ≤ c →
  let added := c + Z.of_nat (length vs) in
  (0 < c →
   ∀ (s : QueueStats) (err : list string) (r0 r1 a0 a1 : Z),
     qs_qname s = q →
     qs_last_read s = [r0; r1] →
     qs_last_added s = [a0; a1] →
     update_stats w (s, err)
     = (None, (mkQueueStats q [c; r0] [added; a0] (qs_warn s), err)) ∧
     get_stats (update_stats w (s, err)).2.1
     = Some (q, Z.of_nat (length vs), added - a0, c - r0, added) ∧
     MemcachedPersistQueue_len q w = (Return (Z.of_nat (length vs)), w)) ∧
  first_row w q
  = (Some (q, Z.of_nat (length vs), (if c =? 0 then added else 0), 0, added),
     if c =? 0 then [no_stats_warning q] else []).
Proof.
  intros (Hr & Ha & _) Hc added. split.
  - intros Hpos s err r0 r1 a0 a1 Hq Hlr Hla.
    assert (update_stats w (s, err)
            = (None, (mkQueueStats q [c; r0] [added; a0] (qs_warn s), err)))
      as Hrun.
    { unfold update_stats, update_stats_loop.
      rewrite (update_stats_turn_counter w "last_read" c r0 r1 s err);
        [|by rewrite Hq|lia|done].
      rewrite qs_setattr_last_read.
      rewrite (update_stats_turn_counter w "last_added" added a0 a1);
        [|by rewrite Hq|unfold added; lia|done].
      rewrite qs_setattr_last_added. cbn. by rewrite Hq. }
    split; [done|]. split.
    + rewrite Hrun. cbn. repeat f_equal. unfold added. lia.
    + unfold MemcachedPersistQueue_len, py_bind, mc_get, py_sub, py_ret.
      cbn. rewrite Ha, Hr. cbn.
      replace (c + Z.of_nat (length vs) - c) with (Z.of_nat (length vs))
        by lia.
      destruct (Z.ltb_spec (Z.of_nat (length vs)) 0); [lia|done].
  - unfold first_row.
    destruct (Z.eqb_spec c 0) as [->|Hne].
    + assert (update_stats w (QueueStats_init q, [])
              = (None, (mkQueueStats q [0; 0] [0; 0] true,
                        [no_stats_warning q]))) as ->.
      { unfold update_stats, update_stats_loop.
        by rewrite update_stats_turn_zero. }
      cbn [snd]. unfold update_stats, update_stats_loop.
      rewrite update_stats_turn_zero by done. cbn [qs_warn].
      destruct (decide (added = 0)) as [Hz|Hnz].
      * rewrite update_stats_turn_zero
          by (cbn [qs_qname]; rewrite stats_key_last_added, Ha;
              fold added; by rewrite Hz).
        cbn. repeat f_equal; unfold added in *; lia.
      * rewrite (update_stats_turn_counter w "last_added" added 0 0);
          [|done|done|done].
        rewrite qs_setattr_last_added. cbn. repeat f_equal; unfold added in *; lia.
    + assert (update_stats w (QueueStats_init q, [])
              = (None, (mkQueueStats q [c; 0] [added; 0] false, []))) as ->.
      { unfold update_stats, update_stats_loop.
        rewrite (update_stats_turn_counter w "last_read" c 0 0);
          [|done|done|done].
        rewrite qs_setattr_last_read.
        rewrite (update_stats_turn_counter w "last_added" added 0 0);
          [|done|unfold added; lia|done].
        by rewrite qs_setattr_last_added. }
      cbn [snd]. unfold update_stats, update_stats_loop.
      rewrite (update_stats_turn_counter w "last_read" c c 0);
        [|done|done|done].
      rewrite qs_setattr_last_read.
      rewrite (update_stats_turn_counter w "last_added" added added 0);
        [|done|unfold added; lia|done].
      rewrite qs_setattr_last_added. cbn. repeat f_equal; unfold added in *; lia.
Qed.

Lemma stats_follow_queue_witness :
  let w0 := (put_all (H := example_pickle) "q" ["a"; "b"]
               (MemcachedPersistQueue_init "q" empty_world).2).2 in
  let w1 := (get (H := example_pickle) "q" w0).2 in
  (update_stats w1 (QueueStats_init "q", [])
   = (None, (mkQueueStats "q" [1; 0] [2; 0] false, [])) ∧
   get_stats (update_stats w1 (QueueStats_init "q", [])).2.1
   = Some ("q", 1, 2, 1, 2) ∧
   MemcachedPersistQueue_len "q" w1 = (Return 1, w1)) ∧
  first_row w0 "q" = (Some ("q", 2, 2, 0, 2), [no_stats_warning "q"]).
Proof.
  intros w0 w1. split.
  - assert (queue_holds (H := example_pickle) "q" 1 ["b"] w1) as Hholds.
    { split; [vm_compute; reflexivity|]. split; [vm_compute; reflexivity|].
      intros [|i] x Hi; simpl in Hi; try done; injection Hi as <-;
        vm_compute; reflexivity. }
    assert (0 ≤ 1) as Hc by lia. assert (0 < 1) as Hpos by lia.
    exact (proj1 (stats_follow_queue (H := example_pickle) "q" 1 ["b"] w1
                    Hholds Hc) Hpos (QueueStats_init "q") [] 0 0 0 0
             eq_refl eq_refl eq_refl).
  - assert (queue_holds (H := example_pickle) "q" 0 ["a"; "b"] w0) as Hholds.
    { split; [vm_compute; reflexivity|]. split; [vm_compute; reflexivity|].
      intros [|[|i]] x Hi; simpl in Hi; try done; injection Hi as <-;
        vm_compute; reflexivity. }
    assert (0 ≤ 0) as Hc by lia.
    exact (proj2 (stats_follow_queue (H := example_pickle) "q" 0 ["a"; "b"]
                    w0 Hholds Hc)).
Defined.
